(** * VM_Version::initialize for AArch64 (HotSpot, jdk17u)

    A shallow embedding of [src/hotspot/cpu/aarch64/vm_version_aarch64.cpp]:
    the reconciliation of the command-line flags ("knobs") with the probed
    CPU identity and feature bits, the SVE vector-length negotiation, the
    spin-wait descriptor and the virtualization probe.

    The flag store is a record of functions from knob names to values and
    origins; warnings are appended to a log; a fatal exit
    ([guarantee], [vm_exit_during_initialization]) ends the run with the
    message and the store as it was at that point. *)

From Stdlib Require Import ZArith Bool List String Ascii Lia.
Import ListNotations.

Local Open Scope string_scope.
Local Open Scope Z_scope.

(** ** Constants declared outside the translation unit *)

(** The enumerators of [vm_version_aarch64.hpp] ([enum Family],
    [enum Ampere_CPU_Model], [enum Feature_Flag]), the constant
    [FloatRegisterImpl::sve_vl_min] of [register_aarch64.hpp] and the two
    build macros the file tests.  Their declarations are not part of this
    translation unit, so every definition below takes them as a parameter. *)
Class Platform := {
  CPU_AMCC : Z;
  CPU_AMPERE : Z;
  CPU_ARM : Z;
  CPU_BROADCOM : Z;
  CPU_CAVIUM : Z;
  CPU_HISILICON : Z;
  CPU_MODEL_EMAG : Z;
  CPU_MODEL_AMPERE_1 : Z;
  CPU_MODEL_AMPERE_1A : Z;
  CPU_MODEL_AMPERE_1B : Z;
  CPU_AES : Z;
  CPU_PMULL : Z;
  CPU_SHA1 : Z;
  CPU_SHA2 : Z;
  CPU_CRC32 : Z;
  CPU_LSE : Z;
  CPU_DCPOP : Z;
  CPU_SHA3 : Z;
  CPU_SHA512 : Z;
  CPU_SVE : Z;
  CPU_SVE2 : Z;
  CPU_STXR_PREFETCH : Z;
  CPU_A53MAC : Z;
  sve_vl_min : Z;
  COMPILER2 : bool;
  LINUX : bool
}.

(** ** The flag store *)

(** The boolean flags read or written by [VM_Version::initialize]. *)
Inductive BoolKnob : Set :=
  | AvoidUnalignedAccesses | UseSIMDForMemoryOps | UseSIMDForArrayEquals
  | UseSignumIntrinsic | UseSimpleArrayEquals
  | UseCRC32 | UseAdler32Intrinsics | UseVectorizedMismatchIntrinsic | UseLSE
  | UseAES | UseAESIntrinsics | UseAESCTRIntrinsics
  | UseCRC32Intrinsics | UseCRC32CIntrinsics | UseFMA | UseMD5Intrinsics
  | UseSHA | UseSHA1Intrinsics | UseSHA256Intrinsics | UseSHA3Intrinsics
  | UseSHA512Intrinsics
  | UseGHASHIntrinsics | UseBASE64Intrinsics | UseBlockZeroing
  | UseUnalignedAccesses | UsePopCountInstruction
  | UseMultiplyToLenIntrinsic | UseSquareToLenIntrinsic | UseMulAddIntrinsic
  | UseMontgomeryMultiplyIntrinsic | UseMontgomerySquareIntrinsic
  | OptoScheduling | AlignVector | CriticalJNINatives.

(** The integer flags ([intx], [uintx], [uint]) of the same function. *)
Inductive IntKnob : Set :=
  | AllocatePrefetchDistance | AllocatePrefetchStepSize
  | PrefetchScanIntervalInBytes | PrefetchCopyIntervalInBytes
  | SoftwarePrefetchHintDistance | ContendedPaddingWidth
  | OnSpinWaitInstCount | BlockZeroingLowLimit | UseSVE | MaxVectorSize.

Scheme Equality for BoolKnob.
Scheme Equality for IntKnob.

(** Where a flag's value comes from ([JVMFlagOrigin]): untouched, given by
    the operator, or set by an earlier ergonomics pass. *)
Inductive Origin : Set := DEFAULT | COMMAND_LINE | ERGONOMIC.

Definition is_default (o : Origin) : bool :=
  match o with DEFAULT => true | _ => false end.

Definition is_cmdline (o : Origin) : bool :=
  match o with COMMAND_LINE => true | _ => false end.

(** A printf-style message: the format text of the source and its
    arguments. *)
Inductive Arg : Set := AInt (z : Z) | AStr (t : string).

Record Msg : Set := mkMsg { fmt : string; args : list Arg }.

(** [SpinWait] of [spin_wait_aarch64.hpp]: an instruction kind and a count;
    [SpinWait{}] is [{NONE, 0}]. *)
Inductive Inst : Set := NONE | NOP | ISB | YIELD.

Record SpinWait : Set := mkSpinWait { inst : Inst; inst_count : Z }.

Definition SpinWait_default : SpinWait := mkSpinWait NONE 0.

(** The verdicts of [VirtualizationType] this file assigns. *)
Inductive VirtualizationType : Set :=
  NoDetectedVirtualization | KVM | VMWare | XenPVHVM.

(** The mutable state of the run: the flag store, the static fields
    [VM_Version] writes, the warning log and the list of files opened. *)
Record VM : Type := mkVM {
  bval : BoolKnob -> bool;
  borigin : BoolKnob -> Origin;
  ival : IntKnob -> Z;
  iorigin : IntKnob -> Origin;
  OnSpinWaitInst : string;
  OnSpinWaitInst_origin : Origin;
  _features : Z;
  _data_cache_line_flush_size : Z;
  _initial_sve_vector_length : Z;
  _spin_wait : SpinWait;
  _detected_virtualization : VirtualizationType;
  _supports_atomics : bool;
  warnings : list Msg;
  opened : list string
}.

(** What the collaborators report: the identity and sizes filled in by
    [get_os_cpu_info] (read-only afterwards), the OS services and the two
    vector-length calls.  [fopen_lines p] is [None] when [os::fopen] fails
    and otherwise the successive buffers [fgets] returns for the file
    (each at most 499 characters, by the size of [line]). *)
Record Env : Type := mkEnv {
  _cpu : Z;
  _model : Z;
  _model2 : Z;
  _variant : Z;
  _revision : Z;
  probed_features : Z;
  _zva_length : Z;
  _dcache_line_size : Z;
  is_zva_enabled : bool;
  supports_map_sync : bool;
  get_current_sve_vector_length : Z;
  set_and_get_current_sve_vector_length : Z -> Z;
  fopen_lines : string -> option (list string)
}.

(** A run either goes on with a value or exits the VM. *)
Inductive Result (A : Type) : Type :=
  | Ok (a : A)
  | Fatal (m : Msg) (at_exit : VM).

Arguments Ok {A} a.
Arguments Fatal {A} m at_exit.

Definition bind {A B : Type} (r : Result A) (k : A -> Result B) : Result B :=
  match r with
  | Ok a => k a
  | Fatal m s => Fatal m s
  end.

Notation "x <- r ;; k" := (bind r (fun x => k))
  (at level 61, r at next level, right associativity).

(** *** Field updates *)

Definition assign (k : BoolKnob) (v : bool) (s : VM) : VM :=
  mkVM (fun k' => if BoolKnob_beq k' k then v else bval s k') (borigin s)
       (ival s) (iorigin s) (OnSpinWaitInst s) (OnSpinWaitInst_origin s)
       (_features s) (_data_cache_line_flush_size s)
       (_initial_sve_vector_length s) (_spin_wait s)
       (_detected_virtualization s) (_supports_atomics s)
       (warnings s) (opened s).

Definition assign_i (k : IntKnob) (v : Z) (s : VM) : VM :=
  mkVM (bval s) (borigin s)
       (fun k' => if IntKnob_beq k' k then v else ival s k') (iorigin s)
       (OnSpinWaitInst s) (OnSpinWaitInst_origin s)
       (_features s) (_data_cache_line_flush_size s)
       (_initial_sve_vector_length s) (_spin_wait s)
       (_detected_virtualization s) (_supports_atomics s)
       (warnings s) (opened s).

Definition assign_OnSpinWaitInst (v : string) (s : VM) : VM :=
  mkVM (bval s) (borigin s) (ival s) (iorigin s)
       v (OnSpinWaitInst_origin s)
       (_features s) (_data_cache_line_flush_size s)
       (_initial_sve_vector_length s) (_spin_wait s)
       (_detected_virtualization s) (_supports_atomics s)
       (warnings s) (opened s).

Definition set_features (v : Z) (s : VM) : VM :=
  mkVM (bval s) (borigin s) (ival s) (iorigin s)
       (OnSpinWaitInst s) (OnSpinWaitInst_origin s)
       v (_data_cache_line_flush_size s)
       (_initial_sve_vector_length s) (_spin_wait s)
       (_detected_virtualization s) (_supports_atomics s)
       (warnings s) (opened s).

Definition set_data_cache_line_flush_size (v : Z) (s : VM) : VM :=
  mkVM (bval s) (borigin s) (ival s) (iorigin s)
       (OnSpinWaitInst s) (OnSpinWaitInst_origin s)
       (_features s) v
       (_initial_sve_vector_length s) (_spin_wait s)
       (_detected_virtualization s) (_supports_atomics s)
       (warnings s) (opened s).

Definition set_initial_sve_vector_length (v : Z) (s : VM) : VM :=
  mkVM (bval s) (borigin s) (ival s) (iorigin s)
       (OnSpinWaitInst s) (OnSpinWaitInst_origin s)
       (_features s) (_data_cache_line_flush_size s)
       v (_spin_wait s)
       (_detected_virtualization s) (_supports_atomics s)
       (warnings s) (opened s).

Definition set_spin_wait (v : SpinWait) (s : VM) : VM :=
  mkVM (bval s) (borigin s) (ival s) (iorigin s)
       (OnSpinWaitInst s) (OnSpinWaitInst_origin s)
       (_features s) (_data_cache_line_flush_size s)
       (_initial_sve_vector_length s) v
       (_detected_virtualization s) (_supports_atomics s)
       (warnings s) (opened s).

Definition set_detected_virtualization (v : VirtualizationType) (s : VM) : VM :=
  mkVM (bval s) (borigin s) (ival s) (iorigin s)
       (OnSpinWaitInst s) (OnSpinWaitInst_origin s)
       (_features s) (_data_cache_line_flush_size s)
       (_initial_sve_vector_length s) (_spin_wait s)
       v (_supports_atomics s)
       (warnings s) (opened s).

Definition set_supports_atomics (v : bool) (s : VM) : VM :=
  mkVM (bval s) (borigin s) (ival s) (iorigin s)
       (OnSpinWaitInst s) (OnSpinWaitInst_origin s)
       (_features s) (_data_cache_line_flush_size s)
       (_initial_sve_vector_length s) (_spin_wait s)
       (_detected_virtualization s) v
       (warnings s) (opened s).

(** [warning(...)]: the advisory sink; the message is appended to the log. *)
Definition warning (m : Msg) (s : VM) : VM :=
  mkVM (bval s) (borigin s) (ival s) (iorigin s)
       (OnSpinWaitInst s) (OnSpinWaitInst_origin s)
       (_features s) (_data_cache_line_flush_size s)
       (_initial_sve_vector_length s) (_spin_wait s)
       (_detected_virtualization s) (_supports_atomics s)
       (warnings s ++ [m]) (opened s).

(** [os::fopen(path, "r")]: the path is appended to the list of opens. *)
Definition note_fopen (path : string) (s : VM) : VM :=
  mkVM (bval s) (borigin s) (ival s) (iorigin s)
       (OnSpinWaitInst s) (OnSpinWaitInst_origin s)
       (_features s) (_data_cache_line_flush_size s)
       (_initial_sve_vector_length s) (_spin_wait s)
       (_detected_virtualization s) (_supports_atomics s)
       (warnings s) (opened s ++ [path]).

(** *** The flag macros *)

(** Modelled from the spec: the macros [FLAG_IS_DEFAULT] and
    [FLAG_SET_DEFAULT] of [runtime/globals_extension.hpp], which is not
    part of this translation unit.  They are the flag store's "is this knob
    still at its unset default?" and "set this knob's value": the first
    tests the origin of the flag, the second stores the value.  The origin
    is left as it is, so a flag the engine has defaulted may be revised by
    a later rule; no statement of [initialize] tests the origin of a flag
    after a [FLAG_SET_DEFAULT] on it that was not itself guarded by
    [FLAG_IS_DEFAULT], so nothing below depends on what the store records
    for a flag that was overruled. *)
Definition FLAG_IS_DEFAULT (k : BoolKnob) (s : VM) : bool :=
  is_default (borigin s k).

Definition FLAG_IS_CMDLINE (k : BoolKnob) (s : VM) : bool :=
  is_cmdline (borigin s k).

Definition FLAG_SET_DEFAULT (k : BoolKnob) (v : bool) (s : VM) : VM :=
  assign k v s.

Definition FLAG_IS_DEFAULT_i (k : IntKnob) (s : VM) : bool :=
  is_default (iorigin s k).

Definition FLAG_SET_DEFAULT_i (k : IntKnob) (v : Z) (s : VM) : VM :=
  assign_i k v s.

Definition FLAG_IS_DEFAULT_OnSpinWaitInst (s : VM) : bool :=
  is_default (OnSpinWaitInst_origin s).

Definition FLAG_SET_DEFAULT_OnSpinWaitInst (v : string) (s : VM) : VM :=
  assign_OnSpinWaitInst v s.

(** *** Small helpers of the runtime *)

(** Modelled from the spec: [is_power_of_2] of [utilities/powerOfTwo.hpp],
    which is not part of this translation unit, tests that a value is a
    power of two.  The test is written the way HotSpot writes it,
    [x > 0 && (x & (x - 1)) == 0]; [is_power_of_2_spec] below shows that it
    holds of the powers of two and of nothing else. *)
Definition is_power_of_2 (x : Z) : bool :=
  (0 <? x) && (Z.land x (x - 1) =? 0).

(** [MIN2] of [globalDefinitions.hpp]. *)
Definition MIN2 (a b : Z) : Z := if a <? b then a else b.

(** The C truth value of an integer expression. *)
Definition nonzero (x : Z) : bool := negb (x =? 0).

(** [_features & mask]. *)
Definition has_feature (mask : Z) (s : VM) : bool :=
  nonzero (Z.land (_features s) mask).

(** [VM_Version::model_is(m)]: [_model == m || _model2 == m], as lines 201
    and 209 spell it out. *)
Definition model_is (e : Env) (m : Z) : bool :=
  (_model e =? m) || (_model2 e =? m).

(** ** VM_Version::initialize, block by block

    Each definition below is one run of statements of
    [VM_Version::initialize], in source order; the line numbers are those of
    [vm_version_aarch64.cpp]. *)

Section Initialize.

Context {P : Platform}.

(** Lines 71-77: the five [_supports_*] fields (one field here, they are
    all set to [true]) and [get_os_cpu_info], which publishes the probed
    feature bits. *)
Definition init_probe (e : Env) (s : VM) : VM :=
  let s := set_supports_atomics true s in
  set_features (probed_features e) s.

(** Lines 83-93: prefetch knobs left at default follow the cache line. *)
Definition init_prefetch_defaults (e : Env) (s : VM) : VM :=
  let dcache_line := _dcache_line_size e in
  let s := if FLAG_IS_DEFAULT_i AllocatePrefetchDistance s
           then FLAG_SET_DEFAULT_i AllocatePrefetchDistance (MIN2 512 (3 * dcache_line)) s
           else s in
  let s := if FLAG_IS_DEFAULT_i AllocatePrefetchStepSize s
           then FLAG_SET_DEFAULT_i AllocatePrefetchStepSize dcache_line s
           else s in
  let s := if FLAG_IS_DEFAULT_i PrefetchScanIntervalInBytes s
           then FLAG_SET_DEFAULT_i PrefetchScanIntervalInBytes (3 * dcache_line) s
           else s in
  let s := if FLAG_IS_DEFAULT_i PrefetchCopyIntervalInBytes s
           then FLAG_SET_DEFAULT_i PrefetchCopyIntervalInBytes (3 * dcache_line) s
           else s in
  if FLAG_IS_DEFAULT_i SoftwarePrefetchHintDistance s
  then FLAG_SET_DEFAULT_i SoftwarePrefetchHintDistance (3 * dcache_line) s
  else s.

(** Lines 95-101. *)
Definition init_prefetch_copy_interval (s : VM) : VM :=
  let v := ival s PrefetchCopyIntervalInBytes in
  if negb (v =? -1) && (nonzero (Z.land v 7) || (32768 <=? v)) then
    let s := warning (mkMsg "PrefetchCopyIntervalInBytes must be -1, or a multiple of 8 and < 32768" []) s in
    let s := assign_i PrefetchCopyIntervalInBytes (Z.land v (Z.lnot 7)) s in
    if 32768 <=? ival s PrefetchCopyIntervalInBytes
    then assign_i PrefetchCopyIntervalInBytes 32760 s
    else s
  else s.

(** Lines 103-117. *)
Definition init_prefetch_alignment (s : VM) : VM :=
  let s := if negb (ival s AllocatePrefetchDistance =? -1)
              && nonzero (Z.land (ival s AllocatePrefetchDistance) 7)
           then assign_i AllocatePrefetchDistance
                  (Z.land (ival s AllocatePrefetchDistance) (Z.lnot 7))
                  (warning (mkMsg "AllocatePrefetchDistance must be multiple of 8" []) s)
           else s in
  let s := if nonzero (Z.land (ival s AllocatePrefetchStepSize) 7)
           then assign_i AllocatePrefetchStepSize
                  (Z.land (ival s AllocatePrefetchStepSize) (Z.lnot 7))
                  (warning (mkMsg "AllocatePrefetchStepSize must be multiple of 8" []) s)
           else s in
  if negb (ival s SoftwarePrefetchHintDistance =? -1)
     && nonzero (Z.land (ival s SoftwarePrefetchHintDistance) 7)
  then assign_i SoftwarePrefetchHintDistance
         (Z.land (ival s SoftwarePrefetchHintDistance) (Z.lnot 7))
         (warning (mkMsg "SoftwarePrefetchHintDistance must be -1, or a multiple of 8" []) s)
  else s.

(** Lines 119-130. *)
Definition init_padding_and_flush (e : Env) (s : VM) : VM :=
  let dcache_line := _dcache_line_size e in
  let s := if FLAG_IS_DEFAULT_i ContendedPaddingWidth s
              && (ival s ContendedPaddingWidth <? dcache_line)
           then assign_i ContendedPaddingWidth dcache_line s
           else s in
  if supports_map_sync e then
    if has_feature CPU_DCPOP s
    then set_data_cache_line_flush_size dcache_line s
    else s
  else s.

(** *** Vendor specific features *)

(** Lines 135-145, Ampere eMAG. *)
Definition rule_emag (e : Env) (s : VM) : VM :=
  if (_cpu e =? CPU_AMCC) && (_model e =? CPU_MODEL_EMAG) && (_variant e =? 3) then
    let s := if FLAG_IS_DEFAULT AvoidUnalignedAccesses s
             then FLAG_SET_DEFAULT AvoidUnalignedAccesses true s else s in
    let s := if FLAG_IS_DEFAULT UseSIMDForMemoryOps s
             then FLAG_SET_DEFAULT UseSIMDForMemoryOps true s else s in
    if FLAG_IS_DEFAULT UseSIMDForArrayEquals s
    then FLAG_SET_DEFAULT UseSIMDForArrayEquals
           (negb ((_revision e =? 1) || (_revision e =? 2))) s
    else s
  else s.

(** Lines 148-163, Ampere CPUs. *)
Definition rule_ampere (e : Env) (s : VM) : VM :=
  if (_cpu e =? CPU_AMPERE)
     && ((_model e =? CPU_MODEL_AMPERE_1) || (_model e =? CPU_MODEL_AMPERE_1A)
         || (_model e =? CPU_MODEL_AMPERE_1B)) then
    let s := if FLAG_IS_DEFAULT UseSIMDForMemoryOps s
             then FLAG_SET_DEFAULT UseSIMDForMemoryOps true s else s in
    let s := if FLAG_IS_DEFAULT_OnSpinWaitInst s
             then FLAG_SET_DEFAULT_OnSpinWaitInst "isb" s else s in
    let s := if FLAG_IS_DEFAULT_i OnSpinWaitInstCount s
             then FLAG_SET_DEFAULT_i OnSpinWaitInstCount 2 s else s in
    if FLAG_IS_DEFAULT UseSignumIntrinsic s
    then FLAG_SET_DEFAULT UseSignumIntrinsic true s else s
  else s.

Definition prerelease_msg : Msg :=
  mkMsg "Pre-release hardware no longer supported." [].

(** Lines 166-177, ThunderX.  [guarantee] is checked in every build and
    exits the VM when its condition is false. *)
Definition rule_thunderx (e : Env) (s : VM) : Result VM :=
  if (_cpu e =? CPU_CAVIUM) && (_model e =? 0xA1) then
    if negb (_variant e =? 0) then
      let s := if FLAG_IS_DEFAULT AvoidUnalignedAccesses s
               then FLAG_SET_DEFAULT AvoidUnalignedAccesses true s else s in
      let s := if FLAG_IS_DEFAULT UseSIMDForMemoryOps s
               then FLAG_SET_DEFAULT UseSIMDForMemoryOps (0 <? _variant e) s else s in
      Ok (if FLAG_IS_DEFAULT UseSIMDForArrayEquals s
          then FLAG_SET_DEFAULT UseSIMDForArrayEquals false s else s)
    else Fatal prerelease_msg s
  else Ok s.

(** Lines 180-188, ThunderX2. *)
Definition rule_thunderx2 (e : Env) (s : VM) : VM :=
  if ((_cpu e =? CPU_CAVIUM) && (_model e =? 0xAF))
     || ((_cpu e =? CPU_BROADCOM) && (_model e =? 0x516)) then
    let s := if FLAG_IS_DEFAULT AvoidUnalignedAccesses s
             then FLAG_SET_DEFAULT AvoidUnalignedAccesses true s else s in
    if FLAG_IS_DEFAULT UseSIMDForMemoryOps s
    then FLAG_SET_DEFAULT UseSIMDForMemoryOps true s else s
  else s.

(** Lines 191-198, HiSilicon TSV110. *)
Definition rule_tsv110 (e : Env) (s : VM) : VM :=
  if (_cpu e =? CPU_HISILICON) && (_model e =? 0xd01) then
    let s := if FLAG_IS_DEFAULT AvoidUnalignedAccesses s
             then FLAG_SET_DEFAULT AvoidUnalignedAccesses true s else s in
    if FLAG_IS_DEFAULT UseSIMDForMemoryOps s
    then FLAG_SET_DEFAULT UseSIMDForMemoryOps true s else s
  else s.

(** Lines 201-206, Cortex A53. *)
Definition rule_cortex_a53 (e : Env) (s : VM) : VM :=
  if (_cpu e =? CPU_ARM) && ((_model e =? 0xd03) || (_model2 e =? 0xd03)) then
    let s := set_features (Z.lor (_features s) CPU_A53MAC) s in
    if FLAG_IS_DEFAULT UseSIMDForArrayEquals s
    then FLAG_SET_DEFAULT UseSIMDForArrayEquals false s else s
  else s.

(** Lines 209-217, Cortex A73. *)
Definition rule_cortex_a73 (e : Env) (s : VM) : VM :=
  if (_cpu e =? CPU_ARM) && ((_model e =? 0xd09) || (_model2 e =? 0xd09)) then
    let s := if FLAG_IS_DEFAULT_i SoftwarePrefetchHintDistance s
             then FLAG_SET_DEFAULT_i SoftwarePrefetchHintDistance (-1) s else s in
    if FLAG_IS_DEFAULT UseSimpleArrayEquals s
    then FLAG_SET_DEFAULT UseSimpleArrayEquals true s else s
  else s.

(** Lines 220-233, Neoverse N1, N2, V1, V2. *)
Definition rule_neoverse (e : Env) (s : VM) : VM :=
  if (_cpu e =? CPU_ARM)
     && (model_is e 0xd0c || model_is e 0xd49 || model_is e 0xd40 || model_is e 0xd4f) then
    let s := if FLAG_IS_DEFAULT UseSIMDForMemoryOps s
             then FLAG_SET_DEFAULT UseSIMDForMemoryOps true s else s in
    let s := if FLAG_IS_DEFAULT_OnSpinWaitInst s
             then FLAG_SET_DEFAULT_OnSpinWaitInst "isb" s else s in
    if FLAG_IS_DEFAULT_i OnSpinWaitInstCount s
    then FLAG_SET_DEFAULT_i OnSpinWaitInstCount 1 s else s
  else s.

(** Lines 235-241: every ARM core, and the STXR prefetch bit of the
    Cortex A57. *)
Definition rule_arm (e : Env) (s : VM) : VM :=
  let s := if _cpu e =? CPU_ARM then
             if FLAG_IS_DEFAULT UseSignumIntrinsic s
             then FLAG_SET_DEFAULT UseSignumIntrinsic true s else s
           else s in
  if (_cpu e =? CPU_ARM) && ((_model e =? 0xd07) || (_model2 e =? 0xd07))
  then set_features (Z.lor (_features s) CPU_STXR_PREFETCH) s
  else s.

(** *** Feature-dependent flags *)

(** Lines 252-268: CRC32, Adler32 and the vectorized mismatch intrinsic. *)
Definition init_crc32 (s : VM) : VM :=
  let s := if FLAG_IS_DEFAULT UseCRC32 s
           then assign UseCRC32 (has_feature CPU_CRC32 s) s else s in
  let s := if bval s UseCRC32 && negb (has_feature CPU_CRC32 s)
           then FLAG_SET_DEFAULT UseCRC32 false
                  (warning (mkMsg "UseCRC32 specified, but not supported on this CPU" []) s)
           else s in
  let s := if FLAG_IS_DEFAULT UseAdler32Intrinsics s
           then FLAG_SET_DEFAULT UseAdler32Intrinsics true s else s in
  if bval s UseVectorizedMismatchIntrinsic
  then FLAG_SET_DEFAULT UseVectorizedMismatchIntrinsic false
         (warning (mkMsg "UseVectorizedMismatchIntrinsic specified, but not available on this CPU." []) s)
  else s.

(** Lines 270-278. *)
Definition init_lse (s : VM) : VM :=
  if has_feature CPU_LSE s then
    if FLAG_IS_DEFAULT UseLSE s then FLAG_SET_DEFAULT UseLSE true s else s
  else
    if bval s UseLSE
    then FLAG_SET_DEFAULT UseLSE false
           (warning (mkMsg "UseLSE specified, but not supported on this CPU" []) s)
    else s.

Definition aes_enabling_msg : Msg :=
  mkMsg "UseAESIntrinsics enabled, but UseAES not, enabling" [].

Definition aes_unavailable_msg : Msg :=
  mkMsg "AES instructions are not available on this CPU" [].

Definition aes_intrinsics_unavailable_msg : Msg :=
  mkMsg "AES intrinsics are not available on this CPU" [].

Definition aesctr_intrinsics_unavailable_msg : Msg :=
  mkMsg "AES/CTR intrinsics are not available on this CPU" [].

(** Lines 280-304: the AES family. *)
Definition init_aes (s : VM) : VM :=
  if has_feature CPU_AES s then
    let s := assign UseAES (bval s UseAES || FLAG_IS_DEFAULT UseAES s) s in
    let s := assign UseAESIntrinsics
               (bval s UseAESIntrinsics
                || (bval s UseAES && FLAG_IS_DEFAULT UseAESIntrinsics s)) s in
    let s := if bval s UseAESIntrinsics && negb (bval s UseAES)
             then assign UseAES true (warning aes_enabling_msg s)
             else s in
    if FLAG_IS_DEFAULT UseAESCTRIntrinsics s
    then FLAG_SET_DEFAULT UseAESCTRIntrinsics true s else s
  else
    let s := if bval s UseAES
             then FLAG_SET_DEFAULT UseAES false (warning aes_unavailable_msg s)
             else s in
    let s := if bval s UseAESIntrinsics
             then FLAG_SET_DEFAULT UseAESIntrinsics false
                    (warning aes_intrinsics_unavailable_msg s)
             else s in
    if bval s UseAESCTRIntrinsics
    then FLAG_SET_DEFAULT UseAESCTRIntrinsics false
           (warning aesctr_intrinsics_unavailable_msg s)
    else s.

(** Lines 306-325: CRC32 intrinsics, FMA and MD5. *)
Definition init_crc32_intrinsics (s : VM) : VM :=
  let s := if FLAG_IS_DEFAULT UseCRC32Intrinsics s
           then assign UseCRC32Intrinsics true s else s in
  let s := if has_feature CPU_CRC32 s then
             if FLAG_IS_DEFAULT UseCRC32CIntrinsics s
             then FLAG_SET_DEFAULT UseCRC32CIntrinsics true s else s
           else if bval s UseCRC32CIntrinsics
           then FLAG_SET_DEFAULT UseCRC32CIntrinsics false
                  (warning (mkMsg "CRC32C is not available on the CPU" []) s)
           else s in
  let s := if FLAG_IS_DEFAULT UseFMA s
           then FLAG_SET_DEFAULT UseFMA true s else s in
  if FLAG_IS_DEFAULT UseMD5Intrinsics s
  then assign UseMD5Intrinsics true s else s.

(** Lines 327-334: the SHA master switch. *)
Definition init_sha (s : VM) : VM :=
  if has_feature (Z.lor (Z.lor (Z.lor CPU_SHA1 CPU_SHA2) CPU_SHA3) CPU_SHA512) s then
    if FLAG_IS_DEFAULT UseSHA s then FLAG_SET_DEFAULT UseSHA true s else s
  else if bval s UseSHA
  then FLAG_SET_DEFAULT UseSHA false
         (warning (mkMsg "SHA instructions are not available on this CPU" []) s)
  else s.

(** Lines 336-352: SHA-1 and SHA-256 intrinsics. *)
Definition init_sha1_sha256 (s : VM) : VM :=
  let s := if bval s UseSHA && has_feature CPU_SHA1 s then
             if FLAG_IS_DEFAULT UseSHA1Intrinsics s
             then FLAG_SET_DEFAULT UseSHA1Intrinsics true s else s
           else if bval s UseSHA1Intrinsics
           then FLAG_SET_DEFAULT UseSHA1Intrinsics false
                  (warning (mkMsg "Intrinsics for SHA-1 crypto hash functions not available on this CPU." []) s)
           else s in
  if bval s UseSHA && has_feature CPU_SHA2 s then
    if FLAG_IS_DEFAULT UseSHA256Intrinsics s
    then FLAG_SET_DEFAULT UseSHA256Intrinsics true s else s
  else if bval s UseSHA256Intrinsics
  then FLAG_SET_DEFAULT UseSHA256Intrinsics false
         (warning (mkMsg "Intrinsics for SHA-224 and SHA-256 crypto hash functions not available on this CPU." []) s)
  else s.

(** Lines 354-372: SHA-3 and SHA-512 intrinsics; the automatic enabling is
    commented out in the source, so the supported branch is empty. *)
Definition init_sha3_sha512 (s : VM) : VM :=
  let s := if bval s UseSHA && has_feature CPU_SHA3 s then s
           else if bval s UseSHA3Intrinsics
           then FLAG_SET_DEFAULT UseSHA3Intrinsics false
                  (warning (mkMsg "Intrinsics for SHA3-224, SHA3-256, SHA3-384 and SHA3-512 crypto hash functions not available on this CPU." []) s)
           else s in
  if bval s UseSHA && has_feature CPU_SHA512 s then s
  else if bval s UseSHA512Intrinsics
  then FLAG_SET_DEFAULT UseSHA512Intrinsics false
         (warning (mkMsg "Intrinsics for SHA-384 and SHA-512 crypto hash functions not available on this CPU." []) s)
  else s.

(** Lines 374-376: no SHA intrinsic left, no SHA. *)
Definition init_sha_reset (s : VM) : VM :=
  if negb (bval s UseSHA1Intrinsics || bval s UseSHA256Intrinsics
           || bval s UseSHA3Intrinsics || bval s UseSHA512Intrinsics)
  then FLAG_SET_DEFAULT UseSHA false s
  else s.

(** Lines 378-389: GHASH and BASE64. *)
Definition init_ghash_base64 (s : VM) : VM :=
  let s := if has_feature CPU_PMULL s then
             if FLAG_IS_DEFAULT UseGHASHIntrinsics s
             then FLAG_SET_DEFAULT UseGHASHIntrinsics true s else s
           else if bval s UseGHASHIntrinsics
           then FLAG_SET_DEFAULT UseGHASHIntrinsics false
                  (warning (mkMsg "GHASH intrinsics are not available on this CPU" []) s)
           else s in
  if FLAG_IS_DEFAULT UseBASE64Intrinsics s
  then assign UseBASE64Intrinsics true s else s.

(** Lines 391-401: block zeroing. *)
Definition init_block_zeroing (e : Env) (s : VM) : VM :=
  if is_zva_enabled e then
    let s := if FLAG_IS_DEFAULT UseBlockZeroing s
             then FLAG_SET_DEFAULT UseBlockZeroing true s else s in
    if FLAG_IS_DEFAULT_i BlockZeroingLowLimit s
    then FLAG_SET_DEFAULT_i BlockZeroingLowLimit (4 * _zva_length e) s else s
  else if bval s UseBlockZeroing
  then FLAG_SET_DEFAULT UseBlockZeroing false
         (warning (mkMsg "DC ZVA is not available on this CPU" []) s)
  else s.

(** *** SVE *)

(** Lines 403-410: the SVE tier. *)
Definition init_sve_tier (s : VM) : VM :=
  if has_feature CPU_SVE s then
    if FLAG_IS_DEFAULT_i UseSVE s
    then FLAG_SET_DEFAULT_i UseSVE (if has_feature CPU_SVE2 s then 2 else 1) s
    else s
  else if 0 <? ival s UseSVE
  then FLAG_SET_DEFAULT_i UseSVE 0
         (warning (mkMsg "UseSVE specified, but not supported on current CPU. Disabling SVE." []) s)
  else s.

(** Lines 412-426: the detected vector length is validated before it is
    recorded.  [%] is C's remainder. *)
Definition init_sve_length (e : Env) (s : VM) : VM :=
  if 0 <? ival s UseSVE then
    let vl := get_current_sve_vector_length e in
    if vl <? 0 then
      FLAG_SET_DEFAULT_i UseSVE 0
        (warning (mkMsg "Unable to get SVE vector length on this system. Disabling SVE. Specify -XX:UseSVE=0 to shun this warning." []) s)
    else if (vl =? 0) || nonzero (Z.rem vl sve_vl_min) || negb (is_power_of_2 vl) then
      FLAG_SET_DEFAULT_i UseSVE 0
        (warning (mkMsg "Detected SVE vector length (%d) should be a power of two and a multiple of %d. Disabling SVE. Specify -XX:UseSVE=0 to shun this warning."
                        [AInt vl; AInt sve_vl_min]) s)
    else set_initial_sve_vector_length vl s
  else s.

Definition popcount_msg : Msg :=
  mkMsg "UsePopCountInstruction is always enabled on this CPU" [].

(** Lines 429-440: unaligned accesses and the population count. *)
Definition init_unaligned_popcount (s : VM) : VM :=
  let s := if FLAG_IS_DEFAULT UseUnalignedAccesses s
           then FLAG_SET_DEFAULT UseUnalignedAccesses true s else s in
  let s := if FLAG_IS_DEFAULT UsePopCountInstruction s
           then FLAG_SET_DEFAULT UsePopCountInstruction true s else s in
  if negb (bval s UsePopCountInstruction)
  then assign UsePopCountInstruction true (warning popcount_msg s)
  else s.

(** *** The COMPILER2 part *)

(** Lines 443-460. *)
Definition init_c2_intrinsics (s : VM) : VM :=
  let s := if FLAG_IS_DEFAULT UseMultiplyToLenIntrinsic s
           then assign UseMultiplyToLenIntrinsic true s else s in
  let s := if FLAG_IS_DEFAULT UseSquareToLenIntrinsic s
           then assign UseSquareToLenIntrinsic true s else s in
  let s := if FLAG_IS_DEFAULT UseMulAddIntrinsic s
           then assign UseMulAddIntrinsic true s else s in
  let s := if FLAG_IS_DEFAULT UseMontgomeryMultiplyIntrinsic s
           then assign UseMontgomeryMultiplyIntrinsic true s else s in
  if FLAG_IS_DEFAULT UseMontgomerySquareIntrinsic s
  then assign UseMontgomerySquareIntrinsic true s else s.

Definition sve_too_short_msg : Msg :=
  mkMsg "SVE does not support vector length less than 16 bytes. Disabling SVE." [].

Definition sve_unsupported_length_msg (v : Z) : Msg :=
  mkMsg "Current system does not support SVE vector length for MaxVectorSize: %d" [AInt v].

Definition sve_granted_msg (new_vl : Z) : Msg :=
  mkMsg "Current system only supports max SVE vector length %d. Set MaxVectorSize to %d"
        [AInt new_vl; AInt new_vl].

Definition unsupported_max_vector_size_msg (v : Z) : Msg :=
  mkMsg "Unsupported MaxVectorSize: %d" [AInt v].

(** Lines 462-484: [MaxVectorSize] under SVE. *)
Definition init_sve_max_vector_size (e : Env) (s : VM) : Result VM :=
  if 0 <? ival s UseSVE then
    if FLAG_IS_DEFAULT_i MaxVectorSize s then
      Ok (assign_i MaxVectorSize (_initial_sve_vector_length s) s)
    else if ival s MaxVectorSize <? 16 then
      Ok (assign_i UseSVE 0 (warning sve_too_short_msg s))
    else if (Z.rem (ival s MaxVectorSize) 16 =? 0) && is_power_of_2 (ival s MaxVectorSize) then
      let new_vl := set_and_get_current_sve_vector_length e (ival s MaxVectorSize) in
      let s := set_initial_sve_vector_length new_vl s in
      if new_vl <? 0 then
        Fatal (sve_unsupported_length_msg (ival s MaxVectorSize)) s
      else
        let s := if negb (new_vl =? ival s MaxVectorSize)
                 then warning (sve_granted_msg new_vl) s else s in
        Ok (assign_i MaxVectorSize new_vl s)
    else Fatal (unsupported_max_vector_size_msg (ival s MaxVectorSize)) s
  else Ok s.

Definition neon_min_msg (min_vector_size : Z) : Msg :=
  mkMsg "MaxVectorSize must be at least %i on this platform" [AInt min_vector_size].

Definition neon_max_msg (max_vector_size : Z) : Msg :=
  mkMsg "MaxVectorSize must be at most %i on this platform" [AInt max_vector_size].

(** Lines 486-502: [MaxVectorSize] under NEON. *)
Definition init_neon_max_vector_size (s : VM) : Result VM :=
  if ival s UseSVE =? 0 then
    let min_vector_size := 8 in
    let max_vector_size := 16 in
    if negb (FLAG_IS_DEFAULT_i MaxVectorSize s) then
      if negb (is_power_of_2 (ival s MaxVectorSize)) then
        Fatal (unsupported_max_vector_size_msg (ival s MaxVectorSize)) s
      else if ival s MaxVectorSize <? min_vector_size then
        Ok (FLAG_SET_DEFAULT_i MaxVectorSize min_vector_size
              (warning (neon_min_msg min_vector_size) s))
      else if max_vector_size <? ival s MaxVectorSize then
        Ok (FLAG_SET_DEFAULT_i MaxVectorSize max_vector_size
              (warning (neon_max_msg max_vector_size) s))
      else Ok s
    else Ok (FLAG_SET_DEFAULT_i MaxVectorSize 16 s)
  else Ok s.

(** Lines 504-510. *)
Definition init_c2_scheduling (s : VM) : VM :=
  let s := if FLAG_IS_DEFAULT OptoScheduling s
           then assign OptoScheduling true s else s in
  if FLAG_IS_DEFAULT AlignVector s
  then assign AlignVector (bval s AvoidUnalignedAccesses) s else s.

(** Lines 442-511, compiled only under [COMPILER2]. *)
Definition init_compiler2 (e : Env) (s : VM) : Result VM :=
  if COMPILER2 then
    let s := init_c2_intrinsics s in
    s <- init_sve_max_vector_size e s ;;
    s <- init_neon_max_vector_size s ;;
    Ok (init_c2_scheduling s)
  else Ok s.

(** *** The spin-wait descriptor *)

Definition spin_wait_options_msg (given : string) : Msg :=
  mkMsg "The options for OnSpinWaitInst are nop, isb, yield, and none" [AStr given].

Definition spin_wait_count_msg : Msg :=
  mkMsg "OnSpinWaitInstCount cannot be used for OnSpinWaitInst 'none'" [].

(** Lines 52-68, [get_spin_wait_desc].  [vm_exit_during_initialization]
    does not return. *)
Definition get_spin_wait_desc (s : VM) : Result SpinWait :=
  if String.eqb (OnSpinWaitInst s) "nop" then
    Ok (mkSpinWait NOP (ival s OnSpinWaitInstCount))
  else if String.eqb (OnSpinWaitInst s) "isb" then
    Ok (mkSpinWait ISB (ival s OnSpinWaitInstCount))
  else if String.eqb (OnSpinWaitInst s) "yield" then
    Ok (mkSpinWait YIELD (ival s OnSpinWaitInstCount))
  else if negb (String.eqb (OnSpinWaitInst s) "none") then
    Fatal (spin_wait_options_msg (OnSpinWaitInst s)) s
  else if negb (FLAG_IS_DEFAULT_i OnSpinWaitInstCount s)
          && (0 <? ival s OnSpinWaitInstCount) then
    Fatal spin_wait_count_msg s
  else Ok SpinWait_default.

(** *** The virtualization probe *)

(** The C library's [tolower] in the "C" locale. *)
Definition tolower (c : ascii) : ascii :=
  let n := nat_of_ascii c in
  if (Nat.leb 65 n && Nat.leb n 90)%bool then ascii_of_nat (n + 32) else c.

(** [p] is a prefix of [t], letter case ignored. *)
Fixpoint case_prefix (p t : string) : bool :=
  match p with
  | EmptyString => true
  | String a p' =>
      match t with
      | EmptyString => false
      | String b t' => Ascii.eqb (tolower a) (tolower b) && case_prefix p' t'
      end
  end.

(** [strcasestr(haystack, needle) != 0]. *)
Fixpoint strcasestr (haystack needle : string) : bool :=
  case_prefix needle haystack
  || match haystack with
     | EmptyString => false
     | String _ rest => strcasestr rest needle
     end.

(** The [while (fgets ...)] loop of [check_info_file], lines 529-540;
    [virt2] is [None] for a NULL pointer. *)
Fixpoint scan_info_lines (virt1 : string) (vt1 : VirtualizationType)
    (virt2 : option string) (vt2 : VirtualizationType)
    (lines : list string) (s : VM) : bool * VM :=
  match lines with
  | [] => (false, s)
  | line :: rest =>
      if strcasestr line virt1 then
        (true, set_detected_virtualization vt1 s)
      else if match virt2 with
              | Some v2 => strcasestr line v2
              | None => false
              end then
        (true, set_detected_virtualization vt2 s)
      else scan_info_lines virt1 vt1 virt2 vt2 rest s
  end.

(** Lines 521-543, [check_info_file]. *)
Definition check_info_file (e : Env) (fpath : string)
    (virt1 : string) (vt1 : VirtualizationType)
    (virt2 : option string) (vt2 : VirtualizationType) (s : VM) : bool * VM :=
  let s := note_fopen fpath s in
  match fopen_lines e fpath with
  | None => (false, s)
  | Some lines => scan_info_lines virt1 vt1 virt2 vt2 lines s
  end.

Definition pname_file : string := "/sys/devices/virtual/dmi/id/product_name".
Definition tname_file : string := "/sys/hypervisor/type".

(** Lines 546-555, [VM_Version::check_virtualizations]. *)
Definition check_virtualizations (e : Env) (s : VM) : VM :=
  if LINUX then
    let (found, s) := check_info_file e pname_file "KVM" KVM (Some "VMWare") VMWare s in
    if found then s
    else snd (check_info_file e tname_file "Xen" XenPVHVM None NoDetectedVirtualization s)
  else s.

(** Modelled from the spec: line 517 expands the macro [UNSUPPORTED_OPTION]
    of [runtime/arguments.hpp], which is not part of this translation unit.
    It is the "requested but unsupported" rule: an option that is on is
    forced off, with an advisory when the operator asked for it. *)
Definition unsupported_CriticalJNINatives (s : VM) : VM :=
  if bval s CriticalJNINatives then
    let s := if FLAG_IS_CMDLINE CriticalJNINatives s
             then warning (mkMsg "-XX:+CriticalJNINatives not supported in this VM" []) s
             else s in
    FLAG_SET_DEFAULT CriticalJNINatives false s
  else s.

(** *** The whole function *)

(** Lines 71-163: everything before the ThunderX rule. *)
Definition initialize_tuning (e : Env) (s : VM) : VM :=
  let s := init_probe e s in
  let s := init_prefetch_defaults e s in
  let s := init_prefetch_copy_interval s in
  let s := init_prefetch_alignment s in
  let s := init_padding_and_flush e s in
  let s := rule_emag e s in
  rule_ampere e s.

(** Lines 180-241: the vendor rules after ThunderX. *)
Definition initialize_vendors (e : Env) (s : VM) : VM :=
  let s := rule_thunderx2 e s in
  let s := rule_tsv110 e s in
  let s := rule_cortex_a53 e s in
  let s := rule_cortex_a73 e s in
  let s := rule_neoverse e s in
  rule_arm e s.

(** Lines 252-278.  Lines 243-250 only format [_features_string], which
    nothing below reads; they are left out. *)
Definition initialize_crc_lse (s : VM) : VM :=
  let s := init_crc32 s in
  init_lse s.

(** Lines 306-376. *)
Definition initialize_sha (s : VM) : VM :=
  let s := init_crc32_intrinsics s in
  let s := init_sha s in
  let s := init_sha1_sha256 s in
  let s := init_sha3_sha512 s in
  init_sha_reset s.

(** Lines 378-426. *)
Definition initialize_ghash_sve (e : Env) (s : VM) : VM :=
  let s := init_ghash_base64 s in
  let s := init_block_zeroing e s in
  let s := init_sve_tier s in
  init_sve_length e s.

(** Lines 378-440. *)
Definition initialize_rest (e : Env) (s : VM) : VM :=
  let s := initialize_ghash_sve e s in
  init_unaligned_popcount s.

(** Lines 252-440. *)
Definition initialize_features (e : Env) (s : VM) : VM :=
  let s := initialize_crc_lse s in
  let s := init_aes s in
  let s := initialize_sha s in
  initialize_rest e s.

(** Lines 513-517. *)
Definition initialize_finish (e : Env) (s : VM) : Result VM :=
  d <- get_spin_wait_desc s ;;
  let s := set_spin_wait d s in
  let s := check_virtualizations e s in
  Ok (unsupported_CriticalJNINatives s).

(** Lines 70-518, [VM_Version::initialize]. *)
Definition initialize (e : Env) (s : VM) : Result VM :=
  let s := initialize_tuning e s in
  s <- rule_thunderx e s ;;
  let s := initialize_vendors e s in
  let s := initialize_features e s in
  s <- init_compiler2 e s ;;
  initialize_finish e s.

(** The rest of [initialize] from line 442 on, from line 378 on, and from
    line 306 on. *)
Definition after_popcount (e : Env) (s : VM) : Result VM :=
  s <- init_compiler2 e s ;;
  initialize_finish e s.

Definition after_sha (e : Env) (s : VM) : Result VM :=
  after_popcount e (initialize_rest e s).

Definition after_aes (e : Env) (s : VM) : Result VM :=
  after_sha e (initialize_sha s).

(** [initialize] up to line 278, after the ThunderX rule has let the run
    through with store [s]. *)
Definition before_aes (e : Env) (s : VM) : VM :=
  initialize_crc_lse (initialize_vendors e s).

End Initialize.

(** The store a run ends with: the final one, or the one at the fatal
    exit. *)
Definition state_of (r : Result VM) : VM :=
  match r with
  | Ok s => s
  | Fatal _ s => s
  end.

Definition completes {A : Type} (r : Result A) : bool :=
  match r with
  | Ok _ => true
  | Fatal _ _ => false
  end.

(** ** A concrete platform and flag store, for running the model *)

(** The enumerator values of the jdk17u headers, for a Linux build with
    the C2 compiler. *)
Definition linux_c2 : Platform := {|
  CPU_AMCC := 0x50;
  CPU_AMPERE := 0xC0;
  CPU_ARM := 0x41;
  CPU_BROADCOM := 0x42;
  CPU_CAVIUM := 0x43;
  CPU_HISILICON := 0x48;
  CPU_MODEL_EMAG := 0x0;
  CPU_MODEL_AMPERE_1 := 0xac3;
  CPU_MODEL_AMPERE_1A := 0xac4;
  CPU_MODEL_AMPERE_1B := 0xac5;
  CPU_AES := Z.shiftl 1 3;
  CPU_PMULL := Z.shiftl 1 4;
  CPU_SHA1 := Z.shiftl 1 5;
  CPU_SHA2 := Z.shiftl 1 6;
  CPU_CRC32 := Z.shiftl 1 7;
  CPU_LSE := Z.shiftl 1 8;
  CPU_DCPOP := Z.shiftl 1 16;
  CPU_SHA3 := Z.shiftl 1 17;
  CPU_SHA512 := Z.shiftl 1 21;
  CPU_SVE := Z.shiftl 1 22;
  CPU_SVE2 := Z.shiftl 1 28;
  CPU_STXR_PREFETCH := Z.shiftl 1 29;
  CPU_A53MAC := Z.shiftl 1 30;
  sve_vl_min := 16;
  COMPILER2 := true;
  LINUX := true
|}.

(** A flag store with nothing set by the operator: every origin is
    [DEFAULT], booleans are off, integers zero, the spin-wait instruction
    [none]. *)
Definition untouched_flags : VM := {|
  bval := fun _ => false;
  borigin := fun _ => DEFAULT;
  ival := fun _ => 0;
  iorigin := fun _ => DEFAULT;
  OnSpinWaitInst := "none";
  OnSpinWaitInst_origin := DEFAULT;
  _features := 0;
  _data_cache_line_flush_size := 0;
  _initial_sve_vector_length := 0;
  _spin_wait := SpinWait_default;
  _detected_virtualization := NoDetectedVirtualization;
  _supports_atomics := false;
  warnings := [];
  opened := []
|}.

(** The argument parser's effect for [-XX:+Flag] / [-XX:-Flag]. *)
Definition on_cmdline (k : BoolKnob) (v : bool) (s : VM) : VM :=
  mkVM (fun k' => if BoolKnob_beq k' k then v else bval s k')
       (fun k' => if BoolKnob_beq k' k then COMMAND_LINE else borigin s k')
       (ival s) (iorigin s) (OnSpinWaitInst s) (OnSpinWaitInst_origin s)
       (_features s) (_data_cache_line_flush_size s)
       (_initial_sve_vector_length s) (_spin_wait s)
       (_detected_virtualization s) (_supports_atomics s)
       (warnings s) (opened s).

(** The argument parser's effect for [-XX:Flag=v]. *)
Definition on_cmdline_i (k : IntKnob) (v : Z) (s : VM) : VM :=
  mkVM (bval s) (borigin s)
       (fun k' => if IntKnob_beq k' k then v else ival s k')
       (fun k' => if IntKnob_beq k' k then COMMAND_LINE else iorigin s k')
       (OnSpinWaitInst s) (OnSpinWaitInst_origin s)
       (_features s) (_data_cache_line_flush_size s)
       (_initial_sve_vector_length s) (_spin_wait s)
       (_detected_virtualization s) (_supports_atomics s)
       (warnings s) (opened s).

(** The argument parser's effect for [-XX:OnSpinWaitInst=v]. *)
Definition on_cmdline_OnSpinWaitInst (v : string) (s : VM) : VM :=
  mkVM (bval s) (borigin s) (ival s) (iorigin s)
       v COMMAND_LINE
       (_features s) (_data_cache_line_flush_size s)
       (_initial_sve_vector_length s) (_spin_wait s)
       (_detected_virtualization s) (_supports_atomics s)
       (warnings s) (opened s).

(** A machine of the given vendor, model and feature bits: 64-byte cache
    lines, the SVE calls answering [vl] and [grant], no readable file. *)
Definition machine (cpu model variant features vl : Z) (grant : Z -> Z) : Env := {|
  _cpu := cpu;
  _model := model;
  _model2 := 0;
  _variant := variant;
  _revision := 0;
  probed_features := features;
  _zva_length := 64;
  _dcache_line_size := 64;
  is_zva_enabled := true;
  supports_map_sync := false;
  get_current_sve_vector_length := vl;
  set_and_get_current_sve_vector_length := grant;
  fopen_lines := fun _ => None
|}.

(** *** Sample machines *)

(** An ARM Neoverse N1 with the LSE and AES bits, and no SVE. *)
Definition neoverse_n1 : Env :=
  machine 0x41 0xd0c 1 (Z.lor (Z.shiftl 1 8) (Z.shiftl 1 3)) (-1) (fun vl => vl).

(** An ARM Cortex-A72 with CRC32 only: no AES, no SHA, no SVE. *)
Definition cortex_a72_plain : Env :=
  machine 0x41 0xd08 0 (Z.shiftl 1 7) (-1) (fun vl => vl).

(** A Cavium ThunderX (model 0xA1) of the given variant. *)
Definition thunderx (variant : Z) : Env :=
  machine 0x43 0xA1 variant (Z.shiftl 1 7) (-1) (fun vl => vl).

(** An SVE machine (Neoverse V1) whose current vector length is [vl] bytes
    and whose kernel answers a request for [n] bytes with [grant n]. *)
Definition sve_machine (vl : Z) (grant : Z -> Z) : Env :=
  machine 0x41 0xd40 1 (Z.lor (Z.shiftl 1 22) (Z.shiftl 1 7)) vl grant.

(** The store [initialize] has built when it reaches line 442, line 462
    and line 513. *)
Definition at_line_442 {P : Platform} (e : Env) (s : VM) : VM :=
  initialize_features e
    (initialize_vendors e (state_of (rule_thunderx e (initialize_tuning e s)))).

Definition at_line_462 {P : Platform} (e : Env) (s : VM) : VM :=
  init_c2_intrinsics (at_line_442 e s).

Definition at_line_513 {P : Platform} (e : Env) (s : VM) : VM :=
  state_of (init_compiler2 e (at_line_442 e s)).

(** An Ampere-1. *)
Definition ampere1 : Env :=
  machine 0xC0 0xac3 0 (Z.shiftl 1 7) (-1) (fun vl => vl).

(** A machine whose product-name file reads as [pname] and whose
    hypervisor-type file reads as [tname]. *)
Definition with_files (pname tname : option (list string)) : Env := {|
  _cpu := 0x41;
  _model := 0xd0c;
  _model2 := 0;
  _variant := 1;
  _revision := 0;
  probed_features := Z.shiftl 1 7;
  _zva_length := 64;
  _dcache_line_size := 64;
  is_zva_enabled := true;
  supports_map_sync := false;
  get_current_sve_vector_length := -1;
  set_and_get_current_sve_vector_length := fun vl => vl;
  fopen_lines := fun path =>
    if String.eqb path pname_file then pname
    else if String.eqb path tname_file then tname
    else None
|}.

(** The test of one line in [check_info_file]. *)
Definition line_matches (virt1 : string) (virt2 : option string) (line : string) : bool :=
  strcasestr line virt1
  || match virt2 with
     | Some v2 => strcasestr line v2
     | None => false
     end.

(** The same machine with another variant number. *)
Definition with_variant (variant : Z) (e : Env) : Env := {|
  _cpu := _cpu e;
  _model := _model e;
  _model2 := _model2 e;
  _variant := variant;
  _revision := _revision e;
  probed_features := probed_features e;
  _zva_length := _zva_length e;
  _dcache_line_size := _dcache_line_size e;
  is_zva_enabled := is_zva_enabled e;
  supports_map_sync := supports_map_sync e;
  get_current_sve_vector_length := get_current_sve_vector_length e;
  set_and_get_current_sve_vector_length := set_and_get_current_sve_vector_length e;
  fopen_lines := fopen_lines e
|}.

(** ** Relations between the store before and after a block *)

(** Membership in a write set. *)
Definition writes_b (W : list BoolKnob) (k : BoolKnob) : bool :=
  existsb (BoolKnob_beq k) W.

Definition writes_i (W : list IntKnob) (k : IntKnob) : bool :=
  existsb (IntKnob_beq k) W.

(** What every block of [initialize] guarantees between the store [s] it
    starts from and the store [s'] it leaves: origins are never touched,
    the log only grows, boolean and integer flags outside the write sets
    [Wb] and [Wi] keep their value, and a boolean flag other than
    [UsePopCountInstruction] and [UseAES] that is off and not at its
    default stays off. *)
Record step_ok (Wb : list BoolKnob) (Wi : list IntKnob) (s s' : VM) : Prop := {
  ok_borigin : borigin s' = borigin s;
  ok_iorigin : iorigin s' = iorigin s;
  ok_sorigin : OnSpinWaitInst_origin s' = OnSpinWaitInst_origin s;
  ok_warnings : forall m, In m (warnings s) -> In m (warnings s');
  ok_bval : forall k, writes_b Wb k = false -> bval s' k = bval s k;
  ok_ival : forall k, writes_i Wi k = false -> ival s' k = ival s k;
  ok_sticky : forall k, k <> UsePopCountInstruction -> k <> UseAES ->
      is_default (borigin s k) = false -> bval s k = false -> bval s' k = false
}.

(** How a block may change the feature bits: a bit that is set stays set,
    and only the two synthetic bits are ever added. *)
Record feat_ok {P : Platform} (s s' : VM) : Prop := {
  feat_present : forall m, Z.land (_features s) m <> 0 -> Z.land (_features s') m <> 0;
  feat_absent : forall m, Z.land CPU_A53MAC m = 0 -> Z.land CPU_STXR_PREFETCH m = 0 ->
      Z.land (_features s) m = 0 -> Z.land (_features s') m = 0
}.

(** The part of the store the fatal exits depend on: the integer flags,
    the spin-wait instruction, the feature bits and the recorded vector
    length.  Two stores are related when they agree on it; boolean flags,
    their origins and the log are free. *)
Record ctl_eq (s1 s2 : VM) : Prop := {
  ctl_ival : ival s1 = ival s2;
  ctl_iorigin : iorigin s1 = iorigin s2;
  ctl_inst : OnSpinWaitInst s1 = OnSpinWaitInst s2;
  ctl_inst_origin : OnSpinWaitInst_origin s1 = OnSpinWaitInst_origin s2;
  ctl_features : _features s1 = _features s2;
  ctl_vl : _initial_sve_vector_length s1 = _initial_sve_vector_length s2
}.

(** Two runs end the same way, and in related stores when they return. *)
Definition ctl_res (r1 r2 : Result VM) : Prop :=
  match r1, r2 with
  | Ok a, Ok b => ctl_eq a b
  | Fatal _ _, Fatal _ _ => True
  | _, _ => False
  end.

(** The store with everything outside that part erased. *)
Definition strip (s : VM) : VM :=
  mkVM (fun _ => false) (fun _ => DEFAULT) (ival s) (iorigin s)
       (OnSpinWaitInst s) (OnSpinWaitInst_origin s) (_features s) 0
       (_initial_sve_vector_length s) SpinWait_default NoDetectedVirtualization
       false [] [].

(** The flags written before line 280. *)
Definition early_bool_knobs : list BoolKnob :=
  [AvoidUnalignedAccesses; UseSIMDForMemoryOps; UseSIMDForArrayEquals;
   UseSignumIntrinsic; UseSimpleArrayEquals;
   UseCRC32; UseAdler32Intrinsics; UseVectorizedMismatchIntrinsic; UseLSE].

Definition early_int_knobs : list IntKnob :=
  [AllocatePrefetchDistance; AllocatePrefetchStepSize;
   PrefetchScanIntervalInBytes; PrefetchCopyIntervalInBytes;
   SoftwarePrefetchHintDistance; ContendedPaddingWidth; OnSpinWaitInstCount].

(** The flags written from line 442 on. *)
Definition c2_bool_knobs : list BoolKnob :=
  [UseMultiplyToLenIntrinsic; UseSquareToLenIntrinsic; UseMulAddIntrinsic;
   UseMontgomeryMultiplyIntrinsic; UseMontgomerySquareIntrinsic;
   OptoScheduling; AlignVector; CriticalJNINatives].

Definition c2_int_knobs : list IntKnob := [UseSVE; MaxVectorSize].

(** The flags written from line 378 on. *)
Definition late_bool_knobs : list BoolKnob :=
  [UseGHASHIntrinsics; UseBASE64Intrinsics; UseBlockZeroing;
   UseUnalignedAccesses; UsePopCountInstruction] ++ c2_bool_knobs.

Definition late_int_knobs : list IntKnob :=
  [BlockZeroingLowLimit; UseSVE; MaxVectorSize].

(** The flags written by lines 306-376. *)
Definition sha_bool_knobs : list BoolKnob :=
  [UseCRC32Intrinsics; UseCRC32CIntrinsics; UseFMA; UseMD5Intrinsics;
   UseSHA; UseSHA1Intrinsics; UseSHA256Intrinsics; UseSHA3Intrinsics;
   UseSHA512Intrinsics].

(** The boolean flags [initialize] may write, and the integer ones. *)
Definition all_bool_knobs : list BoolKnob :=
  [AvoidUnalignedAccesses; UseSIMDForMemoryOps; UseSIMDForArrayEquals;
   UseSignumIntrinsic; UseSimpleArrayEquals;
   UseCRC32; UseAdler32Intrinsics; UseVectorizedMismatchIntrinsic; UseLSE;
   UseAES; UseAESIntrinsics; UseAESCTRIntrinsics;
   UseCRC32Intrinsics; UseCRC32CIntrinsics; UseFMA; UseMD5Intrinsics;
   UseSHA; UseSHA1Intrinsics; UseSHA256Intrinsics; UseSHA3Intrinsics;
   UseSHA512Intrinsics;
   UseGHASHIntrinsics; UseBASE64Intrinsics; UseBlockZeroing;
   UseUnalignedAccesses; UsePopCountInstruction;
   UseMultiplyToLenIntrinsic; UseSquareToLenIntrinsic; UseMulAddIntrinsic;
   UseMontgomeryMultiplyIntrinsic; UseMontgomerySquareIntrinsic;
   OptoScheduling; AlignVector; CriticalJNINatives].

Definition all_int_knobs : list IntKnob :=
  [AllocatePrefetchDistance; AllocatePrefetchStepSize;
   PrefetchScanIntervalInBytes; PrefetchCopyIntervalInBytes;
   SoftwarePrefetchHintDistance; ContendedPaddingWidth;
   OnSpinWaitInstCount; BlockZeroingLowLimit; UseSVE; MaxVectorSize].

(** ** VM_Version::print_platform_virtualization_info *)

Scheme Equality for VirtualizationType.

(** Modelled from the spec: [get_detected_virtualization] of
    [runtime/abstract_vm_version.hpp], which is not part of this
    translation unit, exposes the verdict of the probe "to a diagnostics
    printer": it returns the field [check_info_file] writes. *)
Definition get_detected_virtualization (s : VM) : VirtualizationType :=
  _detected_virtualization s.

(** Lines 557-568.  [st] is the text the stream holds, one entry for each
    [print_cr]. *)
Definition print_platform_virtualization_info {P : Platform}
    (s : VM) (st : list string) : list string :=
  if LINUX then
    let vrt := get_detected_virtualization s in
    if VirtualizationType_beq vrt KVM then
      st ++ ["KVM virtualization detected"]
    else if VirtualizationType_beq vrt VMWare then
      st ++ ["VMWare virtualization detected"]
    else if VirtualizationType_beq vrt XenPVHVM then
      st ++ ["Xen virtualization detected"]
    else st
  else st.

(** ** The fields of the store that are not flags *)

Inductive Field : Set :=
  | F_features | F_flush_size | F_sve_length | F_spin_wait | F_virtualization
  | F_atomics | F_inst | F_opened.

Scheme Equality for Field.

Definition writes_f (W : list Field) (f : Field) : bool :=
  existsb (Field_beq f) W.

(** A block that writes only the fields in [W] leaves the others as they
    are. *)
Record fields_ok (W : list Field) (s s' : VM) : Prop := {
  fk_features : writes_f W F_features = false -> _features s' = _features s;
  fk_flush_size : writes_f W F_flush_size = false ->
      _data_cache_line_flush_size s' = _data_cache_line_flush_size s;
  fk_sve_length : writes_f W F_sve_length = false ->
      _initial_sve_vector_length s' = _initial_sve_vector_length s;
  fk_spin_wait : writes_f W F_spin_wait = false -> _spin_wait s' = _spin_wait s;
  fk_virtualization : writes_f W F_virtualization = false ->
      _detected_virtualization s' = _detected_virtualization s;
  fk_atomics : writes_f W F_atomics = false -> _supports_atomics s' = _supports_atomics s;
  fk_inst : writes_f W F_inst = false -> OnSpinWaitInst s' = OnSpinWaitInst s;
  fk_opened : writes_f W F_opened = false -> opened s' = opened s
}.

(** What a block does with the flags the operator set: origins are kept,
    the log is extended, and a flag given on the command line changes its
    value only in a block that logs a warning.  [UseSHA] is the exception:
    lines 374-376 switch it off without a word. *)
Record quiet (s s' : VM) : Prop := {
  q_borigin : borigin s' = borigin s;
  q_iorigin : iorigin s' = iorigin s;
  q_sorigin : OnSpinWaitInst_origin s' = OnSpinWaitInst_origin s;
  q_log : exists l, warnings s' = (warnings s ++ l)%list;
  q_bval : forall k, k <> UseSHA -> borigin s k = COMMAND_LINE ->
      bval s' k <> bval s k -> warnings s' <> warnings s;
  q_ival : forall k, iorigin s k = COMMAND_LINE ->
      ival s' k <> ival s k -> warnings s' <> warnings s;
  q_inst : OnSpinWaitInst_origin s = COMMAND_LINE ->
      OnSpinWaitInst s' = OnSpinWaitInst s
}.

(** ** Parts and write sets of [initialize] *)

(** The boolean flags written by the vendor rules, lines 135-241. *)
Definition vendor_bool_knobs : list BoolKnob :=
  [AvoidUnalignedAccesses; UseSIMDForMemoryOps; UseSIMDForArrayEquals;
   UseSignumIntrinsic; UseSimpleArrayEquals].

(** The integer flags written from line 132 on. *)
Definition tail_int_knobs : list IntKnob :=
  [SoftwarePrefetchHintDistance; OnSpinWaitInstCount; BlockZeroingLowLimit;
   UseSVE; MaxVectorSize].

(** [initialize] from the ThunderX rule (line 166) on. *)
Definition after_tuning {P : Platform} (e : Env) (s : VM) : Result VM :=
  s <- rule_thunderx e s ;;
  s <- init_compiler2 e (initialize_features e (initialize_vendors e s)) ;;
  initialize_finish e s.

(** The warnings of line 267 and of line 97. *)
Definition mismatch_msg : Msg :=
  mkMsg "UseVectorizedMismatchIntrinsic specified, but not available on this CPU." [].

Definition copy_interval_msg : Msg :=
  mkMsg "PrefetchCopyIntervalInBytes must be -1, or a multiple of 8 and < 32768" [].

(** ** The machines the vendor rules name *)

(** The tests of lines 135, 148-150, 166, 180-181, 191, 201, 209, 220-221
    and 241, and the identity the guarantee of line 167 refuses. *)
Definition is_emag {P : Platform} (e : Env) : bool :=
  (_cpu e =? CPU_AMCC) && (_model e =? CPU_MODEL_EMAG) && (_variant e =? 3).

Definition is_ampere1 {P : Platform} (e : Env) : bool :=
  (_cpu e =? CPU_AMPERE)
  && ((_model e =? CPU_MODEL_AMPERE_1) || (_model e =? CPU_MODEL_AMPERE_1A)
      || (_model e =? CPU_MODEL_AMPERE_1B)).

Definition is_thunderx {P : Platform} (e : Env) : bool :=
  (_cpu e =? CPU_CAVIUM) && (_model e =? 0xA1).

Definition is_prerelease_thunderx {P : Platform} (e : Env) : bool :=
  (_cpu e =? CPU_CAVIUM) && (_model e =? 0xA1) && (_variant e =? 0).

Definition is_thunderx2 {P : Platform} (e : Env) : bool :=
  ((_cpu e =? CPU_CAVIUM) && (_model e =? 0xAF))
  || ((_cpu e =? CPU_BROADCOM) && (_model e =? 0x516)).

Definition is_tsv110 {P : Platform} (e : Env) : bool :=
  (_cpu e =? CPU_HISILICON) && (_model e =? 0xd01).

Definition is_cortex_a53 {P : Platform} (e : Env) : bool :=
  (_cpu e =? CPU_ARM) && ((_model e =? 0xd03) || (_model2 e =? 0xd03)).

Definition is_cortex_a73 {P : Platform} (e : Env) : bool :=
  (_cpu e =? CPU_ARM) && ((_model e =? 0xd09) || (_model2 e =? 0xd09)).

Definition is_neoverse {P : Platform} (e : Env) : bool :=
  (_cpu e =? CPU_ARM)
  && (model_is e 0xd0c || model_is e 0xd49 || model_is e 0xd40 || model_is e 0xd4f).

Definition is_cortex_a57 {P : Platform} (e : Env) : bool :=
  (_cpu e =? CPU_ARM) && ((_model e =? 0xd07) || (_model2 e =? 0xd07)).

(** ** What a run decides, from the machine and the flags it starts with *)

(** The four names [get_spin_wait_desc] accepts. *)
Definition valid_spin_wait_inst (v : string) : bool :=
  String.eqb v "nop" || String.eqb v "isb" || String.eqb v "yield"
  || String.eqb v "none".

(** The instruction name and the count [get_spin_wait_desc] reads at
    line 513, from the flags the run started with. *)
Definition spin_wait_inst_at_513 {P : Platform} (e : Env) (s : VM) : string :=
  if (is_neoverse e || is_ampere1 e) && is_default (OnSpinWaitInst_origin s)
  then "isb" else OnSpinWaitInst s.

Definition spin_wait_count_at_513 {P : Platform} (e : Env) (s : VM) : Z :=
  if is_default (iorigin s OnSpinWaitInstCount) then
    if is_neoverse e then 1 else if is_ampere1 e then 2 else ival s OnSpinWaitInstCount
  else ival s OnSpinWaitInstCount.

(** The descriptor for an accepted name. *)
Definition spin_wait_of (name : string) (count : Z) : SpinWait :=
  if String.eqb name "nop" then mkSpinWait NOP count
  else if String.eqb name "isb" then mkSpinWait ISB count
  else if String.eqb name "yield" then mkSpinWait YIELD count
  else SpinWait_default.

(** The feature bits from line 243 on. *)
Definition features_at_243 {P : Platform} (e : Env) : Z :=
  Z.lor (Z.lor (probed_features e) (if is_cortex_a53 e then CPU_A53MAC else 0))
        (if is_cortex_a57 e then CPU_STXR_PREFETCH else 0).

(** [UseSVE] when line 442 is reached: the tier of lines 403-410, set to 0
    by lines 412-426 unless the detected vector length is usable. *)
Definition sve_tier_at_442 {P : Platform} (e : Env) (s : VM) : Z :=
  let f := features_at_243 e in
  let tier :=
    if nonzero (Z.land f CPU_SVE) then
      if is_default (iorigin s UseSVE)
      then (if nonzero (Z.land f CPU_SVE2) then 2 else 1)
      else ival s UseSVE
    else if 0 <? ival s UseSVE then 0 else ival s UseSVE in
  if 0 <? tier then
    let vl := get_current_sve_vector_length e in
    if vl <? 0 then 0
    else if (vl =? 0) || nonzero (Z.rem vl sve_vl_min) || negb (is_power_of_2 vl) then 0
    else tier
  else tier.

(** Whether lines 462-502 let the run through. *)
Definition max_vector_size_accepted {P : Platform} (e : Env) (s : VM) : bool :=
  if COMPILER2 then
    is_default (iorigin s MaxVectorSize)
    || (let m := ival s MaxVectorSize in
        let tier := sve_tier_at_442 e s in
        if 0 <? tier then
          if m <? 16 then is_power_of_2 m
          else (Z.rem m 16 =? 0) && is_power_of_2 m
               && negb (set_and_get_current_sve_vector_length e m <? 0)
        else if tier =? 0 then is_power_of_2 m else true)
  else true.

(** Whether [get_spin_wait_desc] returns at line 513. *)
Definition spin_wait_accepted {P : Platform} (e : Env) (s : VM) : bool :=
  let name := spin_wait_inst_at_513 e s in
  valid_spin_wait_inst name
  && negb (String.eqb name "none"
           && negb (is_default (iorigin s OnSpinWaitInstCount))
           && (0 <? ival s OnSpinWaitInstCount)).

(** ** What the virtualization probe looks for *)

(** [t] with its upper-case letters lowered. *)
Fixpoint lower (t : string) : string :=
  match t with
  | EmptyString => EmptyString
  | String c t' => String (tolower c) (lower t')
  end.

(** [needle] occurs in [haystack], letter case ignored. *)
Definition contains_nocase (haystack needle : string) : Prop :=
  exists pre mid post,
    haystack = pre ++ mid ++ post /\ lower mid = lower needle.

(** The line [print_platform_virtualization_info] prints for a verdict. *)
Definition virtualization_line (vrt : VirtualizationType) : option string :=
  match vrt with
  | KVM => Some "KVM virtualization detected"
  | VMWare => Some "VMWare virtualization detected"
  | XenPVHVM => Some "Xen virtualization detected"
  | NoDetectedVirtualization => None
  end.

(** The verdict of the loop of [check_info_file] on the lines of a file:
    the one of the first line that contains a name looked for. *)
Fixpoint scan_verdict (virt1 : string) (vt1 : VirtualizationType)
    (virt2 : option string) (vt2 : VirtualizationType)
    (lines : list string) : option VirtualizationType :=
  match lines with
  | [] => None
  | line :: rest =>
      if strcasestr line virt1 then Some vt1
      else if match virt2 with
              | Some v2 => strcasestr line v2
              | None => false
              end then Some vt2
      else scan_verdict virt1 vt1 virt2 vt2 rest
  end.

(** The verdict a file gives, [None] when it cannot be opened. *)
Definition file_verdict (e : Env) (fpath : string) (virt1 : string)
    (vt1 : VirtualizationType) (virt2 : option string) (vt2 : VirtualizationType)
    : option VirtualizationType :=
  match fopen_lines e fpath with
  | Some lines => scan_verdict virt1 vt1 virt2 vt2 lines
  | None => None
  end.

(** ** Two more sample machines *)

(** An ARM Neoverse N1 with the SHA1 and SHA2 bits. *)
Definition neoverse_sha : Env :=
  machine 0x41 0xd0c 1 (Z.lor (Z.shiftl 1 5) (Z.shiftl 1 6)) (-1) (fun vl => vl).

(** An ARM Cortex-A53 with CRC32 only. *)
Definition cortex_a53 : Env :=
  machine 0x41 0xd03 0 (Z.shiftl 1 7) (-1) (fun vl => vl).

(** * Properties *)

(** ** Tactics for the blocks *)

(** Case analysis on the tests of a block, the innermost first. *)
Ltac split_if :=
  match goal with
  | |- context [if ?c then _ else _] =>
      lazymatch c with
      | context [if _ then _ else _] => fail
      | _ => destruct c eqn:?
      end
  end.

Ltac splits := cbv zeta; repeat split_if; cbn [state_of].

Ltac open_flags :=
  cbv [FLAG_IS_DEFAULT FLAG_IS_CMDLINE FLAG_SET_DEFAULT FLAG_IS_DEFAULT_i FLAG_SET_DEFAULT_i
       FLAG_IS_DEFAULT_OnSpinWaitInst FLAG_SET_DEFAULT_OnSpinWaitInst
       assign assign_i assign_OnSpinWaitInst set_features set_data_cache_line_flush_size
       set_initial_sve_vector_length set_spin_wait set_detected_virtualization
       set_supports_atomics warning note_fopen
       bval borigin ival iorigin OnSpinWaitInst OnSpinWaitInst_origin warnings] in *.

Ltac in_log := open_flags; repeat (rewrite in_app_iff); auto.

Ltac use_frame Hk :=
  cbn [writes_b writes_i existsb] in Hk;
  repeat (apply orb_false_elim in Hk; let E := fresh "E" in destruct Hk as [E Hk]);
  open_flags;
  repeat match goal with E : _ = false |- _ => rewrite E end;
  reflexivity.

Ltac sticky_write k Ho Hv :=
  match goal with
  | |- context [BoolKnob_beq k ?K] =>
      let E := fresh "E" in
      destruct (BoolKnob_beq k K) eqn:E;
      [ apply internal_BoolKnob_dec_bl in E; subst k;
        rewrite ?Hv, ?Ho, ?andb_false_r; cbn;
        first [ reflexivity | congruence ]
      | ]
  end.

Ltac sticky_case k Ho Hv :=
  open_flags; repeat sticky_write k Ho Hv; try assumption.

Ltac step_ok_tac :=
  intros; splits;
  (constructor;
   [ reflexivity | reflexivity | reflexivity
   | intros m Hm; in_log
   | intros k Hk; use_frame Hk
   | intros k Hk; use_frame Hk
   | intros k Hp Ha Ho Hv; sticky_case k Ho Hv ]).

(** ** The relation [step_ok] *)

Lemma step_refl (s : VM) : step_ok [] [] s s.
Proof. constructor; auto. Qed.

Lemma writes_b_app (W1 W2 : list BoolKnob) (k : BoolKnob) :
  writes_b (W1 ++ W2) k = false ->
  writes_b W1 k = false /\ writes_b W2 k = false.
Proof.
  unfold writes_b. rewrite existsb_app. apply orb_false_elim.
Qed.

Lemma writes_i_app (W1 W2 : list IntKnob) (k : IntKnob) :
  writes_i (W1 ++ W2) k = false ->
  writes_i W1 k = false /\ writes_i W2 k = false.
Proof.
  unfold writes_i. rewrite existsb_app. apply orb_false_elim.
Qed.

Lemma step_trans (W1 W2 : list BoolKnob) (V1 V2 : list IntKnob) (s s' s'' : VM) :
  step_ok W1 V1 s s' -> step_ok W2 V2 s' s'' ->
  step_ok (W1 ++ W2) (V1 ++ V2) s s''.
Proof.
  intros H1 H2. constructor.
  - rewrite (ok_borigin _ _ _ _ H2). apply (ok_borigin _ _ _ _ H1).
  - rewrite (ok_iorigin _ _ _ _ H2). apply (ok_iorigin _ _ _ _ H1).
  - rewrite (ok_sorigin _ _ _ _ H2). apply (ok_sorigin _ _ _ _ H1).
  - intros m Hm. apply (ok_warnings _ _ _ _ H2), (ok_warnings _ _ _ _ H1), Hm.
  - intros k Hk. apply writes_b_app in Hk. destruct Hk as [Ha Hb].
    rewrite (ok_bval _ _ _ _ H2 k Hb). apply (ok_bval _ _ _ _ H1 k Ha).
  - intros k Hk. apply writes_i_app in Hk. destruct Hk as [Ha Hb].
    rewrite (ok_ival _ _ _ _ H2 k Hb). apply (ok_ival _ _ _ _ H1 k Ha).
  - intros k Hp Ha Ho Hv. apply (ok_sticky _ _ _ _ H2); auto.
    + rewrite (ok_borigin _ _ _ _ H1). exact Ho.
    + apply (ok_sticky _ _ _ _ H1); auto.
Qed.

Lemma step_ok_sets (W W' : list BoolKnob) (V V' : list IntKnob) (s s' : VM) :
  step_ok W V s s' -> W = W' -> V = V' -> step_ok W' V' s s'.
Proof. intros H <- <-. exact H. Qed.

Section Blocks.

Context {P : Platform}.

Lemma init_probe_ok e s : step_ok [] [] s (init_probe e s).
Proof. unfold init_probe. step_ok_tac. Qed.

Lemma init_prefetch_defaults_ok e s :
  step_ok [] [AllocatePrefetchDistance; AllocatePrefetchStepSize;
              PrefetchScanIntervalInBytes; PrefetchCopyIntervalInBytes;
              SoftwarePrefetchHintDistance] s (init_prefetch_defaults e s).
Proof. unfold init_prefetch_defaults. step_ok_tac. Qed.

Lemma init_prefetch_copy_interval_ok s :
  step_ok [] [PrefetchCopyIntervalInBytes] s (init_prefetch_copy_interval s).
Proof. unfold init_prefetch_copy_interval. step_ok_tac. Qed.

Lemma init_prefetch_alignment_ok s :
  step_ok [] [AllocatePrefetchDistance; AllocatePrefetchStepSize;
              SoftwarePrefetchHintDistance] s (init_prefetch_alignment s).
Proof. unfold init_prefetch_alignment. step_ok_tac. Qed.

Lemma init_padding_and_flush_ok e s :
  step_ok [] [ContendedPaddingWidth] s (init_padding_and_flush e s).
Proof. unfold init_padding_and_flush. step_ok_tac. Qed.

Lemma rule_emag_ok e s :
  step_ok [AvoidUnalignedAccesses; UseSIMDForMemoryOps; UseSIMDForArrayEquals] []
          s (rule_emag e s).
Proof. unfold rule_emag. step_ok_tac. Qed.

Lemma rule_ampere_ok e s :
  step_ok [UseSIMDForMemoryOps; UseSignumIntrinsic] [OnSpinWaitInstCount]
          s (rule_ampere e s).
Proof. unfold rule_ampere. step_ok_tac. Qed.

Lemma rule_thunderx_ok e s :
  step_ok [AvoidUnalignedAccesses; UseSIMDForMemoryOps; UseSIMDForArrayEquals] []
          s (state_of (rule_thunderx e s)).
Proof. unfold rule_thunderx. step_ok_tac. Qed.

Lemma rule_thunderx2_ok e s :
  step_ok [AvoidUnalignedAccesses; UseSIMDForMemoryOps] [] s (rule_thunderx2 e s).
Proof. unfold rule_thunderx2. step_ok_tac. Qed.

Lemma rule_tsv110_ok e s :
  step_ok [AvoidUnalignedAccesses; UseSIMDForMemoryOps] [] s (rule_tsv110 e s).
Proof. unfold rule_tsv110. step_ok_tac. Qed.

Lemma rule_cortex_a53_ok e s :
  step_ok [UseSIMDForArrayEquals] [] s (rule_cortex_a53 e s).
Proof. unfold rule_cortex_a53. step_ok_tac. Qed.

Lemma rule_cortex_a73_ok e s :
  step_ok [UseSimpleArrayEquals] [SoftwarePrefetchHintDistance] s (rule_cortex_a73 e s).
Proof. unfold rule_cortex_a73. step_ok_tac. Qed.

Lemma rule_neoverse_ok e s :
  step_ok [UseSIMDForMemoryOps] [OnSpinWaitInstCount] s (rule_neoverse e s).
Proof. unfold rule_neoverse. step_ok_tac. Qed.

Lemma rule_arm_ok e s : step_ok [UseSignumIntrinsic] [] s (rule_arm e s).
Proof. unfold rule_arm. step_ok_tac. Qed.

Lemma init_crc32_ok s :
  step_ok [UseCRC32; UseAdler32Intrinsics; UseVectorizedMismatchIntrinsic] []
          s (init_crc32 s).
Proof. unfold init_crc32. step_ok_tac. Qed.

Lemma init_lse_ok s : step_ok [UseLSE] [] s (init_lse s).
Proof. unfold init_lse. step_ok_tac. Qed.

Lemma init_aes_ok s :
  step_ok [UseAES; UseAESIntrinsics; UseAESCTRIntrinsics] [] s (init_aes s).
Proof. unfold init_aes. step_ok_tac. Qed.

Lemma init_crc32_intrinsics_ok s :
  step_ok [UseCRC32Intrinsics; UseCRC32CIntrinsics; UseFMA; UseMD5Intrinsics] []
          s (init_crc32_intrinsics s).
Proof. unfold init_crc32_intrinsics. step_ok_tac. Qed.

Lemma init_sha_ok s : step_ok [UseSHA] [] s (init_sha s).
Proof. unfold init_sha. step_ok_tac. Qed.

Lemma init_sha1_sha256_ok s :
  step_ok [UseSHA1Intrinsics; UseSHA256Intrinsics] [] s (init_sha1_sha256 s).
Proof. unfold init_sha1_sha256. step_ok_tac. Qed.

Lemma init_sha3_sha512_ok s :
  step_ok [UseSHA3Intrinsics; UseSHA512Intrinsics] [] s (init_sha3_sha512 s).
Proof. unfold init_sha3_sha512. step_ok_tac. Qed.

Lemma init_sha_reset_ok s : step_ok [UseSHA] [] s (init_sha_reset s).
Proof. unfold init_sha_reset. step_ok_tac. Qed.

Lemma init_ghash_base64_ok s :
  step_ok [UseGHASHIntrinsics; UseBASE64Intrinsics] [] s (init_ghash_base64 s).
Proof. unfold init_ghash_base64. step_ok_tac. Qed.

Lemma init_block_zeroing_ok e s :
  step_ok [UseBlockZeroing] [BlockZeroingLowLimit] s (init_block_zeroing e s).
Proof. unfold init_block_zeroing. step_ok_tac. Qed.

Lemma init_sve_tier_ok s : step_ok [] [UseSVE] s (init_sve_tier s).
Proof. unfold init_sve_tier. step_ok_tac. Qed.

Lemma init_sve_length_ok e s : step_ok [] [UseSVE] s (init_sve_length e s).
Proof. unfold init_sve_length. step_ok_tac. Qed.

Lemma init_unaligned_popcount_ok s :
  step_ok [UseUnalignedAccesses; UsePopCountInstruction] []
          s (init_unaligned_popcount s).
Proof. unfold init_unaligned_popcount. step_ok_tac. Qed.

Lemma init_c2_intrinsics_ok s :
  step_ok [UseMultiplyToLenIntrinsic; UseSquareToLenIntrinsic; UseMulAddIntrinsic;
           UseMontgomeryMultiplyIntrinsic; UseMontgomerySquareIntrinsic] []
          s (init_c2_intrinsics s).
Proof. unfold init_c2_intrinsics. step_ok_tac. Qed.

Lemma init_sve_max_vector_size_ok e s :
  step_ok [] [UseSVE; MaxVectorSize] s (state_of (init_sve_max_vector_size e s)).
Proof. unfold init_sve_max_vector_size. step_ok_tac. Qed.

Lemma init_neon_max_vector_size_ok s :
  step_ok [] [MaxVectorSize] s (state_of (init_neon_max_vector_size s)).
Proof. unfold init_neon_max_vector_size. step_ok_tac. Qed.

Lemma init_c2_scheduling_ok s :
  step_ok [OptoScheduling; AlignVector] [] s (init_c2_scheduling s).
Proof. unfold init_c2_scheduling. step_ok_tac. Qed.

Lemma unsupported_CriticalJNINatives_ok s :
  step_ok [CriticalJNINatives] [] s (unsupported_CriticalJNINatives s).
Proof. unfold unsupported_CriticalJNINatives. step_ok_tac. Qed.

Lemma set_spin_wait_ok d s : step_ok [] [] s (set_spin_wait d s).
Proof. step_ok_tac. Qed.

End Blocks.

Create HintDb blocks discriminated.

#[export] Hint Resolve init_probe_ok init_prefetch_defaults_ok
  init_prefetch_copy_interval_ok init_prefetch_alignment_ok
  init_padding_and_flush_ok rule_emag_ok rule_ampere_ok rule_thunderx_ok
  rule_thunderx2_ok rule_tsv110_ok rule_cortex_a53_ok rule_cortex_a73_ok
  rule_neoverse_ok rule_arm_ok init_crc32_ok init_lse_ok init_aes_ok
  init_crc32_intrinsics_ok init_sha_ok init_sha1_sha256_ok init_sha3_sha512_ok
  init_sha_reset_ok init_ghash_base64_ok init_block_zeroing_ok init_sve_tier_ok
  init_sve_length_ok init_unaligned_popcount_ok init_c2_intrinsics_ok
  init_sve_max_vector_size_ok init_neon_max_vector_size_ok init_c2_scheduling_ok
  unsupported_CriticalJNINatives_ok set_spin_wait_ok : blocks.

(** Peels the blocks of a composition off, the last one first. *)
Ltac chain :=
  first [ apply step_refl
        | eapply step_trans; [ | solve [ eauto with blocks nocore ] ]; chain ].

(** ** The phases of [initialize] *)

Lemma step_weaken (W W' : list BoolKnob) (V V' : list IntKnob) (s s' : VM) :
  (forall k, writes_b W' k = false -> writes_b W k = false) ->
  (forall k, writes_i V' k = false -> writes_i V k = false) ->
  step_ok W V s s' -> step_ok W' V' s s'.
Proof.
  intros Hb Hi H. constructor; try apply H.
  - intros k Hk. apply (ok_bval _ _ _ _ H), Hb, Hk.
  - intros k Hk. apply (ok_ival _ _ _ _ H), Hi, Hk.
Qed.

(** A write set given as a list contains another one. *)
Ltac weaker :=
  let k := fresh "k" in
  let H := fresh "H" in
  intros k; destruct k; cbn; intros H; first [ reflexivity | discriminate H ].

Ltac phase := eapply step_weaken; [ | | cbv zeta; chain ]; weaker.

Lemma step_bind (W1 W2 : list BoolKnob) (V1 V2 : list IntKnob)
    (s : VM) (r : Result VM) (k : VM -> Result VM) :
  step_ok W1 V1 s (state_of r) ->
  (forall s', r = Ok s' -> step_ok W2 V2 s' (state_of (k s'))) ->
  step_ok (W1 ++ W2) (V1 ++ V2) s (state_of (bind r k)).
Proof.
  intros H1 H2. destruct r as [s' | m st]; cbn [bind state_of] in *.
  - eapply step_trans; [ exact H1 | apply H2; reflexivity ].
  - eapply step_weaken; [ | | exact H1 ].
    + intros k0 Hk. apply writes_b_app in Hk. apply Hk.
    + intros k0 Hk. apply writes_i_app in Hk. apply Hk.
Qed.

Section Phases.

Context {P : Platform}.

Lemma scan_info_lines_ok virt1 vt1 virt2 vt2 lines s :
  step_ok [] [] s (snd (scan_info_lines virt1 vt1 virt2 vt2 lines s)).
Proof.
  induction lines as [| line rest IH]; cbn [scan_info_lines].
  - apply step_refl.
  - destruct (strcasestr line virt1); [ cbn [snd]; step_ok_tac | ].
    destruct (match virt2 with Some v2 => strcasestr line v2 | None => false end);
      [ cbn [snd]; step_ok_tac | exact IH ].
Qed.

Lemma check_info_file_ok e fpath virt1 vt1 virt2 vt2 s :
  step_ok [] [] s (snd (check_info_file e fpath virt1 vt1 virt2 vt2 s)).
Proof.
  unfold check_info_file. cbv zeta.
  destruct (fopen_lines e fpath) as [lines |].
  - apply (step_trans [] [] [] [] s (note_fopen fpath s)).
    + step_ok_tac.
    + apply scan_info_lines_ok.
  - cbn [snd]. step_ok_tac.
Qed.

Lemma check_virtualizations_ok e s : step_ok [] [] s (check_virtualizations e s).
Proof.
  unfold check_virtualizations. destruct LINUX; [ | apply step_refl ].
  pose proof (check_info_file_ok e pname_file "KVM" KVM (Some "VMWare") VMWare s) as H1.
  destruct (check_info_file e pname_file "KVM" KVM (Some "VMWare") VMWare s)
    as [found s1]. cbn [snd] in H1.
  destruct found; [ exact H1 | ].
  apply (step_trans [] [] [] [] s s1); [ exact H1 | apply check_info_file_ok ].
Qed.

#[local] Hint Resolve check_virtualizations_ok : blocks.

Lemma get_spin_wait_desc_state s m st :
  get_spin_wait_desc s = Fatal m st -> st = s.
Proof.
  unfold get_spin_wait_desc. splits; intros H; inversion H; reflexivity.
Qed.

Lemma initialize_finish_ok e s :
  step_ok [CriticalJNINatives] [] s (state_of (initialize_finish e s)).
Proof.
  unfold initialize_finish.
  destruct (get_spin_wait_desc s) as [d | m st] eqn:E; cbn [bind state_of].
  - phase.
  - apply get_spin_wait_desc_state in E. subst st.
    eapply step_weaken; [ | | apply step_refl ]; weaker.
Qed.

Lemma initialize_tuning_ok e s :
  step_ok early_bool_knobs early_int_knobs s (initialize_tuning e s).
Proof. unfold initialize_tuning. phase. Qed.

Lemma initialize_vendors_ok e s :
  step_ok early_bool_knobs early_int_knobs s (initialize_vendors e s).
Proof. unfold initialize_vendors. phase. Qed.

Lemma initialize_crc_lse_ok s :
  step_ok early_bool_knobs early_int_knobs s (initialize_crc_lse s).
Proof. unfold initialize_crc_lse. phase. Qed.

Lemma before_aes_ok e s :
  step_ok early_bool_knobs early_int_knobs s (before_aes e s).
Proof.
  unfold before_aes.
  eapply step_weaken;
    [ | | exact (step_trans _ _ _ _ _ _ _ (initialize_vendors_ok e s)
                   (initialize_crc_lse_ok (initialize_vendors e s))) ]; weaker.
Qed.

Lemma initialize_sha_ok s : step_ok sha_bool_knobs [] s (initialize_sha s).
Proof. unfold initialize_sha. phase. Qed.

Lemma initialize_ghash_sve_ok e s :
  step_ok [UseGHASHIntrinsics; UseBASE64Intrinsics; UseBlockZeroing]
          [BlockZeroingLowLimit; UseSVE] s (initialize_ghash_sve e s).
Proof. unfold initialize_ghash_sve. phase. Qed.

Lemma initialize_rest_ok e s :
  step_ok late_bool_knobs late_int_knobs s (initialize_rest e s).
Proof.
  unfold initialize_rest. cbv zeta.
  eapply step_weaken;
    [ | | eapply step_trans;
            [ apply initialize_ghash_sve_ok | apply init_unaligned_popcount_ok ] ];
    weaker.
Qed.

Lemma init_compiler2_ok e s :
  step_ok c2_bool_knobs c2_int_knobs s (state_of (init_compiler2 e s)).
Proof.
  unfold init_compiler2. destruct COMPILER2; cbv zeta.
  - eapply step_weaken;
      [ | | eapply step_trans;
              [ apply init_c2_intrinsics_ok
              | apply step_bind;
                  [ apply init_sve_max_vector_size_ok
                  | intros s1 _; apply step_bind;
                      [ apply init_neon_max_vector_size_ok
                      | intros s2 _; cbn [state_of]; apply init_c2_scheduling_ok ] ] ] ];
      weaker.
  - eapply step_weaken; [ | | apply step_refl ]; weaker.
Qed.

Lemma after_popcount_ok e s :
  step_ok c2_bool_knobs c2_int_knobs s (state_of (after_popcount e s)).
Proof.
  unfold after_popcount.
  eapply step_weaken;
    [ | | apply step_bind;
            [ apply init_compiler2_ok
            | intros s1 _; apply initialize_finish_ok ] ];
    weaker.
Qed.

Lemma after_sha_ok e s :
  step_ok late_bool_knobs late_int_knobs s (state_of (after_sha e s)).
Proof.
  unfold after_sha.
  eapply step_weaken;
    [ | | eapply step_trans;
            [ apply initialize_rest_ok | apply after_popcount_ok ] ];
    weaker.
Qed.

Lemma after_aes_ok e s :
  step_ok (sha_bool_knobs ++ late_bool_knobs) late_int_knobs s (state_of (after_aes e s)).
Proof.
  unfold after_aes.
  eapply step_weaken;
    [ | | eapply step_trans; [ apply initialize_sha_ok | apply after_sha_ok ] ];
    weaker.
Qed.

Lemma initialize_unfold e s :
  initialize e s =
  (s1 <- rule_thunderx e (initialize_tuning e s) ;;
   after_aes e (init_aes (before_aes e s1))).
Proof. reflexivity. Qed.

Lemma initialize_ok e s :
  step_ok all_bool_knobs all_int_knobs s (state_of (initialize e s)).
Proof.
  rewrite initialize_unfold.
  eapply step_weaken;
    [ | | eapply step_trans;
            [ apply initialize_tuning_ok
            | apply step_bind;
                [ apply rule_thunderx_ok
                | intros s1 _; eapply step_trans;
                    [ apply before_aes_ok
                    | eapply step_trans; [ apply init_aes_ok | apply after_aes_ok ] ] ] ] ];
    weaker.
Qed.

End Phases.

(** ** The feature bits up to line 278 *)

Create HintDb feats discriminated.

Section Features.

Context {P : Platform}.

Lemma feat_refl s : feat_ok s s.
Proof. constructor; auto. Qed.

Lemma feat_trans s s' s'' : feat_ok s s' -> feat_ok s' s'' -> feat_ok s s''.
Proof.
  intros H1 H2. constructor.
  - intros m Hm. apply (feat_present _ _ H2), (feat_present _ _ H1), Hm.
  - intros m Ha Hb Hm. apply (feat_absent _ _ H2); auto.
    apply (feat_absent _ _ H1); auto.
Qed.

Lemma feat_same s s' : _features s' = _features s -> feat_ok s s'.
Proof. intros E. constructor; rewrite E; auto. Qed.

Lemma feat_lor s s' c :
  _features s' = Z.lor (_features s) c ->
  c = CPU_A53MAC \/ c = CPU_STXR_PREFETCH ->
  feat_ok s s'.
Proof.
  intros E Hc. constructor; rewrite E; intros m.
  - intros Hm H0. rewrite Z.land_lor_distr_l in H0.
    apply Z.lor_eq_0_iff in H0. tauto.
  - intros Ha Hb Hm. rewrite Z.land_lor_distr_l, Hm.
    destruct Hc as [-> | ->]; [ rewrite Ha | rewrite Hb ]; reflexivity.
Qed.

Ltac feat_tac :=
  intros; splits;
  first [ apply feat_same; reflexivity
        | eapply feat_lor; [ reflexivity | auto ] ].

Lemma init_prefetch_defaults_feat e s : feat_ok s (init_prefetch_defaults e s).
Proof. unfold init_prefetch_defaults. feat_tac. Qed.

Lemma init_prefetch_copy_interval_feat s : feat_ok s (init_prefetch_copy_interval s).
Proof. unfold init_prefetch_copy_interval. feat_tac. Qed.

Lemma init_prefetch_alignment_feat s : feat_ok s (init_prefetch_alignment s).
Proof. unfold init_prefetch_alignment. feat_tac. Qed.

Lemma init_padding_and_flush_feat e s : feat_ok s (init_padding_and_flush e s).
Proof. unfold init_padding_and_flush. feat_tac. Qed.

Lemma rule_emag_feat e s : feat_ok s (rule_emag e s).
Proof. unfold rule_emag. feat_tac. Qed.

Lemma rule_ampere_feat e s : feat_ok s (rule_ampere e s).
Proof. unfold rule_ampere. feat_tac. Qed.

Lemma rule_thunderx_feat e s : feat_ok s (state_of (rule_thunderx e s)).
Proof. unfold rule_thunderx. feat_tac. Qed.

Lemma rule_thunderx2_feat e s : feat_ok s (rule_thunderx2 e s).
Proof. unfold rule_thunderx2. feat_tac. Qed.

Lemma rule_tsv110_feat e s : feat_ok s (rule_tsv110 e s).
Proof. unfold rule_tsv110. feat_tac. Qed.

Lemma rule_cortex_a53_feat e s : feat_ok s (rule_cortex_a53 e s).
Proof. unfold rule_cortex_a53. feat_tac. Qed.

Lemma rule_cortex_a73_feat e s : feat_ok s (rule_cortex_a73 e s).
Proof. unfold rule_cortex_a73. feat_tac. Qed.

Lemma rule_neoverse_feat e s : feat_ok s (rule_neoverse e s).
Proof. unfold rule_neoverse. feat_tac. Qed.

Lemma rule_arm_feat e s : feat_ok s (rule_arm e s).
Proof. unfold rule_arm. feat_tac. Qed.

Lemma init_crc32_feat s : feat_ok s (init_crc32 s).
Proof. unfold init_crc32. feat_tac. Qed.

Lemma init_lse_feat s : feat_ok s (init_lse s).
Proof. unfold init_lse. feat_tac. Qed.

#[local] Hint Resolve init_prefetch_defaults_feat init_prefetch_copy_interval_feat
  init_prefetch_alignment_feat init_padding_and_flush_feat rule_emag_feat
  rule_ampere_feat rule_thunderx2_feat rule_tsv110_feat rule_cortex_a53_feat
  rule_cortex_a73_feat rule_neoverse_feat rule_arm_feat init_crc32_feat
  init_lse_feat : feats.

Ltac feat_chain :=
  first [ apply feat_refl
        | eapply feat_trans; [ | solve [ eauto with feats nocore ] ]; feat_chain ].

(** After the probe and the tuning rules the feature bits are the probed
    ones. *)
Lemma initialize_tuning_feat e s :
  feat_ok (init_probe e s) (initialize_tuning e s).
Proof. unfold initialize_tuning. cbv zeta. feat_chain. Qed.

Lemma before_aes_feat e s : feat_ok s (before_aes e s).
Proof.
  unfold before_aes, initialize_crc_lse, initialize_vendors. cbv zeta. feat_chain.
Qed.

Lemma init_probe_features e s : _features (init_probe e s) = probed_features e.
Proof. reflexivity. Qed.

(** Every run of [initialize] either exits at the ThunderX rule or reaches
    line 280 with a store [sa] that differs from the initial one only in
    the early flags and whose feature bits are the probed ones, up to the
    two synthetic bits. *)
Lemma initialize_path e s :
  (exists st, initialize e s = Fatal prerelease_msg st
              /\ step_ok early_bool_knobs early_int_knobs s st)
  \/ (exists sa, initialize e s = after_aes e (init_aes sa)
                 /\ step_ok early_bool_knobs early_int_knobs s sa
                 /\ feat_ok (init_probe e s) sa).
Proof.
  rewrite initialize_unfold.
  pose proof (rule_thunderx_ok e (initialize_tuning e s)) as Hs.
  pose proof (rule_thunderx_feat e (initialize_tuning e s)) as Hf.
  pose proof (initialize_tuning_ok e s) as Ht.
  destruct (rule_thunderx e (initialize_tuning e s)) as [s1 | m st] eqn:E;
    cbn [bind state_of] in *.
  - right. exists (before_aes e s1). split; [ reflexivity | split ].
    + eapply step_weaken;
        [ | | exact (step_trans _ _ _ _ _ _ _
                       (step_trans _ _ _ _ _ _ _ Ht Hs) (before_aes_ok e s1)) ];
        weaker.
    + eapply feat_trans; [ apply initialize_tuning_feat | ].
      eapply feat_trans; [ exact Hf | apply before_aes_feat ].
  - left. exists st. split.
    + unfold rule_thunderx in E. revert E. splits; intros E; inversion E; reflexivity.
    + eapply step_weaken; [ | | exact (step_trans _ _ _ _ _ _ _ Ht Hs) ]; weaker.
Qed.

End Features.

(** ** Case analysis of a block on the flags it reads *)

Ltac eval_goal :=
  cbv [FLAG_IS_DEFAULT FLAG_IS_CMDLINE FLAG_SET_DEFAULT FLAG_IS_DEFAULT_i FLAG_SET_DEFAULT_i
       FLAG_IS_DEFAULT_OnSpinWaitInst FLAG_SET_DEFAULT_OnSpinWaitInst
       assign assign_i assign_OnSpinWaitInst set_features set_data_cache_line_flush_size
       set_initial_sve_vector_length set_spin_wait set_detected_virtualization
       set_supports_atomics warning note_fopen has_feature
       bval borigin ival iorigin OnSpinWaitInst OnSpinWaitInst_origin _features
       _data_cache_line_flush_size _initial_sve_vector_length _spin_wait
       _detected_virtualization _supports_atomics warnings opened
       BoolKnob_beq IntKnob_beq state_of negb andb orb].

Ltac atoms bv bo :=
  repeat (match goal with
          | |- context [nonzero ?x] => destruct (nonzero x)
          | |- context [bv ?K] => destruct (bv K)
          | |- context [is_default (bo ?K)] => destruct (is_default (bo K))
          end; eval_goal).

Ltac close_case :=
  intros;
  repeat match goal with |- _ /\ _ => split end; intros;
  first [ reflexivity | assumption | congruence
        | solve [ repeat rewrite in_app_iff; cbn [In]; auto 6 ]
        | solve [ intuition congruence ] ].

(** The tests of the block are decided first, then the store is opened
    and every flag the statement mentions is given a value. *)
Ltac block_cases s :=
  cbv zeta; repeat split_if;
  repeat match goal with H : _ = _ |- _ => revert H end;
  let bv := fresh "bv" in
  let bo := fresh "bo" in
  destruct s as [bv bo ? ? ? ? ? ? ? ? ? ? ? ?];
  eval_goal; atoms bv bo; close_case.

Section Families.

Context {P : Platform}.

(** *** The AES family, lines 280-304 *)

Lemma init_aes_absent s :
  has_feature CPU_AES s = false ->
  let s' := init_aes s in
  bval s' UseAES = false /\ bval s' UseAESIntrinsics = false
  /\ bval s' UseAESCTRIntrinsics = false
  /\ (bval s UseAES = true -> In aes_unavailable_msg (warnings s'))
  /\ (bval s UseAESIntrinsics = true ->
      In aes_intrinsics_unavailable_msg (warnings s'))
  /\ (bval s UseAESCTRIntrinsics = true ->
      In aesctr_intrinsics_unavailable_msg (warnings s')).
Proof. unfold init_aes. block_cases s. Qed.

Lemma init_aes_implies s :
  bval (init_aes s) UseAESIntrinsics = true -> bval (init_aes s) UseAES = true.
Proof. unfold init_aes. block_cases s. Qed.

Lemma init_aes_requested s :
  has_feature CPU_AES s = true -> bval s UseAESIntrinsics = true ->
  let s' := init_aes s in
  bval s' UseAES = true /\ bval s' UseAESIntrinsics = true
  /\ (is_default (borigin s UseAES) = false -> bval s UseAES = false ->
      In aes_enabling_msg (warnings s')).
Proof. unfold init_aes. block_cases s. Qed.

Lemma init_aes_explicit_off s :
  is_default (borigin s UseAES) = false -> bval s UseAES = false ->
  let s' := init_aes s in
  bval s' UseAES = true ->
  bval s' UseAESIntrinsics = true /\ In aes_enabling_msg (warnings s').
Proof. unfold init_aes. block_cases s. Qed.

Lemma init_aes_master s :
  is_default (borigin s UseAESIntrinsics) = true
  \/ is_default (borigin s UseAESCTRIntrinsics) = true ->
  let s' := init_aes s in
  bval s' UseAES = true ->
  bval s' UseAESIntrinsics || bval s' UseAESCTRIntrinsics = true.
Proof. unfold init_aes. block_cases s. Qed.

(** *** The SHA family, lines 374-376 *)

Lemma init_sha_reset_master s :
  let s' := init_sha_reset s in
  bval s' UseSHA = true ->
  bval s' UseSHA1Intrinsics || bval s' UseSHA256Intrinsics
  || bval s' UseSHA3Intrinsics || bval s' UseSHA512Intrinsics = true.
Proof. unfold init_sha_reset. block_cases s. Qed.

(** *** The population count, lines 433-440 *)

Lemma init_unaligned_popcount_on s :
  let s' := init_unaligned_popcount s in
  bval s' UsePopCountInstruction = true
  /\ (is_default (borigin s UsePopCountInstruction) = false ->
      bval s UsePopCountInstruction = false ->
      In popcount_msg (warnings s')).
Proof. unfold init_unaligned_popcount. block_cases s. Qed.

End Families.

(** ** Runs of [initialize] *)

Section Runs.

Context {P : Platform}.

Lemma state_of_Ok (r : Result VM) (s : VM) : r = Ok s -> state_of r = s.
Proof. intros ->. reflexivity. Qed.

(** A run that completes went through line 280. *)
Lemma initialize_completed e s s' :
  initialize e s = Ok s' ->
  exists sa, step_ok early_bool_knobs early_int_knobs s sa
             /\ feat_ok (init_probe e s) sa
             /\ after_aes e (init_aes sa) = Ok s'.
Proof.
  intros H. destruct (initialize_path e s) as [[st [E _]] | [sa [E [Hs Hf]]]].
  - rewrite E in H. discriminate H.
  - exists sa. rewrite E in H. auto.
Qed.

Lemma cmdline_not_default (o : Origin) : o = COMMAND_LINE -> is_default o = false.
Proof. intros ->. reflexivity. Qed.

(** The final value of a flag the tail of [initialize] does not write. *)
Lemma after_aes_bval e s k :
  writes_b (sha_bool_knobs ++ late_bool_knobs) k = false ->
  bval (state_of (after_aes e s)) k = bval s k.
Proof. apply (ok_bval _ _ _ _ (after_aes_ok e s)). Qed.

Lemma after_sha_bval e s k :
  writes_b late_bool_knobs k = false ->
  bval (state_of (after_sha e s)) k = bval s k.
Proof. apply (ok_bval _ _ _ _ (after_sha_ok e s)). Qed.

Lemma after_popcount_bval e s k :
  writes_b c2_bool_knobs k = false ->
  bval (state_of (after_popcount e s)) k = bval s k.
Proof. apply (ok_bval _ _ _ _ (after_popcount_ok e s)). Qed.

Lemma early_bval s sa k :
  step_ok early_bool_knobs early_int_knobs s sa ->
  writes_b early_bool_knobs k = false -> bval sa k = bval s k.
Proof. intros H. apply (ok_bval _ _ _ _ H). Qed.

End Runs.

(** ** C1: flags the operator switched off *)

Section ExplicitFalse.

Context {P : Platform}.

(** C1, as amended.  A boolean flag set to false on the command line is
    still false in the store [initialize] ends with (at its return or at
    its fatal exit), whatever the feature bits, for every flag except two.
    [UseAES] set to false comes out true only together with
    [UseAESIntrinsics], under the warning that it is being enabled;
    [UsePopCountInstruction] set to false always comes out true when the
    run completes, under the warning that it is always enabled. *)
Theorem explicit_false_sticky e s k :
  borigin s k = COMMAND_LINE -> bval s k = false ->
  let s' := state_of (initialize e s) in
  (k <> UsePopCountInstruction -> k <> UseAES -> bval s' k = false)
  /\ (k = UseAES -> bval s' UseAES = true ->
      bval s' UseAESIntrinsics = true /\ In aes_enabling_msg (warnings s'))
  /\ (k = UsePopCountInstruction -> completes (initialize e s) = true ->
      bval s' UsePopCountInstruction = true /\ In popcount_msg (warnings s')).
Proof.
  intros Ho Hv s'. apply cmdline_not_default in Ho. split; [ | split ].
  - intros Hp Ha. apply (ok_sticky _ _ _ _ (initialize_ok e s)); assumption.
  - intros -> Hon. subst s'.
    destruct (initialize_path e s) as [[st [E Hs]] | [sa [E [Hs Hf]]]];
      rewrite E in *; cbn [state_of] in *.
    + rewrite (early_bval _ _ UseAES Hs eq_refl) in Hon. congruence.
    + rewrite after_aes_bval in Hon by reflexivity.
      rewrite after_aes_bval by reflexivity.
      destruct (init_aes_explicit_off sa) as [Hi Hw]; auto.
      * rewrite (ok_borigin _ _ _ _ Hs). exact Ho.
      * rewrite (early_bval _ _ UseAES Hs eq_refl). exact Hv.
      * split; [ exact Hi | ].
        apply (ok_warnings _ _ _ _ (after_aes_ok e (init_aes sa))), Hw.
  - intros -> Hc. subst s'.
    destruct (initialize e s) as [sf | m st] eqn:E; [ | discriminate Hc ].
    destruct (initialize_completed e s sf E) as [sa [Hs [Hf Ht]]].
    cbn [state_of]. rewrite <- (state_of_Ok _ _ Ht).
    unfold after_aes, after_sha, initialize_rest. cbv zeta.
    set (y := initialize_ghash_sve e (initialize_sha (init_aes sa))).
    assert (Hy : step_ok (early_bool_knobs ++ [UseAES; UseAESIntrinsics; UseAESCTRIntrinsics]
                            ++ sha_bool_knobs
                            ++ [UseGHASHIntrinsics; UseBASE64Intrinsics; UseBlockZeroing])
                         (early_int_knobs ++ [] ++ [] ++ [BlockZeroingLowLimit; UseSVE])
                         s y).
    { eapply step_trans; [ exact Hs | ].
      eapply step_trans; [ apply init_aes_ok | ].
      eapply step_trans; [ apply initialize_sha_ok | apply initialize_ghash_sve_ok ]. }
    destruct (init_unaligned_popcount_on y) as [Hon Hw].
    rewrite after_popcount_bval by reflexivity. split; [ exact Hon | ].
    apply (ok_warnings _ _ _ _ (after_popcount_ok e (init_unaligned_popcount y))).
    apply Hw.
    + rewrite (ok_borigin _ _ _ _ Hy). exact Ho.
    + rewrite (ok_bval _ _ _ _ Hy UsePopCountInstruction eq_refl). exact Hv.
Qed.

End ExplicitFalse.

(** C1 at [-XX:-UseLSE] on a machine with LSE. *)
Lemma explicit_false_sticky_witness :
  let s' := state_of (@initialize linux_c2 neoverse_n1
                        (on_cmdline UseLSE false untouched_flags)) in
  (UseLSE <> UsePopCountInstruction -> UseLSE <> UseAES -> bval s' UseLSE = false)
  /\ (UseLSE = UseAES -> bval s' UseAES = true ->
      bval s' UseAESIntrinsics = true /\ In aes_enabling_msg (warnings s'))
  /\ (UseLSE = UsePopCountInstruction ->
      completes (@initialize linux_c2 neoverse_n1
                   (on_cmdline UseLSE false untouched_flags)) = true ->
      bval s' UsePopCountInstruction = true /\ In popcount_msg (warnings s')).
Proof.
  apply (@explicit_false_sticky linux_c2 neoverse_n1
           (on_cmdline UseLSE false untouched_flags) UseLSE); reflexivity.
Defined.

(** C1 as stated fails: with [-XX:-UsePopCountInstruction] the run
    completes and the flag is true at the end. *)
Lemma explicit_false_popcount_overridden :
  let s := on_cmdline UsePopCountInstruction false untouched_flags in
  borigin s UsePopCountInstruction = COMMAND_LINE
  /\ bval s UsePopCountInstruction = false
  /\ completes (@initialize linux_c2 neoverse_n1 s) = true
  /\ bval (state_of (@initialize linux_c2 neoverse_n1 s)) UsePopCountInstruction = true.
Proof. vm_compute. repeat split; reflexivity. Qed.

(** ** C3: master switches and their intrinsics *)

Section Masters.

Context {P : Platform}.

(** C3, as amended.  After [initialize] completes, [UseSHA] is on only if
    one of the four SHA intrinsics is on, and it is off when all four are
    off.  For the AES family the code has no such reset: [UseAES] on
    implies an AES intrinsic on whenever [UseAESIntrinsics] or
    [UseAESCTRIntrinsics] was left at its default. *)
Theorem no_dangling_master e s s' :
  initialize e s = Ok s' ->
  (bval s' UseSHA = true ->
   bval s' UseSHA1Intrinsics || bval s' UseSHA256Intrinsics
   || bval s' UseSHA3Intrinsics || bval s' UseSHA512Intrinsics = true)
  /\ (bval s' UseSHA1Intrinsics = false -> bval s' UseSHA256Intrinsics = false ->
      bval s' UseSHA3Intrinsics = false -> bval s' UseSHA512Intrinsics = false ->
      bval s' UseSHA = false)
  /\ (is_default (borigin s UseAESIntrinsics) = true
      \/ is_default (borigin s UseAESCTRIntrinsics) = true ->
      (bval s' UseAES = true ->
       bval s' UseAESIntrinsics || bval s' UseAESCTRIntrinsics = true)
      /\ (bval s' UseAESIntrinsics = false -> bval s' UseAESCTRIntrinsics = false ->
          bval s' UseAES = false)).
Proof.
  intros H.
  destruct (initialize_completed e s s' H) as [sa [Hs [Hf Ht]]].
  apply state_of_Ok in Ht. subst s'.
  assert (Hsha : bval (state_of (after_aes e (init_aes sa))) UseSHA = true ->
                 bval (state_of (after_aes e (init_aes sa))) UseSHA1Intrinsics
                 || bval (state_of (after_aes e (init_aes sa))) UseSHA256Intrinsics
                 || bval (state_of (after_aes e (init_aes sa))) UseSHA3Intrinsics
                 || bval (state_of (after_aes e (init_aes sa))) UseSHA512Intrinsics = true).
  { unfold after_aes, initialize_sha. cbv zeta.
    rewrite !after_sha_bval by reflexivity. apply init_sha_reset_master. }
  assert (Haes : is_default (borigin s UseAESIntrinsics) = true
                 \/ is_default (borigin s UseAESCTRIntrinsics) = true ->
                 bval (state_of (after_aes e (init_aes sa))) UseAES = true ->
                 bval (state_of (after_aes e (init_aes sa))) UseAESIntrinsics
                 || bval (state_of (after_aes e (init_aes sa))) UseAESCTRIntrinsics = true).
  { intros Hd. rewrite !after_aes_bval by reflexivity.
    apply init_aes_master. rewrite (ok_borigin _ _ _ _ Hs). exact Hd. }
  split; [ exact Hsha | split ].
  - intros H1 H2 H3 H4. rewrite H1, H2, H3, H4 in Hsha.
    destruct (bval (state_of (after_aes e (init_aes sa))) UseSHA); [ | reflexivity ].
    discriminate (Hsha eq_refl).
  - intros Hd. split; [ exact (Haes Hd) | ].
    intros H1 H2. rewrite H1, H2 in Haes.
    destruct (bval (state_of (after_aes e (init_aes sa))) UseAES); [ | reflexivity ].
    discriminate (Haes Hd eq_refl).
Qed.

End Masters.

(** C3 on a Neoverse N1 with nothing set by the operator. *)
Lemma no_dangling_master_witness :
  let s' := state_of (@initialize linux_c2 neoverse_n1 untouched_flags) in
  (bval s' UseSHA = true ->
   bval s' UseSHA1Intrinsics || bval s' UseSHA256Intrinsics
   || bval s' UseSHA3Intrinsics || bval s' UseSHA512Intrinsics = true)
  /\ (bval s' UseSHA1Intrinsics = false -> bval s' UseSHA256Intrinsics = false ->
      bval s' UseSHA3Intrinsics = false -> bval s' UseSHA512Intrinsics = false ->
      bval s' UseSHA = false)
  /\ (is_default (borigin untouched_flags UseAESIntrinsics) = true
      \/ is_default (borigin untouched_flags UseAESCTRIntrinsics) = true ->
      (bval s' UseAES = true ->
       bval s' UseAESIntrinsics || bval s' UseAESCTRIntrinsics = true)
      /\ (bval s' UseAESIntrinsics = false -> bval s' UseAESCTRIntrinsics = false ->
          bval s' UseAES = false)).
Proof.
  apply (@no_dangling_master linux_c2 neoverse_n1 untouched_flags).
  vm_compute. reflexivity.
Defined.

(** C3 as stated fails for the AES family: on AES hardware, with both AES
    intrinsics switched off on the command line, the run completes with
    [UseAES] on and no AES intrinsic on. *)
Lemma aes_master_dangles :
  let s := on_cmdline UseAESIntrinsics false
             (on_cmdline UseAESCTRIntrinsics false untouched_flags) in
  completes (@initialize linux_c2 neoverse_n1 s) = true
  /\ bval (state_of (@initialize linux_c2 neoverse_n1 s)) UseAES = true
  /\ bval (state_of (@initialize linux_c2 neoverse_n1 s)) UseAESIntrinsics = false
  /\ bval (state_of (@initialize linux_c2 neoverse_n1 s)) UseAESCTRIntrinsics = false.
Proof. vm_compute. repeat split; reflexivity. Qed.

(** ** Boolean flags never decide a fatal exit *)

Ltac push :=
  cbn [bval borigin ival iorigin OnSpinWaitInst OnSpinWaitInst_origin _features
       _data_cache_line_flush_size _initial_sve_vector_length _spin_wait
       _detected_virtualization _supports_atomics warnings opened
       assign assign_i assign_OnSpinWaitInst set_features set_data_cache_line_flush_size
       set_initial_sve_vector_length set_spin_wait set_detected_virtualization
       set_supports_atomics warning note_fopen strip
       FLAG_SET_DEFAULT FLAG_SET_DEFAULT_i FLAG_SET_DEFAULT_OnSpinWaitInst state_of
       is_default is_cmdline].

(** A block run on a store and on the stripped store. *)
Ltac ctl_tac :=
  intros;
  unfold FLAG_IS_DEFAULT, FLAG_IS_DEFAULT_i, FLAG_IS_DEFAULT_OnSpinWaitInst,
    FLAG_IS_CMDLINE, has_feature, ctl_res;
  cbv zeta;
  repeat (push; try split_if);
  first [ exact I | constructor; push; reflexivity ].

Lemma ctl_refl s : ctl_eq s s.
Proof. constructor; reflexivity. Qed.

Lemma ctl_sym s1 s2 : ctl_eq s1 s2 -> ctl_eq s2 s1.
Proof. intros [H1 H2 H3 H4 H5 H6]. constructor; auto. Qed.

Lemma ctl_trans s1 s2 s3 : ctl_eq s1 s2 -> ctl_eq s2 s3 -> ctl_eq s1 s3.
Proof.
  intros [H1 H2 H3 H4 H5 H6] [G1 G2 G3 G4 G5 G6].
  constructor; congruence.
Qed.

Lemma strip_eq s1 s2 : ctl_eq s1 s2 -> strip s1 = strip s2.
Proof.
  intros [H1 H2 H3 H4 H5 H6]. unfold strip.
  rewrite H1, H2, H3, H4, H5, H6. reflexivity.
Qed.

Lemma ctl_res_sym r1 r2 : ctl_res r1 r2 -> ctl_res r2 r1.
Proof.
  destruct r1, r2; cbn; auto. apply ctl_sym.
Qed.

Lemma ctl_res_trans r1 r2 r3 : ctl_res r1 r2 -> ctl_res r2 r3 -> ctl_res r1 r3.
Proof.
  destruct r1, r2, r3; cbn; auto; try tauto. apply ctl_trans.
Qed.

(** A block that agrees with itself on the stripped store respects the
    relation. *)
Lemma ctl_congr (B : VM -> VM) :
  (forall s, ctl_eq (B s) (B (strip s))) ->
  forall s1 s2, ctl_eq s1 s2 -> ctl_eq (B s1) (B s2).
Proof.
  intros HB s1 s2 H.
  apply (ctl_trans _ (B (strip s1))); [ apply HB | ].
  rewrite (strip_eq _ _ H). apply ctl_sym, HB.
Qed.

Lemma ctl_res_congr (B : VM -> Result VM) :
  (forall s, ctl_res (B s) (B (strip s))) ->
  forall s1 s2, ctl_eq s1 s2 -> ctl_res (B s1) (B s2).
Proof.
  intros HB s1 s2 H.
  apply (ctl_res_trans _ (B (strip s1))); [ apply HB | ].
  rewrite (strip_eq _ _ H). apply ctl_res_sym, HB.
Qed.

Lemma ctl_res_bind (r1 r2 : Result VM) (k1 k2 : VM -> Result VM) :
  ctl_res r1 r2 ->
  (forall a b, ctl_eq a b -> ctl_res (k1 a) (k2 b)) ->
  ctl_res (bind r1 k1) (bind r2 k2).
Proof.
  destruct r1, r2; cbn; intros H K; auto; contradiction.
Qed.

Lemma ctl_res_completes r1 r2 : ctl_res r1 r2 -> completes r1 = completes r2.
Proof. destruct r1, r2; cbn; tauto. Qed.

Section Control.

Context {P : Platform}.

Lemma init_probe_ctl e s : ctl_eq (init_probe e s) (init_probe e (strip s)).
Proof. unfold init_probe. ctl_tac. Qed.

Lemma init_prefetch_defaults_ctl e s :
  ctl_eq (init_prefetch_defaults e s) (init_prefetch_defaults e (strip s)).
Proof. unfold init_prefetch_defaults. ctl_tac. Qed.

Lemma init_prefetch_copy_interval_ctl s :
  ctl_eq (init_prefetch_copy_interval s) (init_prefetch_copy_interval (strip s)).
Proof. unfold init_prefetch_copy_interval. ctl_tac. Qed.

Lemma init_prefetch_alignment_ctl s :
  ctl_eq (init_prefetch_alignment s) (init_prefetch_alignment (strip s)).
Proof. unfold init_prefetch_alignment. ctl_tac. Qed.

Lemma init_padding_and_flush_ctl e s :
  ctl_eq (init_padding_and_flush e s) (init_padding_and_flush e (strip s)).
Proof. unfold init_padding_and_flush. ctl_tac. Qed.

Lemma rule_emag_ctl e s : ctl_eq (rule_emag e s) (rule_emag e (strip s)).
Proof. unfold rule_emag. ctl_tac. Qed.

Lemma rule_ampere_ctl e s : ctl_eq (rule_ampere e s) (rule_ampere e (strip s)).
Proof. unfold rule_ampere. ctl_tac. Qed.

Lemma rule_thunderx_ctl e s : ctl_res (rule_thunderx e s) (rule_thunderx e (strip s)).
Proof. unfold rule_thunderx. ctl_tac. Qed.

Lemma rule_thunderx2_ctl e s : ctl_eq (rule_thunderx2 e s) (rule_thunderx2 e (strip s)).
Proof. unfold rule_thunderx2. ctl_tac. Qed.

Lemma rule_tsv110_ctl e s : ctl_eq (rule_tsv110 e s) (rule_tsv110 e (strip s)).
Proof. unfold rule_tsv110. ctl_tac. Qed.

Lemma rule_cortex_a53_ctl e s : ctl_eq (rule_cortex_a53 e s) (rule_cortex_a53 e (strip s)).
Proof. unfold rule_cortex_a53. ctl_tac. Qed.

Lemma rule_cortex_a73_ctl e s : ctl_eq (rule_cortex_a73 e s) (rule_cortex_a73 e (strip s)).
Proof. unfold rule_cortex_a73. ctl_tac. Qed.

Lemma rule_neoverse_ctl e s : ctl_eq (rule_neoverse e s) (rule_neoverse e (strip s)).
Proof. unfold rule_neoverse. ctl_tac. Qed.

Lemma rule_arm_ctl e s : ctl_eq (rule_arm e s) (rule_arm e (strip s)).
Proof. unfold rule_arm. ctl_tac. Qed.

Lemma init_crc32_ctl s : ctl_eq (init_crc32 s) (init_crc32 (strip s)).
Proof. unfold init_crc32. ctl_tac. Qed.

Lemma init_lse_ctl s : ctl_eq (init_lse s) (init_lse (strip s)).
Proof. unfold init_lse. ctl_tac. Qed.

Lemma init_aes_ctl s : ctl_eq (init_aes s) (init_aes (strip s)).
Proof. unfold init_aes. ctl_tac. Qed.

Lemma init_crc32_intrinsics_ctl s :
  ctl_eq (init_crc32_intrinsics s) (init_crc32_intrinsics (strip s)).
Proof. unfold init_crc32_intrinsics. ctl_tac. Qed.

Lemma init_sha_ctl s : ctl_eq (init_sha s) (init_sha (strip s)).
Proof. unfold init_sha. ctl_tac. Qed.

Lemma init_sha1_sha256_ctl s : ctl_eq (init_sha1_sha256 s) (init_sha1_sha256 (strip s)).
Proof. unfold init_sha1_sha256. ctl_tac. Qed.

Lemma init_sha3_sha512_ctl s : ctl_eq (init_sha3_sha512 s) (init_sha3_sha512 (strip s)).
Proof. unfold init_sha3_sha512. ctl_tac. Qed.

Lemma init_sha_reset_ctl s : ctl_eq (init_sha_reset s) (init_sha_reset (strip s)).
Proof. unfold init_sha_reset. ctl_tac. Qed.

Lemma init_ghash_base64_ctl s : ctl_eq (init_ghash_base64 s) (init_ghash_base64 (strip s)).
Proof. unfold init_ghash_base64. ctl_tac. Qed.

Lemma init_block_zeroing_ctl e s :
  ctl_eq (init_block_zeroing e s) (init_block_zeroing e (strip s)).
Proof. unfold init_block_zeroing. ctl_tac. Qed.

Lemma init_sve_tier_ctl s : ctl_eq (init_sve_tier s) (init_sve_tier (strip s)).
Proof. unfold init_sve_tier. ctl_tac. Qed.

Lemma init_sve_length_ctl e s : ctl_eq (init_sve_length e s) (init_sve_length e (strip s)).
Proof. unfold init_sve_length. ctl_tac. Qed.

Lemma init_unaligned_popcount_ctl s :
  ctl_eq (init_unaligned_popcount s) (init_unaligned_popcount (strip s)).
Proof. unfold init_unaligned_popcount. ctl_tac. Qed.

Lemma init_c2_intrinsics_ctl s :
  ctl_eq (init_c2_intrinsics s) (init_c2_intrinsics (strip s)).
Proof. unfold init_c2_intrinsics. ctl_tac. Qed.

Lemma init_sve_max_vector_size_ctl e s :
  ctl_res (init_sve_max_vector_size e s) (init_sve_max_vector_size e (strip s)).
Proof. unfold init_sve_max_vector_size. ctl_tac. Qed.

Lemma init_neon_max_vector_size_ctl s :
  ctl_res (init_neon_max_vector_size s) (init_neon_max_vector_size (strip s)).
Proof. unfold init_neon_max_vector_size. ctl_tac. Qed.

Lemma init_c2_scheduling_ctl s :
  ctl_eq (init_c2_scheduling s) (init_c2_scheduling (strip s)).
Proof. unfold init_c2_scheduling. ctl_tac. Qed.

Lemma unsupported_CriticalJNINatives_ctl s :
  ctl_eq (unsupported_CriticalJNINatives s) (unsupported_CriticalJNINatives (strip s)).
Proof. unfold unsupported_CriticalJNINatives. ctl_tac. Qed.

End Control.

Create HintDb ctls discriminated.

#[export] Hint Resolve init_probe_ctl init_prefetch_defaults_ctl
  init_prefetch_copy_interval_ctl init_prefetch_alignment_ctl
  init_padding_and_flush_ctl rule_emag_ctl rule_ampere_ctl
  rule_thunderx2_ctl rule_tsv110_ctl rule_cortex_a53_ctl rule_cortex_a73_ctl
  rule_neoverse_ctl rule_arm_ctl init_crc32_ctl init_lse_ctl init_aes_ctl
  init_crc32_intrinsics_ctl init_sha_ctl init_sha1_sha256_ctl init_sha3_sha512_ctl
  init_sha_reset_ctl init_ghash_base64_ctl init_block_zeroing_ctl init_sve_tier_ctl
  init_sve_length_ctl init_unaligned_popcount_ctl init_c2_intrinsics_ctl
  init_c2_scheduling_ctl unsupported_CriticalJNINatives_ctl : ctls.

(** Two related stores stay related through a composition of blocks. *)
Ltac ctl_step :=
  match goal with
  | |- ctl_eq (?B ?x) (?B ?y) =>
      apply (ctl_congr B); [ intros; solve [ eauto with ctls nocore ] | ]
  end.

Ltac ctl_chain := cbv zeta; repeat ctl_step; try assumption.

Section ControlRuns.

Context {P : Platform}.

Lemma scan_info_lines_ctl virt1 vt1 virt2 vt2 lines s :
  ctl_eq s (snd (scan_info_lines virt1 vt1 virt2 vt2 lines s)).
Proof.
  induction lines as [| line rest IH]; cbn [scan_info_lines].
  - apply ctl_refl.
  - destruct (strcasestr line virt1); [ constructor; reflexivity | ].
    destruct (match virt2 with Some v2 => strcasestr line v2 | None => false end);
      [ constructor; reflexivity | exact IH ].
Qed.

Lemma check_info_file_ctl e fpath virt1 vt1 virt2 vt2 s :
  ctl_eq s (snd (check_info_file e fpath virt1 vt1 virt2 vt2 s)).
Proof.
  unfold check_info_file. cbv zeta.
  destruct (fopen_lines e fpath) as [lines |].
  - apply (ctl_trans _ (note_fopen fpath s));
      [ constructor; reflexivity | apply scan_info_lines_ctl ].
  - constructor; reflexivity.
Qed.

Lemma check_virtualizations_same e s : ctl_eq s (check_virtualizations e s).
Proof.
  unfold check_virtualizations. destruct LINUX; [ | apply ctl_refl ].
  pose proof (check_info_file_ctl e pname_file "KVM" KVM (Some "VMWare") VMWare s) as H1.
  destruct (check_info_file e pname_file "KVM" KVM (Some "VMWare") VMWare s)
    as [found s1]. cbn [snd] in H1.
  destruct found; [ exact H1 | ].
  apply (ctl_trans _ s1); [ exact H1 | apply check_info_file_ctl ].
Qed.

Lemma check_virtualizations_ctl e s1 s2 :
  ctl_eq s1 s2 -> ctl_eq (check_virtualizations e s1) (check_virtualizations e s2).
Proof.
  intros H. apply (ctl_trans _ s1); [ apply ctl_sym, check_virtualizations_same | ].
  apply (ctl_trans _ s2); [ exact H | apply check_virtualizations_same ].
Qed.

(** The descriptor and the exits of [get_spin_wait_desc] depend on the
    integer flags and the instruction name only. *)
Lemma get_spin_wait_desc_ctl s1 s2 :
  ctl_eq s1 s2 ->
  match get_spin_wait_desc s1, get_spin_wait_desc s2 with
  | Ok d1, Ok d2 => d1 = d2
  | Fatal m1 _, Fatal m2 _ => m1 = m2
  | _, _ => False
  end.
Proof.
  intros [H1 H2 H3 H4 H5 H6]. unfold get_spin_wait_desc, FLAG_IS_DEFAULT_i.
  rewrite H1, H2, H3. splits; reflexivity.
Qed.

Lemma initialize_finish_ctl e s1 s2 :
  ctl_eq s1 s2 -> ctl_res (initialize_finish e s1) (initialize_finish e s2).
Proof.
  intros H. unfold initialize_finish.
  pose proof (get_spin_wait_desc_ctl s1 s2 H) as Hd.
  destruct (get_spin_wait_desc s1) as [d1 | m1 t1],
           (get_spin_wait_desc s2) as [d2 | m2 t2];
    cbn [bind ctl_res]; try contradiction; [ | exact I ].
  subst d2. unfold ctl_res. ctl_chain.
  apply check_virtualizations_ctl.
  destruct H as [H1 H2 H3 H4 H5 H6]. constructor; assumption.
Qed.

Lemma init_compiler2_ctl e s1 s2 :
  ctl_eq s1 s2 -> ctl_res (init_compiler2 e s1) (init_compiler2 e s2).
Proof.
  intros H. unfold init_compiler2. destruct COMPILER2; [ | exact H ].
  cbv zeta. apply ctl_res_bind.
  - apply (ctl_res_congr (init_sve_max_vector_size e));
      [ apply init_sve_max_vector_size_ctl | ].
    ctl_chain.
  - intros a b Hab. apply ctl_res_bind.
    + apply (ctl_res_congr init_neon_max_vector_size);
        [ apply init_neon_max_vector_size_ctl | exact Hab ].
    + intros a' b' Hab'. unfold ctl_res. ctl_chain.
Qed.

Lemma after_thunderx_ctl e s1 s2 :
  ctl_eq s1 s2 ->
  ctl_res (after_aes e (init_aes (before_aes e s1)))
          (after_aes e (init_aes (before_aes e s2))).
Proof.
  intros H. unfold after_aes, after_sha, after_popcount. apply ctl_res_bind.
  - apply init_compiler2_ctl.
    unfold before_aes, initialize_rest, initialize_ghash_sve,
      initialize_sha, initialize_crc_lse, initialize_vendors.
    ctl_chain.
  - intros a b Hab. apply initialize_finish_ctl, Hab.
Qed.

Lemma initialize_tuning_ctl e s1 s2 :
  ctl_eq s1 s2 -> ctl_eq (initialize_tuning e s1) (initialize_tuning e s2).
Proof. intros H. unfold initialize_tuning. ctl_chain. Qed.

(** Whether [initialize] returns or exits does not depend on any boolean
    flag. *)
Lemma initialize_ctl e s1 s2 :
  ctl_eq s1 s2 -> ctl_res (initialize e s1) (initialize e s2).
Proof.
  intros H. rewrite !initialize_unfold. apply ctl_res_bind.
  - apply (ctl_res_congr (rule_thunderx e)); [ apply rule_thunderx_ctl | ].
    apply initialize_tuning_ctl, H.
  - intros a b Hab. apply after_thunderx_ctl, Hab.
Qed.

(** The eMAG rule writes boolean flags only. *)
Lemma rule_emag_same e s : ctl_eq s (rule_emag e s).
Proof. unfold rule_emag. splits; constructor; reflexivity. Qed.

End ControlRuns.

(** ** C7 and C10: the AES family *)

Section AES.

Context {P : Platform}.

Lemma has_feature_absent s m : Z.land (_features s) m = 0 -> has_feature m s = false.
Proof. unfold has_feature, nonzero. intros ->. reflexivity. Qed.

Lemma has_feature_present s m : Z.land (_features s) m <> 0 -> has_feature m s = true.
Proof.
  unfold has_feature, nonzero. intros H.
  destruct (Z.eqb_spec (Z.land (_features s) m) 0); [ contradiction | reflexivity ].
Qed.

(** C7.  On hardware without the AES bit, with [UseAESIntrinsics] switched
    on by the operator: every run that completes ends with [UseAES] and
    [UseAESIntrinsics] off and has warned about each AES flag that was on;
    and the request has no part in whether the run completes, since it
    completes exactly when it does from any store with the same integer
    and string flags, whatever the boolean flags are. *)
Theorem aes_request_without_hardware e s :
  Z.land (probed_features e) CPU_AES = 0 ->
  Z.land CPU_A53MAC CPU_AES = 0 -> Z.land CPU_STXR_PREFETCH CPU_AES = 0 ->
  borigin s UseAESIntrinsics = COMMAND_LINE -> bval s UseAESIntrinsics = true ->
  (forall s', initialize e s = Ok s' ->
     bval s' UseAES = false /\ bval s' UseAESIntrinsics = false
     /\ In aes_intrinsics_unavailable_msg (warnings s')
     /\ (bval s UseAES = true -> In aes_unavailable_msg (warnings s'))
     /\ (bval s UseAESCTRIntrinsics = true ->
         In aesctr_intrinsics_unavailable_msg (warnings s')))
  /\ (forall s0, ctl_eq s s0 ->
      completes (initialize e s) = completes (initialize e s0)).
Proof.
  intros Hf Ha Hb Ho Hv. split.
  - intros s' H.
    destruct (initialize_completed e s s' H) as [sa [Hs [Hfe Ht]]].
    apply state_of_Ok in Ht. subst s'.
    assert (Hno : has_feature CPU_AES sa = false).
    { apply has_feature_absent, (feat_absent _ _ Hfe); auto. }
    destruct (init_aes_absent sa Hno) as [H1 [H2 [_ [H4 [H5 H6]]]]].
    pose proof (ok_warnings _ _ _ _ (after_aes_ok e (init_aes sa))) as Hw.
    rewrite !after_aes_bval by reflexivity.
    rewrite (early_bval _ _ UseAES Hs eq_refl) in H4.
    rewrite (early_bval _ _ UseAESIntrinsics Hs eq_refl) in H5.
    rewrite (early_bval _ _ UseAESCTRIntrinsics Hs eq_refl) in H6.
    repeat split; auto.
  - intros s0 H0. apply ctl_res_completes, initialize_ctl, H0.
Qed.

(** C10, as amended.  After a run that completes, [UseAESIntrinsics] on
    implies [UseAES] on.  On AES hardware a request for the intrinsics
    leaves both flags on, and when [UseAES] had been switched off by the
    operator the run has warned that it is enabling it. *)
Theorem aes_intrinsics_imply_aes e s s' :
  initialize e s = Ok s' ->
  (bval s' UseAESIntrinsics = true -> bval s' UseAES = true)
  /\ (Z.land (probed_features e) CPU_AES <> 0 ->
      borigin s UseAESIntrinsics = COMMAND_LINE -> bval s UseAESIntrinsics = true ->
      bval s' UseAES = true /\ bval s' UseAESIntrinsics = true
      /\ (is_default (borigin s UseAES) = false -> bval s UseAES = false ->
          In aes_enabling_msg (warnings s'))).
Proof.
  intros H.
  destruct (initialize_completed e s s' H) as [sa [Hs [Hfe Ht]]].
  apply state_of_Ok in Ht. subst s'.
  rewrite !after_aes_bval by reflexivity. split.
  - apply init_aes_implies.
  - intros Hf Ho Hv.
    assert (Hyes : has_feature CPU_AES sa = true).
    { apply has_feature_present, (feat_present _ _ Hfe). exact Hf. }
    destruct (init_aes_requested sa Hyes) as [H1 [H2 H3]].
    { rewrite (early_bval _ _ UseAESIntrinsics Hs eq_refl). exact Hv. }
    split; [ exact H1 | split; [ exact H2 | ] ].
    intros Hd Hoff.
    apply (ok_warnings _ _ _ _ (after_aes_ok e (init_aes sa))), H3.
    + rewrite (ok_borigin _ _ _ _ Hs). exact Hd.
    + rewrite (early_bval _ _ UseAES Hs eq_refl). exact Hoff.
Qed.

End AES.

(** C7 on a Cortex-A72 without AES, with [-XX:+UseAESIntrinsics]: the
    theorem applies, and the run completes. *)
Lemma aes_request_without_hardware_witness :
  let s := on_cmdline UseAESIntrinsics true untouched_flags in
  ((forall s', @initialize linux_c2 cortex_a72_plain s = Ok s' ->
      bval s' UseAES = false /\ bval s' UseAESIntrinsics = false
      /\ In aes_intrinsics_unavailable_msg (warnings s')
      /\ (bval s UseAES = true -> In aes_unavailable_msg (warnings s'))
      /\ (bval s UseAESCTRIntrinsics = true ->
          In aesctr_intrinsics_unavailable_msg (warnings s')))
   /\ (forall s0, ctl_eq s s0 ->
       completes (@initialize linux_c2 cortex_a72_plain s)
       = completes (@initialize linux_c2 cortex_a72_plain s0)))
  /\ completes (@initialize linux_c2 cortex_a72_plain s) = true.
Proof.
  intros s. split.
  - apply (@aes_request_without_hardware linux_c2 cortex_a72_plain s); reflexivity.
  - vm_compute. reflexivity.
Defined.

(** C10 on a Neoverse N1 with [-XX:+UseAESIntrinsics -XX:-UseAES]. *)
Lemma aes_intrinsics_imply_aes_witness :
  let s := on_cmdline UseAESIntrinsics true
             (on_cmdline UseAES false untouched_flags) in
  let s' := state_of (@initialize linux_c2 neoverse_n1 s) in
  (bval s' UseAESIntrinsics = true -> bval s' UseAES = true)
  /\ (Z.land (probed_features neoverse_n1) (@CPU_AES linux_c2) <> 0 ->
      borigin s UseAESIntrinsics = COMMAND_LINE -> bval s UseAESIntrinsics = true ->
      bval s' UseAES = true /\ bval s' UseAESIntrinsics = true
      /\ (is_default (borigin s UseAES) = false -> bval s UseAES = false ->
          In aes_enabling_msg (warnings s'))).
Proof.
  apply (@aes_intrinsics_imply_aes linux_c2 neoverse_n1).
  vm_compute. reflexivity.
Defined.

(** C10 as stated fails in its warning: on a Neoverse N1 started with
    [-XX:+UseAESIntrinsics] alone, [UseAES] is off at its default when the
    run starts; line 281 switches it on before the test of line 284, and
    the run ends with both flags on and nothing logged. *)
Lemma aes_enabled_without_warning :
  let s := on_cmdline UseAESIntrinsics true untouched_flags in
  let s' := state_of (@initialize linux_c2 neoverse_n1 s) in
  Z.land (probed_features neoverse_n1) (@CPU_AES linux_c2) <> 0
  /\ borigin s UseAESIntrinsics = COMMAND_LINE /\ bval s UseAESIntrinsics = true
  /\ bval s UseAES = false
  /\ completes (@initialize linux_c2 neoverse_n1 s) = true
  /\ bval s' UseAES = true /\ bval s' UseAESIntrinsics = true
  /\ warnings s' = [].
Proof. vm_compute. repeat split; try reflexivity. discriminate. Qed.

(** ** C4: pre-release ThunderX *)

Section ThunderX.

Context {P : Platform}.

Lemma rule_emag_other e s : _variant e <> 3 -> rule_emag e s = s.
Proof.
  intros H. unfold rule_emag.
  destruct (Z.eqb_spec (_variant e) 3); [ contradiction | ].
  rewrite andb_false_r. reflexivity.
Qed.

Lemma rule_ampere_other e s : _cpu e <> CPU_AMPERE -> rule_ampere e s = s.
Proof.
  intros H. unfold rule_ampere.
  destruct (Z.eqb_spec (_cpu e) CPU_AMPERE); [ contradiction | reflexivity ].
Qed.

Lemma init_compiler2_exit e s m st :
  init_compiler2 e s = Fatal m st -> m <> prerelease_msg.
Proof.
  unfold init_compiler2, init_sve_max_vector_size, init_neon_max_vector_size.
  cbv zeta. repeat split_if; cbn [bind]; repeat split_if;
    intros H; inversion H; discriminate.
Qed.

Lemma initialize_finish_exit e s m st :
  initialize_finish e s = Fatal m st -> m <> prerelease_msg.
Proof.
  unfold initialize_finish, get_spin_wait_desc.
  cbv zeta. repeat split_if; cbn [bind]; intros H; inversion H; discriminate.
Qed.

Lemma after_aes_exit e s m st : after_aes e s = Fatal m st -> m <> prerelease_msg.
Proof.
  unfold after_aes, after_sha, after_popcount.
  destruct (init_compiler2 e (initialize_rest e (initialize_sha s))) as [s1 | m1 t1] eqn:E;
    cbn [bind].
  - apply initialize_finish_exit.
  - intros H. inversion H. subst. eapply init_compiler2_exit, E.
Qed.

(** Apart from the eMAG and ThunderX rules, no block reads the variant. *)
Lemma init_probe_variant v e s : init_probe (with_variant v e) s = init_probe e s.
Proof. reflexivity. Qed.

Lemma init_prefetch_defaults_variant v e s :
  init_prefetch_defaults (with_variant v e) s = init_prefetch_defaults e s.
Proof. reflexivity. Qed.

Lemma init_padding_and_flush_variant v e s :
  init_padding_and_flush (with_variant v e) s = init_padding_and_flush e s.
Proof. reflexivity. Qed.

Lemma rule_ampere_variant v e s : rule_ampere (with_variant v e) s = rule_ampere e s.
Proof. reflexivity. Qed.

Lemma rule_thunderx2_variant v e s :
  rule_thunderx2 (with_variant v e) s = rule_thunderx2 e s.
Proof. reflexivity. Qed.

Lemma rule_tsv110_variant v e s : rule_tsv110 (with_variant v e) s = rule_tsv110 e s.
Proof. reflexivity. Qed.

Lemma rule_cortex_a53_variant v e s :
  rule_cortex_a53 (with_variant v e) s = rule_cortex_a53 e s.
Proof. reflexivity. Qed.

Lemma rule_cortex_a73_variant v e s :
  rule_cortex_a73 (with_variant v e) s = rule_cortex_a73 e s.
Proof. reflexivity. Qed.

Lemma rule_neoverse_variant v e s :
  rule_neoverse (with_variant v e) s = rule_neoverse e s.
Proof. reflexivity. Qed.

Lemma rule_arm_variant v e s : rule_arm (with_variant v e) s = rule_arm e s.
Proof. reflexivity. Qed.

Lemma init_block_zeroing_variant v e s :
  init_block_zeroing (with_variant v e) s = init_block_zeroing e s.
Proof. reflexivity. Qed.

Lemma init_sve_length_variant v e s :
  init_sve_length (with_variant v e) s = init_sve_length e s.
Proof. reflexivity. Qed.

Lemma before_aes_variant v e s : before_aes (with_variant v e) s = before_aes e s.
Proof.
  unfold before_aes, initialize_vendors. cbv zeta.
  rewrite rule_thunderx2_variant, rule_tsv110_variant, rule_cortex_a53_variant,
    rule_cortex_a73_variant, rule_neoverse_variant, rule_arm_variant.
  reflexivity.
Qed.

Lemma init_compiler2_variant v e s :
  init_compiler2 (with_variant v e) s = init_compiler2 e s.
Proof. reflexivity. Qed.

Lemma initialize_finish_variant v e s :
  initialize_finish (with_variant v e) s = initialize_finish e s.
Proof. reflexivity. Qed.

Lemma bind_ext {A B : Type} (r : Result A) (k1 k2 : A -> Result B) :
  (forall a, k1 a = k2 a) -> bind r k1 = bind r k2.
Proof. intros H. destruct r; cbn [bind]; auto. Qed.

Lemma after_aes_variant v e s : after_aes (with_variant v e) s = after_aes e s.
Proof.
  unfold after_aes, after_sha, after_popcount, initialize_rest, initialize_ghash_sve.
  cbv zeta.
  rewrite init_block_zeroing_variant, init_sve_length_variant, init_compiler2_variant.
  apply bind_ext. intros a. apply initialize_finish_variant.
Qed.

(** C4.  On a Cavium CPU of model 0xA1 with variant 0 the ThunderX rule
    exits with the pre-release message and leaves the store as it found
    it, so [initialize] exits there with the store of line 163: none of
    the three overrides of the rule is applied, and the flags
    [AvoidUnalignedAccesses] and [UseSIMDForArrayEquals] (and
    [UseSIMDForMemoryOps], Cavium not being Ampere) are as the operator
    left them.  For any other vendor and model the rule returns with the
    store unchanged, whatever the variant, [initialize] never exits with
    that message, and it completes with variant 0 exactly when it
    completes with the variant it has. *)
Theorem thunderx_prerelease e s :
  (_cpu e = CPU_CAVIUM -> _model e = 0xA1 -> _variant e = 0 ->
   rule_thunderx e s = Fatal prerelease_msg s
   /\ initialize e s = Fatal prerelease_msg (initialize_tuning e s)
   /\ bval (initialize_tuning e s) AvoidUnalignedAccesses = bval s AvoidUnalignedAccesses
   /\ bval (initialize_tuning e s) UseSIMDForArrayEquals = bval s UseSIMDForArrayEquals
   /\ (CPU_AMPERE <> CPU_CAVIUM ->
       bval (initialize_tuning e s) UseSIMDForMemoryOps = bval s UseSIMDForMemoryOps))
  /\ (~ (_cpu e = CPU_CAVIUM /\ _model e = 0xA1) -> rule_thunderx e s = Ok s)
  /\ (forall st, initialize e s = Fatal prerelease_msg st ->
      _cpu e = CPU_CAVIUM /\ _model e = 0xA1 /\ _variant e = 0)
  /\ (~ (_cpu e = CPU_CAVIUM /\ _model e = 0xA1) ->
      completes (initialize (with_variant 0 e) s) = completes (initialize e s)).
Proof.
  split; [ | split; [ | split ] ].
  - intros Hc Hm Hv.
    assert (Hrule : forall x, rule_thunderx e x = Fatal prerelease_msg x).
    { intros x. unfold rule_thunderx. rewrite Hc, Hm, Hv, !Z.eqb_refl. reflexivity. }
    split; [ apply Hrule | split ].
    { rewrite initialize_unfold, Hrule. reflexivity. }
    assert (Hpre : step_ok [] early_int_knobs s
                     (init_padding_and_flush e
                        (init_prefetch_alignment
                           (init_prefetch_copy_interval
                              (init_prefetch_defaults e (init_probe e s)))))).
    { phase. }
    unfold initialize_tuning. cbv zeta.
    rewrite (rule_emag_other e) by (rewrite Hv; discriminate).
    split; [ | split ].
    + rewrite (ok_bval _ _ _ _ (rule_ampere_ok e _)) by reflexivity.
      apply (ok_bval _ _ _ _ Hpre). reflexivity.
    + rewrite (ok_bval _ _ _ _ (rule_ampere_ok e _)) by reflexivity.
      apply (ok_bval _ _ _ _ Hpre). reflexivity.
    + intros Hne. rewrite rule_ampere_other by congruence.
      apply (ok_bval _ _ _ _ Hpre). reflexivity.
  - intros Hn. unfold rule_thunderx.
    destruct (Z.eqb_spec (_cpu e) CPU_CAVIUM); [ | reflexivity ].
    destruct (Z.eqb_spec (_model e) 0xA1); [ | reflexivity ].
    exfalso. apply Hn. split; assumption.
  - intros st H. rewrite initialize_unfold in H.
    destruct (rule_thunderx e (initialize_tuning e s)) as [s1 | m t1] eqn:E;
      cbn [bind] in H.
    + exfalso. exact (after_aes_exit _ _ _ _ H eq_refl).
    + clear H. unfold rule_thunderx in E.
      destruct (Z.eqb_spec (_cpu e) CPU_CAVIUM); [ | discriminate E ].
      destruct (Z.eqb_spec (_model e) 0xA1); [ | discriminate E ].
      destruct (Z.eqb_spec (_variant e) 0); [ auto | ].
      cbn [andb negb] in E. discriminate E.
  - intros Hn.
    assert (Hrule : forall e' x, _cpu e' = _cpu e -> _model e' = _model e ->
                                 rule_thunderx e' x = Ok x).
    { intros e' x Hc Hm. unfold rule_thunderx. rewrite Hc, Hm.
      destruct (Z.eqb_spec (_cpu e) CPU_CAVIUM); [ | reflexivity ].
      destruct (Z.eqb_spec (_model e) 0xA1); [ | reflexivity ].
      exfalso. apply Hn. split; assumption. }
    apply ctl_res_completes. rewrite !initialize_unfold.
    rewrite (Hrule (with_variant 0 e)) by reflexivity.
    rewrite (Hrule e) by reflexivity. cbn [bind].
    rewrite after_aes_variant, before_aes_variant.
    apply after_thunderx_ctl.
    unfold initialize_tuning. cbv zeta.
    rewrite rule_ampere_variant, init_padding_and_flush_variant,
      init_prefetch_defaults_variant, init_probe_variant.
    apply (ctl_congr (rule_ampere e)); [ apply rule_ampere_ctl | ].
    apply (ctl_trans _ (init_padding_and_flush e
                          (init_prefetch_alignment
                             (init_prefetch_copy_interval
                                (init_prefetch_defaults e (init_probe e s)))))).
    + apply ctl_sym, rule_emag_same.
    + apply rule_emag_same.
Qed.

End ThunderX.

(** C4 on a ThunderX of variant 0, and on one of variant 1. *)
Lemma thunderx_prerelease_witness :
  (@rule_thunderx linux_c2 (thunderx 0) untouched_flags
   = Fatal prerelease_msg untouched_flags
   /\ @initialize linux_c2 (thunderx 0) untouched_flags
      = Fatal prerelease_msg (@initialize_tuning linux_c2 (thunderx 0) untouched_flags)
   /\ bval (@initialize_tuning linux_c2 (thunderx 0) untouched_flags) AvoidUnalignedAccesses
      = bval untouched_flags AvoidUnalignedAccesses
   /\ bval (@initialize_tuning linux_c2 (thunderx 0) untouched_flags) UseSIMDForArrayEquals
      = bval untouched_flags UseSIMDForArrayEquals
   /\ (@CPU_AMPERE linux_c2 <> @CPU_CAVIUM linux_c2 ->
       bval (@initialize_tuning linux_c2 (thunderx 0) untouched_flags) UseSIMDForMemoryOps
       = bval untouched_flags UseSIMDForMemoryOps))
  /\ @rule_thunderx linux_c2 neoverse_n1 untouched_flags = Ok untouched_flags
  /\ completes (@initialize linux_c2 (thunderx 1) untouched_flags) = true.
Proof.
  split; [ | split ].
  - apply (proj1 (@thunderx_prerelease linux_c2 (thunderx 0) untouched_flags));
      reflexivity.
  - apply (proj1 (proj2 (@thunderx_prerelease linux_c2 neoverse_n1 untouched_flags))).
    intros [H _]. discriminate H.
  - vm_compute. reflexivity.
Defined.

(** ** C2 and C5: the vector length under SVE *)

(** The bit test of [is_power_of_2] holds exactly of the powers of two. *)
Lemma is_power_of_2_spec (x : Z) :
  is_power_of_2 x = true <-> exists k, 0 <= k /\ x = 2 ^ k.
Proof.
  unfold is_power_of_2. rewrite andb_true_iff, Z.ltb_lt, Z.eqb_eq. split.
  - intros [Hpos Hland]. exists (Z.log2 x). split; [ apply Z.log2_nonneg | ].
    destruct (Z.log2_spec x Hpos) as [Hlo Hhi].
    destruct (Z.eq_dec x (2 ^ Z.log2 x)) as [E | Hne]; [ exact E | exfalso ].
    assert (Hk : Z.log2 (x - 1) = Z.log2 x).
    { apply Z.log2_unique; [ apply Z.log2_nonneg | lia ]. }
    assert (Hb1 : Z.testbit x (Z.log2 x) = true) by (apply Z.bit_log2; lia).
    assert (Hb2 : Z.testbit (x - 1) (Z.log2 x) = true).
    { assert (0 < 2 ^ Z.log2 x)
        by (apply Z.pow_pos_nonneg; [ lia | apply Z.log2_nonneg ]).
      rewrite <- Hk. apply Z.bit_log2. lia. }
    assert (Hb : Z.testbit (Z.land x (x - 1)) (Z.log2 x) = true).
    { rewrite Z.land_spec, Hb1, Hb2. reflexivity. }
    rewrite Hland, Z.bits_0 in Hb. discriminate Hb.
  - intros [k [Hk ->]]. split; [ apply Z.pow_pos_nonneg; lia | ].
    replace (2 ^ k - 1) with (Z.ones k) by (rewrite Z.ones_equiv; lia).
    rewrite Z.land_ones by exact Hk. apply Z.mod_same.
    apply Z.pow_nonzero; lia.
Qed.

Section VectorLength.

Context {P : Platform}.

(** C2, as amended.  With SVE enabled and [MaxVectorSize] set by the
    operator below 16, the SVE block does not exit: it warns, sets
    [UseSVE] to 0 and returns, and the NEON block then runs on that
    store.  There a value that is not a power of two is fatal, a power of
    two below 8 is raised to 8 under a warning, and 8 is kept. *)
Theorem sve_short_max_vector_size e s :
  0 < ival s UseSVE -> FLAG_IS_DEFAULT_i MaxVectorSize s = false ->
  ival s MaxVectorSize < 16 ->
  let m := ival s MaxVectorSize in
  let s1 := assign_i UseSVE 0 (warning sve_too_short_msg s) in
  init_sve_max_vector_size e s = Ok s1
  /\ (is_power_of_2 m = false ->
      init_neon_max_vector_size s1 = Fatal (unsupported_max_vector_size_msg m) s1)
  /\ (is_power_of_2 m = true -> m < 8 ->
      init_neon_max_vector_size s1
      = Ok (FLAG_SET_DEFAULT_i MaxVectorSize 8 (warning (neon_min_msg 8) s1)))
  /\ (is_power_of_2 m = true -> 8 <= m -> init_neon_max_vector_size s1 = Ok s1).
Proof.
  intros Hsve Hd Hlt m s1. split; [ | split; [ | split ] ].
  - unfold init_sve_max_vector_size. rewrite Hd.
    destruct (Z.ltb_spec 0 (ival s UseSVE)); [ | lia ].
    destruct (Z.ltb_spec (ival s MaxVectorSize) 16); [ reflexivity | lia ].
  - intros Hp. unfold init_neon_max_vector_size.
    change (ival s1 UseSVE) with 0. change (ival s1 MaxVectorSize) with m.
    change (FLAG_IS_DEFAULT_i MaxVectorSize s1) with (FLAG_IS_DEFAULT_i MaxVectorSize s).
    rewrite Hd, Hp. reflexivity.
  - intros Hp Hm. unfold init_neon_max_vector_size.
    change (ival s1 UseSVE) with 0. change (ival s1 MaxVectorSize) with m.
    change (FLAG_IS_DEFAULT_i MaxVectorSize s1) with (FLAG_IS_DEFAULT_i MaxVectorSize s).
    rewrite Hd, Hp. cbv zeta. cbn [negb Z.eqb].
    destruct (Z.ltb_spec m 8); [ reflexivity | lia ].
  - intros Hp Hm. unfold init_neon_max_vector_size.
    change (ival s1 UseSVE) with 0. change (ival s1 MaxVectorSize) with m.
    change (FLAG_IS_DEFAULT_i MaxVectorSize s1) with (FLAG_IS_DEFAULT_i MaxVectorSize s).
    rewrite Hd, Hp. cbv zeta. cbn [negb Z.eqb].
    destruct (Z.ltb_spec m 8); [ lia | ].
    destruct (Z.ltb_spec 16 m); [ unfold m in *; lia | reflexivity ].
Qed.

(** The detected length is recorded only after it has been validated
    (lines 412-426). *)
Lemma init_sve_length_valid e s :
  0 < ival (init_sve_length e s) UseSVE ->
  0 < ival s UseSVE ->
  _initial_sve_vector_length (init_sve_length e s) = get_current_sve_vector_length e
  /\ is_power_of_2 (get_current_sve_vector_length e) = true
  /\ Z.rem (get_current_sve_vector_length e) sve_vl_min = 0.
Proof.
  unfold init_sve_length. intros Hout Hin.
  destruct (Z.ltb_spec 0 (ival s UseSVE)); [ | lia ].
  cbv zeta in *.
  destruct (get_current_sve_vector_length e <? 0); [ cbn in Hout; lia | ].
  destruct (get_current_sve_vector_length e =? 0); [ cbn in Hout; lia | ].
  unfold nonzero in *.
  destruct (Z.eqb_spec (Z.rem (get_current_sve_vector_length e) sve_vl_min) 0);
    [ | cbn in Hout; lia ].
  destruct (is_power_of_2 (get_current_sve_vector_length e));
    [ | cbn in Hout; lia ].
  cbn. auto.
Qed.

(** Lines 486-502, case by case, for a store with [UseSVE] at 0. *)
Lemma init_neon_max_vector_size_cases s :
  ival s UseSVE = 0 ->
  let m := ival s MaxVectorSize in
  (FLAG_IS_DEFAULT_i MaxVectorSize s = true ->
   init_neon_max_vector_size s = Ok (FLAG_SET_DEFAULT_i MaxVectorSize 16 s))
  /\ (FLAG_IS_DEFAULT_i MaxVectorSize s = false ->
      (is_power_of_2 m = false ->
       init_neon_max_vector_size s = Fatal (unsupported_max_vector_size_msg m) s)
      /\ (is_power_of_2 m = true -> m < 8 ->
          init_neon_max_vector_size s
          = Ok (FLAG_SET_DEFAULT_i MaxVectorSize 8 (warning (neon_min_msg 8) s)))
      /\ (is_power_of_2 m = true -> 16 < m ->
          init_neon_max_vector_size s
          = Ok (FLAG_SET_DEFAULT_i MaxVectorSize 16 (warning (neon_max_msg 16) s)))
      /\ (is_power_of_2 m = true -> 8 <= m <= 16 ->
          init_neon_max_vector_size s = Ok s)).
Proof.
  intros Hsve m. unfold init_neon_max_vector_size. rewrite Hsve. cbn [Z.eqb].
  cbv zeta. fold m. split.
  - intros ->. reflexivity.
  - intros ->. cbn [negb]. repeat split.
    + intros ->. reflexivity.
    + intros -> Hm. cbn [negb].
      destruct (Z.ltb_spec m 8); [ reflexivity | lia ].
    + intros -> Hm. cbn [negb].
      destruct (Z.ltb_spec m 8); [ lia | ].
      destruct (Z.ltb_spec 16 m); [ reflexivity | lia ].
    + intros -> Hm. cbn [negb].
      destruct (Z.ltb_spec m 8); [ lia | ].
      destruct (Z.ltb_spec 16 m); [ lia | reflexivity ].
Qed.

End VectorLength.

(** C2 at [-XX:MaxVectorSize=8] on a store with SVE at tier 1. *)
Lemma sve_short_max_vector_size_witness :
  let s := on_cmdline_i MaxVectorSize 8 (on_cmdline_i UseSVE 1 untouched_flags) in
  let s1 := assign_i UseSVE 0 (warning sve_too_short_msg s) in
  init_sve_max_vector_size (sve_machine 32 (fun n => n)) s = Ok s1
  /\ (is_power_of_2 8 = false ->
      init_neon_max_vector_size s1 = Fatal (unsupported_max_vector_size_msg 8) s1)
  /\ (is_power_of_2 8 = true -> 8 < 8 ->
      init_neon_max_vector_size s1
      = Ok (FLAG_SET_DEFAULT_i MaxVectorSize 8 (warning (neon_min_msg 8) s1)))
  /\ (is_power_of_2 8 = true -> 8 <= 8 -> init_neon_max_vector_size s1 = Ok s1).
Proof.
  apply (sve_short_max_vector_size (sve_machine 32 (fun n => n))
           (on_cmdline_i MaxVectorSize 8 (on_cmdline_i UseSVE 1 untouched_flags)));
    reflexivity.
Defined.

(** C2 as stated fails: on an SVE machine with [-XX:MaxVectorSize=8] SVE is
    enabled when line 462 is reached, [MaxVectorSize] is not at its default
    and is below 16, and the run completes, with SVE disabled. *)
Lemma sve_short_max_vector_size_completes :
  let e := sve_machine 32 (fun n => n) in
  let s := on_cmdline_i MaxVectorSize 8 untouched_flags in
  0 < ival (@at_line_462 linux_c2 e s) UseSVE
  /\ FLAG_IS_DEFAULT_i MaxVectorSize (@at_line_462 linux_c2 e s) = false
  /\ ival (@at_line_462 linux_c2 e s) MaxVectorSize < 16
  /\ completes (@initialize linux_c2 e s) = true
  /\ ival (state_of (@initialize linux_c2 e s)) UseSVE = 0
  /\ ival (state_of (@initialize linux_c2 e s)) MaxVectorSize = 8.
Proof. vm_compute. repeat split; reflexivity. Qed.

(** C5 fails on the code: on an SVE machine whose current vector length is
    32 bytes and whose kernel grants 48 bytes for a request of 64, the run
    with [-XX:MaxVectorSize=64] completes with SVE enabled and records 48,
    which is not a power of two. *)
Lemma sve_granted_length_unchecked :
  let e := sve_machine 32 (fun n => if 48 <=? n then 48 else n) in
  let s := on_cmdline_i MaxVectorSize 64 untouched_flags in
  completes (@initialize linux_c2 e s) = true
  /\ ival (state_of (@initialize linux_c2 e s)) UseSVE = 1
  /\ _initial_sve_vector_length (state_of (@initialize linux_c2 e s)) = 48
  /\ ival (state_of (@initialize linux_c2 e s)) MaxVectorSize = 48
  /\ is_power_of_2 48 = false
  /\ Z.rem 48 (@sve_vl_min linux_c2) = 0.
Proof. vm_compute. repeat split; reflexivity. Qed.

(** ** C6: the spin-wait descriptor *)

Lemma eqb_false (a b : string) : a <> b -> String.eqb a b = false.
Proof. intros H. destruct (String.eqb_spec a b); [ contradiction | reflexivity ]. Qed.

(** C6, as amended.  [get_spin_wait_desc] is a function of the flags as
    they stand at the call.  It exits with the message that lists the four
    options when [OnSpinWaitInst] holds none of them, and exits when it
    holds "none" and [OnSpinWaitInstCount] is positive and not at its
    default.  For "nop" it returns the NOP descriptor with the current value
    of [OnSpinWaitInstCount] as its count, whether or not that flag is at
    its default; the count is 0 only if the flag holds 0. *)
Theorem spin_wait_descriptor s :
  (OnSpinWaitInst s <> "nop" -> OnSpinWaitInst s <> "isb" ->
   OnSpinWaitInst s <> "yield" -> OnSpinWaitInst s <> "none" ->
   get_spin_wait_desc s = Fatal (spin_wait_options_msg (OnSpinWaitInst s)) s)
  /\ (OnSpinWaitInst s = "none" ->
      FLAG_IS_DEFAULT_i OnSpinWaitInstCount s = false ->
      0 < ival s OnSpinWaitInstCount ->
      get_spin_wait_desc s = Fatal spin_wait_count_msg s)
  /\ (OnSpinWaitInst s = "nop" ->
      get_spin_wait_desc s = Ok (mkSpinWait NOP (ival s OnSpinWaitInstCount))).
Proof.
  unfold get_spin_wait_desc. split; [ | split ].
  - intros H1 H2 H3 H4.
    rewrite (eqb_false _ _ H1), (eqb_false _ _ H2), (eqb_false _ _ H3),
      (eqb_false _ _ H4).
    reflexivity.
  - intros -> -> Hc. cbn.
    destruct (Z.ltb_spec 0 (ival s OnSpinWaitInstCount)); [ reflexivity | lia ].
  - intros ->. reflexivity.
Qed.

(** C6 at [-XX:OnSpinWaitInst=pause] and at
    [-XX:OnSpinWaitInst=none -XX:OnSpinWaitInstCount=2]. *)
Lemma spin_wait_descriptor_witness :
  get_spin_wait_desc (on_cmdline_OnSpinWaitInst "pause" untouched_flags)
  = Fatal (spin_wait_options_msg "pause")
          (on_cmdline_OnSpinWaitInst "pause" untouched_flags)
  /\ get_spin_wait_desc
       (on_cmdline_i OnSpinWaitInstCount 2
          (on_cmdline_OnSpinWaitInst "none" untouched_flags))
     = Fatal spin_wait_count_msg
         (on_cmdline_i OnSpinWaitInstCount 2
            (on_cmdline_OnSpinWaitInst "none" untouched_flags)).
Proof.
  split.
  - apply (proj1 (spin_wait_descriptor
                    (on_cmdline_OnSpinWaitInst "pause" untouched_flags)));
      discriminate.
  - apply (proj1 (proj2 (spin_wait_descriptor
                    (on_cmdline_i OnSpinWaitInstCount 2
                       (on_cmdline_OnSpinWaitInst "none" untouched_flags)))));
      reflexivity.
Defined.

(** C6 as stated fails in two places.  On an Ampere-1, with
    [-XX:OnSpinWaitInst=nop] and the count left alone, line 513 is reached
    with the count still at its default, and the descriptor is [{NOP, 2}],
    not [{NOP, 0}].  On a Neoverse N1, with [OnSpinWaitInst] absent and
    [-XX:OnSpinWaitInstCount=2], line 513 is reached with the name the rule
    of lines 226-228 gave, "isb": the run does not exit, and the descriptor
    is [{ISB, 2}]. *)
Lemma spin_wait_claim_fails :
  let s := on_cmdline_OnSpinWaitInst "nop" untouched_flags in
  let st := @at_line_513 linux_c2 ampere1 s in
  let s2 := on_cmdline_i OnSpinWaitInstCount 2 untouched_flags in
  let st2 := @at_line_513 linux_c2 neoverse_n1 s2 in
  (iorigin s OnSpinWaitInstCount = DEFAULT
   /\ OnSpinWaitInst st = "nop"
   /\ FLAG_IS_DEFAULT_i OnSpinWaitInstCount st = true
   /\ get_spin_wait_desc st = Ok (mkSpinWait NOP 2)
   /\ completes (@initialize linux_c2 ampere1 s) = true
   /\ _spin_wait (state_of (@initialize linux_c2 ampere1 s)) = mkSpinWait NOP 2
   /\ mkSpinWait NOP 2 <> mkSpinWait NOP 0)
  /\ (OnSpinWaitInst_origin s2 = DEFAULT /\ OnSpinWaitInst s2 = "none"
      /\ iorigin s2 OnSpinWaitInstCount = COMMAND_LINE
      /\ 0 < ival s2 OnSpinWaitInstCount
      /\ OnSpinWaitInst st2 = "isb"
      /\ get_spin_wait_desc st2 = Ok (mkSpinWait ISB 2)
      /\ completes (@initialize linux_c2 neoverse_n1 s2) = true
      /\ _spin_wait (state_of (@initialize linux_c2 neoverse_n1 s2))
         = mkSpinWait ISB 2).
Proof. vm_compute. repeat split; try reflexivity. discriminate. Qed.

(** ** C8: the virtualization probe *)

Lemma scan_info_lines_none virt1 vt1 virt2 vt2 lines s :
  existsb (line_matches virt1 virt2) lines = false ->
  scan_info_lines virt1 vt1 virt2 vt2 lines s = (false, s).
Proof.
  induction lines as [| line rest IH]; cbn [existsb scan_info_lines].
  - reflexivity.
  - intros H. apply orb_false_elim in H. destruct H as [Hl Hr].
    unfold line_matches in Hl. apply orb_false_elim in Hl. destruct Hl as [H1 H2].
    rewrite H1, H2. apply IH, Hr.
Qed.

Lemma scan_info_lines_first virt1 vt1 virt2 vt2 lines s :
  existsb (line_matches virt1 virt2) lines = true ->
  exists before line after,
    lines = (before ++ line :: after)%list
    /\ existsb (line_matches virt1 virt2) before = false
    /\ line_matches virt1 virt2 line = true
    /\ scan_info_lines virt1 vt1 virt2 vt2 lines s
       = (true, set_detected_virtualization
                  (if strcasestr line virt1 then vt1 else vt2) s).
Proof.
  induction lines as [| line rest IH]; cbn [existsb scan_info_lines].
  - discriminate.
  - destruct (line_matches virt1 virt2 line) eqn:Hl.
    + intros _. exists [], line, rest. repeat split; auto.
      unfold line_matches in Hl.
      destruct (strcasestr line virt1); [ reflexivity | ].
      cbn [orb] in Hl. rewrite Hl. reflexivity.
    + cbn [orb]. intros H. destruct (IH H) as [before [l [after [E [Hb [Hm Hs]]]]]].
      exists (line :: before), l, after. repeat split.
      * rewrite E. reflexivity.
      * cbn [existsb]. rewrite Hl, Hb. reflexivity.
      * exact Hm.
      * unfold line_matches in Hl. apply orb_false_elim in Hl.
        destruct Hl as [H1 H2]. rewrite H1, H2. exact Hs.
Qed.

Section Virtualization.

Context {P : Platform}.

(** C8.  On Linux: when a line of the product-name file contains "KVM" or
    "VMWare", letter case ignored, the verdict is the one of the first such
    line (KVM if it contains "KVM", VMWare otherwise) and the product-name
    file is the only file opened.  When that file cannot be opened or has
    no such line, the hypervisor-type file is opened next and only "Xen" is
    looked for: the verdict becomes XenPVHVM if a line contains it, and is
    left as it was if none does or if the file cannot be opened.  The
    probe is a total function on stores: it has no fatal exit. *)
Theorem check_virtualizations_probe e s :
  LINUX = true ->
  let s' := check_virtualizations e s in
  (forall lines, fopen_lines e pname_file = Some lines ->
     existsb (line_matches "KVM" (Some "VMWare")) lines = true ->
     opened s' = (opened s ++ [pname_file])%list
     /\ exists before line after,
          lines = (before ++ line :: after)%list
          /\ existsb (line_matches "KVM" (Some "VMWare")) before = false
          /\ line_matches "KVM" (Some "VMWare") line = true
          /\ _detected_virtualization s'
             = (if strcasestr line "KVM" then KVM else VMWare))
  /\ (fopen_lines e pname_file = None
      \/ (exists lines, fopen_lines e pname_file = Some lines
                        /\ existsb (line_matches "KVM" (Some "VMWare")) lines = false) ->
      opened s' = (opened s ++ [pname_file; tname_file])%list
      /\ _detected_virtualization s'
         = match fopen_lines e tname_file with
           | Some lines2 =>
               if existsb (line_matches "Xen" None) lines2
               then XenPVHVM else _detected_virtualization s
           | None => _detected_virtualization s
           end).
Proof.
  intros HL s'. subst s'. unfold check_virtualizations. rewrite HL. split.
  - intros lines Hopen Hex.
    destruct (scan_info_lines_first "KVM" KVM (Some "VMWare") VMWare lines
                (note_fopen pname_file s) Hex)
      as [before [line [after [E [Hb [Hm Hs]]]]]].
    assert (H1 : check_info_file e pname_file "KVM" KVM (Some "VMWare") VMWare s
                 = (true, set_detected_virtualization
                            (if strcasestr line "KVM" then KVM else VMWare)
                            (note_fopen pname_file s))).
    { unfold check_info_file. cbv zeta. rewrite Hopen. exact Hs. }
    rewrite H1. split; [ reflexivity | ].
    exists before, line, after. repeat split; auto.
  - intros Hno.
    assert (H1 : check_info_file e pname_file "KVM" KVM (Some "VMWare") VMWare s
                 = (false, note_fopen pname_file s)).
    { unfold check_info_file. cbv zeta.
      destruct Hno as [-> | [lines [-> Hex]]]; [ reflexivity | ].
      apply scan_info_lines_none, Hex. }
    rewrite H1. unfold check_info_file. cbv zeta.
    destruct (fopen_lines e tname_file) as [lines2 |].
    + destruct (existsb (line_matches "Xen" None) lines2) eqn:Hx.
      * destruct (scan_info_lines_first "Xen" XenPVHVM None NoDetectedVirtualization
                    lines2 (note_fopen tname_file (note_fopen pname_file s)) Hx)
          as [before [line [after [E [Hb [Hm Hs]]]]]].
        rewrite Hs. cbn [snd]. split.
        { cbn. rewrite <- app_assoc. reflexivity. }
        unfold line_matches in Hm. rewrite orb_false_r in Hm. rewrite Hm. reflexivity.
      * rewrite (scan_info_lines_none _ _ _ _ _ _ Hx). cbn [snd]. split.
        { cbn. rewrite <- app_assoc. reflexivity. }
        reflexivity.
    + cbn [snd]. split; [ cbn; rewrite <- app_assoc; reflexivity | reflexivity ].
Qed.

End Virtualization.

(** C8 on a KVM guest whose hypervisor-type file says "xen", and on a host
    where neither file can be opened. *)
Lemma check_virtualizations_probe_witness :
  let guest := with_files (Some ["Standard PC"; "kvm guest"]) (Some ["xen"]) in
  let s1 := @check_virtualizations linux_c2 guest untouched_flags in
  let s2 := @check_virtualizations linux_c2 (with_files None None) untouched_flags in
  (opened s1 = [pname_file] /\ _detected_virtualization s1 = KVM)
  /\ (opened s2 = [pname_file; tname_file]
      /\ _detected_virtualization s2 = NoDetectedVirtualization).
Proof.
  intros guest s1 s2. split.
  - destruct (proj1 (@check_virtualizations_probe linux_c2 guest untouched_flags eq_refl)
                _ eq_refl eq_refl) as [Ho _].
    split; [ exact Ho | vm_compute; reflexivity ].
  - exact (proj2 (@check_virtualizations_probe linux_c2 (with_files None None)
                    untouched_flags eq_refl) (or_introl eq_refl)).
Defined.

(** ** The NEON rules seen from the whole run *)

Lemma bind_Ok {A B : Type} (r : Result A) (k : A -> Result B) (b : B) :
  bind r k = Ok b -> exists a, r = Ok a /\ k a = Ok b.
Proof.
  destruct r as [a | m st]; cbn [bind]; intros H; [ | discriminate H ].
  exists a. auto.
Qed.

Section NeonRuns.

Context {P : Platform}.

(** A store that leaves the SVE block with [UseSVE] at 0 has the
    [MaxVectorSize] it entered with. *)
Lemma init_sve_max_vector_size_neon e s s2 :
  init_sve_max_vector_size e s = Ok s2 -> ival s2 UseSVE = 0 ->
  ival s2 MaxVectorSize = ival s MaxVectorSize /\ iorigin s2 = iorigin s.
Proof.
  unfold init_sve_max_vector_size. cbv zeta.
  destruct (Z.ltb_spec 0 (ival s UseSVE)) as [Hpos | Hle].
  - destruct (FLAG_IS_DEFAULT_i MaxVectorSize s).
    { intros H Hz. inversion H. subst s2.
      change (ival s UseSVE = 0) in Hz. exfalso. lia. }
    destruct (ival s MaxVectorSize <? 16).
    { intros H _. inversion H. split; reflexivity. }
    destruct ((Z.rem (ival s MaxVectorSize) 16 =? 0) && is_power_of_2 (ival s MaxVectorSize));
      [ | discriminate ].
    destruct (set_and_get_current_sve_vector_length e (ival s MaxVectorSize) <? 0);
      [ discriminate | ].
    intros H Hz. inversion H. subst s2. exfalso. revert Hz.
    repeat split_if; intros Hz; change (ival s UseSVE = 0) in Hz; lia.
  - intros H _. inversion H. split; reflexivity.
Qed.

(** On a COMPILER2 build, a run that completes with [UseSVE] at 0 ends
    with [MaxVectorSize] at 16 when the operator left it alone, and
    otherwise with the operator's value, which is then a power of two,
    brought into [8, 16] under a warning. *)
Lemma initialize_neon_path e s s' :
  COMPILER2 = true -> initialize e s = Ok s' -> ival s' UseSVE = 0 ->
  let m := ival s MaxVectorSize in
  (FLAG_IS_DEFAULT_i MaxVectorSize s = true -> ival s' MaxVectorSize = 16)
  /\ (FLAG_IS_DEFAULT_i MaxVectorSize s = false ->
      is_power_of_2 m = true
      /\ ival s' MaxVectorSize = (if m <? 8 then 8 else if 16 <? m then 16 else m)
      /\ (m < 8 -> In (neon_min_msg 8) (warnings s'))
      /\ (16 < m -> In (neon_max_msg 16) (warnings s'))).
Proof.
  intros HC H Hz. cbv zeta. set (m := ival s MaxVectorSize).
  destruct (initialize_completed e s s' H) as [sa [Hs [_ Ht]]].
  unfold after_aes, after_sha, after_popcount, initialize_rest in Ht. cbv zeta in Ht.
  set (x0 := init_unaligned_popcount
               (initialize_ghash_sve e (initialize_sha (init_aes sa)))) in Ht.
  apply bind_Ok in Ht. destruct Ht as [s1 [Hc2 Hfin]].
  unfold init_compiler2 in Hc2. rewrite HC in Hc2. cbv zeta in Hc2.
  apply bind_Ok in Hc2. destruct Hc2 as [s2 [Hsve Hc2]].
  apply bind_Ok in Hc2. destruct Hc2 as [s3 [Hneon Hc2]].
  inversion Hc2 as [Hs1]. clear Hc2.
  assert (Hx : step_ok (early_bool_knobs ++ [UseAES; UseAESIntrinsics; UseAESCTRIntrinsics]
                          ++ sha_bool_knobs
                          ++ [UseGHASHIntrinsics; UseBASE64Intrinsics; UseBlockZeroing]
                          ++ [UseUnalignedAccesses; UsePopCountInstruction]
                          ++ [UseMultiplyToLenIntrinsic; UseSquareToLenIntrinsic;
                              UseMulAddIntrinsic; UseMontgomeryMultiplyIntrinsic;
                              UseMontgomerySquareIntrinsic])
                       (early_int_knobs ++ [] ++ [] ++ [BlockZeroingLowLimit; UseSVE]
                          ++ [] ++ [])
                       s (init_c2_intrinsics x0)).
  { eapply step_trans; [ exact Hs | ].
    eapply step_trans; [ apply init_aes_ok | ].
    eapply step_trans; [ apply initialize_sha_ok | ].
    eapply step_trans; [ apply initialize_ghash_sve_ok | ].
    eapply step_trans; [ apply init_unaligned_popcount_ok | ].
    apply init_c2_intrinsics_ok. }
  assert (Hend : step_ok ([OptoScheduling; AlignVector] ++ [CriticalJNINatives]) ([] ++ [])
                         s3 s').
  { eapply step_trans; [ apply init_c2_scheduling_ok | ].
    rewrite Hs1. rewrite <- (state_of_Ok _ _ Hfin). apply initialize_finish_ok. }
  assert (Hz3 : ival s2 UseSVE = 0).
  { pose proof (init_neon_max_vector_size_ok s2) as Hn. rewrite Hneon in Hn.
    cbn [state_of] in Hn.
    rewrite <- (ok_ival _ _ _ _ Hn UseSVE eq_refl).
    rewrite <- (ok_ival _ _ _ _ Hend UseSVE eq_refl). exact Hz. }
  destruct (init_sve_max_vector_size_neon e _ s2 Hsve Hz3) as [Hm2 Ho2].
  assert (Hm : ival s2 MaxVectorSize = m).
  { rewrite Hm2. apply (ok_ival _ _ _ _ Hx). reflexivity. }
  assert (Hd : FLAG_IS_DEFAULT_i MaxVectorSize s2 = FLAG_IS_DEFAULT_i MaxVectorSize s).
  { unfold FLAG_IS_DEFAULT_i. rewrite Ho2, (ok_iorigin _ _ _ _ Hx). reflexivity. }
  rewrite (ok_ival _ _ _ _ Hend MaxVectorSize eq_refl).
  pose proof (ok_warnings _ _ _ _ Hend) as Hw.
  pose proof (init_neon_max_vector_size_cases s2 Hz3) as Hn. cbv zeta in Hn.
  rewrite Hm, Hd in Hn. destruct Hn as [Hdef Hset]. split.
  - intros Hdf. rewrite (Hdef Hdf) in Hneon. inversion Hneon as [E]. subst s3.
    reflexivity.
  - intros Hdf. destruct (Hset Hdf) as [Hnp [Hlo [Hhi Hin]]].
    destruct (is_power_of_2 m) eqn:Hp.
    + split; [ reflexivity | ].
      destruct (Z.ltb_spec m 8) as [Hl | Hge].
      * rewrite (Hlo eq_refl Hl) in Hneon. inversion Hneon as [E]. subst s3.
        split; [ reflexivity | split; [ | lia ] ].
        intros _. apply Hw. cbn. apply in_or_app. right. left. reflexivity.
      * destruct (Z.ltb_spec 16 m) as [Hg | Hle].
        { rewrite (Hhi eq_refl Hg) in Hneon. inversion Hneon as [E]. subst s3.
          split; [ reflexivity | split; [ lia | ] ].
          intros _. apply Hw. cbn. apply in_or_app. right. left. reflexivity. }
        { rewrite (Hin eq_refl (conj Hge Hle)) in Hneon. inversion Hneon as [E].
          subst s3. split; [ exact Hm | split; lia ]. }
    + rewrite (Hnp eq_refl) in Hneon. discriminate Hneon.
Qed.

End NeonRuns.

(** ** C9: MaxVectorSize under NEON *)

Section Neon.

Context {P : Platform}.

(** C9.  With [UseSVE] at 0 when line 486 is reached: a [MaxVectorSize]
    left at its default is set to 16; one set by the operator is fatal
    when it is not a power of two, is raised to 8 or lowered to 16 under a
    warning when it is a power of two outside of [8, 16], and is kept
    otherwise.  Seen from the whole function on a COMPILER2 build: a run
    that completes with [UseSVE] at 0 ends with [MaxVectorSize] at 16 if it
    was at its default, and otherwise the operator's value was a power of
    two and ends clamped to [8, 16], with the warning when it was outside. *)
Theorem neon_max_vector_size e s :
  (ival s UseSVE = 0 ->
   let m := ival s MaxVectorSize in
   (FLAG_IS_DEFAULT_i MaxVectorSize s = true ->
    init_neon_max_vector_size s = Ok (FLAG_SET_DEFAULT_i MaxVectorSize 16 s))
   /\ (FLAG_IS_DEFAULT_i MaxVectorSize s = false ->
       (is_power_of_2 m = false ->
        init_neon_max_vector_size s = Fatal (unsupported_max_vector_size_msg m) s)
       /\ (is_power_of_2 m = true -> m < 8 ->
           init_neon_max_vector_size s
           = Ok (FLAG_SET_DEFAULT_i MaxVectorSize 8 (warning (neon_min_msg 8) s)))
       /\ (is_power_of_2 m = true -> 16 < m ->
           init_neon_max_vector_size s
           = Ok (FLAG_SET_DEFAULT_i MaxVectorSize 16 (warning (neon_max_msg 16) s)))
       /\ (is_power_of_2 m = true -> 8 <= m <= 16 ->
           init_neon_max_vector_size s = Ok s)))
  /\ (forall s', COMPILER2 = true -> initialize e s = Ok s' -> ival s' UseSVE = 0 ->
      let m := ival s MaxVectorSize in
      (FLAG_IS_DEFAULT_i MaxVectorSize s = true -> ival s' MaxVectorSize = 16)
      /\ (FLAG_IS_DEFAULT_i MaxVectorSize s = false ->
          is_power_of_2 m = true
          /\ ival s' MaxVectorSize = (if m <? 8 then 8 else if 16 <? m then 16 else m)
          /\ (m < 8 -> In (neon_min_msg 8) (warnings s'))
          /\ (16 < m -> In (neon_max_msg 16) (warnings s')))).
Proof.
  split.
  - apply init_neon_max_vector_size_cases.
  - intros s'. apply initialize_neon_path.
Qed.

End Neon.

(** C9 at [-XX:MaxVectorSize=32] on a Neoverse N1: the block lowers the
    value to 16 with the warning, and so does the whole run. *)
Lemma neon_max_vector_size_witness :
  let s := on_cmdline_i MaxVectorSize 32 untouched_flags in
  let s' := state_of (@initialize linux_c2 neoverse_n1 s) in
  init_neon_max_vector_size s
  = Ok (FLAG_SET_DEFAULT_i MaxVectorSize 16 (warning (neon_max_msg 16) s))
  /\ ival s' MaxVectorSize = 16
  /\ In (neon_max_msg 16) (warnings s').
Proof.
  intros s s'.
  destruct (@neon_max_vector_size linux_c2 neoverse_n1 s) as [Hblock Hrun].
  split.
  - apply (proj1 (proj2 (proj2 (proj2 (Hblock eq_refl) eq_refl)))); reflexivity.
  - assert (Hok : @initialize linux_c2 neoverse_n1 s = Ok s').
    { vm_compute. reflexivity. }
    destruct (proj2 (Hrun s' eq_refl Hok eq_refl) eq_refl) as [_ [Hv [_ Hw]]].
    split; [ exact Hv | apply Hw; reflexivity ].
Defined.

(** * The whole run

    The properties below are about [VM_Version::initialize] from its first
    line to its last, and about the virtualization probe and its printer.
    They rest on two more frames, for the fields that are not flags and
    for the flags the operator set, and on the decomposition of a run at
    its three exits. *)

(** ** Frames for the fields that are not flags *)

Ltac fields_tac :=
  intros; splits;
  (constructor; intros H; first [ reflexivity | discriminate H ]).

Lemma fields_refl s : fields_ok [] s s.
Proof. constructor; reflexivity. Qed.

Lemma writes_f_app (W1 W2 : list Field) (f : Field) :
  writes_f (W1 ++ W2) f = false ->
  writes_f W1 f = false /\ writes_f W2 f = false.
Proof. unfold writes_f. rewrite existsb_app. apply orb_false_elim. Qed.

Lemma fields_trans (W1 W2 : list Field) (s s' s'' : VM) :
  fields_ok W1 s s' -> fields_ok W2 s' s'' -> fields_ok (W1 ++ W2) s s''.
Proof.
  intros H1 H2.
  constructor; intros H; apply writes_f_app in H; destruct H as [Ha Hb].
  - rewrite (fk_features _ _ _ H2 Hb). apply (fk_features _ _ _ H1 Ha).
  - rewrite (fk_flush_size _ _ _ H2 Hb). apply (fk_flush_size _ _ _ H1 Ha).
  - rewrite (fk_sve_length _ _ _ H2 Hb). apply (fk_sve_length _ _ _ H1 Ha).
  - rewrite (fk_spin_wait _ _ _ H2 Hb). apply (fk_spin_wait _ _ _ H1 Ha).
  - rewrite (fk_virtualization _ _ _ H2 Hb). apply (fk_virtualization _ _ _ H1 Ha).
  - rewrite (fk_atomics _ _ _ H2 Hb). apply (fk_atomics _ _ _ H1 Ha).
  - rewrite (fk_inst _ _ _ H2 Hb). apply (fk_inst _ _ _ H1 Ha).
  - rewrite (fk_opened _ _ _ H2 Hb). apply (fk_opened _ _ _ H1 Ha).
Qed.

Lemma fields_weaken (W W' : list Field) (s s' : VM) :
  (forall f, writes_f W' f = false -> writes_f W f = false) ->
  fields_ok W s s' -> fields_ok W' s s'.
Proof.
  intros Hw H. constructor; intros Hf; apply Hw in Hf; apply H; exact Hf.
Qed.

Lemma fields_bind (W1 W2 : list Field) (s : VM) (r : Result VM) (k : VM -> Result VM) :
  fields_ok W1 s (state_of r) ->
  (forall s', r = Ok s' -> fields_ok W2 s' (state_of (k s'))) ->
  fields_ok (W1 ++ W2) s (state_of (bind r k)).
Proof.
  intros H1 H2. destruct r as [s' | m st]; cbn [bind state_of] in *.
  - eapply fields_trans; [ exact H1 | apply H2; reflexivity ].
  - eapply fields_weaken; [ | exact H1 ].
    intros f Hf. apply writes_f_app in Hf. apply Hf.
Qed.

Section FieldBlocks.

Context {P : Platform}.

Lemma init_probe_fields e s : fields_ok [F_features; F_atomics] s (init_probe e s).
Proof. unfold init_probe. fields_tac. Qed.

Lemma init_prefetch_defaults_fields e s : fields_ok [] s (init_prefetch_defaults e s).
Proof. unfold init_prefetch_defaults. fields_tac. Qed.

Lemma init_prefetch_copy_interval_fields s :
  fields_ok [] s (init_prefetch_copy_interval s).
Proof. unfold init_prefetch_copy_interval. fields_tac. Qed.

Lemma init_prefetch_alignment_fields s : fields_ok [] s (init_prefetch_alignment s).
Proof. unfold init_prefetch_alignment. fields_tac. Qed.

Lemma init_padding_and_flush_fields e s :
  fields_ok [F_flush_size] s (init_padding_and_flush e s).
Proof. unfold init_padding_and_flush. fields_tac. Qed.

Lemma rule_emag_fields e s : fields_ok [] s (rule_emag e s).
Proof. unfold rule_emag. fields_tac. Qed.

Lemma rule_ampere_fields e s : fields_ok [F_inst] s (rule_ampere e s).
Proof. unfold rule_ampere. fields_tac. Qed.

Lemma rule_thunderx_fields e s : fields_ok [] s (state_of (rule_thunderx e s)).
Proof. unfold rule_thunderx. fields_tac. Qed.

Lemma rule_thunderx2_fields e s : fields_ok [] s (rule_thunderx2 e s).
Proof. unfold rule_thunderx2. fields_tac. Qed.

Lemma rule_tsv110_fields e s : fields_ok [] s (rule_tsv110 e s).
Proof. unfold rule_tsv110. fields_tac. Qed.

Lemma rule_cortex_a53_fields e s : fields_ok [F_features] s (rule_cortex_a53 e s).
Proof. unfold rule_cortex_a53. fields_tac. Qed.

Lemma rule_cortex_a73_fields e s : fields_ok [] s (rule_cortex_a73 e s).
Proof. unfold rule_cortex_a73. fields_tac. Qed.

Lemma rule_neoverse_fields e s : fields_ok [F_inst] s (rule_neoverse e s).
Proof. unfold rule_neoverse. fields_tac. Qed.

Lemma rule_arm_fields e s : fields_ok [F_features] s (rule_arm e s).
Proof. unfold rule_arm. fields_tac. Qed.

Lemma init_crc32_fields s : fields_ok [] s (init_crc32 s).
Proof. unfold init_crc32. fields_tac. Qed.

Lemma init_lse_fields s : fields_ok [] s (init_lse s).
Proof. unfold init_lse. fields_tac. Qed.

Lemma init_aes_fields s : fields_ok [] s (init_aes s).
Proof. unfold init_aes. fields_tac. Qed.

Lemma init_crc32_intrinsics_fields s : fields_ok [] s (init_crc32_intrinsics s).
Proof. unfold init_crc32_intrinsics. fields_tac. Qed.

Lemma init_sha_fields s : fields_ok [] s (init_sha s).
Proof. unfold init_sha. fields_tac. Qed.

Lemma init_sha1_sha256_fields s : fields_ok [] s (init_sha1_sha256 s).
Proof. unfold init_sha1_sha256. fields_tac. Qed.

Lemma init_sha3_sha512_fields s : fields_ok [] s (init_sha3_sha512 s).
Proof. unfold init_sha3_sha512. fields_tac. Qed.

Lemma init_sha_reset_fields s : fields_ok [] s (init_sha_reset s).
Proof. unfold init_sha_reset. fields_tac. Qed.

Lemma init_ghash_base64_fields s : fields_ok [] s (init_ghash_base64 s).
Proof. unfold init_ghash_base64. fields_tac. Qed.

Lemma init_block_zeroing_fields e s : fields_ok [] s (init_block_zeroing e s).
Proof. unfold init_block_zeroing. fields_tac. Qed.

Lemma init_sve_tier_fields s : fields_ok [] s (init_sve_tier s).
Proof. unfold init_sve_tier. fields_tac. Qed.

Lemma init_sve_length_fields e s : fields_ok [F_sve_length] s (init_sve_length e s).
Proof. unfold init_sve_length. fields_tac. Qed.

Lemma init_unaligned_popcount_fields s : fields_ok [] s (init_unaligned_popcount s).
Proof. unfold init_unaligned_popcount. fields_tac. Qed.

Lemma init_c2_intrinsics_fields s : fields_ok [] s (init_c2_intrinsics s).
Proof. unfold init_c2_intrinsics. fields_tac. Qed.

Lemma init_sve_max_vector_size_fields e s :
  fields_ok [F_sve_length] s (state_of (init_sve_max_vector_size e s)).
Proof. unfold init_sve_max_vector_size. fields_tac. Qed.

Lemma init_neon_max_vector_size_fields s :
  fields_ok [] s (state_of (init_neon_max_vector_size s)).
Proof. unfold init_neon_max_vector_size. fields_tac. Qed.

Lemma init_c2_scheduling_fields s : fields_ok [] s (init_c2_scheduling s).
Proof. unfold init_c2_scheduling. fields_tac. Qed.

Lemma unsupported_CriticalJNINatives_fields s :
  fields_ok [] s (unsupported_CriticalJNINatives s).
Proof. unfold unsupported_CriticalJNINatives. fields_tac. Qed.

Lemma set_spin_wait_fields d s : fields_ok [F_spin_wait] s (set_spin_wait d s).
Proof. fields_tac. Qed.

End FieldBlocks.

Create HintDb fieldsdb discriminated.

#[export] Hint Resolve init_probe_fields init_prefetch_defaults_fields
  init_prefetch_copy_interval_fields init_prefetch_alignment_fields
  init_padding_and_flush_fields rule_emag_fields rule_ampere_fields
  rule_thunderx_fields rule_thunderx2_fields rule_tsv110_fields
  rule_cortex_a53_fields rule_cortex_a73_fields rule_neoverse_fields
  rule_arm_fields init_crc32_fields init_lse_fields init_aes_fields
  init_crc32_intrinsics_fields init_sha_fields init_sha1_sha256_fields
  init_sha3_sha512_fields init_sha_reset_fields init_ghash_base64_fields
  init_block_zeroing_fields init_sve_tier_fields init_sve_length_fields
  init_unaligned_popcount_fields init_c2_intrinsics_fields
  init_sve_max_vector_size_fields init_neon_max_vector_size_fields
  init_c2_scheduling_fields unsupported_CriticalJNINatives_fields
  set_spin_wait_fields : fieldsdb.

Ltac fields_chain :=
  first [ apply fields_refl
        | eapply fields_trans; [ | solve [ eauto with fieldsdb nocore ] ]; fields_chain ].

Ltac fields_phase := eapply fields_weaken; [ | cbv zeta; fields_chain ]; weaker.

Section FieldPhases.

Context {P : Platform}.

Lemma scan_info_lines_fields virt1 vt1 virt2 vt2 lines s :
  fields_ok [F_virtualization] s (snd (scan_info_lines virt1 vt1 virt2 vt2 lines s)).
Proof.
  induction lines as [| line rest IH]; cbn [scan_info_lines].
  - constructor; reflexivity.
  - destruct (strcasestr line virt1); [ cbn [snd]; fields_tac | ].
    destruct (match virt2 with Some v2 => strcasestr line v2 | None => false end);
      [ cbn [snd]; fields_tac | exact IH ].
Qed.

Lemma check_info_file_fields e fpath virt1 vt1 virt2 vt2 s :
  fields_ok [F_opened; F_virtualization] s
            (snd (check_info_file e fpath virt1 vt1 virt2 vt2 s)).
Proof.
  unfold check_info_file. cbv zeta.
  destruct (fopen_lines e fpath) as [lines |].
  - apply (fields_trans [F_opened] [F_virtualization] s (note_fopen fpath s)).
    + fields_tac.
    + apply scan_info_lines_fields.
  - cbn [snd]. fields_tac.
Qed.

Lemma check_virtualizations_fields e s :
  fields_ok [F_opened; F_virtualization] s (check_virtualizations e s).
Proof.
  unfold check_virtualizations. destruct LINUX; [ | constructor; reflexivity ].
  pose proof (check_info_file_fields e pname_file "KVM" KVM (Some "VMWare") VMWare s) as H1.
  destruct (check_info_file e pname_file "KVM" KVM (Some "VMWare") VMWare s)
    as [found s1]. cbn [snd] in H1.
  destruct found; [ exact H1 | ].
  eapply fields_weaken;
    [ | exact (fields_trans _ _ _ _ _ H1
                 (check_info_file_fields e tname_file "Xen" XenPVHVM None
                    NoDetectedVirtualization s1)) ].
  weaker.
Qed.

#[local] Hint Resolve check_virtualizations_fields : fieldsdb.

Lemma initialize_finish_fields e s :
  fields_ok [F_spin_wait; F_opened; F_virtualization] s
            (state_of (initialize_finish e s)).
Proof.
  unfold initialize_finish.
  destruct (get_spin_wait_desc s) as [d | m st] eqn:E; cbn [bind state_of].
  - fields_phase.
  - apply get_spin_wait_desc_state in E. subst st. constructor; reflexivity.
Qed.

Lemma tuning_after_probe_fields e s :
  fields_ok [F_flush_size; F_inst] s
    (rule_ampere e (rule_emag e (init_padding_and_flush e
       (init_prefetch_alignment (init_prefetch_copy_interval
          (init_prefetch_defaults e s)))))).
Proof. fields_phase. Qed.

Lemma initialize_vendors_fields e s :
  fields_ok [F_features; F_inst] s (initialize_vendors e s).
Proof. unfold initialize_vendors. fields_phase. Qed.

Lemma initialize_crc_lse_fields s : fields_ok [] s (initialize_crc_lse s).
Proof. unfold initialize_crc_lse. fields_phase. Qed.

Lemma initialize_sha_fields s : fields_ok [] s (initialize_sha s).
Proof. unfold initialize_sha. fields_phase. Qed.

Lemma initialize_rest_fields e s : fields_ok [F_sve_length] s (initialize_rest e s).
Proof. unfold initialize_rest, initialize_ghash_sve. fields_phase. Qed.

Lemma initialize_features_fields e s :
  fields_ok [F_sve_length] s (initialize_features e s).
Proof.
  unfold initialize_features. cbv zeta.
  eapply fields_weaken;
    [ | eapply fields_trans;
          [ eapply fields_trans;
              [ eapply fields_trans;
                  [ apply initialize_crc_lse_fields | apply init_aes_fields ]
              | apply initialize_sha_fields ]
          | apply initialize_rest_fields ] ].
  weaker.
Qed.

Lemma init_compiler2_fields e s :
  fields_ok [F_sve_length] s (state_of (init_compiler2 e s)).
Proof.
  unfold init_compiler2. destruct COMPILER2; cbv zeta.
  - eapply fields_weaken;
      [ | eapply fields_trans;
            [ apply init_c2_intrinsics_fields
            | apply fields_bind;
                [ apply init_sve_max_vector_size_fields
                | intros s1 _; apply fields_bind;
                    [ apply init_neon_max_vector_size_fields
                    | intros s2 _; cbn [state_of]; apply init_c2_scheduling_fields ] ] ] ].
    weaker.
  - constructor; reflexivity.
Qed.

(** From line 442 to the end. *)
Lemma after_popcount_fields e s :
  fields_ok [F_sve_length; F_spin_wait; F_opened; F_virtualization] s
            (state_of (after_popcount e s)).
Proof.
  unfold after_popcount.
  eapply fields_weaken;
    [ | apply fields_bind;
          [ apply init_compiler2_fields
          | intros s1 _; apply initialize_finish_fields ] ].
  weaker.
Qed.

(** From line 243 to the end. *)
Lemma after_vendors_fields e s :
  fields_ok [F_sve_length; F_spin_wait; F_opened; F_virtualization] s
            (state_of (after_popcount e (initialize_features e s))).
Proof.
  eapply fields_weaken;
    [ | eapply fields_trans;
          [ apply initialize_features_fields | apply after_popcount_fields ] ].
  weaker.
Qed.

End FieldPhases.

(** ** X1: flags the operator set *)

Lemma app_same_nil {A : Type} (w l : list A) : (w ++ l)%list = w -> l = [].
Proof.
  intros H. apply (f_equal (@List.length A)) in H. rewrite length_app in H.
  destruct l; [ reflexivity | cbn in H; lia ].
Qed.

Lemma quiet_refl s : quiet s s.
Proof.
  constructor; try reflexivity; try congruence.
  exists []. symmetry. apply app_nil_r.
Qed.

Lemma quiet_trans s s' s'' : quiet s s' -> quiet s' s'' -> quiet s s''.
Proof.
  intros H1 H2.
  destruct (q_log _ _ H1) as [l1 E1]. destruct (q_log _ _ H2) as [l2 E2].
  assert (Hgrow : warnings s' <> warnings s \/ warnings s'' <> warnings s' ->
                  warnings s'' <> warnings s).
  { intros Hd Heq. rewrite E2, E1, <- app_assoc in Heq.
    apply app_same_nil in Heq. apply app_eq_nil in Heq. destruct Heq as [-> ->].
    rewrite app_nil_r in E1, E2. destruct Hd as [Hd | Hd]; apply Hd; congruence. }
  constructor.
  - rewrite (q_borigin _ _ H2). apply (q_borigin _ _ H1).
  - rewrite (q_iorigin _ _ H2). apply (q_iorigin _ _ H1).
  - rewrite (q_sorigin _ _ H2). apply (q_sorigin _ _ H1).
  - exists (l1 ++ l2)%list. rewrite E2, E1, app_assoc. reflexivity.
  - intros k Hk Ho Hne. apply Hgrow.
    destruct (bool_dec (bval s' k) (bval s k)) as [E | E].
    + right. apply (q_bval _ _ H2 k Hk).
      * rewrite (q_borigin _ _ H1). exact Ho.
      * congruence.
    + left. apply (q_bval _ _ H1 k Hk Ho E).
  - intros k Ho Hne. apply Hgrow.
    destruct (Z.eq_dec (ival s' k) (ival s k)) as [E | E].
    + right. apply (q_ival _ _ H2 k).
      * rewrite (q_iorigin _ _ H1). exact Ho.
      * congruence.
    + left. apply (q_ival _ _ H1 k Ho E).
  - intros Ho. rewrite (q_inst _ _ H2).
    + apply (q_inst _ _ H1 Ho).
    + rewrite (q_sorigin _ _ H1). exact Ho.
Qed.

Lemma quiet_bind (s : VM) (r : Result VM) (k : VM -> Result VM) :
  quiet s (state_of r) ->
  (forall s', r = Ok s' -> quiet s' (state_of (k s'))) ->
  quiet s (state_of (bind r k)).
Proof.
  intros H1 H2. destruct r as [s' | m st]; cbn [bind state_of] in *.
  - eapply quiet_trans; [ exact H1 | apply H2; reflexivity ].
  - exact H1.
Qed.

(** The log of the store a block leaves is longer than the one it found. *)
Ltac log_changed :=
  let Hw := fresh "Hw" in
  push; intros Hw; apply (f_equal (@List.length Msg)) in Hw;
  rewrite ?length_app in Hw; cbn [List.length] in Hw; lia.

Ltac log_extended :=
  push;
  first [ exists []; rewrite app_nil_r; reflexivity
        | eexists; rewrite <- ?app_assoc; reflexivity ].

Ltac quiet_close Ho :=
  rewrite ?Ho in *; cbn in *; rewrite ?andb_false_r, ?orb_false_r;
  first [ reflexivity | congruence | discriminate ].

Ltac quiet_write_b k Ho :=
  match goal with
  | |- context [BoolKnob_beq k ?K] =>
      let E := fresh "E" in
      destruct (BoolKnob_beq k K) eqn:E;
      [ apply internal_BoolKnob_dec_bl in E; subst k; quiet_close Ho | ]
  end.

Ltac quiet_write_i k Ho :=
  match goal with
  | |- context [IntKnob_beq k ?K] =>
      let E := fresh "E" in
      destruct (IntKnob_beq k K) eqn:E;
      [ apply internal_IntKnob_dec_bl in E; subst k; quiet_close Ho | ]
  end.

Ltac quiet_tac :=
  intros; splits;
  (constructor;
   [ reflexivity | reflexivity | reflexivity
   | log_extended
   | let k := fresh "k" in
     let Hk := fresh "Hk" in
     let Ho := fresh "Ho" in
     let Hne := fresh "Hne" in
     intros k Hk Ho Hne;
     first [ log_changed
           | exfalso; apply Hne; open_flags; repeat quiet_write_b k Ho; reflexivity ]
   | let k := fresh "k" in
     let Ho := fresh "Ho" in
     let Hne := fresh "Hne" in
     intros k Ho Hne;
     first [ log_changed
           | exfalso; apply Hne; open_flags; repeat quiet_write_i k Ho; reflexivity ]
   | let Ho := fresh "Ho" in
     intros Ho; first [ reflexivity | open_flags; quiet_close Ho ] ]).

Section QuietBlocks.

Context {P : Platform}.

Lemma init_probe_quiet e s : quiet s (init_probe e s).
Proof. unfold init_probe. quiet_tac. Qed.

Lemma init_prefetch_defaults_quiet e s : quiet s (init_prefetch_defaults e s).
Proof. unfold init_prefetch_defaults. quiet_tac. Qed.

Lemma init_prefetch_copy_interval_quiet s : quiet s (init_prefetch_copy_interval s).
Proof. unfold init_prefetch_copy_interval. quiet_tac. Qed.

Lemma init_prefetch_alignment_quiet s : quiet s (init_prefetch_alignment s).
Proof. unfold init_prefetch_alignment. quiet_tac. Qed.

Lemma init_padding_and_flush_quiet e s : quiet s (init_padding_and_flush e s).
Proof. unfold init_padding_and_flush. quiet_tac. Qed.

Lemma rule_emag_quiet e s : quiet s (rule_emag e s).
Proof. unfold rule_emag. quiet_tac. Qed.

Lemma rule_ampere_quiet e s : quiet s (rule_ampere e s).
Proof. unfold rule_ampere. quiet_tac. Qed.

Lemma rule_thunderx_quiet e s : quiet s (state_of (rule_thunderx e s)).
Proof. unfold rule_thunderx. quiet_tac. Qed.

Lemma rule_thunderx2_quiet e s : quiet s (rule_thunderx2 e s).
Proof. unfold rule_thunderx2. quiet_tac. Qed.

Lemma rule_tsv110_quiet e s : quiet s (rule_tsv110 e s).
Proof. unfold rule_tsv110. quiet_tac. Qed.

Lemma rule_cortex_a53_quiet e s : quiet s (rule_cortex_a53 e s).
Proof. unfold rule_cortex_a53. quiet_tac. Qed.

Lemma rule_cortex_a73_quiet e s : quiet s (rule_cortex_a73 e s).
Proof. unfold rule_cortex_a73. quiet_tac. Qed.

Lemma rule_neoverse_quiet e s : quiet s (rule_neoverse e s).
Proof. unfold rule_neoverse. quiet_tac. Qed.

Lemma rule_arm_quiet e s : quiet s (rule_arm e s).
Proof. unfold rule_arm. quiet_tac. Qed.

Lemma init_block_zeroing_quiet e s : quiet s (init_block_zeroing e s).
Proof. unfold init_block_zeroing. quiet_tac. Qed.

Lemma init_sve_length_quiet e s : quiet s (init_sve_length e s).
Proof. unfold init_sve_length. quiet_tac. Qed.

Lemma init_crc32_quiet s : quiet s (init_crc32 s).
Proof. unfold init_crc32. quiet_tac. Qed.

Lemma init_lse_quiet s : quiet s (init_lse s).
Proof. unfold init_lse. quiet_tac. Qed.

Lemma init_aes_quiet s : quiet s (init_aes s).
Proof. unfold init_aes. quiet_tac. Qed.

Lemma init_crc32_intrinsics_quiet s : quiet s (init_crc32_intrinsics s).
Proof. unfold init_crc32_intrinsics. quiet_tac. Qed.

Lemma init_sha_quiet s : quiet s (init_sha s).
Proof. unfold init_sha. quiet_tac. Qed.

Lemma init_sha1_sha256_quiet s : quiet s (init_sha1_sha256 s).
Proof. unfold init_sha1_sha256. quiet_tac. Qed.

Lemma init_sha3_sha512_quiet s : quiet s (init_sha3_sha512 s).
Proof. unfold init_sha3_sha512. quiet_tac. Qed.

Lemma init_sha_reset_quiet s : quiet s (init_sha_reset s).
Proof. unfold init_sha_reset. quiet_tac. Qed.

Lemma init_ghash_base64_quiet s : quiet s (init_ghash_base64 s).
Proof. unfold init_ghash_base64. quiet_tac. Qed.

Lemma init_sve_tier_quiet s : quiet s (init_sve_tier s).
Proof. unfold init_sve_tier. quiet_tac. Qed.

Lemma init_unaligned_popcount_quiet s : quiet s (init_unaligned_popcount s).
Proof. unfold init_unaligned_popcount. quiet_tac. Qed.

Lemma init_c2_intrinsics_quiet s : quiet s (init_c2_intrinsics s).
Proof. unfold init_c2_intrinsics. quiet_tac. Qed.

Lemma init_c2_scheduling_quiet s : quiet s (init_c2_scheduling s).
Proof. unfold init_c2_scheduling. quiet_tac. Qed.

Lemma unsupported_CriticalJNINatives_quiet s : quiet s (unsupported_CriticalJNINatives s).
Proof. unfold unsupported_CriticalJNINatives. quiet_tac. Qed.

Lemma init_neon_max_vector_size_quiet s : quiet s (state_of (init_neon_max_vector_size s)).
Proof. unfold init_neon_max_vector_size. quiet_tac. Qed.

Lemma set_spin_wait_quiet d s : quiet s (set_spin_wait d s).
Proof. quiet_tac. Qed.

End QuietBlocks.

Section QuietPhases.

Context {P : Platform}.

Lemma init_sve_max_vector_size_quiet e s :
  quiet s (state_of (init_sve_max_vector_size e s)).
Proof.
  unfold init_sve_max_vector_size. intros; splits.
  all: constructor;
    [ reflexivity | reflexivity | reflexivity | log_extended
    | intros k Hk Ho Hne; first [ log_changed | exfalso; apply Hne; reflexivity ]
    | intros k Ho Hne; first [ log_changed | exfalso; apply Hne ]
    | reflexivity ].
  all: open_flags.
  all: try solve [ repeat quiet_write_i k Ho; reflexivity ].
  apply negb_false_iff, Z.eqb_eq in Heqb4.
  destruct (IntKnob_beq k MaxVectorSize) eqn:E; [ | reflexivity ].
  apply internal_IntKnob_dec_bl in E. subst k. exact Heqb4.
Qed.

Lemma scan_info_lines_quiet virt1 vt1 virt2 vt2 lines s :
  quiet s (snd (scan_info_lines virt1 vt1 virt2 vt2 lines s)).
Proof.
  induction lines as [| line rest IH]; cbn [scan_info_lines].
  - apply quiet_refl.
  - destruct (strcasestr line virt1); [ cbn [snd]; quiet_tac | ].
    destruct (match virt2 with Some v2 => strcasestr line v2 | None => false end);
      [ cbn [snd]; quiet_tac | exact IH ].
Qed.

Lemma check_info_file_quiet e fpath virt1 vt1 virt2 vt2 s :
  quiet s (snd (check_info_file e fpath virt1 vt1 virt2 vt2 s)).
Proof.
  unfold check_info_file. cbv zeta.
  destruct (fopen_lines e fpath) as [lines |].
  - apply (quiet_trans s (note_fopen fpath s)).
    + quiet_tac.
    + apply scan_info_lines_quiet.
  - cbn [snd]. quiet_tac.
Qed.

Lemma check_virtualizations_quiet e s : quiet s (check_virtualizations e s).
Proof.
  unfold check_virtualizations. destruct LINUX; [ | apply quiet_refl ].
  pose proof (check_info_file_quiet e pname_file "KVM" KVM (Some "VMWare") VMWare s) as H1.
  destruct (check_info_file e pname_file "KVM" KVM (Some "VMWare") VMWare s)
    as [found s1]. cbn [snd] in H1.
  destruct found; [ exact H1 | ].
  apply (quiet_trans s s1); [ exact H1 | apply check_info_file_quiet ].
Qed.

End QuietPhases.

Create HintDb quiets discriminated.

#[export] Hint Resolve init_probe_quiet init_prefetch_defaults_quiet
  init_prefetch_copy_interval_quiet init_prefetch_alignment_quiet
  init_padding_and_flush_quiet rule_emag_quiet rule_ampere_quiet
  rule_thunderx_quiet rule_thunderx2_quiet rule_tsv110_quiet
  rule_cortex_a53_quiet rule_cortex_a73_quiet rule_neoverse_quiet
  rule_arm_quiet init_crc32_quiet init_lse_quiet init_aes_quiet
  init_crc32_intrinsics_quiet init_sha_quiet init_sha1_sha256_quiet
  init_sha3_sha512_quiet init_sha_reset_quiet init_ghash_base64_quiet
  init_block_zeroing_quiet init_sve_tier_quiet init_sve_length_quiet
  init_unaligned_popcount_quiet init_c2_intrinsics_quiet
  init_sve_max_vector_size_quiet init_neon_max_vector_size_quiet
  init_c2_scheduling_quiet unsupported_CriticalJNINatives_quiet
  set_spin_wait_quiet check_virtualizations_quiet : quiets.

Ltac quiet_chain :=
  first [ apply quiet_refl
        | eapply quiet_trans; [ | solve [ eauto with quiets nocore ] ]; quiet_chain ].

Section QuietRuns.

Context {P : Platform}.

Lemma initialize_finish_quiet e s : quiet s (state_of (initialize_finish e s)).
Proof.
  unfold initialize_finish.
  destruct (get_spin_wait_desc s) as [d | m st] eqn:E; cbn [bind state_of].
  - cbv zeta. quiet_chain.
  - apply get_spin_wait_desc_state in E. subst st. apply quiet_refl.
Qed.

Lemma init_compiler2_quiet e s : quiet s (state_of (init_compiler2 e s)).
Proof.
  unfold init_compiler2. destruct COMPILER2; cbv zeta; [ | apply quiet_refl ].
  eapply quiet_trans; [ apply init_c2_intrinsics_quiet | ].
  apply quiet_bind; [ apply init_sve_max_vector_size_quiet | ].
  intros s1 _. apply quiet_bind; [ apply init_neon_max_vector_size_quiet | ].
  intros s2 _. cbn [state_of]. apply init_c2_scheduling_quiet.
Qed.

Lemma initialize_tuning_quiet e s : quiet s (initialize_tuning e s).
Proof. unfold initialize_tuning. cbv zeta. quiet_chain. Qed.

Lemma initialize_vendors_quiet e s : quiet s (initialize_vendors e s).
Proof. unfold initialize_vendors. cbv zeta. quiet_chain. Qed.

Lemma initialize_features_quiet e s : quiet s (initialize_features e s).
Proof.
  unfold initialize_features, initialize_crc_lse, initialize_sha, initialize_rest,
    initialize_ghash_sve.
  cbv zeta. quiet_chain.
Qed.

Lemma initialize_run e s :
  initialize e s =
  (s1 <- rule_thunderx e (initialize_tuning e s) ;;
   s2 <- init_compiler2 e (initialize_features e (initialize_vendors e s1)) ;;
   initialize_finish e s2).
Proof. reflexivity. Qed.

Lemma initialize_quiet e s : quiet s (state_of (initialize e s)).
Proof.
  rewrite initialize_run.
  eapply quiet_trans; [ apply initialize_tuning_quiet | ].
  apply quiet_bind; [ apply rule_thunderx_quiet | ].
  intros s1 _.
  eapply quiet_trans; [ apply initialize_vendors_quiet | ].
  eapply quiet_trans; [ apply initialize_features_quiet | ].
  apply quiet_bind; [ apply init_compiler2_quiet | ].
  intros s2 _. apply initialize_finish_quiet.
Qed.

(** X1.  A run of [VM_Version::initialize], whether it returns or exits,
    only adds to the warning log, and it does not change a flag behind the
    operator's back: when the run logs no warning, every boolean flag given
    on the command line other than [UseSHA], and every integer flag given
    on the command line, ends with the value the operator gave it.
    [OnSpinWaitInst] given on the command line is never changed. *)
Theorem operator_flags_change_under_warning e s :
  let s' := state_of (initialize e s) in
  (exists l, warnings s' = (warnings s ++ l)%list)
  /\ (warnings s' = warnings s ->
      (forall k, k <> UseSHA -> borigin s k = COMMAND_LINE -> bval s' k = bval s k)
      /\ (forall k, iorigin s k = COMMAND_LINE -> ival s' k = ival s k))
  /\ (OnSpinWaitInst_origin s = COMMAND_LINE -> OnSpinWaitInst s' = OnSpinWaitInst s).
Proof.
  intros s'. pose proof (initialize_quiet e s) as H. fold s' in H.
  split; [ apply (q_log _ _ H) | split; [ | apply (q_inst _ _ H) ] ].
  intros Hw. split.
  - intros k Hk Ho. destruct (bool_dec (bval s' k) (bval s k)) as [E | E]; [ exact E | ].
    exfalso. exact (q_bval _ _ H k Hk Ho E Hw).
  - intros k Ho. destruct (Z.eq_dec (ival s' k) (ival s k)) as [E | E]; [ exact E | ].
    exfalso. exact (q_ival _ _ H k Ho E Hw).
Qed.

End QuietRuns.

(** ** X2: flags that need their hardware *)

(** *** Runs that complete *)

Ltac skip_b H := rewrite (ok_bval _ _ _ _ H) by reflexivity.
Ltac skip_i H := rewrite (ok_ival _ _ _ _ H) by reflexivity.

Section Decompose.

Context {P : Platform}.

(** The stores a completed run goes through: [s1] after the ThunderX
    rule, [s2] after the COMPILER2 part. *)
Lemma initialize_Ok e s s' :
  initialize e s = Ok s' ->
  exists s1 s2,
    rule_thunderx e (initialize_tuning e s) = Ok s1
    /\ init_compiler2 e (initialize_features e (initialize_vendors e s1)) = Ok s2
    /\ initialize_finish e s2 = Ok s'.
Proof.
  rewrite initialize_run. intros H.
  apply bind_Ok in H. destruct H as [s1 [H1 H]].
  apply bind_Ok in H. destruct H as [s2 [H2 H]].
  exists s1, s2. auto.
Qed.

Lemma has_feature_same s s' m :
  _features s' = _features s -> has_feature m s' = has_feature m s.
Proof. unfold has_feature. intros ->. reflexivity. Qed.

(** Lines 71-241 write the vendor flags only. *)
Lemma initialize_tuning_vendor e s :
  step_ok vendor_bool_knobs early_int_knobs s (initialize_tuning e s).
Proof. unfold initialize_tuning. phase. Qed.

Lemma initialize_vendors_vendor e s :
  step_ok vendor_bool_knobs [SoftwarePrefetchHintDistance; OnSpinWaitInstCount]
          s (initialize_vendors e s).
Proof. unfold initialize_vendors. phase. Qed.

Lemma rule_thunderx_vendor e s :
  step_ok vendor_bool_knobs [] s (state_of (rule_thunderx e s)).
Proof. eapply step_weaken; [ | | apply rule_thunderx_ok ]; weaker. Qed.

(** The store at line 243 of a completed run. *)
Lemma line_243_ok e s s1 :
  rule_thunderx e (initialize_tuning e s) = Ok s1 ->
  step_ok vendor_bool_knobs early_int_knobs s (initialize_vendors e s1).
Proof.
  intros H1.
  pose proof (rule_thunderx_vendor e (initialize_tuning e s)) as Hx.
  rewrite H1 in Hx. cbn [state_of] in Hx.
  eapply step_weaken;
    [ | | exact (step_trans _ _ _ _ _ _ _
                   (step_trans _ _ _ _ _ _ _ (initialize_tuning_vendor e s) Hx)
                   (initialize_vendors_vendor e s1)) ];
    weaker.
Qed.

(** From line 243 on the feature bits are final. *)
Lemma final_features e sv s2 s' :
  init_compiler2 e (initialize_features e sv) = Ok s2 ->
  initialize_finish e s2 = Ok s' ->
  _features s' = _features sv.
Proof.
  intros H2 H3.
  pose proof (after_vendors_fields e sv) as H.
  unfold after_popcount in H. rewrite H2 in H. cbn [bind] in H.
  rewrite H3 in H. cbn [state_of] in H.
  apply (fk_features _ _ _ H). reflexivity.
Qed.

(** The final value of a flag is the one the last phase that writes it
    leaves. *)
Lemma final_after_popcount e x s2 s' k :
  init_compiler2 e x = Ok s2 -> initialize_finish e s2 = Ok s' ->
  writes_b c2_bool_knobs k = false -> bval s' k = bval x k.
Proof.
  intros H2 H3 Hk. pose proof (after_popcount_ok e x) as H.
  unfold after_popcount in H. rewrite H2 in H. cbn [bind] in H.
  rewrite H3 in H. cbn [state_of] in H. apply (ok_bval _ _ _ _ H k Hk).
Qed.

Lemma final_after_popcount_i e x s2 s' k :
  init_compiler2 e x = Ok s2 -> initialize_finish e s2 = Ok s' ->
  writes_i c2_int_knobs k = false -> ival s' k = ival x k.
Proof.
  intros H2 H3 Hk. pose proof (after_popcount_ok e x) as H.
  unfold after_popcount in H. rewrite H2 in H. cbn [bind] in H.
  rewrite H3 in H. cbn [state_of] in H. apply (ok_ival _ _ _ _ H k Hk).
Qed.

End Decompose.

Section GateBlocks.

Context {P : Platform}.

Lemma init_crc32_gate s :
  let s' := init_crc32 s in
  (bval s' UseCRC32 = true -> has_feature CPU_CRC32 s = true)
  /\ bval s' UseVectorizedMismatchIntrinsic = false
  /\ (bval s UseVectorizedMismatchIntrinsic = true ->
      In (mkMsg "UseVectorizedMismatchIntrinsic specified, but not available on this CPU." [])
         (warnings s'))
  /\ (is_default (borigin s UseAdler32Intrinsics) = true ->
      bval s' UseAdler32Intrinsics = true).
Proof. unfold init_crc32. block_cases s. Qed.

Lemma init_lse_gate s :
  bval (init_lse s) UseLSE = true -> has_feature CPU_LSE s = true.
Proof. unfold init_lse. block_cases s. Qed.

Lemma init_aes_gate s :
  let s' := init_aes s in
  (bval s' UseAES = true -> has_feature CPU_AES s = true)
  /\ (bval s' UseAESIntrinsics = true -> has_feature CPU_AES s = true)
  /\ (bval s' UseAESCTRIntrinsics = true -> has_feature CPU_AES s = true).
Proof. unfold init_aes. block_cases s. Qed.

Lemma init_crc32_intrinsics_gate s :
  let s' := init_crc32_intrinsics s in
  (bval s' UseCRC32CIntrinsics = true -> has_feature CPU_CRC32 s = true)
  /\ (is_default (borigin s UseCRC32Intrinsics) = true -> bval s' UseCRC32Intrinsics = true)
  /\ (is_default (borigin s UseFMA) = true -> bval s' UseFMA = true)
  /\ (is_default (borigin s UseMD5Intrinsics) = true -> bval s' UseMD5Intrinsics = true).
Proof. unfold init_crc32_intrinsics. block_cases s. Qed.

Lemma init_ghash_base64_gate s :
  let s' := init_ghash_base64 s in
  (bval s' UseGHASHIntrinsics = true -> has_feature CPU_PMULL s = true)
  /\ (is_default (borigin s UseBASE64Intrinsics) = true ->
      bval s' UseBASE64Intrinsics = true).
Proof. unfold init_ghash_base64. block_cases s. Qed.

Lemma init_block_zeroing_gate e s :
  bval (init_block_zeroing e s) UseBlockZeroing = true -> is_zva_enabled e = true.
Proof. unfold init_block_zeroing. block_cases s. Qed.

End GateBlocks.

Section GateSve.

Context {P : Platform}.

Lemma init_sve_tier_gate s :
  0 < ival (init_sve_tier s) UseSVE -> has_feature CPU_SVE s = true.
Proof.
  unfold init_sve_tier.
  destruct (has_feature CPU_SVE s); [ reflexivity | ].
  destruct (Z.ltb_spec 0 (ival s UseSVE)); cbn; lia.
Qed.

(** The SVE tier is only ever lowered to 0 after line 410. *)
Lemma init_sve_length_tier e s :
  ival (init_sve_length e s) UseSVE = ival s UseSVE
  \/ ival (init_sve_length e s) UseSVE = 0.
Proof. unfold init_sve_length. splits; cbn; auto. Qed.

Lemma init_sve_max_vector_size_tier e s s' :
  init_sve_max_vector_size e s = Ok s' ->
  ival s' UseSVE = ival s UseSVE \/ ival s' UseSVE = 0.
Proof.
  unfold init_sve_max_vector_size.
  splits; intros H; inversion H; cbn; auto.
Qed.

End GateSve.

Section ShaBlocks.

Context {P : Platform}.

Lemma init_sha_gate s :
  bval (init_sha s) UseSHA = true ->
  has_feature (Z.lor (Z.lor (Z.lor CPU_SHA1 CPU_SHA2) CPU_SHA3) CPU_SHA512) s = true.
Proof. unfold init_sha. block_cases s. Qed.

Lemma init_sha1_sha256_gate s :
  let s' := init_sha1_sha256 s in
  (bval s' UseSHA1Intrinsics = true ->
   bval s UseSHA = true /\ has_feature CPU_SHA1 s = true)
  /\ (bval s' UseSHA256Intrinsics = true ->
      bval s UseSHA = true /\ has_feature CPU_SHA2 s = true).
Proof. unfold init_sha1_sha256. block_cases s. Qed.

Lemma init_sha3_sha512_gate s :
  let s' := init_sha3_sha512 s in
  (bval s' UseSHA3Intrinsics = true ->
   bval s UseSHA = true /\ has_feature CPU_SHA3 s = true)
  /\ (bval s' UseSHA512Intrinsics = true ->
      bval s UseSHA = true /\ has_feature CPU_SHA512 s = true).
Proof. unfold init_sha3_sha512. block_cases s. Qed.

Lemma init_sha_reset_value s :
  bval (init_sha_reset s) UseSHA
  = bval s UseSHA
    && (bval s UseSHA1Intrinsics || bval s UseSHA256Intrinsics
        || bval s UseSHA3Intrinsics || bval s UseSHA512Intrinsics).
Proof. unfold init_sha_reset. block_cases s. Qed.

End ShaBlocks.

Section Gates.

Context {P : Platform}.

(** X2.  After a run of [VM_Version::initialize] that returns, no flag is
    on without its hardware, whatever the operator asked for: [UseCRC32]
    and [UseCRC32CIntrinsics] need the CRC32 bit, [UseLSE] the LSE bit,
    [UseAES], [UseAESIntrinsics] and [UseAESCTRIntrinsics] the AES bit,
    [UseGHASHIntrinsics] the PMULL bit, [UseBlockZeroing] an enabled
    DC ZVA, and [UseSVE > 0] the SVE bit. *)
Theorem hardware_gated_flags e s s' :
  initialize e s = Ok s' ->
  (bval s' UseCRC32 = true -> has_feature CPU_CRC32 s' = true)
  /\ (bval s' UseLSE = true -> has_feature CPU_LSE s' = true)
  /\ (bval s' UseAES = true -> has_feature CPU_AES s' = true)
  /\ (bval s' UseAESIntrinsics = true -> has_feature CPU_AES s' = true)
  /\ (bval s' UseAESCTRIntrinsics = true -> has_feature CPU_AES s' = true)
  /\ (bval s' UseCRC32CIntrinsics = true -> has_feature CPU_CRC32 s' = true)
  /\ (bval s' UseGHASHIntrinsics = true -> has_feature CPU_PMULL s' = true)
  /\ (bval s' UseBlockZeroing = true -> is_zva_enabled e = true)
  /\ (0 < ival s' UseSVE -> has_feature CPU_SVE s' = true).
Proof.
  intros H. destruct (initialize_Ok e s s' H) as [s1 [s2 [H1 [H2 H3]]]].
  set (sv := initialize_vendors e s1) in *.
  pose proof (final_features e sv s2 s' H2 H3) as Hf.
  assert (hf : forall y m, _features y = _features sv ->
                           has_feature m s' = has_feature m y).
  { intros y m Hy. apply has_feature_same. congruence. }
  pose proof (fun k => final_after_popcount e _ s2 s' k H2 H3) as Hb.
  unfold initialize_features in Hb, H2. cbv zeta in Hb, H2.
  set (a := initialize_crc_lse sv) in *.
  set (b := init_aes a) in *.
  set (c := initialize_sha b) in *.
  pose proof (initialize_rest_ok e c) as Fr.
  pose proof (initialize_sha_ok b) as Fs.
  pose proof (init_aes_ok a) as Fa.
  assert (Ha : _features a = _features sv).
  { apply (fk_features _ _ _ (initialize_crc_lse_fields sv)). reflexivity. }
  assert (Hc : _features c = _features sv).
  { unfold c. rewrite (fk_features _ _ _ (initialize_sha_fields b)) by reflexivity.
    unfold b. rewrite (fk_features _ _ _ (init_aes_fields a)) by reflexivity.
    exact Ha. }
  repeat split.
  - rewrite Hb by reflexivity. skip_b Fr. skip_b Fs. skip_b Fa.
    unfold a, initialize_crc_lse. cbv zeta. skip_b (init_lse_ok (init_crc32 sv)).
    rewrite (hf sv) by reflexivity. apply init_crc32_gate.
  - rewrite Hb by reflexivity. skip_b Fr. skip_b Fs. skip_b Fa.
    unfold a, initialize_crc_lse. cbv zeta.
    rewrite (hf (init_crc32 sv))
      by (apply (fk_features _ _ _ (init_crc32_fields sv)); reflexivity).
    apply init_lse_gate.
  - rewrite Hb by reflexivity. skip_b Fr. skip_b Fs.
    rewrite (hf a) by exact Ha. apply init_aes_gate.
  - rewrite Hb by reflexivity. skip_b Fr. skip_b Fs.
    rewrite (hf a) by exact Ha. apply init_aes_gate.
  - rewrite Hb by reflexivity. skip_b Fr. skip_b Fs.
    rewrite (hf a) by exact Ha. apply init_aes_gate.
  - rewrite Hb by reflexivity. skip_b Fr.
    unfold c, initialize_sha. cbv zeta.
    skip_b (init_sha_reset_ok (init_sha3_sha512 (init_sha1_sha256
              (init_sha (init_crc32_intrinsics b))))).
    skip_b (init_sha3_sha512_ok (init_sha1_sha256 (init_sha (init_crc32_intrinsics b)))).
    skip_b (init_sha1_sha256_ok (init_sha (init_crc32_intrinsics b))).
    skip_b (init_sha_ok (init_crc32_intrinsics b)).
    rewrite (hf b)
      by (unfold b; rewrite (fk_features _ _ _ (init_aes_fields a)) by reflexivity;
          exact Ha).
    apply init_crc32_intrinsics_gate.
  - rewrite Hb by reflexivity.
    unfold initialize_rest, initialize_ghash_sve. cbv zeta.
    skip_b (init_unaligned_popcount_ok
              (init_sve_length e (init_sve_tier (init_block_zeroing e (init_ghash_base64 c))))).
    skip_b (init_sve_length_ok e (init_sve_tier (init_block_zeroing e (init_ghash_base64 c)))).
    skip_b (init_sve_tier_ok (init_block_zeroing e (init_ghash_base64 c))).
    skip_b (init_block_zeroing_ok e (init_ghash_base64 c)).
    rewrite (hf c) by exact Hc. apply init_ghash_base64_gate.
  - rewrite Hb by reflexivity.
    unfold initialize_rest, initialize_ghash_sve. cbv zeta.
    skip_b (init_unaligned_popcount_ok
              (init_sve_length e (init_sve_tier (init_block_zeroing e (init_ghash_base64 c))))).
    skip_b (init_sve_length_ok e (init_sve_tier (init_block_zeroing e (init_ghash_base64 c)))).
    skip_b (init_sve_tier_ok (init_block_zeroing e (init_ghash_base64 c))).
    apply init_block_zeroing_gate.
  - intros Hsve.
    set (z := init_block_zeroing e (init_ghash_base64 c)).
    assert (Hz : _features z = _features sv).
    { unfold z.
      rewrite (fk_features _ _ _ (init_block_zeroing_fields e _)) by reflexivity.
      rewrite (fk_features _ _ _ (init_ghash_base64_fields c)) by reflexivity.
      exact Hc. }
    rewrite (hf z) by exact Hz. apply init_sve_tier_gate.
    (* the tier is only lowered afterwards *)
    pose proof (initialize_finish_ok e s2) as Ff. rewrite H3 in Ff. cbn [state_of] in Ff.
    rewrite (ok_ival _ _ _ _ Ff UseSVE eq_refl) in Hsve.
    unfold initialize_rest, initialize_ghash_sve in H2. cbv zeta in H2. fold z in H2.
    set (t := init_sve_tier z) in *.
    set (u := init_unaligned_popcount (init_sve_length e t)) in *.
    assert (Hu : ival u UseSVE = ival t UseSVE \/ ival u UseSVE = 0).
    { unfold u. skip_i (init_unaligned_popcount_ok (init_sve_length e t)).
      apply init_sve_length_tier. }
    assert (H2u : ival s2 UseSVE = ival u UseSVE \/ ival s2 UseSVE = 0).
    { unfold init_compiler2 in H2. destruct COMPILER2.
      - cbv zeta in H2.
        apply bind_Ok in H2. destruct H2 as [v [Hv H2]].
        apply bind_Ok in H2. destruct H2 as [w [Hw H2]].
        inversion H2 as [E].
        skip_i (init_c2_scheduling_ok w).
        pose proof (init_neon_max_vector_size_ok v) as Fn. rewrite Hw in Fn.
        cbn [state_of] in Fn. skip_i Fn.
        destruct (init_sve_max_vector_size_tier e _ v Hv) as [Et | Et];
          [ left | right; exact Et ].
        rewrite Et. skip_i (init_c2_intrinsics_ok u). reflexivity.
      - inversion H2. left. reflexivity. }
    lia.
Qed.

End Gates.

(** ** X3, X4 and X5: the SHA family, forced flags and plain defaults *)

Section Sha.

Context {P : Platform}.

(** X3.  After a run that returns, [UseSHA] is on exactly when one of the
    four SHA intrinsics flags is on (so an intrinsic is never on under a
    [UseSHA] that is off), and each SHA intrinsic that is on has its own
    feature bit: SHA1, SHA2, SHA3, SHA512. *)
Theorem sha_family_consistent e s s' :
  initialize e s = Ok s' ->
  bval s' UseSHA
  = (bval s' UseSHA1Intrinsics || bval s' UseSHA256Intrinsics
     || bval s' UseSHA3Intrinsics || bval s' UseSHA512Intrinsics)
  /\ (bval s' UseSHA1Intrinsics = true -> has_feature CPU_SHA1 s' = true)
  /\ (bval s' UseSHA256Intrinsics = true -> has_feature CPU_SHA2 s' = true)
  /\ (bval s' UseSHA3Intrinsics = true -> has_feature CPU_SHA3 s' = true)
  /\ (bval s' UseSHA512Intrinsics = true -> has_feature CPU_SHA512 s' = true).
Proof.
  intros H. destruct (initialize_Ok e s s' H) as [s1 [s2 [H1 [H2 H3]]]].
  set (sv := initialize_vendors e s1) in *.
  pose proof (final_features e sv s2 s' H2 H3) as Hf.
  assert (hf : forall y m, _features y = _features sv ->
                           has_feature m s' = has_feature m y).
  { intros y m Hy. apply has_feature_same. congruence. }
  pose proof (fun k => final_after_popcount e _ s2 s' k H2 H3) as Hb.
  unfold initialize_features in Hb. cbv zeta in Hb.
  set (b := init_aes (initialize_crc_lse sv)) in *.
  assert (Hfb : _features b = _features sv).
  { unfold b. rewrite (fk_features _ _ _ (init_aes_fields _)) by reflexivity.
    apply (fk_features _ _ _ (initialize_crc_lse_fields sv)). reflexivity. }
  rewrite !Hb by reflexivity.
  rewrite !(ok_bval _ _ _ _ (initialize_rest_ok e (initialize_sha b))) by reflexivity.
  unfold initialize_sha. cbv zeta.
  set (p := init_sha (init_crc32_intrinsics b)).
  set (q := init_sha1_sha256 p).
  set (r := init_sha3_sha512 q).
  assert (Hfp : _features p = _features sv).
  { unfold p. rewrite (fk_features _ _ _ (init_sha_fields _)) by reflexivity.
    rewrite (fk_features _ _ _ (init_crc32_intrinsics_fields b)) by reflexivity.
    exact Hfb. }
  assert (Hfq : _features q = _features sv).
  { unfold q. rewrite (fk_features _ _ _ (init_sha1_sha256_fields p)) by reflexivity.
    exact Hfp. }
  destruct (init_sha1_sha256_gate p) as [G1 G2]. fold q in G1, G2.
  destruct (init_sha3_sha512_gate q) as [G3 G4]. fold r in G3, G4.
  pose proof (init_sha_reset_value r) as Hv.
  pose proof (init_sha_reset_ok r) as Fx.
  pose proof (init_sha3_sha512_ok q) as Fr. fold r in Fr.
  pose proof (init_sha1_sha256_ok p) as Fq. fold q in Fq.
  rewrite !(ok_bval _ _ _ _ Fx UseSHA1Intrinsics eq_refl).
  rewrite !(ok_bval _ _ _ _ Fx UseSHA256Intrinsics eq_refl).
  rewrite !(ok_bval _ _ _ _ Fx UseSHA3Intrinsics eq_refl).
  rewrite !(ok_bval _ _ _ _ Fx UseSHA512Intrinsics eq_refl).
  assert (E1 : bval r UseSHA1Intrinsics = bval q UseSHA1Intrinsics)
    by (apply (ok_bval _ _ _ _ Fr); reflexivity).
  assert (E2 : bval r UseSHA256Intrinsics = bval q UseSHA256Intrinsics)
    by (apply (ok_bval _ _ _ _ Fr); reflexivity).
  assert (Eq : bval q UseSHA = bval p UseSHA)
    by (apply (ok_bval _ _ _ _ Fq); reflexivity).
  assert (Er : bval r UseSHA = bval p UseSHA).
  { rewrite <- Eq. apply (ok_bval _ _ _ _ Fr). reflexivity. }
  rewrite Hv, Er.
  split; [ | repeat split ].
  - destruct (bval p UseSHA) eqn:Hp; [ reflexivity | ].
    cbn [andb]. symmetry. rewrite Eq in G3, G4.
    assert (N1 : bval r UseSHA1Intrinsics = false).
    { apply not_true_is_false. intros A. rewrite E1 in A. destruct (G1 A). congruence. }
    assert (N2 : bval r UseSHA256Intrinsics = false).
    { apply not_true_is_false. intros A. rewrite E2 in A. destruct (G2 A). congruence. }
    assert (N3 : bval r UseSHA3Intrinsics = false).
    { apply not_true_is_false. intros A. destruct (G3 A). congruence. }
    assert (N4 : bval r UseSHA512Intrinsics = false).
    { apply not_true_is_false. intros A. destruct (G4 A). congruence. }
    rewrite N1, N2, N3, N4. reflexivity.
  - intros A. rewrite E1 in A. rewrite (hf p) by exact Hfp. apply G1, A.
  - intros A. rewrite E2 in A. rewrite (hf p) by exact Hfp. apply G2, A.
  - intros A. rewrite (hf q) by exact Hfq. apply G3, A.
  - intros A. rewrite (hf q) by exact Hfq. apply G4, A.
Qed.

End Sha.

Section Forced.

Context {P : Platform}.

Lemma init_unaligned_popcount_default s :
  is_default (borigin s UseUnalignedAccesses) = true ->
  bval (init_unaligned_popcount s) UseUnalignedAccesses = true.
Proof. unfold init_unaligned_popcount. block_cases s. Qed.

Lemma init_c2_intrinsics_default s flag :
  In flag [UseMultiplyToLenIntrinsic; UseSquareToLenIntrinsic; UseMulAddIntrinsic;
        UseMontgomeryMultiplyIntrinsic; UseMontgomerySquareIntrinsic] ->
  is_default (borigin s flag) = true -> bval (init_c2_intrinsics s) flag = true.
Proof.
  intros Hin Hdef. cbn [In] in Hin.
  assert (Hi : forall x K, is_default (borigin x K) = true ->
                           bval (if FLAG_IS_DEFAULT K x then assign K true x else x) K = true).
  { intros x K Hx. unfold FLAG_IS_DEFAULT. rewrite Hx. cbn.
    destruct K; reflexivity. }
  unfold init_c2_intrinsics. cbv zeta.
  set (b1 := if FLAG_IS_DEFAULT UseMultiplyToLenIntrinsic s
             then assign UseMultiplyToLenIntrinsic true s else s).
  set (b2 := if FLAG_IS_DEFAULT UseSquareToLenIntrinsic b1
             then assign UseSquareToLenIntrinsic true b1 else b1).
  set (b3 := if FLAG_IS_DEFAULT UseMulAddIntrinsic b2
             then assign UseMulAddIntrinsic true b2 else b2).
  set (b4 := if FLAG_IS_DEFAULT UseMontgomeryMultiplyIntrinsic b3
             then assign UseMontgomeryMultiplyIntrinsic true b3 else b3).
  set (b5 := if FLAG_IS_DEFAULT UseMontgomerySquareIntrinsic b4
             then assign UseMontgomerySquareIntrinsic true b4 else b4).
  assert (F1 : step_ok [UseMultiplyToLenIntrinsic] [] s b1) by (unfold b1; step_ok_tac).
  assert (F2 : step_ok [UseSquareToLenIntrinsic] [] b1 b2) by (unfold b2; step_ok_tac).
  assert (F3 : step_ok [UseMulAddIntrinsic] [] b2 b3) by (unfold b3; step_ok_tac).
  assert (F4 : step_ok [UseMontgomeryMultiplyIntrinsic] [] b3 b4) by (unfold b4; step_ok_tac).
  assert (F5 : step_ok [UseMontgomerySquareIntrinsic] [] b4 b5) by (unfold b5; step_ok_tac).
  destruct Hin as [<- | [<- | [<- | [<- | [<- | []]]]]].
  - skip_b F5. skip_b F4. skip_b F3. skip_b F2. apply Hi, Hdef.
  - skip_b F5. skip_b F4. skip_b F3. apply Hi.
    rewrite (ok_borigin _ _ _ _ F1). exact Hdef.
  - skip_b F5. skip_b F4. apply Hi.
    rewrite (ok_borigin _ _ _ _ F2), (ok_borigin _ _ _ _ F1). exact Hdef.
  - skip_b F5. apply Hi.
    rewrite (ok_borigin _ _ _ _ F3), (ok_borigin _ _ _ _ F2), (ok_borigin _ _ _ _ F1).
    exact Hdef.
  - apply Hi.
    rewrite (ok_borigin _ _ _ _ F4), (ok_borigin _ _ _ _ F3), (ok_borigin _ _ _ _ F2),
      (ok_borigin _ _ _ _ F1).
    exact Hdef.
Qed.

Lemma init_c2_scheduling_default s :
  let s' := init_c2_scheduling s in
  (is_default (borigin s OptoScheduling) = true -> bval s' OptoScheduling = true)
  /\ (is_default (borigin s AlignVector) = true ->
      bval s' AlignVector = bval s' AvoidUnalignedAccesses).
Proof. unfold init_c2_scheduling. block_cases s. Qed.

End Forced.

Section ForcedRuns.

Context {P : Platform}.

Lemma completed_after_aes e sv s2 s' :
  init_compiler2 e (initialize_features e sv) = Ok s2 ->
  initialize_finish e s2 = Ok s' ->
  after_aes e (init_aes (initialize_crc_lse sv)) = Ok s'.
Proof.
  intros H2 H3. unfold after_aes, after_sha, after_popcount.
  unfold initialize_features in H2. cbv zeta in H2. rewrite H2. exact H3.
Qed.

Lemma default_origin (o : Origin) : o = DEFAULT -> is_default o = true.
Proof. intros ->. reflexivity. Qed.

(** X4.  Two flags have one possible value after a run that returns:
    [UseVectorizedMismatchIntrinsic] is off and [UsePopCountInstruction] is
    on, whatever the operator and the hardware say.  A
    [UseVectorizedMismatchIntrinsic] that was on is reported with the
    warning of line 267. *)
Theorem forced_flags e s s' :
  initialize e s = Ok s' ->
  bval s' UseVectorizedMismatchIntrinsic = false
  /\ bval s' UsePopCountInstruction = true
  /\ (bval s UseVectorizedMismatchIntrinsic = true -> In mismatch_msg (warnings s')).
Proof.
  intros H. destruct (initialize_Ok e s s' H) as [s1 [s2 [H1 [H2 H3]]]].
  set (sv := initialize_vendors e s1) in *.
  pose proof (line_243_ok e s s1 H1) as Fv. fold sv in Fv.
  pose proof (completed_after_aes e sv s2 s' H2 H3) as Ha.
  pose proof (after_aes_ok e (init_aes (initialize_crc_lse sv))) as Ft.
  rewrite Ha in Ft. cbn [state_of] in Ft.
  pose proof (init_aes_ok (initialize_crc_lse sv)) as Fa.
  pose proof (init_lse_ok (init_crc32 sv)) as Fl.
  destruct (init_crc32_gate sv) as [_ [Hoff [Hw _]]].
  change (initialize_crc_lse sv) with (init_lse (init_crc32 sv)) in *.
  split; [ | split ].
  - skip_b Ft. skip_b Fa. skip_b Fl. exact Hoff.
  - rewrite (final_after_popcount e _ s2 s' _ H2 H3) by reflexivity.
    unfold initialize_features, initialize_rest. cbv zeta.
    apply init_unaligned_popcount_on.
  - intros Hon.
    apply (ok_warnings _ _ _ _ Ft), (ok_warnings _ _ _ _ Fa), (ok_warnings _ _ _ _ Fl).
    apply Hw. rewrite (ok_bval _ _ _ _ Fv) by reflexivity. exact Hon.
Qed.

(** X5.  Flags that do not depend on the hardware: after a run that
    returns, each of [UseAdler32Intrinsics], [UseCRC32Intrinsics], [UseFMA],
    [UseMD5Intrinsics], [UseBASE64Intrinsics] and [UseUnalignedAccesses]
    left at its default is on; in a COMPILER2 build so are the five
    big-integer intrinsics and [OptoScheduling], and an [AlignVector] left
    at its default copies the final [AvoidUnalignedAccesses]. *)
Theorem hardware_independent_defaults e s s' :
  initialize e s = Ok s' ->
  (forall k, In k [UseAdler32Intrinsics; UseCRC32Intrinsics; UseFMA; UseMD5Intrinsics;
                   UseBASE64Intrinsics; UseUnalignedAccesses] ->
             borigin s k = DEFAULT -> bval s' k = true)
  /\ (COMPILER2 = true ->
      (forall k, In k [UseMultiplyToLenIntrinsic; UseSquareToLenIntrinsic;
                       UseMulAddIntrinsic; UseMontgomeryMultiplyIntrinsic;
                       UseMontgomerySquareIntrinsic; OptoScheduling] ->
                 borigin s k = DEFAULT -> bval s' k = true)
      /\ (borigin s AlignVector = DEFAULT ->
          bval s' AlignVector = bval s' AvoidUnalignedAccesses)).
Proof.
  intros H. destruct (initialize_Ok e s s' H) as [s1 [s2 [H1 [H2 H3]]]].
  set (sv := initialize_vendors e s1) in *.
  pose proof (line_243_ok e s s1 H1) as Fv. fold sv in Fv.
  pose proof (completed_after_aes e sv s2 s' H2 H3) as Ha.
  change (initialize_crc_lse sv) with (init_lse (init_crc32 sv)) in Ha.
  set (a := init_lse (init_crc32 sv)) in *.
  set (b := init_aes a) in *.
  pose proof (after_aes_ok e b) as Ft. rewrite Ha in Ft. cbn [state_of] in Ft.
  pose proof (init_aes_ok a) as Fa. fold b in Fa.
  pose proof (init_lse_ok (init_crc32 sv)) as Fl. fold a in Fl.
  pose proof (init_crc32_ok sv) as Fc.
  pose proof (initialize_sha_ok b) as Fs.
  set (c := initialize_sha b) in *.
  assert (Ex : initialize_features e sv = initialize_rest e c) by reflexivity.
  rewrite Ex in H2.
  pose proof (fun k => final_after_popcount e _ s2 s' k H2 H3) as Hb.
  assert (Ob : borigin b = borigin s).
  { rewrite (ok_borigin _ _ _ _ Fa), (ok_borigin _ _ _ _ Fl), (ok_borigin _ _ _ _ Fc).
    apply (ok_borigin _ _ _ _ Fv). }
  assert (Oc : borigin c = borigin s).
  { rewrite (ok_borigin _ _ _ _ Fs). exact Ob. }
  pose proof (initialize_ghash_sve_ok e c) as Fg.
  set (g := initialize_ghash_sve e c) in *.
  assert (Og : borigin g = borigin s).
  { rewrite (ok_borigin _ _ _ _ Fg). exact Oc. }
  pose proof (initialize_rest_ok e c) as Fr.
  set (x := initialize_rest e c) in *.
  assert (Ox : borigin x = borigin s).
  { rewrite (ok_borigin _ _ _ _ Fr). exact Oc. }
  split.
  - intros k Hk Hd. apply default_origin in Hd. cbn [In] in Hk.
    destruct Hk as [<- | [<- | [<- | [<- | [<- | [<- | []]]]]]].
    + skip_b Ft. skip_b Fa. skip_b Fl. apply init_crc32_gate.
      rewrite (ok_borigin _ _ _ _ Fv). exact Hd.
    + rewrite Hb by reflexivity. skip_b Fr. unfold c, initialize_sha. cbv zeta.
      skip_b (init_sha_reset_ok (init_sha3_sha512 (init_sha1_sha256
                (init_sha (init_crc32_intrinsics b))))).
      skip_b (init_sha3_sha512_ok (init_sha1_sha256 (init_sha (init_crc32_intrinsics b)))).
      skip_b (init_sha1_sha256_ok (init_sha (init_crc32_intrinsics b))).
      skip_b (init_sha_ok (init_crc32_intrinsics b)).
      apply init_crc32_intrinsics_gate. rewrite Ob. exact Hd.
    + rewrite Hb by reflexivity. skip_b Fr. unfold c, initialize_sha. cbv zeta.
      skip_b (init_sha_reset_ok (init_sha3_sha512 (init_sha1_sha256
                (init_sha (init_crc32_intrinsics b))))).
      skip_b (init_sha3_sha512_ok (init_sha1_sha256 (init_sha (init_crc32_intrinsics b)))).
      skip_b (init_sha1_sha256_ok (init_sha (init_crc32_intrinsics b))).
      skip_b (init_sha_ok (init_crc32_intrinsics b)).
      apply init_crc32_intrinsics_gate. rewrite Ob. exact Hd.
    + rewrite Hb by reflexivity. skip_b Fr. unfold c, initialize_sha. cbv zeta.
      skip_b (init_sha_reset_ok (init_sha3_sha512 (init_sha1_sha256
                (init_sha (init_crc32_intrinsics b))))).
      skip_b (init_sha3_sha512_ok (init_sha1_sha256 (init_sha (init_crc32_intrinsics b)))).
      skip_b (init_sha1_sha256_ok (init_sha (init_crc32_intrinsics b))).
      skip_b (init_sha_ok (init_crc32_intrinsics b)).
      apply init_crc32_intrinsics_gate. rewrite Ob. exact Hd.
    + rewrite Hb by reflexivity. unfold x, initialize_rest, initialize_ghash_sve. cbv zeta.
      skip_b (init_unaligned_popcount_ok
                (init_sve_length e (init_sve_tier (init_block_zeroing e (init_ghash_base64 c))))).
      skip_b (init_sve_length_ok e (init_sve_tier (init_block_zeroing e (init_ghash_base64 c)))).
      skip_b (init_sve_tier_ok (init_block_zeroing e (init_ghash_base64 c))).
      skip_b (init_block_zeroing_ok e (init_ghash_base64 c)).
      apply init_ghash_base64_gate. rewrite Oc. exact Hd.
    + rewrite Hb by reflexivity. unfold x, initialize_rest. cbv zeta. fold g.
      apply init_unaligned_popcount_default. rewrite Og. exact Hd.
  - intros HC. unfold init_compiler2 in H2. rewrite HC in H2. cbv zeta in H2.
    apply bind_Ok in H2. destruct H2 as [v [Hv H2]].
    apply bind_Ok in H2. destruct H2 as [w [Hw H2]].
    inversion H2 as [E]. clear H2.
    pose proof (init_c2_intrinsics_ok x) as Fi.
    set (i := init_c2_intrinsics x) in *.
    pose proof (init_sve_max_vector_size_ok e i) as Fm. rewrite Hv in Fm.
    cbn [state_of] in Fm.
    pose proof (init_neon_max_vector_size_ok v) as Fn. rewrite Hw in Fn.
    cbn [state_of] in Fn.
    pose proof (init_c2_scheduling_ok w) as Fz.
    pose proof (initialize_finish_ok e s2) as Ff. rewrite H3 in Ff. cbn [state_of] in Ff.
    assert (Ow : borigin w = borigin s).
    { rewrite (ok_borigin _ _ _ _ Fn), (ok_borigin _ _ _ _ Fm), (ok_borigin _ _ _ _ Fi).
      exact Ox. }
    destruct (init_c2_scheduling_default w) as [Hopt Hal]. rewrite E in *.
    split.
    + intros k Hk Hd. apply default_origin in Hd. cbn [In] in Hk.
      destruct Hk as [<- | [<- | [<- | [<- | [<- | [<- | []]]]]]];
        try (skip_b Ff; skip_b Fz; skip_b Fn; skip_b Fm;
             apply (init_c2_intrinsics_default x);
             [ cbn [In]; repeat (first [ left; reflexivity | right ])
             | rewrite Ox; exact Hd ]).
      skip_b Ff. apply Hopt. rewrite Ow. exact Hd.
    + intros Hd. apply default_origin in Hd.
      rewrite !(ok_bval _ _ _ _ Ff) by reflexivity.
      apply Hal. rewrite Ow. exact Hd.
Qed.

End ForcedRuns.

(** ** X6 and X7: the prefetch flags *)

(** *** Bit operations of the prefetch rules *)

Lemma land_7 (v : Z) : Z.land v 7 = v mod 8.
Proof. change 7 with (Z.ones 3). rewrite Z.land_ones by lia. reflexivity. Qed.

Lemma land_lnot_7 (v : Z) : Z.land v (Z.lnot 7) = 8 * (v / 8).
Proof.
  rewrite <- Z.ldiff_land. change 7 with (Z.ones 3).
  rewrite Z.ldiff_ones_r by lia.
  rewrite Z.shiftl_mul_pow2, Z.shiftr_div_pow2 by lia.
  change (2 ^ 3) with 8. lia.
Qed.

Lemma nonzero_land_7 (v : Z) : nonzero (Z.land v 7) = negb (v mod 8 =? 0).
Proof. unfold nonzero. rewrite land_7. reflexivity. Qed.

Section Tail.

Context {P : Platform}.

Lemma initialize_after_tuning e s :
  initialize e s = after_tuning e (initialize_tuning e s).
Proof. reflexivity. Qed.

Lemma initialize_crc_lse_fine s :
  step_ok [UseCRC32; UseAdler32Intrinsics; UseVectorizedMismatchIntrinsic; UseLSE] []
          s (initialize_crc_lse s).
Proof. unfold initialize_crc_lse. phase. Qed.

Lemma after_tuning_ok e s :
  step_ok all_bool_knobs tail_int_knobs s (state_of (after_tuning e s)).
Proof.
  unfold after_tuning.
  eapply step_weaken;
    [ | | apply step_bind;
            [ apply rule_thunderx_ok
            | intros s1 _;
              eapply step_trans;
                [ eapply step_trans;
                    [ apply initialize_vendors_vendor
                    | eapply step_trans;
                        [ eapply step_trans;
                            [ apply initialize_crc_lse_fine | apply init_aes_ok ]
                        | eapply step_trans;
                            [ apply initialize_sha_ok | apply initialize_rest_ok ] ] ]
                | apply after_popcount_ok ] ] ];
    weaker.
Qed.

End Tail.

(** *** The prefetch knobs, lines 83-117 *)

Section Prefetch.

Context {P : Platform}.

Lemma init_prefetch_copy_interval_spec s :
  let v := ival s PrefetchCopyIntervalInBytes in
  let s' := init_prefetch_copy_interval s in
  let v' := ival s' PrefetchCopyIntervalInBytes in
  (v' = -1 \/ (v' mod 8 = 0 /\ v' < 32768))
  /\ (v = -1 \/ (v mod 8 = 0 /\ v < 32768) -> s' = s)
  /\ (~ (v = -1 \/ (v mod 8 = 0 /\ v < 32768)) ->
      v' = Z.min (8 * (v / 8)) 32760 /\ In copy_interval_msg (warnings s')).
Proof.
  cbv zeta. unfold init_prefetch_copy_interval. cbv zeta.
  rewrite nonzero_land_7, land_lnot_7.
  set (v := ival s PrefetchCopyIntervalInBytes).
  assert (Hm : 0 <= v mod 8 < 8) by (apply Z.mod_pos_bound; lia).
  assert (Hd : v = 8 * (v / 8) + v mod 8) by (apply Z.div_mod; lia).
  destruct (Z.eqb_spec v (-1)) as [E1 | E1]; cbn [negb andb].
  { fold v. split; [ left; exact E1 | split; [ reflexivity | tauto ] ]. }
  destruct (Z.eqb_spec (v mod 8) 0) as [E2 | E2]; cbn [negb orb].
  - destruct (Z.leb_spec 32768 v) as [E3 | E3].
    + cbn [ival assign_i warning IntKnob_beq].
      destruct (Z.leb_spec 32768 (8 * (v / 8))) as [E4 | E4]; [ | lia ].
      cbn [ival assign_i warning IntKnob_beq warnings].
      split; [ right; split; [ reflexivity | lia ] | ].
      split; [ intros [H | [_ H]]; lia | ].
      intros _. split; [ lia | ].
      apply in_or_app. right. left. reflexivity.
    + fold v. split; [ right; split; [ exact E2 | exact E3 ] | ].
      split; [ reflexivity | ]. intros H. exfalso. apply H. right. split; assumption.
  - cbn [ival assign_i warning IntKnob_beq].
    assert (Hlt : 8 * (v / 8) mod 8 = 0).
    { rewrite Z.mul_comm. apply Z.mod_mul. lia. }
    destruct (Z.leb_spec 32768 (8 * (v / 8))) as [E4 | E4];
      cbn [ival assign_i warning IntKnob_beq warnings].
    + split; [ right; split; [ reflexivity | lia ] | ].
      split; [ intros [H | [H _]]; [ lia | contradiction ] | ].
      intros _. split; [ lia | ].
      apply in_or_app. right. left. reflexivity.
    + split; [ right; split; [ exact Hlt | exact E4 ] | ].
      split; [ intros [H | [H _]]; [ lia | contradiction ] | ].
      intros _. split; [ lia | ].
      apply in_or_app. right. left. reflexivity.
Qed.

Lemma init_prefetch_alignment_spec s :
  let s' := init_prefetch_alignment s in
  ival s' AllocatePrefetchDistance
  = (if ival s AllocatePrefetchDistance =? -1 then -1
     else 8 * (ival s AllocatePrefetchDistance / 8))
  /\ ival s' AllocatePrefetchStepSize = 8 * (ival s AllocatePrefetchStepSize / 8)
  /\ ival s' SoftwarePrefetchHintDistance
     = (if ival s SoftwarePrefetchHintDistance =? -1 then -1
        else 8 * (ival s SoftwarePrefetchHintDistance / 8)).
Proof.
  cbv zeta. unfold init_prefetch_alignment. cbv zeta.
  assert (Hr : forall v, v mod 8 = 0 -> v = 8 * (v / 8)).
  { intros v Hv. pose proof (Z.div_mod v 8). lia. }
  set (b1 := if negb (ival s AllocatePrefetchDistance =? -1)
                && nonzero (Z.land (ival s AllocatePrefetchDistance) 7)
             then assign_i AllocatePrefetchDistance
                    (Z.land (ival s AllocatePrefetchDistance) (Z.lnot 7))
                    (warning (mkMsg "AllocatePrefetchDistance must be multiple of 8" []) s)
             else s).
  set (b2 := if nonzero (Z.land (ival b1 AllocatePrefetchStepSize) 7)
             then assign_i AllocatePrefetchStepSize
                    (Z.land (ival b1 AllocatePrefetchStepSize) (Z.lnot 7))
                    (warning (mkMsg "AllocatePrefetchStepSize must be multiple of 8" []) b1)
             else b1).
  assert (F1 : step_ok [] [AllocatePrefetchDistance] s b1) by (unfold b1; step_ok_tac).
  assert (F2 : step_ok [] [AllocatePrefetchStepSize] b1 b2) by (unfold b2; step_ok_tac).
  assert (V1 : ival b1 AllocatePrefetchDistance
               = (if ival s AllocatePrefetchDistance =? -1 then -1
                  else 8 * (ival s AllocatePrefetchDistance / 8))).
  { unfold b1. rewrite nonzero_land_7, land_lnot_7.
    destruct (Z.eqb_spec (ival s AllocatePrefetchDistance) (-1)) as [E | E];
      cbn [negb andb]; [ exact E | ].
    destruct (Z.eqb_spec (ival s AllocatePrefetchDistance mod 8) 0) as [E2 | E2];
      cbn [negb]; [ apply Hr, E2 | reflexivity ]. }
  assert (V2 : ival b2 AllocatePrefetchStepSize
               = 8 * (ival b1 AllocatePrefetchStepSize / 8)).
  { unfold b2. rewrite nonzero_land_7, land_lnot_7.
    destruct (Z.eqb_spec (ival b1 AllocatePrefetchStepSize mod 8) 0) as [E2 | E2];
      cbn [negb]; [ apply Hr, E2 | reflexivity ]. }
  set (b3 := if negb (ival b2 SoftwarePrefetchHintDistance =? -1)
                && nonzero (Z.land (ival b2 SoftwarePrefetchHintDistance) 7)
             then _ else b2).
  assert (F3 : step_ok [] [SoftwarePrefetchHintDistance] b2 b3) by (unfold b3; step_ok_tac).
  assert (V3 : ival b3 SoftwarePrefetchHintDistance
               = (if ival b2 SoftwarePrefetchHintDistance =? -1 then -1
                  else 8 * (ival b2 SoftwarePrefetchHintDistance / 8))).
  { unfold b3. rewrite nonzero_land_7, land_lnot_7.
    destruct (Z.eqb_spec (ival b2 SoftwarePrefetchHintDistance) (-1)) as [E | E];
      cbn [negb andb]; [ exact E | ].
    destruct (Z.eqb_spec (ival b2 SoftwarePrefetchHintDistance mod 8) 0) as [E2 | E2];
      cbn [negb]; [ apply Hr, E2 | reflexivity ]. }
  split; [ | split ].
  - skip_i F3. skip_i F2. exact V1.
  - skip_i F3. rewrite V2. skip_i F1. reflexivity.
  - rewrite V3. skip_i F2. skip_i F1. reflexivity.
Qed.

End Prefetch.

Section PrefetchRuns.

Context {P : Platform}.

Lemma init_prefetch_defaults_spec e s :
  let dl := _dcache_line_size e in
  let s' := init_prefetch_defaults e s in
  ival s' AllocatePrefetchDistance
  = (if is_default (iorigin s AllocatePrefetchDistance)
     then MIN2 512 (3 * dl) else ival s AllocatePrefetchDistance)
  /\ ival s' AllocatePrefetchStepSize
     = (if is_default (iorigin s AllocatePrefetchStepSize)
        then dl else ival s AllocatePrefetchStepSize)
  /\ ival s' PrefetchScanIntervalInBytes
     = (if is_default (iorigin s PrefetchScanIntervalInBytes)
        then 3 * dl else ival s PrefetchScanIntervalInBytes)
  /\ ival s' PrefetchCopyIntervalInBytes
     = (if is_default (iorigin s PrefetchCopyIntervalInBytes)
        then 3 * dl else ival s PrefetchCopyIntervalInBytes)
  /\ ival s' SoftwarePrefetchHintDistance
     = (if is_default (iorigin s SoftwarePrefetchHintDistance)
        then 3 * dl else ival s SoftwarePrefetchHintDistance).
Proof.
  cbv zeta. unfold init_prefetch_defaults. cbv zeta. splits.
  all: open_flags.
  all: try congruence.
  all: repeat split; reflexivity.
Qed.

Lemma initialize_tuning_unfold e s :
  initialize_tuning e s
  = rule_ampere e (rule_emag e (init_padding_and_flush e
      (init_prefetch_alignment (init_prefetch_copy_interval
         (init_prefetch_defaults e (init_probe e s)))))).
Proof. reflexivity. Qed.

(** The integer flags lines 119-163 write. *)
Lemma padding_to_ampere_ok e s :
  step_ok vendor_bool_knobs [ContendedPaddingWidth; OnSpinWaitInstCount]
          s (rule_ampere e (rule_emag e (init_padding_and_flush e s))).
Proof. phase. Qed.

(** After line 117 only the Cortex-A73 rule writes
    [SoftwarePrefetchHintDistance], and it writes -1. *)
Lemma rule_cortex_a73_hint e s :
  ival (rule_cortex_a73 e s) SoftwarePrefetchHintDistance
  = (if is_cortex_a73 e && is_default (iorigin s SoftwarePrefetchHintDistance)
     then -1 else ival s SoftwarePrefetchHintDistance).
Proof.
  unfold rule_cortex_a73, is_cortex_a73, FLAG_IS_DEFAULT_i.
  destruct ((_cpu e =? CPU_ARM) && ((_model e =? 0xd09) || (_model2 e =? 0xd09)));
    cbn [andb]; [ | reflexivity ].
  destruct (is_default (iorigin s SoftwarePrefetchHintDistance)); cbv zeta.
  - destruct (FLAG_IS_DEFAULT UseSimpleArrayEquals _); reflexivity.
  - destruct (FLAG_IS_DEFAULT UseSimpleArrayEquals s); reflexivity.
Qed.

Lemma after_tuning_hint e s :
  ival (state_of (after_tuning e s)) SoftwarePrefetchHintDistance
  = (if completes (rule_thunderx e s) && is_cortex_a73 e
        && is_default (iorigin s SoftwarePrefetchHintDistance)
     then -1 else ival s SoftwarePrefetchHintDistance).
Proof.
  unfold after_tuning.
  pose proof (rule_thunderx_ok e s) as Fx.
  destruct (rule_thunderx e s) as [s1 | m st]; cbn [bind state_of completes andb] in *.
  - pose proof (after_popcount_ok e (initialize_features e (initialize_vendors e s1))) as Fp.
    unfold after_popcount in Fp. skip_i Fp.
    assert (Ff : step_ok ([UseCRC32; UseAdler32Intrinsics; UseVectorizedMismatchIntrinsic;
                           UseLSE]
                            ++ [UseAES; UseAESIntrinsics; UseAESCTRIntrinsics]
                            ++ sha_bool_knobs ++ late_bool_knobs)
                         ([] ++ [] ++ [] ++ late_int_knobs)
                         (initialize_vendors e s1)
                         (initialize_features e (initialize_vendors e s1))).
    { unfold initialize_features. cbv zeta.
      eapply step_trans; [ apply initialize_crc_lse_fine | ].
      eapply step_trans; [ apply init_aes_ok | ].
      eapply step_trans; [ apply initialize_sha_ok | apply initialize_rest_ok ]. }
    skip_i Ff. unfold initialize_vendors. cbv zeta.
    skip_i (rule_arm_ok e (rule_neoverse e (rule_cortex_a73 e (rule_cortex_a53 e
              (rule_tsv110 e (rule_thunderx2 e s1)))))).
    skip_i (rule_neoverse_ok e (rule_cortex_a73 e (rule_cortex_a53 e
              (rule_tsv110 e (rule_thunderx2 e s1))))).
    rewrite rule_cortex_a73_hint.
    set (y := rule_cortex_a53 e (rule_tsv110 e (rule_thunderx2 e s1))).
    assert (Fy : step_ok ([AvoidUnalignedAccesses; UseSIMDForMemoryOps]
                            ++ [AvoidUnalignedAccesses; UseSIMDForMemoryOps]
                            ++ [UseSIMDForArrayEquals]) ([] ++ [] ++ []) s1 y).
    { eapply step_trans; [ apply rule_thunderx2_ok | ].
      eapply step_trans; [ apply rule_tsv110_ok | apply rule_cortex_a53_ok ]. }
    rewrite (ok_iorigin _ _ _ _ Fy), (ok_iorigin _ _ _ _ Fx).
    skip_i Fy. skip_i Fx. reflexivity.
  - skip_i Fx. reflexivity.
Qed.

End PrefetchRuns.

Section PrefetchTheorems.

Context {P : Platform}.

(** The store after line 117 and the one a run ends with. *)
Lemma final_prefetch e s k :
  writes_i tail_int_knobs k = false ->
  writes_i [ContendedPaddingWidth; OnSpinWaitInstCount] k = false ->
  ival (state_of (initialize e s)) k
  = ival (init_prefetch_alignment (init_prefetch_copy_interval
            (init_prefetch_defaults e (init_probe e s)))) k.
Proof.
  intros H1 H2. rewrite initialize_after_tuning, initialize_tuning_unfold.
  rewrite (ok_ival _ _ _ _ (after_tuning_ok e _) k H1).
  apply (ok_ival _ _ _ _ (padding_to_ampere_ok e _) k H2).
Qed.

Lemma final_hint e s :
  ival (state_of (initialize e s)) SoftwarePrefetchHintDistance
  = (if completes (rule_thunderx e (initialize_tuning e s)) && is_cortex_a73 e
        && is_default (iorigin s SoftwarePrefetchHintDistance)
     then -1
     else ival (init_prefetch_alignment (init_prefetch_copy_interval
                  (init_prefetch_defaults e (init_probe e s))))
               SoftwarePrefetchHintDistance).
Proof.
  rewrite initialize_after_tuning, after_tuning_hint, initialize_tuning_unfold.
  set (a := init_prefetch_alignment (init_prefetch_copy_interval
              (init_prefetch_defaults e (init_probe e s)))).
  pose proof (padding_to_ampere_ok e a) as Fp.
  assert (Fa : step_ok ([] ++ [] ++ [] ++ [])
                 ([] ++ [AllocatePrefetchDistance; AllocatePrefetchStepSize;
                         PrefetchScanIntervalInBytes; PrefetchCopyIntervalInBytes;
                         SoftwarePrefetchHintDistance]
                     ++ [PrefetchCopyIntervalInBytes]
                     ++ [AllocatePrefetchDistance; AllocatePrefetchStepSize;
                         SoftwarePrefetchHintDistance]) s a).
  { eapply step_trans; [ apply init_probe_ok | ].
    eapply step_trans; [ apply init_prefetch_defaults_ok | ].
    eapply step_trans; [ apply init_prefetch_copy_interval_ok | ].
    apply init_prefetch_alignment_ok. }
  rewrite (ok_iorigin _ _ _ _ Fp), (ok_iorigin _ _ _ _ Fa).
  skip_i Fp. reflexivity.
Qed.

(** A run that completes went past the ThunderX rule. *)
Lemma completes_thunderx e s :
  completes (initialize e s) = true ->
  completes (rule_thunderx e (initialize_tuning e s)) = true.
Proof.
  rewrite initialize_after_tuning. unfold after_tuning.
  destruct (rule_thunderx e (initialize_tuning e s)); [ reflexivity | ].
  cbn. discriminate.
Qed.

(** X6.  Whatever values the operator gives and however the run ends, the
    prefetch flags leave [VM_Version::initialize] well formed:
    [PrefetchCopyIntervalInBytes] is -1 or a multiple of 8 below 32768,
    [AllocatePrefetchDistance] and [SoftwarePrefetchHintDistance] are -1 or
    a multiple of 8, and [AllocatePrefetchStepSize] is a multiple of 8. *)
Theorem prefetch_knobs_aligned e s :
  let s' := state_of (initialize e s) in
  (ival s' PrefetchCopyIntervalInBytes = -1
   \/ (ival s' PrefetchCopyIntervalInBytes mod 8 = 0
       /\ ival s' PrefetchCopyIntervalInBytes < 32768))
  /\ (ival s' AllocatePrefetchDistance = -1
      \/ ival s' AllocatePrefetchDistance mod 8 = 0)
  /\ ival s' AllocatePrefetchStepSize mod 8 = 0
  /\ (ival s' SoftwarePrefetchHintDistance = -1
      \/ ival s' SoftwarePrefetchHintDistance mod 8 = 0).
Proof.
  cbv zeta.
  assert (Hm : forall x, (8 * x) mod 8 = 0).
  { intros x. rewrite Z.mul_comm. apply Z.mod_mul. lia. }
  set (c := init_prefetch_copy_interval (init_prefetch_defaults e (init_probe e s))).
  destruct (init_prefetch_alignment_spec c) as [A1 [A2 A3]].
  split; [ | split; [ | split ] ].
  - rewrite !final_prefetch by reflexivity. fold c.
    rewrite !(ok_ival _ _ _ _ (init_prefetch_alignment_ok c)) by reflexivity.
    apply init_prefetch_copy_interval_spec.
  - rewrite !final_prefetch by reflexivity. fold c. rewrite A1.
    destruct (ival c AllocatePrefetchDistance =? -1); [ left; reflexivity | right; apply Hm ].
  - rewrite !final_prefetch by reflexivity. fold c. rewrite A2. apply Hm.
  - rewrite final_hint. fold c. rewrite A3.
    destruct (completes _ && is_cortex_a73 e && _); [ left; reflexivity | ].
    destruct (ival c SoftwarePrefetchHintDistance =? -1); [ left; reflexivity | right; apply Hm ].
Qed.

(** X7.  The prefetch flags left at their defaults follow the data cache
    line [dl] of the machine: [AllocatePrefetchDistance] is [MIN2 512 (3 dl)]
    rounded down to a multiple of 8 (at most 512), [AllocatePrefetchStepSize]
    is [dl] rounded down to a multiple of 8, [PrefetchScanIntervalInBytes] is
    [3 dl], [PrefetchCopyIntervalInBytes] is [3 dl] rounded down to a
    multiple of 8 and capped at 32760, and, in a run that returns,
    [SoftwarePrefetchHintDistance] is [3 dl] rounded down to a multiple of
    8, except on a Cortex-A73, where it is -1. *)
Theorem prefetch_defaults_follow_cache_line e s :
  let dl := _dcache_line_size e in
  let s' := state_of (initialize e s) in
  (iorigin s AllocatePrefetchDistance = DEFAULT ->
   ival s' AllocatePrefetchDistance = 8 * (MIN2 512 (3 * dl) / 8)
   /\ ival s' AllocatePrefetchDistance <= 512)
  /\ (iorigin s AllocatePrefetchStepSize = DEFAULT ->
      ival s' AllocatePrefetchStepSize = 8 * (dl / 8))
  /\ (iorigin s PrefetchScanIntervalInBytes = DEFAULT ->
      ival s' PrefetchScanIntervalInBytes = 3 * dl)
  /\ (iorigin s PrefetchCopyIntervalInBytes = DEFAULT ->
      ival s' PrefetchCopyIntervalInBytes = Z.min (8 * (3 * dl / 8)) 32760)
  /\ (iorigin s SoftwarePrefetchHintDistance = DEFAULT ->
      completes (initialize e s) = true ->
      ival s' SoftwarePrefetchHintDistance
      = (if is_cortex_a73 e then -1 else 8 * (3 * dl / 8))).
Proof.
  cbv zeta. set (dl := _dcache_line_size e).
  set (p := init_probe e s).
  assert (Op : iorigin p = iorigin s) by reflexivity.
  destruct (init_prefetch_defaults_spec e p) as [D1 [D2 [D3 [D4 D5]]]].
  fold dl in D1, D2, D3, D4, D5. rewrite Op in D1, D2, D3, D4, D5.
  set (d := init_prefetch_defaults e p) in *.
  destruct (init_prefetch_copy_interval_spec d) as [_ [C2 C3]].
  pose proof (init_prefetch_copy_interval_ok d) as Fc.
  set (c := init_prefetch_copy_interval d) in *.
  destruct (init_prefetch_alignment_spec c) as [A1 [A2 A3]].
  pose proof (init_prefetch_alignment_ok c) as Fa.
  assert (Hr : forall v, v mod 8 = 0 -> v = 8 * (v / 8)).
  { intros v Hv. pose proof (Z.div_mod v 8). lia. }
  assert (Hdiv : forall v, 8 * (v / 8) <= v).
  { intros v. pose proof (Z.div_mod v 8). pose proof (Z.mod_pos_bound v 8). lia. }
  split; [ | split; [ | split; [ | split ] ] ].
  - intros Ho. rewrite !final_prefetch by reflexivity. fold p d c. rewrite A1.
    rewrite (ok_ival _ _ _ _ Fc) by reflexivity. rewrite D1, Ho. cbn [is_default].
    assert (Hle : MIN2 512 (3 * dl) <= 512).
    { unfold MIN2. destruct (Z.ltb_spec 512 (3 * dl)); lia. }
    destruct (Z.eqb_spec (MIN2 512 (3 * dl)) (-1)) as [E | E].
    + exfalso. unfold MIN2 in E. destruct (Z.ltb_spec 512 (3 * dl)); lia.
    + split; [ reflexivity | ]. specialize (Hdiv (MIN2 512 (3 * dl))). lia.
  - intros Ho. rewrite !final_prefetch by reflexivity. fold p d c. rewrite A2.
    rewrite (ok_ival _ _ _ _ Fc) by reflexivity. rewrite D2, Ho. reflexivity.
  - intros Ho. rewrite !final_prefetch by reflexivity. fold p d c.
    rewrite (ok_ival _ _ _ _ Fa) by reflexivity.
    rewrite (ok_ival _ _ _ _ Fc) by reflexivity. rewrite D3, Ho. reflexivity.
  - intros Ho. rewrite !final_prefetch by reflexivity. fold p d c.
    rewrite (ok_ival _ _ _ _ Fa) by reflexivity.
    rewrite D4, Ho in C2, C3. cbn [is_default] in C2, C3.
    destruct (Z.eq_dec ((3 * dl) mod 8) 0) as [E8 | E8].
    + destruct (Z.lt_ge_cases (3 * dl) 32768) as [Hlt | Hge].
      * rewrite C2 by (right; split; assumption).
        rewrite D4, Ho. cbn [is_default]. pose proof (Hr _ E8) as Hq.
        set (q := 3 * dl / 8) in *. lia.
      * apply C3. intros [H | [_ H]]; lia.
    + apply C3. intros [H | [H _]]; [ lia | contradiction ].
  - intros Ho Hc. rewrite final_hint. fold p d c.
    rewrite (completes_thunderx e s Hc), Ho. cbn [andb is_default].
    rewrite andb_true_r.
    destruct (is_cortex_a73 e); [ reflexivity | ].
    rewrite A3. rewrite (ok_ival _ _ _ _ Fc) by reflexivity. rewrite D5, Ho.
    cbn [is_default].
    destruct (Z.eqb_spec (3 * dl) (-1)); [ lia | reflexivity ].
Qed.

End PrefetchTheorems.

(** ** X8 and X9: the feature word and the cache line *)

Section FeatureWord.

Context {P : Platform}.

Lemma rule_cortex_a53_features e s :
  _features (rule_cortex_a53 e s)
  = Z.lor (_features s) (if is_cortex_a53 e then CPU_A53MAC else 0).
Proof.
  unfold rule_cortex_a53, is_cortex_a53.
  destruct ((_cpu e =? CPU_ARM) && ((_model e =? 0xd03) || (_model2 e =? 0xd03)));
    [ | symmetry; apply Z.lor_0_r ].
  cbv zeta. splits; reflexivity.
Qed.

Lemma rule_arm_features e s :
  _features (rule_arm e s)
  = Z.lor (_features s) (if is_cortex_a57 e then CPU_STXR_PREFETCH else 0).
Proof.
  unfold rule_arm, is_cortex_a57. cbv zeta.
  destruct ((_cpu e =? CPU_ARM) && ((_model e =? 0xd07) || (_model2 e =? 0xd07))).
  - splits; reflexivity.
  - rewrite Z.lor_0_r. splits; reflexivity.
Qed.

Lemma initialize_tuning_features e s :
  _features (initialize_tuning e s) = probed_features e.
Proof.
  rewrite initialize_tuning_unfold.
  rewrite (fk_features _ _ _ (tuning_after_probe_fields e (init_probe e s))) by reflexivity.
  reflexivity.
Qed.

Lemma initialize_vendors_features e s :
  _features (initialize_vendors e s)
  = Z.lor (Z.lor (_features s) (if is_cortex_a53 e then CPU_A53MAC else 0))
          (if is_cortex_a57 e then CPU_STXR_PREFETCH else 0).
Proof.
  unfold initialize_vendors. cbv zeta.
  rewrite rule_arm_features.
  rewrite (fk_features _ _ _ (rule_neoverse_fields e _)) by reflexivity.
  rewrite (fk_features _ _ _ (rule_cortex_a73_fields e _)) by reflexivity.
  rewrite rule_cortex_a53_features.
  rewrite (fk_features _ _ _ (rule_tsv110_fields e _)) by reflexivity.
  rewrite (fk_features _ _ _ (rule_thunderx2_fields e _)) by reflexivity.
  reflexivity.
Qed.

(** X8.  The feature word a run of [VM_Version::initialize] leaves: when
    the run returns, the probed bits with [CPU_A53MAC] added on a
    Cortex-A53 and [CPU_STXR_PREFETCH] added on a Cortex-A57, and nothing
    else added or removed; when the run exits at the ThunderX guarantee,
    the probed bits as they are. *)
Theorem final_feature_word e s :
  (forall s', initialize e s = Ok s' ->
     _features s'
     = Z.lor (Z.lor (probed_features e) (if is_cortex_a53 e then CPU_A53MAC else 0))
             (if is_cortex_a57 e then CPU_STXR_PREFETCH else 0))
  /\ (forall st, initialize e s = Fatal prerelease_msg st ->
        _features st = probed_features e).
Proof.
  split.
  - intros s' H. destruct (initialize_Ok e s s' H) as [s1 [s2 [H1 [H2 H3]]]].
    rewrite (final_features e _ s2 s' H2 H3), initialize_vendors_features.
    pose proof (rule_thunderx_fields e (initialize_tuning e s)) as Fx.
    rewrite H1 in Fx. cbn [state_of] in Fx.
    rewrite (fk_features _ _ _ Fx) by reflexivity.
    rewrite initialize_tuning_features. reflexivity.
  - intros st H. rewrite initialize_after_tuning in H. unfold after_tuning in H.
    pose proof (rule_thunderx_fields e (initialize_tuning e s)) as Fx.
    destruct (rule_thunderx e (initialize_tuning e s)) as [s1 | m t] eqn:E;
      cbn [bind state_of] in *.
    + exfalso.
      change (after_aes e (init_aes (before_aes e s1)) = Fatal prerelease_msg st) in H.
      exact (after_aes_exit _ _ _ _ H eq_refl).
    + inversion H. subst. rewrite (fk_features _ _ _ Fx) by reflexivity.
      apply initialize_tuning_features.
Qed.

Lemma after_tuning_fields e s :
  fields_ok [F_features; F_inst; F_sve_length; F_spin_wait; F_opened; F_virtualization]
            s (state_of (after_tuning e s)).
Proof.
  unfold after_tuning.
  eapply fields_weaken;
    [ | apply fields_bind;
          [ apply rule_thunderx_fields
          | intros s1 _; eapply fields_trans;
              [ apply initialize_vendors_fields | apply after_vendors_fields ] ] ].
  weaker.
Qed.

Lemma init_padding_and_flush_spec e s :
  let dl := _dcache_line_size e in
  let s' := init_padding_and_flush e s in
  ival s' ContendedPaddingWidth
  = (if is_default (iorigin s ContendedPaddingWidth) && (ival s ContendedPaddingWidth <? dl)
     then dl else ival s ContendedPaddingWidth)
  /\ _data_cache_line_flush_size s'
     = (if supports_map_sync e && has_feature CPU_DCPOP s
        then dl else _data_cache_line_flush_size s).
Proof.
  cbv zeta. unfold init_padding_and_flush, FLAG_IS_DEFAULT_i. cbv zeta.
  destruct (is_default (iorigin s ContendedPaddingWidth)
            && (ival s ContendedPaddingWidth <? _dcache_line_size e));
    destruct (supports_map_sync e); cbn [andb];
    try (change (has_feature CPU_DCPOP (assign_i ContendedPaddingWidth (_dcache_line_size e) s))
           with (has_feature CPU_DCPOP s));
    destruct (has_feature CPU_DCPOP s); split; reflexivity.
Qed.

(** X9.  The two other consumers of the cache line size, in every run:
    [ContendedPaddingWidth] is raised to the cache line size [dl] when it
    was left at its default below [dl], and keeps its value otherwise; [_data_cache_line_flush_size] becomes [dl] exactly when the
    OS supports MAP_SYNC and the CPU has the DCPOP bit, and is left alone
    otherwise. *)
Theorem cache_line_consumers e s :
  let dl := _dcache_line_size e in
  let s' := state_of (initialize e s) in
  ival s' ContendedPaddingWidth
  = (if is_default (iorigin s ContendedPaddingWidth) && (ival s ContendedPaddingWidth <? dl)
     then dl else ival s ContendedPaddingWidth)
  /\ _data_cache_line_flush_size s'
     = (if supports_map_sync e && nonzero (Z.land (probed_features e) CPU_DCPOP)
        then dl else _data_cache_line_flush_size s).
Proof.
  cbv zeta. rewrite initialize_after_tuning, initialize_tuning_unfold.
  set (a := init_prefetch_alignment (init_prefetch_copy_interval
              (init_prefetch_defaults e (init_probe e s)))).
  assert (Fa : step_ok ([] ++ [] ++ [] ++ [])
                 ([] ++ [AllocatePrefetchDistance; AllocatePrefetchStepSize;
                         PrefetchScanIntervalInBytes; PrefetchCopyIntervalInBytes;
                         SoftwarePrefetchHintDistance]
                     ++ [PrefetchCopyIntervalInBytes]
                     ++ [AllocatePrefetchDistance; AllocatePrefetchStepSize;
                         SoftwarePrefetchHintDistance]) s a).
  { eapply step_trans; [ apply init_probe_ok | ].
    eapply step_trans; [ apply init_prefetch_defaults_ok | ].
    eapply step_trans; [ apply init_prefetch_copy_interval_ok | ].
    apply init_prefetch_alignment_ok. }
  assert (Ga : fields_ok ([F_features; F_atomics] ++ [] ++ [] ++ []) s a).
  { eapply fields_trans; [ apply init_probe_fields | ].
    eapply fields_trans; [ apply init_prefetch_defaults_fields | ].
    eapply fields_trans; [ apply init_prefetch_copy_interval_fields | ].
    apply init_prefetch_alignment_fields. }
  assert (Hfa : _features a = probed_features e).
  { unfold a.
    rewrite (fk_features _ _ _ (init_prefetch_alignment_fields _)) by reflexivity.
    rewrite (fk_features _ _ _ (init_prefetch_copy_interval_fields _)) by reflexivity.
    rewrite (fk_features _ _ _ (init_prefetch_defaults_fields e _)) by reflexivity.
    reflexivity. }
  destruct (init_padding_and_flush_spec e a) as [S1 S2].
  set (b := init_padding_and_flush e a) in *.
  assert (Fe : step_ok ([AvoidUnalignedAccesses; UseSIMDForMemoryOps; UseSIMDForArrayEquals]
                          ++ [UseSIMDForMemoryOps; UseSignumIntrinsic])
                       ([] ++ [OnSpinWaitInstCount]) b (rule_ampere e (rule_emag e b))).
  { eapply step_trans; [ apply rule_emag_ok | apply rule_ampere_ok ]. }
  assert (Ge : fields_ok ([] ++ [F_inst]) b (rule_ampere e (rule_emag e b))).
  { eapply fields_trans; [ apply rule_emag_fields | apply rule_ampere_fields ]. }
  set (t := rule_ampere e (rule_emag e b)) in *.
  split.
  - skip_i (after_tuning_ok e t). skip_i Fe. rewrite S1.
    rewrite (ok_iorigin _ _ _ _ Fa). skip_i Fa. reflexivity.
  - rewrite (fk_flush_size _ _ _ (after_tuning_fields e t)) by reflexivity.
    rewrite (fk_flush_size _ _ _ Ge) by reflexivity. rewrite S2.
    unfold has_feature. rewrite Hfa.
    rewrite (fk_flush_size _ _ _ Ga) by reflexivity. reflexivity.
Qed.

End FeatureWord.

(** ** X10 and X11: the vector length of a run under SVE *)

Section SveRuns.

Context {P : Platform}.

Lemma init_sve_tier_value s :
  has_feature CPU_SVE s = true ->
  ival (init_sve_tier s) UseSVE
  = (if is_default (iorigin s UseSVE)
     then (if has_feature CPU_SVE2 s then 2 else 1) else ival s UseSVE).
Proof.
  intros H. unfold init_sve_tier, FLAG_IS_DEFAULT_i. rewrite H.
  destruct (is_default (iorigin s UseSVE)); reflexivity.
Qed.

Lemma init_sve_length_on e s :
  0 < ival (init_sve_length e s) UseSVE ->
  0 < ival s UseSVE /\ ival (init_sve_length e s) UseSVE = ival s UseSVE.
Proof.
  intros H. destruct (init_sve_length_tier e s) as [E | E]; [ | lia ].
  rewrite E in H. auto.
Qed.

(** The SVE block of lines 462-484 when it leaves SVE enabled. *)
Lemma init_sve_max_vector_size_on e s s' :
  init_sve_max_vector_size e s = Ok s' -> 0 < ival s' UseSVE ->
  ival s' UseSVE = ival s UseSVE
  /\ ival s' MaxVectorSize = _initial_sve_vector_length s'
  /\ (is_default (iorigin s MaxVectorSize) = true ->
      _initial_sve_vector_length s' = _initial_sve_vector_length s)
  /\ (is_default (iorigin s MaxVectorSize) = false ->
      let m := ival s MaxVectorSize in
      let new_vl := set_and_get_current_sve_vector_length e m in
      16 <= m /\ Z.rem m 16 = 0 /\ is_power_of_2 m = true
      /\ _initial_sve_vector_length s' = new_vl /\ 0 <= new_vl
      /\ (new_vl <> m -> In (sve_granted_msg new_vl) (warnings s'))).
Proof.
  unfold init_sve_max_vector_size, FLAG_IS_DEFAULT_i. cbv zeta.
  destruct (Z.ltb_spec 0 (ival s UseSVE)) as [Hpos | Hle].
  2:{ intros H Hs. inversion H. subst s'. lia. }
  destruct (is_default (iorigin s MaxVectorSize)).
  { intros H _. inversion H. cbn. repeat split; auto; try discriminate. }
  destruct (Z.ltb_spec (ival s MaxVectorSize) 16) as [Hlt | Hge].
  { intros H Hs. inversion H. subst s'. cbn in Hs. lia. }
  destruct (Z.eqb_spec (Z.rem (ival s MaxVectorSize) 16) 0) as [Hrem | Hrem];
    cbn [andb]; [ | discriminate ].
  destruct (is_power_of_2 (ival s MaxVectorSize)) eqn:Hp; [ | discriminate ].
  cbn [ival set_initial_sve_vector_length].
  destruct (Z.ltb_spec (set_and_get_current_sve_vector_length e (ival s MaxVectorSize)) 0)
    as [Hneg | Hnn]; [ discriminate | ].
  destruct (Z.eqb_spec (set_and_get_current_sve_vector_length e (ival s MaxVectorSize))
              (ival s MaxVectorSize)) as [Heq | Hne]; cbn [negb];
    intros H _; inversion H; cbn; repeat split; auto; try discriminate.
  - intros Hx. contradiction.
  - intros _. apply in_or_app. right. left. reflexivity.
Qed.

Lemma initialize_features_unfold e s :
  initialize_features e s
  = init_unaligned_popcount
      (init_sve_length e
         (init_sve_tier
            (init_block_zeroing e
               (init_ghash_base64 (initialize_sha (init_aes (initialize_crc_lse s))))))).
Proof. reflexivity. Qed.

(** The integer flags written before line 442. *)
Lemma initialize_features_ints e s :
  step_ok all_bool_knobs [BlockZeroingLowLimit; UseSVE] s (initialize_features e s).
Proof.
  unfold initialize_features. cbv zeta.
  eapply step_weaken;
    [ | | eapply step_trans;
            [ eapply step_trans;
                [ eapply step_trans;
                    [ apply initialize_crc_lse_fine | apply init_aes_ok ]
                | apply initialize_sha_ok ]
            | unfold initialize_rest; cbv zeta;
              eapply step_trans;
                [ apply initialize_ghash_sve_ok | apply init_unaligned_popcount_ok ] ] ];
    weaker.
Qed.

Lemma line_442_ok e s s1 :
  rule_thunderx e (initialize_tuning e s) = Ok s1 ->
  step_ok all_bool_knobs
          [AllocatePrefetchDistance; AllocatePrefetchStepSize;
           PrefetchScanIntervalInBytes; PrefetchCopyIntervalInBytes;
           SoftwarePrefetchHintDistance; ContendedPaddingWidth;
           OnSpinWaitInstCount; BlockZeroingLowLimit; UseSVE]
          s (initialize_features e (initialize_vendors e s1)).
Proof.
  intros H1.
  eapply step_weaken;
    [ | | exact (step_trans _ _ _ _ _ _ _ (line_243_ok e s s1 H1)
                   (initialize_features_ints e (initialize_vendors e s1))) ];
    weaker.
Qed.

Lemma init_neon_max_vector_size_skip s s' :
  init_neon_max_vector_size s = Ok s' -> ival s UseSVE <> 0 -> s' = s.
Proof.
  unfold init_neon_max_vector_size.
  destruct (Z.eqb_spec (ival s UseSVE) 0); [ contradiction | ].
  intros H _. inversion H. reflexivity.
Qed.

(** The store at line 442 of a run that completes with SVE enabled. *)
Lemma sve_on_at_line_442 e sv s2 s' :
  init_compiler2 e (initialize_features e sv) = Ok s2 ->
  initialize_finish e s2 = Ok s' -> 0 < ival s' UseSVE ->
  let z := init_block_zeroing e
             (init_ghash_base64 (initialize_sha (init_aes (initialize_crc_lse sv)))) in
  let x := initialize_features e sv in
  ival s' UseSVE = ival (init_sve_tier z) UseSVE
  /\ ival x UseSVE = ival s' UseSVE
  /\ _initial_sve_vector_length x = get_current_sve_vector_length e
  /\ is_power_of_2 (get_current_sve_vector_length e) = true
  /\ Z.rem (get_current_sve_vector_length e) sve_vl_min = 0.
Proof.
  intros H2 H3 Hon. cbv zeta.
  pose proof (initialize_finish_ok e s2) as Ff. rewrite H3 in Ff. cbn [state_of] in Ff.
  rewrite (ok_ival _ _ _ _ Ff UseSVE eq_refl) in *.
  assert (Hx : 0 < ival (initialize_features e sv) UseSVE
               /\ ival s2 UseSVE = ival (initialize_features e sv) UseSVE).
  { unfold init_compiler2 in H2. destruct COMPILER2.
    - cbv zeta in H2.
      apply bind_Ok in H2. destruct H2 as [v [Hv H2]].
      apply bind_Ok in H2. destruct H2 as [w [Hw H2]].
      injection H2 as E. subst s2.
      rewrite (ok_ival _ _ _ _ (init_c2_scheduling_ok w) UseSVE eq_refl) in *.
      pose proof (init_neon_max_vector_size_ok v) as Fn. rewrite Hw in Fn.
      cbn [state_of] in Fn.
      rewrite (ok_ival _ _ _ _ Fn UseSVE eq_refl) in *.
      destruct (init_sve_max_vector_size_on e _ v Hv Hon) as [Ev _].
      rewrite Ev in *.
      rewrite (ok_ival _ _ _ _ (init_c2_intrinsics_ok _) UseSVE eq_refl) in *.
      auto.
    - inversion H2. subst s2. auto. }
  destruct Hx as [Hx Ex]. rewrite Ex. clear Ex.
  rewrite initialize_features_unfold in *.
  set (z := init_block_zeroing e
              (init_ghash_base64 (initialize_sha (init_aes (initialize_crc_lse sv))))) in *.
  rewrite (ok_ival _ _ _ _ (init_unaligned_popcount_ok _) UseSVE eq_refl) in *.
  rewrite (fk_sve_length _ _ _ (init_unaligned_popcount_fields _)) by reflexivity.
  destruct (init_sve_length_on e _ Hx) as [Ht Et].
  destruct (init_sve_length_valid e _ Hx Ht) as [V1 [V2 V3]].
  auto.
Qed.

(** X10.  A run that returns with [UseSVE > 0]: the vector length the
    machine reported is a power of two and a multiple of [sve_vl_min]; the
    final [UseSVE] is the operator's value, or, left at its default, 2 with
    the SVE2 bit and 1 without; when the build has no COMPILER2 or
    [MaxVectorSize] was left at its default, the length recorded in
    [_initial_sve_vector_length] is the reported one; and in a COMPILER2
    build the final [MaxVectorSize] equals the recorded length. *)
Theorem sve_detected_length_recorded e s s' :
  initialize e s = Ok s' -> 0 < ival s' UseSVE ->
  is_power_of_2 (get_current_sve_vector_length e) = true
  /\ Z.rem (get_current_sve_vector_length e) sve_vl_min = 0
  /\ ival s' UseSVE
     = (if is_default (iorigin s UseSVE)
        then (if has_feature CPU_SVE2 s' then 2 else 1) else ival s UseSVE)
  /\ (COMPILER2 = false \/ iorigin s MaxVectorSize = DEFAULT ->
      _initial_sve_vector_length s' = get_current_sve_vector_length e)
  /\ (COMPILER2 = true -> ival s' MaxVectorSize = _initial_sve_vector_length s').
Proof.
  intros H Hon. destruct (initialize_Ok e s s' H) as [s1 [s2 [H1 [H2 H3]]]].
  set (sv := initialize_vendors e s1) in *.
  destruct (sve_on_at_line_442 e sv s2 s' H2 H3 Hon) as [Et [Ex [Vx [Vp Vr]]]].
  pose proof (line_442_ok e s s1 H1) as Fx. fold sv in Fx.
  pose proof (final_features e sv s2 s' H2 H3) as Hf.
  pose proof (initialize_finish_ok e s2) as Ff. rewrite H3 in Ff. cbn [state_of] in Ff.
  pose proof (initialize_finish_fields e s2) as Gf. rewrite H3 in Gf. cbn [state_of] in Gf.
  set (x := initialize_features e sv) in *.
  split; [ exact Vp | split; [ exact Vr | split; [ | split ] ] ].
  - set (z := init_block_zeroing e
                (init_ghash_base64 (initialize_sha (init_aes (initialize_crc_lse sv))))) in *.
    rewrite Et.
    assert (Fz : step_ok ([UseCRC32; UseAdler32Intrinsics; UseVectorizedMismatchIntrinsic;
                           UseLSE]
                            ++ [UseAES; UseAESIntrinsics; UseAESCTRIntrinsics]
                            ++ sha_bool_knobs
                            ++ [UseGHASHIntrinsics; UseBASE64Intrinsics]
                            ++ [UseBlockZeroing])
                         ([] ++ [] ++ [] ++ [] ++ [BlockZeroingLowLimit]) sv z).
    { eapply step_trans; [ apply initialize_crc_lse_fine | ].
      eapply step_trans; [ apply init_aes_ok | ].
      eapply step_trans; [ apply initialize_sha_ok | ].
      eapply step_trans; [ apply init_ghash_base64_ok | apply init_block_zeroing_ok ]. }
    assert (Gz : _features z = _features sv).
    { unfold z.
      rewrite (fk_features _ _ _ (init_block_zeroing_fields e _)) by reflexivity.
      rewrite (fk_features _ _ _ (init_ghash_base64_fields _)) by reflexivity.
      rewrite (fk_features _ _ _ (initialize_sha_fields _)) by reflexivity.
      rewrite (fk_features _ _ _ (init_aes_fields _)) by reflexivity.
      apply (fk_features _ _ _ (initialize_crc_lse_fields sv)). reflexivity. }
    rewrite init_sve_tier_value by (apply init_sve_tier_gate; rewrite <- Et; exact Hon).
    pose proof (line_243_ok e s s1 H1 : step_ok _ _ s sv) as Fv.
    rewrite (ok_iorigin _ _ _ _ Fz), (ok_iorigin _ _ _ _ Fv).
    rewrite (has_feature_same z s' CPU_SVE2) by congruence.
    rewrite (ok_ival _ _ _ _ Fz) by reflexivity.
    rewrite (ok_ival _ _ _ _ Fv) by reflexivity.
    reflexivity.
  - intros Hd.
    rewrite (fk_sve_length _ _ _ Gf) by reflexivity.
    unfold init_compiler2 in H2. destruct COMPILER2.
    + destruct Hd as [Hd | Hd]; [ discriminate Hd | ].
      cbv zeta in H2.
      apply bind_Ok in H2. destruct H2 as [v [Hv H2]].
      apply bind_Ok in H2. destruct H2 as [w [Hw H2]].
      inversion H2 as [E].
      rewrite (fk_sve_length _ _ _ (init_c2_scheduling_fields w)) by reflexivity.
      pose proof (init_neon_max_vector_size_fields v) as Gn. rewrite Hw in Gn.
      cbn [state_of] in Gn.
      rewrite (fk_sve_length _ _ _ Gn) by reflexivity.
      assert (Hv0 : 0 < ival v UseSVE).
      { pose proof (init_neon_max_vector_size_ok v) as Fn. rewrite Hw in Fn.
        cbn [state_of] in Fn.
        rewrite <- (ok_ival _ _ _ _ Fn UseSVE eq_refl).
        rewrite <- (ok_ival _ _ _ _ (init_c2_scheduling_ok w) UseSVE eq_refl).
        rewrite E. rewrite <- (ok_ival _ _ _ _ Ff UseSVE eq_refl). exact Hon. }
      destruct (init_sve_max_vector_size_on e _ v Hv Hv0) as [_ [_ [Hdef _]]].
      rewrite Hdef.
      * rewrite (fk_sve_length _ _ _ (init_c2_intrinsics_fields x)) by reflexivity.
        exact Vx.
      * rewrite (ok_iorigin _ _ _ _ (init_c2_intrinsics_ok x)).
        rewrite (ok_iorigin _ _ _ _ Fx), Hd. reflexivity.
    + inversion H2. subst s2. exact Vx.
  - intros HC. unfold init_compiler2 in H2. rewrite HC in H2. cbv zeta in H2.
    apply bind_Ok in H2. destruct H2 as [v [Hv H2]].
    apply bind_Ok in H2. destruct H2 as [w [Hw H2]].
    inversion H2 as [E].
    assert (Hv0 : 0 < ival v UseSVE).
    { pose proof (init_neon_max_vector_size_ok v) as Fn. rewrite Hw in Fn.
      cbn [state_of] in Fn.
      rewrite <- (ok_ival _ _ _ _ Fn UseSVE eq_refl).
      rewrite <- (ok_ival _ _ _ _ (init_c2_scheduling_ok w) UseSVE eq_refl).
      rewrite E. rewrite <- (ok_ival _ _ _ _ Ff UseSVE eq_refl). exact Hon. }
    assert (Ew : w = v).
    { apply (init_neon_max_vector_size_skip v w Hw). lia. }
    subst w.
    rewrite (ok_ival _ _ _ _ Ff) by reflexivity.
    rewrite (fk_sve_length _ _ _ Gf) by reflexivity.
    rewrite <- E.
    rewrite (ok_ival _ _ _ _ (init_c2_scheduling_ok v)) by reflexivity.
    rewrite (fk_sve_length _ _ _ (init_c2_scheduling_fields v)) by reflexivity.
    apply (init_sve_max_vector_size_on e _ v Hv Hv0).
Qed.

(** X11.  A COMPILER2 run that returns with [UseSVE > 0] after the
    operator set [MaxVectorSize = m]: [m] is a power of two and a multiple
    of 16, the length [new_vl] the kernel granted for [m] is not negative,
    both [_initial_sve_vector_length] and [MaxVectorSize] end as [new_vl],
    and a grant different from [m] is reported with the warning of
    line 476. *)
Theorem sve_max_vector_size_grant e s s' :
  COMPILER2 = true -> initialize e s = Ok s' -> 0 < ival s' UseSVE ->
  is_default (iorigin s MaxVectorSize) = false ->
  let m := ival s MaxVectorSize in
  let new_vl := set_and_get_current_sve_vector_length e m in
  16 <= m /\ Z.rem m 16 = 0 /\ is_power_of_2 m = true
  /\ 0 <= new_vl
  /\ _initial_sve_vector_length s' = new_vl
  /\ ival s' MaxVectorSize = new_vl
  /\ (new_vl <> m -> In (sve_granted_msg new_vl) (warnings s')).
Proof.
  intros HC H Hon Hd. cbv zeta.
  destruct (initialize_Ok e s s' H) as [s1 [s2 [H1 [H2 H3]]]].
  set (sv := initialize_vendors e s1) in *.
  pose proof (line_442_ok e s s1 H1 : step_ok _ _ s (initialize_features e sv)) as Fx.
  pose proof (initialize_finish_ok e s2) as Ff. rewrite H3 in Ff. cbn [state_of] in Ff.
  pose proof (initialize_finish_fields e s2) as Gf. rewrite H3 in Gf. cbn [state_of] in Gf.
  set (x := initialize_features e sv) in *.
  unfold init_compiler2 in H2. rewrite HC in H2. cbv zeta in H2.
  apply bind_Ok in H2. destruct H2 as [v [Hv H2]].
  apply bind_Ok in H2. destruct H2 as [w [Hw H2]].
  injection H2 as E.
  assert (Hv0 : 0 < ival v UseSVE).
  { pose proof (init_neon_max_vector_size_ok v) as Fn. rewrite Hw in Fn.
    cbn [state_of] in Fn.
    rewrite <- (ok_ival _ _ _ _ Fn UseSVE eq_refl).
    rewrite <- (ok_ival _ _ _ _ (init_c2_scheduling_ok w) UseSVE eq_refl).
    rewrite E. rewrite <- (ok_ival _ _ _ _ Ff UseSVE eq_refl). exact Hon. }
  assert (Ew : w = v).
  { apply (init_neon_max_vector_size_skip v w Hw). lia. }
  subst w.
  pose proof (init_c2_intrinsics_ok x) as Fi.
  destruct (init_sve_max_vector_size_on e _ v Hv Hv0) as [_ [Hm [_ Hset]]].
  rewrite (ok_iorigin _ _ _ _ Fi), (ok_iorigin _ _ _ _ Fx) in Hset.
  specialize (Hset Hd). cbv zeta in Hset.
  rewrite (ok_ival _ _ _ _ Fi MaxVectorSize eq_refl) in Hset.
  rewrite (ok_ival _ _ _ _ Fx MaxVectorSize eq_refl) in Hset.
  destruct Hset as [G1 [G2 [G3 [G4 [G5 G6]]]]].
  assert (Evl : _initial_sve_vector_length s' = _initial_sve_vector_length v).
  { rewrite (fk_sve_length _ _ _ Gf) by reflexivity. rewrite <- E.
    apply (fk_sve_length _ _ _ (init_c2_scheduling_fields v)). reflexivity. }
  repeat split; try assumption.
  - rewrite Evl. exact G4.
  - rewrite (ok_ival _ _ _ _ Ff) by reflexivity. rewrite <- E.
    rewrite (ok_ival _ _ _ _ (init_c2_scheduling_ok v)) by reflexivity.
    rewrite Hm. exact G4.
  - intros Hne. apply (ok_warnings _ _ _ _ Ff). rewrite <- E.
    apply (ok_warnings _ _ _ _ (init_c2_scheduling_ok v)). apply G6, Hne.
Qed.

End SveRuns.

(** ** X12: the spin-wait descriptor of a run *)

Section SpinInputs.

Context {P : Platform}.

Lemma rule_thunderx_completes e s :
  completes (rule_thunderx e s) = negb (is_prerelease_thunderx e).
Proof.
  unfold rule_thunderx, is_prerelease_thunderx.
  destruct ((_cpu e =? CPU_CAVIUM) && (_model e =? 0xA1)); cbn [andb]; [ | reflexivity ].
  destruct (_variant e =? 0); reflexivity.
Qed.

Lemma rule_ampere_spin e s :
  OnSpinWaitInst (rule_ampere e s)
  = (if is_ampere1 e && is_default (OnSpinWaitInst_origin s)
     then "isb" else OnSpinWaitInst s)
  /\ ival (rule_ampere e s) OnSpinWaitInstCount
     = (if is_ampere1 e && is_default (iorigin s OnSpinWaitInstCount)
        then 2 else ival s OnSpinWaitInstCount).
Proof.
  unfold rule_ampere, is_ampere1.
  destruct ((_cpu e =? CPU_AMPERE)
            && ((_model e =? CPU_MODEL_AMPERE_1) || (_model e =? CPU_MODEL_AMPERE_1A)
                || (_model e =? CPU_MODEL_AMPERE_1B))); cbn [andb]; [ | auto ].
  cbv zeta. splits; open_flags; try congruence; split; reflexivity.
Qed.

Lemma rule_neoverse_spin e s :
  OnSpinWaitInst (rule_neoverse e s)
  = (if is_neoverse e && is_default (OnSpinWaitInst_origin s)
     then "isb" else OnSpinWaitInst s)
  /\ ival (rule_neoverse e s) OnSpinWaitInstCount
     = (if is_neoverse e && is_default (iorigin s OnSpinWaitInstCount)
        then 1 else ival s OnSpinWaitInstCount).
Proof.
  unfold rule_neoverse, is_neoverse.
  destruct ((_cpu e =? CPU_ARM)
            && (model_is e 0xd0c || model_is e 0xd49 || model_is e 0xd40
                || model_is e 0xd4f)); cbn [andb]; [ | auto ].
  cbv zeta. splits; open_flags; try congruence; split; reflexivity.
Qed.

End SpinInputs.

Section Line513.

Context {P : Platform}.

(** The flags [get_spin_wait_desc] reads, in a run that reaches
    line 513. *)
Lemma spin_inputs_at_513 e s s1 s2 :
  rule_thunderx e (initialize_tuning e s) = Ok s1 ->
  init_compiler2 e (initialize_features e (initialize_vendors e s1)) = Ok s2 ->
  OnSpinWaitInst s2 = spin_wait_inst_at_513 e s
  /\ ival s2 OnSpinWaitInstCount = spin_wait_count_at_513 e s
  /\ iorigin s2 = iorigin s.
Proof.
  intros H1 H2.
  pose proof (init_compiler2_fields e (initialize_features e (initialize_vendors e s1))) as G2.
  pose proof (init_compiler2_ok e (initialize_features e (initialize_vendors e s1))) as F2.
  rewrite H2 in G2, F2. cbn [state_of] in G2, F2.
  pose proof (initialize_features_fields e (initialize_vendors e s1)) as G3.
  pose proof (initialize_features_ints e (initialize_vendors e s1)) as F3.
  pose proof (rule_thunderx_fields e (initialize_tuning e s)) as G5.
  pose proof (rule_thunderx_ok e (initialize_tuning e s)) as F5.
  rewrite H1 in G5, F5. cbn [state_of] in G5, F5.
  (* lines 180-241 *)
  assert (Hv : OnSpinWaitInst (initialize_vendors e s1)
               = (if is_neoverse e && is_default (OnSpinWaitInst_origin s1)
                  then "isb" else OnSpinWaitInst s1)
               /\ ival (initialize_vendors e s1) OnSpinWaitInstCount
                  = (if is_neoverse e && is_default (iorigin s1 OnSpinWaitInstCount)
                     then 1 else ival s1 OnSpinWaitInstCount)
               /\ iorigin (initialize_vendors e s1) = iorigin s1).
  { unfold initialize_vendors. cbv zeta.
    set (y := rule_cortex_a73 e (rule_cortex_a53 e (rule_tsv110 e (rule_thunderx2 e s1)))).
    assert (Fy : step_ok ([AvoidUnalignedAccesses; UseSIMDForMemoryOps]
                            ++ [AvoidUnalignedAccesses; UseSIMDForMemoryOps]
                            ++ [UseSIMDForArrayEquals] ++ [UseSimpleArrayEquals])
                         ([] ++ [] ++ [] ++ [SoftwarePrefetchHintDistance]) s1 y).
    { eapply step_trans; [ apply rule_thunderx2_ok | ].
      eapply step_trans; [ apply rule_tsv110_ok | ].
      eapply step_trans; [ apply rule_cortex_a53_ok | apply rule_cortex_a73_ok ]. }
    assert (Gy : fields_ok ([] ++ [] ++ [F_features] ++ []) s1 y).
    { eapply fields_trans; [ apply rule_thunderx2_fields | ].
      eapply fields_trans; [ apply rule_tsv110_fields | ].
      eapply fields_trans; [ apply rule_cortex_a53_fields | apply rule_cortex_a73_fields ]. }
    destruct (rule_neoverse_spin e y) as [N1 N2].
    rewrite (fk_inst _ _ _ (rule_arm_fields e _)) by reflexivity.
    rewrite (ok_ival _ _ _ _ (rule_arm_ok e _)) by reflexivity.
    rewrite (ok_iorigin _ _ _ _ (rule_arm_ok e _)).
    rewrite (ok_iorigin _ _ _ _ (rule_neoverse_ok e _)).
    rewrite N1, N2.
    rewrite (ok_sorigin _ _ _ _ Fy), (ok_iorigin _ _ _ _ Fy).
    rewrite (fk_inst _ _ _ Gy) by reflexivity.
    rewrite (ok_ival _ _ _ _ Fy) by reflexivity.
    auto. }
  (* lines 71-163 *)
  assert (Ht : OnSpinWaitInst (initialize_tuning e s)
               = (if is_ampere1 e && is_default (OnSpinWaitInst_origin s)
                  then "isb" else OnSpinWaitInst s)
               /\ ival (initialize_tuning e s) OnSpinWaitInstCount
                  = (if is_ampere1 e && is_default (iorigin s OnSpinWaitInstCount)
                     then 2 else ival s OnSpinWaitInstCount)).
  { rewrite initialize_tuning_unfold.
    set (b := rule_emag e (init_padding_and_flush e (init_prefetch_alignment
                (init_prefetch_copy_interval (init_prefetch_defaults e (init_probe e s)))))).
    assert (Fb : step_ok ([] ++ [] ++ [] ++ [] ++ []
                            ++ [AvoidUnalignedAccesses; UseSIMDForMemoryOps;
                                UseSIMDForArrayEquals])
                   ([] ++ [AllocatePrefetchDistance; AllocatePrefetchStepSize;
                           PrefetchScanIntervalInBytes; PrefetchCopyIntervalInBytes;
                           SoftwarePrefetchHintDistance]
                       ++ [PrefetchCopyIntervalInBytes]
                       ++ [AllocatePrefetchDistance; AllocatePrefetchStepSize;
                           SoftwarePrefetchHintDistance]
                       ++ [ContendedPaddingWidth] ++ []) s b).
    { eapply step_trans; [ apply init_probe_ok | ].
      eapply step_trans; [ apply init_prefetch_defaults_ok | ].
      eapply step_trans; [ apply init_prefetch_copy_interval_ok | ].
      eapply step_trans; [ apply init_prefetch_alignment_ok | ].
      eapply step_trans; [ apply init_padding_and_flush_ok | apply rule_emag_ok ]. }
    assert (Gb : fields_ok ([F_features; F_atomics] ++ [] ++ [] ++ [] ++ [F_flush_size] ++ [])
                           s b).
    { eapply fields_trans; [ apply init_probe_fields | ].
      eapply fields_trans; [ apply init_prefetch_defaults_fields | ].
      eapply fields_trans; [ apply init_prefetch_copy_interval_fields | ].
      eapply fields_trans; [ apply init_prefetch_alignment_fields | ].
      eapply fields_trans; [ apply init_padding_and_flush_fields | apply rule_emag_fields ]. }
    destruct (rule_ampere_spin e b) as [A1 A2]. rewrite A1, A2.
    rewrite (ok_sorigin _ _ _ _ Fb), (ok_iorigin _ _ _ _ Fb).
    rewrite (fk_inst _ _ _ Gb) by reflexivity.
    rewrite (ok_ival _ _ _ _ Fb) by reflexivity.
    auto. }
  destruct Hv as [V1 [V2 V3]]. destruct Ht as [T1 T2].
  pose proof (initialize_tuning_ok e s) as Ft.
  rewrite (ok_sorigin _ _ _ _ F5), (ok_sorigin _ _ _ _ Ft) in V1.
  rewrite (ok_iorigin _ _ _ _ F5), (ok_iorigin _ _ _ _ Ft) in V2, V3.
  rewrite (fk_inst _ _ _ G5) in V1 by reflexivity.
  rewrite (ok_ival _ _ _ _ F5) in V2 by reflexivity.
  rewrite T1 in V1. rewrite T2 in V2.
  split; [ | split ].
  - rewrite (fk_inst _ _ _ G2) by reflexivity.
    rewrite (fk_inst _ _ _ G3) by reflexivity.
    rewrite V1. unfold spin_wait_inst_at_513.
    destruct (is_neoverse e), (is_ampere1 e), (is_default (OnSpinWaitInst_origin s));
      reflexivity.
  - rewrite (ok_ival _ _ _ _ F2) by reflexivity.
    rewrite (ok_ival _ _ _ _ F3) by reflexivity.
    rewrite V2. unfold spin_wait_count_at_513.
    destruct (is_neoverse e), (is_ampere1 e),
      (is_default (iorigin s OnSpinWaitInstCount)); reflexivity.
  - rewrite (ok_iorigin _ _ _ _ F2), (ok_iorigin _ _ _ _ F3). exact V3.
Qed.

End Line513.

Section SpinRuns.

Context {P : Platform}.

Lemma get_spin_wait_desc_cases s :
  (valid_spin_wait_inst (OnSpinWaitInst s) = false
   /\ get_spin_wait_desc s = Fatal (spin_wait_options_msg (OnSpinWaitInst s)) s)
  \/ (OnSpinWaitInst s = "none"
      /\ is_default (iorigin s OnSpinWaitInstCount) = false
      /\ 0 < ival s OnSpinWaitInstCount
      /\ get_spin_wait_desc s = Fatal spin_wait_count_msg s)
  \/ (valid_spin_wait_inst (OnSpinWaitInst s) = true
      /\ (OnSpinWaitInst s = "none" ->
          is_default (iorigin s OnSpinWaitInstCount) = true
          \/ ival s OnSpinWaitInstCount <= 0)
      /\ get_spin_wait_desc s
         = Ok (spin_wait_of (OnSpinWaitInst s) (ival s OnSpinWaitInstCount))).
Proof.
  unfold get_spin_wait_desc, valid_spin_wait_inst, spin_wait_of, FLAG_IS_DEFAULT_i.
  destruct (String.eqb_spec (OnSpinWaitInst s) "nop") as [E1 | E1].
  { right. right. cbn [orb]. repeat split. rewrite E1. discriminate. }
  destruct (String.eqb_spec (OnSpinWaitInst s) "isb") as [E2 | E2].
  { right. right. cbn [orb]. repeat split. rewrite E2. discriminate. }
  destruct (String.eqb_spec (OnSpinWaitInst s) "yield") as [E3 | E3].
  { right. right. cbn [orb]. repeat split. rewrite E3. discriminate. }
  destruct (String.eqb_spec (OnSpinWaitInst s) "none") as [E4 | E4]; cbn [orb negb].
  2:{ left. auto. }
  destruct (is_default (iorigin s OnSpinWaitInstCount)) eqn:Hd; cbn [negb andb].
  { right. right. repeat split. auto. }
  destruct (Z.ltb_spec 0 (ival s OnSpinWaitInstCount)) as [Hc | Hc].
  - right. left. auto.
  - right. right. repeat split. auto.
Qed.

Lemma initialize_finish_Ok e s s' :
  initialize_finish e s = Ok s' ->
  exists d, get_spin_wait_desc s = Ok d /\ _spin_wait s' = d
            /\ OnSpinWaitInst s' = OnSpinWaitInst s.
Proof.
  unfold initialize_finish. intros H.
  apply bind_Ok in H. destruct H as [d [Hd H]]. injection H as E.
  exists d. split; [ exact Hd | ]. subst s'.
  rewrite (fk_spin_wait _ _ _ (unsupported_CriticalJNINatives_fields _)) by reflexivity.
  rewrite (fk_spin_wait _ _ _ (check_virtualizations_fields e _)) by reflexivity.
  rewrite (fk_inst _ _ _ (unsupported_CriticalJNINatives_fields _)) by reflexivity.
  rewrite (fk_inst _ _ _ (check_virtualizations_fields e _)) by reflexivity.
  split; reflexivity.
Qed.

(** X12.  The spin-wait descriptor of a run that returns.  The name read
    at line 513 is "isb" on a Neoverse N1/N2/V1/V2 or an Ampere-1 when
    [OnSpinWaitInst] was left at its default, and the operator's or default
    value otherwise; the count is 1 (Neoverse) or 2 (Ampere-1) when
    [OnSpinWaitInstCount] was left at its default, and its own value
    otherwise.  The name is one of "nop", "isb", "yield", "none",
    [_spin_wait] is the descriptor of that name and count, and the two
    flags end with these values. *)
Theorem spin_wait_outcome e s s' :
  initialize e s = Ok s' ->
  let name := spin_wait_inst_at_513 e s in
  let count := spin_wait_count_at_513 e s in
  valid_spin_wait_inst name = true
  /\ _spin_wait s' = spin_wait_of name count
  /\ OnSpinWaitInst s' = name
  /\ ival s' OnSpinWaitInstCount = count.
Proof.
  intros H. cbv zeta. destruct (initialize_Ok e s s' H) as [s1 [s2 [H1 [H2 H3]]]].
  destruct (spin_inputs_at_513 e s s1 s2 H1 H2) as [I1 [I2 I3]].
  destruct (initialize_finish_Ok e s2 s' H3) as [d [Hd [Hsw Hi]]].
  pose proof (initialize_finish_ok e s2) as Ff. rewrite H3 in Ff. cbn [state_of] in Ff.
  rewrite Hi, (ok_ival _ _ _ _ Ff) by reflexivity.
  rewrite <- I1, <- I2.
  destruct (get_spin_wait_desc_cases s2) as [[_ Hx] | [[_ [_ [_ Hx]]] | [Hv [_ Hx]]]];
    rewrite Hx in Hd; try discriminate Hd.
  injection Hd as <-. auto.
Qed.

End SpinRuns.

(** ** X13 and X14: the exits of [initialize] *)

Lemma power_of_2_multiple_of_16 (v : Z) :
  is_power_of_2 v = true -> 16 <= v -> Z.rem v 16 = 0.
Proof.
  intros Hp Hv. apply is_power_of_2_spec in Hp. destruct Hp as [k [Hk ->]].
  assert (4 <= k).
  { destruct (Z.lt_ge_cases k 4) as [Hlt | Hge]; [ | exact Hge ].
    exfalso. assert (2 ^ k <= 2 ^ 3) by (apply Z.pow_le_mono_r; lia).
    change (2 ^ 3) with 8 in *. lia. }
  replace k with (4 + (k - 4)) by lia.
  rewrite Z.pow_add_r by lia. change (2 ^ 4) with 16.
  rewrite Z.mul_comm. apply Z.rem_mul. lia.
Qed.

Section Exits.

Context {P : Platform}.

(** The exits of lines 442-511, with the flags they come from. *)
Lemma init_compiler2_exits e x m st :
  init_compiler2 e x = Fatal m st ->
  COMPILER2 = true /\ is_default (iorigin x MaxVectorSize) = false
  /\ ((m = unsupported_max_vector_size_msg (ival x MaxVectorSize)
       /\ is_power_of_2 (ival x MaxVectorSize) = false)
      \/ (m = sve_unsupported_length_msg (ival x MaxVectorSize)
          /\ 0 < ival x UseSVE /\ 16 <= ival x MaxVectorSize
          /\ is_power_of_2 (ival x MaxVectorSize) = true
          /\ set_and_get_current_sve_vector_length e (ival x MaxVectorSize) < 0)).
Proof.
  unfold init_compiler2. destruct COMPILER2; [ | discriminate ]. cbv zeta.
  pose proof (init_c2_intrinsics_ok x) as Fi.
  set (i := init_c2_intrinsics x) in *.
  rewrite <- (ok_iorigin _ _ _ _ Fi).
  rewrite <- !(ok_ival _ _ _ _ Fi MaxVectorSize eq_refl).
  rewrite <- !(ok_ival _ _ _ _ Fi UseSVE eq_refl).
  clearbody i. clear Fi x.
  intros H. split; [ reflexivity | ].
  destruct (init_sve_max_vector_size e i) as [v | m1 t1] eqn:Hv; cbn [bind] in H.
  - destruct (init_neon_max_vector_size v) as [w | m2 t2] eqn:Hw; cbn [bind] in H;
      [ discriminate H | ].
    injection H as -> ->.
    unfold init_neon_max_vector_size, FLAG_IS_DEFAULT_i in Hw. cbv zeta in Hw.
    destruct (Z.eqb_spec (ival v UseSVE) 0) as [Hz | Hz]; [ | discriminate Hw ].
    destruct (init_sve_max_vector_size_neon e i v Hv Hz) as [Em Eo].
    rewrite Eo, Em in Hw.
    destruct (is_default (iorigin i MaxVectorSize)); cbn [negb] in Hw;
      [ discriminate Hw | ].
    split; [ reflexivity | left ].
    destruct (is_power_of_2 (ival i MaxVectorSize)); cbn [negb] in Hw.
    + destruct (ival i MaxVectorSize <? 8); [ discriminate Hw | ].
      destruct (16 <? ival i MaxVectorSize); discriminate Hw.
    + injection Hw as <- _. auto.
  - injection H as -> ->.
    unfold init_sve_max_vector_size, FLAG_IS_DEFAULT_i in Hv. cbv zeta in Hv.
    destruct (Z.ltb_spec 0 (ival i UseSVE)) as [Hpos | Hle]; [ | discriminate Hv ].
    destruct (is_default (iorigin i MaxVectorSize)); [ discriminate Hv | ].
    split; [ reflexivity | ].
    destruct (Z.ltb_spec (ival i MaxVectorSize) 16) as [Hlt | Hge]; [ discriminate Hv | ].
    destruct (Z.eqb_spec (Z.rem (ival i MaxVectorSize) 16) 0) as [Hr | Hr];
      cbn [andb] in Hv.
    + destruct (is_power_of_2 (ival i MaxVectorSize)) eqn:Hp.
      * cbn [ival set_initial_sve_vector_length] in Hv.
        destruct (Z.ltb_spec (set_and_get_current_sve_vector_length e
                                (ival i MaxVectorSize)) 0) as [Hneg | Hnn];
          [ | discriminate Hv ].
        injection Hv as <- _. right. auto.
      * injection Hv as <- _. left. auto.
    + injection Hv as <- _. left. split; [ reflexivity | ].
      destruct (is_power_of_2 (ival i MaxVectorSize)) eqn:Hp; [ | reflexivity ].
      exfalso. apply Hr. apply power_of_2_multiple_of_16; assumption.
Qed.

(** With [MaxVectorSize] left alone lines 442-511 have no exit. *)
Lemma init_compiler2_default e x :
  COMPILER2 = false \/ is_default (iorigin x MaxVectorSize) = true ->
  completes (init_compiler2 e x) = true.
Proof.
  intros H. destruct (init_compiler2 e x) as [s2 | m st] eqn:E; [ reflexivity | ].
  destruct (init_compiler2_exits e x m st E) as [HC [Hd _]].
  destruct H; congruence.
Qed.

(** A [MaxVectorSize] that is not a power of two does not get through
    lines 462-502. *)
Lemma init_compiler2_rejects e x :
  COMPILER2 = true -> is_default (iorigin x MaxVectorSize) = false ->
  is_power_of_2 (ival x MaxVectorSize) = false -> 0 <= ival x UseSVE ->
  exists st, init_compiler2 e x
             = Fatal (unsupported_max_vector_size_msg (ival x MaxVectorSize)) st.
Proof.
  intros HC Hd Hp Hs. unfold init_compiler2. rewrite HC. cbv zeta.
  pose proof (init_c2_intrinsics_ok x) as Fi.
  set (i := init_c2_intrinsics x) in *.
  rewrite <- (ok_iorigin _ _ _ _ Fi) in Hd.
  rewrite <- (ok_ival _ _ _ _ Fi MaxVectorSize eq_refl) in Hp |- *.
  rewrite <- (ok_ival _ _ _ _ Fi UseSVE eq_refl) in Hs.
  clearbody i. clear Fi x.
  unfold init_sve_max_vector_size, FLAG_IS_DEFAULT_i. rewrite Hd, Hp.
  rewrite andb_false_r. cbv zeta.
  destruct (Z.ltb_spec 0 (ival i UseSVE)) as [Hpos | Hle].
  - destruct (Z.ltb_spec (ival i MaxVectorSize) 16) as [Hlt | Hge]; cbn [bind].
    + unfold init_neon_max_vector_size, FLAG_IS_DEFAULT_i.
      cbn [ival assign_i warning iorigin IntKnob_beq Z.eqb].
      rewrite Hd, Hp. cbn [negb bind]. eexists. reflexivity.
    + eexists. reflexivity.
  - cbn [bind]. unfold init_neon_max_vector_size, FLAG_IS_DEFAULT_i.
    assert (Ez : ival i UseSVE = 0) by lia. rewrite Ez, Hd, Hp.
    cbn [Z.eqb negb bind]. eexists. reflexivity.
Qed.

Lemma init_sve_tier_nonneg s : 0 <= ival s UseSVE -> 0 <= ival (init_sve_tier s) UseSVE.
Proof.
  intros H. unfold init_sve_tier. splits; cbn; lia.
Qed.

Lemma initialize_features_sve_nonneg e s :
  0 <= ival s UseSVE -> 0 <= ival (initialize_features e s) UseSVE.
Proof.
  intros H. rewrite initialize_features_unfold.
  rewrite (ok_ival _ _ _ _ (init_unaligned_popcount_ok _)) by reflexivity.
  set (z := init_block_zeroing e
              (init_ghash_base64 (initialize_sha (init_aes (initialize_crc_lse s))))).
  assert (Hz : ival z UseSVE = ival s UseSVE).
  { unfold z.
    rewrite (ok_ival _ _ _ _ (init_block_zeroing_ok e _)) by reflexivity.
    rewrite (ok_ival _ _ _ _ (init_ghash_base64_ok _)) by reflexivity.
    rewrite (ok_ival _ _ _ _ (initialize_sha_ok _)) by reflexivity.
    rewrite (ok_ival _ _ _ _ (init_aes_ok _)) by reflexivity.
    apply (ok_ival _ _ _ _ (initialize_crc_lse_fine s)). reflexivity. }
  pose proof (init_sve_tier_nonneg z) as Ht. rewrite Hz in Ht. specialize (Ht H).
  destruct (init_sve_length_tier e (init_sve_tier z)) as [E | E]; rewrite E; lia.
Qed.

End Exits.

Section ExitTheorems.

Context {P : Platform}.

(** The three places a run of [initialize] can end at. *)
Lemma initialize_Fatal e s m st :
  initialize e s = Fatal m st ->
  rule_thunderx e (initialize_tuning e s) = Fatal m st
  \/ (exists s1, rule_thunderx e (initialize_tuning e s) = Ok s1
        /\ init_compiler2 e (initialize_features e (initialize_vendors e s1)) = Fatal m st)
  \/ (exists s1 s2, rule_thunderx e (initialize_tuning e s) = Ok s1
        /\ init_compiler2 e (initialize_features e (initialize_vendors e s1)) = Ok s2
        /\ initialize_finish e s2 = Fatal m st).
Proof.
  rewrite initialize_run.
  destruct (rule_thunderx e (initialize_tuning e s)) as [s1 | m1 t1]; cbn [bind];
    [ | intros H; left; exact H ].
  destruct (init_compiler2 e (initialize_features e (initialize_vendors e s1)))
    as [s2 | m2 t2] eqn:E2; cbn [bind]; intros H.
  - right. right. exists s1, s2. auto.
  - right. left. exists s1. rewrite <- H. auto.
Qed.

Lemma rule_thunderx_Fatal e s m st :
  rule_thunderx e s = Fatal m st -> m = prerelease_msg /\ is_prerelease_thunderx e = true.
Proof.
  intros H. pose proof (rule_thunderx_completes e s) as Hc. rewrite H in Hc.
  cbn [completes] in Hc. split.
  - unfold rule_thunderx in H. revert H. splits; intros H; inversion H; reflexivity.
  - destruct (is_prerelease_thunderx e); [ reflexivity | discriminate Hc ].
Qed.

Lemma initialize_finish_Fatal e s m st :
  initialize_finish e s = Fatal m st -> get_spin_wait_desc s = Fatal m st.
Proof.
  unfold initialize_finish.
  destruct (get_spin_wait_desc s); cbn [bind]; cbv zeta; [ discriminate | ].
  intros H. injection H as -> ->. reflexivity.
Qed.

(** X13.  The exits of [VM_Version::initialize], all of them: a run that
    exits does so with the pre-release message on a ThunderX of variant 0;
    or, in a COMPILER2 build with [MaxVectorSize] set by the operator, with
    "Unsupported MaxVectorSize" for a value that is not a power of two, or
    with the SVE message for a power of two from 16 on that the kernel
    answers with a negative length; or with the message naming the valid
    spin-wait instructions for an [OnSpinWaitInst] outside the four names;
    or with the count message for [OnSpinWaitInst] "none" and a positive
    [OnSpinWaitInstCount] set by the operator. *)
Theorem fatal_exit_catalogue e s m st :
  initialize e s = Fatal m st ->
  (m = prerelease_msg /\ is_prerelease_thunderx e = true)
  \/ (COMPILER2 = true /\ is_default (iorigin s MaxVectorSize) = false
      /\ m = unsupported_max_vector_size_msg (ival s MaxVectorSize)
      /\ is_power_of_2 (ival s MaxVectorSize) = false)
  \/ (COMPILER2 = true /\ is_default (iorigin s MaxVectorSize) = false
      /\ m = sve_unsupported_length_msg (ival s MaxVectorSize)
      /\ 16 <= ival s MaxVectorSize /\ is_power_of_2 (ival s MaxVectorSize) = true
      /\ set_and_get_current_sve_vector_length e (ival s MaxVectorSize) < 0)
  \/ (m = spin_wait_options_msg (OnSpinWaitInst s)
      /\ valid_spin_wait_inst (OnSpinWaitInst s) = false)
  \/ (m = spin_wait_count_msg /\ OnSpinWaitInst s = "none"
      /\ is_default (iorigin s OnSpinWaitInstCount) = false
      /\ 0 < ival s OnSpinWaitInstCount).
Proof.
  intros H.
  destruct (initialize_Fatal e s m st H) as [Hx | [[s1 [H1 H2]] | [s1 [s2 [H1 [H2 H3]]]]]].
  - left. exact (rule_thunderx_Fatal _ _ _ _ Hx).
  - pose proof (line_442_ok e s s1 H1) as Fx.
    destruct (init_compiler2_exits e _ m st H2) as [HC [Hd Hm]].
    rewrite (ok_iorigin _ _ _ _ Fx) in Hd.
    rewrite !(ok_ival _ _ _ _ Fx MaxVectorSize eq_refl) in Hm.
    destruct Hm as [[Hm Hp] | [Hm [_ [Hge [Hp Hneg]]]]].
    + right. left. auto.
    + right. right. left. repeat split; assumption.
  - destruct (spin_inputs_at_513 e s s1 s2 H1 H2) as [I1 [I2 I3]].
    apply initialize_finish_Fatal in H3.
    destruct (get_spin_wait_desc_cases s2)
      as [[Hv Hx] | [[Hn [Hd [Hc Hx]]] | [_ [_ Hx]]]];
      rewrite Hx in H3; [ | | discriminate H3 ].
    + injection H3 as <- _. right. right. right. left.
      rewrite I1 in Hv |- *. unfold spin_wait_inst_at_513 in *.
      destruct ((is_neoverse e || is_ampere1 e) && is_default (OnSpinWaitInst_origin s));
        [ discriminate Hv | auto ].
    + injection H3 as <- _. right. right. right. right.
      rewrite I3 in Hd. rewrite I1 in Hn. rewrite I2 in Hc.
      unfold spin_wait_inst_at_513 in Hn. unfold spin_wait_count_at_513 in Hc.
      rewrite Hd in Hc.
      destruct ((is_neoverse e || is_ampere1 e) && is_default (OnSpinWaitInst_origin s));
        [ discriminate Hn | auto ].
Qed.

(** X14.  A run returns whenever the machine is not a ThunderX of
    variant 0, [MaxVectorSize] is left at its default (or the build has no
    COMPILER2), [OnSpinWaitInst] holds one of the four valid names and
    [OnSpinWaitInstCount] is left at its default: no boolean flag, no
    feature bit and no file content can make [VM_Version::initialize]
    exit. *)
Theorem defaults_never_abort e s :
  is_prerelease_thunderx e = false ->
  COMPILER2 = false \/ iorigin s MaxVectorSize = DEFAULT ->
  valid_spin_wait_inst (OnSpinWaitInst s) = true ->
  iorigin s OnSpinWaitInstCount = DEFAULT ->
  completes (initialize e s) = true.
Proof.
  intros Hpre Hm Hv Hc.
  destruct (initialize e s) as [s' | m st] eqn:H; [ reflexivity | exfalso ].
  destruct (initialize_Fatal e s m st H) as [Hx | [[s1 [H1 H2]] | [s1 [s2 [H1 [H2 H3]]]]]].
  - destruct (rule_thunderx_Fatal _ _ _ _ Hx) as [_ Hp]. congruence.
  - pose proof (line_442_ok e s s1 H1) as Fx.
    destruct (init_compiler2_exits e _ m st H2) as [HC [Hd _]].
    rewrite (ok_iorigin _ _ _ _ Fx) in Hd.
    destruct Hm as [Hm | Hm]; [ congruence | ].
    rewrite Hm in Hd. discriminate Hd.
  - destruct (spin_inputs_at_513 e s s1 s2 H1 H2) as [I1 [I2 I3]].
    apply initialize_finish_Fatal in H3.
    destruct (get_spin_wait_desc_cases s2)
      as [[Hb Hx] | [[Hn [Hd [_ Hx]]] | [_ [_ Hx]]]];
      rewrite Hx in H3; [ | | discriminate H3 ].
    + rewrite I1 in Hb. unfold spin_wait_inst_at_513 in Hb.
      destruct ((is_neoverse e || is_ampere1 e) && is_default (OnSpinWaitInst_origin s));
        [ discriminate Hb | congruence ].
    + rewrite I3, Hc in Hd. discriminate Hd.
Qed.

End ExitTheorems.

(** ** X15: when a run returns *)

Section Criterion.

Context {P : Platform}.

Lemma completes_init_compiler2 e x :
  completes (init_compiler2 e x)
  = (if COMPILER2 then
       is_default (iorigin x MaxVectorSize)
       || (let m := ival x MaxVectorSize in
           if 0 <? ival x UseSVE then
             if m <? 16 then is_power_of_2 m
             else (Z.rem m 16 =? 0) && is_power_of_2 m
                  && negb (set_and_get_current_sve_vector_length e m <? 0)
           else if ival x UseSVE =? 0 then is_power_of_2 m else true)
     else true).
Proof.
  unfold init_compiler2. destruct COMPILER2; [ | reflexivity ]. cbv zeta.
  pose proof (init_c2_intrinsics_ok x) as Fi.
  set (i := init_c2_intrinsics x) in *.
  rewrite <- (ok_iorigin _ _ _ _ Fi).
  rewrite <- !(ok_ival _ _ _ _ Fi MaxVectorSize eq_refl).
  rewrite <- !(ok_ival _ _ _ _ Fi UseSVE eq_refl).
  clearbody i. clear Fi x.
  unfold init_sve_max_vector_size, init_neon_max_vector_size, FLAG_IS_DEFAULT_i,
    FLAG_SET_DEFAULT_i.
  cbv zeta.
  repeat (cbn [bind completes ival iorigin assign_i warning set_initial_sve_vector_length
               IntKnob_beq Z.eqb negb andb orb];
          try split_if).
  all: cbn [bind completes negb andb orb].
  all: try reflexivity.
  all: rewrite ?Z.ltb_lt, ?Z.ltb_ge, ?Z.eqb_eq, ?Z.eqb_neq, ?andb_true_iff, ?andb_false_iff,
         ?negb_true_iff, ?negb_false_iff in *.
  all: try lia.
  all: try congruence.
  all: repeat match goal with H : ?b = _ |- context [?b] => rewrite H end.
  all: reflexivity.
Qed.

Lemma features_at_line_243 e s s1 :
  rule_thunderx e (initialize_tuning e s) = Ok s1 ->
  _features (initialize_vendors e s1) = features_at_243 e.
Proof.
  intros H1. rewrite initialize_vendors_features.
  pose proof (rule_thunderx_fields e (initialize_tuning e s)) as Fx.
  rewrite H1 in Fx. cbn [state_of] in Fx.
  rewrite (fk_features _ _ _ Fx) by reflexivity.
  rewrite initialize_tuning_features. reflexivity.
Qed.

Lemma init_sve_tier_unfold s :
  ival (init_sve_tier s) UseSVE
  = (if has_feature CPU_SVE s then
       if is_default (iorigin s UseSVE)
       then (if has_feature CPU_SVE2 s then 2 else 1) else ival s UseSVE
     else if 0 <? ival s UseSVE then 0 else ival s UseSVE).
Proof. unfold init_sve_tier, FLAG_IS_DEFAULT_i. splits; reflexivity. Qed.

Lemma init_sve_length_unfold e s :
  ival (init_sve_length e s) UseSVE
  = (if 0 <? ival s UseSVE then
       let vl := get_current_sve_vector_length e in
       if vl <? 0 then 0
       else if (vl =? 0) || nonzero (Z.rem vl sve_vl_min) || negb (is_power_of_2 vl) then 0
       else ival s UseSVE
     else ival s UseSVE).
Proof. unfold init_sve_length. cbv zeta. splits; reflexivity. Qed.

Lemma sve_tier_at_line_442 e s s1 :
  rule_thunderx e (initialize_tuning e s) = Ok s1 ->
  ival (initialize_features e (initialize_vendors e s1)) UseSVE = sve_tier_at_442 e s.
Proof.
  intros H1. rewrite initialize_features_unfold.
  pose proof (features_at_line_243 e s s1 H1) as Hf.
  pose proof (line_243_ok e s s1 H1) as Fv.
  set (sv := initialize_vendors e s1) in *.
  set (z := init_block_zeroing e
              (init_ghash_base64 (initialize_sha (init_aes (initialize_crc_lse sv))))).
  assert (Fz : step_ok ([UseCRC32; UseAdler32Intrinsics; UseVectorizedMismatchIntrinsic;
                         UseLSE]
                          ++ [UseAES; UseAESIntrinsics; UseAESCTRIntrinsics]
                          ++ sha_bool_knobs
                          ++ [UseGHASHIntrinsics; UseBASE64Intrinsics]
                          ++ [UseBlockZeroing])
                       ([] ++ [] ++ [] ++ [] ++ [BlockZeroingLowLimit]) sv z).
  { eapply step_trans; [ apply initialize_crc_lse_fine | ].
    eapply step_trans; [ apply init_aes_ok | ].
    eapply step_trans; [ apply initialize_sha_ok | ].
    eapply step_trans; [ apply init_ghash_base64_ok | apply init_block_zeroing_ok ]. }
  assert (Gz : _features z = features_at_243 e).
  { unfold z.
    rewrite (fk_features _ _ _ (init_block_zeroing_fields e _)) by reflexivity.
    rewrite (fk_features _ _ _ (init_ghash_base64_fields _)) by reflexivity.
    rewrite (fk_features _ _ _ (initialize_sha_fields _)) by reflexivity.
    rewrite (fk_features _ _ _ (init_aes_fields _)) by reflexivity.
    rewrite (fk_features _ _ _ (initialize_crc_lse_fields sv)) by reflexivity.
    exact Hf. }
  rewrite (ok_ival _ _ _ _ (init_unaligned_popcount_ok _)) by reflexivity.
  rewrite init_sve_length_unfold, init_sve_tier_unfold.
  unfold has_feature. rewrite Gz.
  rewrite (ok_iorigin _ _ _ _ Fz), (ok_iorigin _ _ _ _ Fv).
  rewrite (ok_ival _ _ _ _ Fz) by reflexivity.
  rewrite (ok_ival _ _ _ _ Fv) by reflexivity.
  reflexivity.
Qed.

Lemma completes_get_spin_wait_desc s :
  completes (get_spin_wait_desc s)
  = valid_spin_wait_inst (OnSpinWaitInst s)
    && negb (String.eqb (OnSpinWaitInst s) "none"
             && negb (is_default (iorigin s OnSpinWaitInstCount))
             && (0 <? ival s OnSpinWaitInstCount)).
Proof.
  unfold get_spin_wait_desc, valid_spin_wait_inst, FLAG_IS_DEFAULT_i.
  destruct (String.eqb_spec (OnSpinWaitInst s) "nop") as [E1 | E1].
  { rewrite E1. reflexivity. }
  destruct (String.eqb_spec (OnSpinWaitInst s) "isb") as [E2 | E2].
  { rewrite E2. reflexivity. }
  destruct (String.eqb_spec (OnSpinWaitInst s) "yield") as [E3 | E3].
  { rewrite E3. reflexivity. }
  destruct (String.eqb (OnSpinWaitInst s) "none"); cbn [negb orb andb]; [ | reflexivity ].
  destruct (negb (is_default (iorigin s OnSpinWaitInstCount))
            && (0 <? ival s OnSpinWaitInstCount)); reflexivity.
Qed.

Lemma completes_initialize_finish e s :
  completes (initialize_finish e s) = completes (get_spin_wait_desc s).
Proof.
  unfold initialize_finish. destruct (get_spin_wait_desc s); reflexivity.
Qed.

(** X15.  Whether [VM_Version::initialize] returns, computed from the
    machine and the flags it starts with: the machine is not a pre-release
    ThunderX, lines 462-502 accept [MaxVectorSize]
    ([max_vector_size_accepted]) and [get_spin_wait_desc] accepts the
    spin-wait flags ([spin_wait_accepted]). *)
Theorem completion_criterion e s :
  completes (initialize e s)
  = negb (is_prerelease_thunderx e)
    && max_vector_size_accepted e s && spin_wait_accepted e s.
Proof.
  rewrite initialize_run.
  pose proof (rule_thunderx_completes e (initialize_tuning e s)) as Hx.
  destruct (rule_thunderx e (initialize_tuning e s)) as [s1 | m1 t1] eqn:H1;
    cbn [bind completes] in *; rewrite <- Hx; [ | reflexivity ].
  cbn [andb].
  pose proof (completes_init_compiler2 e (initialize_features e (initialize_vendors e s1)))
    as Hc.
  pose proof (line_442_ok e s s1 H1) as Fx.
  rewrite (sve_tier_at_line_442 e s s1 H1) in Hc.
  rewrite (ok_iorigin _ _ _ _ Fx) in Hc.
  rewrite !(ok_ival _ _ _ _ Fx MaxVectorSize eq_refl) in Hc.
  change (completes (init_compiler2 e (initialize_features e (initialize_vendors e s1)))
          = max_vector_size_accepted e s) in Hc.
  destruct (init_compiler2 e (initialize_features e (initialize_vendors e s1)))
    as [s2 | m2 t2] eqn:H2; cbn [bind completes] in *; rewrite <- Hc; [ | reflexivity ].
  cbn [andb].
  destruct (spin_inputs_at_513 e s s1 s2 H1 H2) as [I1 [I2 I3]].
  rewrite completes_initialize_finish, completes_get_spin_wait_desc.
  rewrite I1, I3. unfold spin_wait_accepted. cbv zeta.
  destruct (valid_spin_wait_inst (spin_wait_inst_at_513 e s)); cbn [andb];
    [ | reflexivity ].
  destruct (String.eqb (spin_wait_inst_at_513 e s) "none"); cbn [andb]; [ | reflexivity ].
  destruct (is_default (iorigin s OnSpinWaitInstCount)) eqn:Hd; cbn [negb andb];
    [ reflexivity | ].
  rewrite I2. unfold spin_wait_count_at_513. rewrite Hd. reflexivity.
Qed.

End Criterion.

(** ** X16 and X17: the virtualization probe and its printer *)

(** *** Searching a line *)

Lemma case_prefix_spec (p t : string) :
  case_prefix p t = true <-> exists mid post, t = mid ++ post /\ lower mid = lower p.
Proof.
  revert t. induction p as [| a p IH]; intros t; cbn [case_prefix].
  - split; [ intros _ | reflexivity ]. exists "", t. split; reflexivity.
  - destruct t as [| b t].
    + split; [ discriminate | ]. intros [mid [post [E L]]].
      destruct mid; cbn in *; discriminate.
    + rewrite andb_true_iff, Ascii.eqb_eq, IH. split.
      * intros [Hc [mid [post [E L]]]]. exists (String b mid), post.
        cbn. rewrite E, L, Hc. split; reflexivity.
      * intros [mid [post [E L]]]. destruct mid as [| c mid]; [ discriminate L | ].
        cbn in E, L. injection E as -> ->. injection L as Hc L.
        split; [ symmetry; exact Hc | ]. exists mid, post. split; [ reflexivity | exact L ].
Qed.

Lemma strcasestr_spec (haystack needle : string) :
  strcasestr haystack needle = true <-> contains_nocase haystack needle.
Proof.
  unfold contains_nocase. induction haystack as [| c h IH].
  - cbn [strcasestr]. rewrite orb_false_r, case_prefix_spec. split.
    + intros [mid [post [E L]]]. exists "", mid, post. auto.
    + intros [pre [mid [post [E L]]]]. destruct pre; [ | discriminate E ].
      exists mid, post. auto.
  - cbn [strcasestr]. rewrite orb_true_iff, case_prefix_spec, IH. split.
    + intros [[mid [post [E L]]] | [pre [mid [post [E L]]]]].
      * exists "", mid, post. auto.
      * exists (String c pre), mid, post. cbn. rewrite E. auto.
    + intros [pre [mid [post [E L]]]]. destruct pre as [| c' pre].
      * left. exists mid, post. auto.
      * right. cbn in E. injection E as -> ->. exists pre, mid, post. auto.
Qed.

(** *** check_info_file, lines 521-543 *)

Section InfoFile.

Context {P : Platform}.

Lemma line_matches_spec virt1 virt2 line :
  line_matches virt1 virt2 line = true
  <-> contains_nocase line virt1
      \/ exists v2, virt2 = Some v2 /\ contains_nocase line v2.
Proof.
  unfold line_matches. rewrite orb_true_iff, strcasestr_spec.
  destruct virt2 as [v2 |].
  - rewrite strcasestr_spec. split.
    + intros [H | H]; [ left; exact H | right; exists v2; auto ].
    + intros [H | [v [E H]]]; [ left; exact H | ]. injection E as ->. right. exact H.
  - split.
    + intros [H | H]; [ left; exact H | discriminate H ].
    + intros [H | [v [E H]]]; [ left; exact H | discriminate E ].
Qed.

(** X16.  [check_info_file] returns true exactly when the file opens and
    one of its lines contains [virt1], or [virt2] when it is given, letter
    case ignored.  It opens that one file.  When it returns false the
    recorded verdict is unchanged; when it returns true the verdict is
    [vt1] or [vt2]. *)
Theorem check_info_file_finds e fpath virt1 vt1 virt2 vt2 s :
  let found := fst (check_info_file e fpath virt1 vt1 virt2 vt2 s) in
  let s' := snd (check_info_file e fpath virt1 vt1 virt2 vt2 s) in
  (found = true
   <-> exists lines, fopen_lines e fpath = Some lines
         /\ exists line, In line lines
              /\ (contains_nocase line virt1
                  \/ exists v2, virt2 = Some v2 /\ contains_nocase line v2))
  /\ opened s' = (opened s ++ [fpath])%list
  /\ (found = false -> _detected_virtualization s' = _detected_virtualization s)
  /\ (found = true ->
      _detected_virtualization s' = vt1 \/ _detected_virtualization s' = vt2).
Proof.
  cbv zeta. unfold check_info_file. cbv zeta.
  destruct (fopen_lines e fpath) as [lines |].
  2:{ cbn [fst snd]. repeat split; try discriminate; try reflexivity.
      intros [lines [E _]]. discriminate E. }
  destruct (existsb (line_matches virt1 virt2) lines) eqn:Hex.
  - destruct (scan_info_lines_first virt1 vt1 virt2 vt2 lines (note_fopen fpath s) Hex)
      as [before [line [after [E [Hb [Hm Hs]]]]]].
    rewrite Hs. cbn [fst snd]. repeat split; try discriminate; try reflexivity.
    + intros _. exists lines. split; [ reflexivity | ]. exists line. split.
      * rewrite E. apply in_or_app. right. left. reflexivity.
      * apply line_matches_spec, Hm.
    + intros _. cbn. destruct (strcasestr line virt1); auto.
  - rewrite (scan_info_lines_none _ _ _ _ _ _ Hex). cbn [fst snd].
    repeat split; try discriminate; try reflexivity.
    intros [lines' [E [line [Hin Hc]]]]. injection E as <-.
    apply line_matches_spec in Hc.
    assert (Ht : existsb (line_matches virt1 virt2) lines = true).
    { apply existsb_exists. exists line. auto. }
    congruence.
Qed.

End InfoFile.

(** *** print_platform_virtualization_info, lines 557-568 *)

Section PrintVirtualization.

Context {P : Platform}.

Lemma print_platform_virtualization_info_line s st :
  print_platform_virtualization_info s st
  = (if LINUX then
       match virtualization_line (_detected_virtualization s) with
       | Some line => st ++ [line]
       | None => st
       end
     else st)%list.
Proof.
  unfold print_platform_virtualization_info, get_detected_virtualization.
  destruct LINUX; [ | reflexivity ].
  cbv zeta. destruct (_detected_virtualization s); reflexivity.
Qed.

End PrintVirtualization.

Section Report.

Context {P : Platform}.

Lemma scan_info_lines_verdict virt1 vt1 virt2 vt2 lines s :
  scan_info_lines virt1 vt1 virt2 vt2 lines s
  = match scan_verdict virt1 vt1 virt2 vt2 lines with
    | Some v => (true, set_detected_virtualization v s)
    | None => (false, s)
    end.
Proof.
  induction lines as [| line rest IH]; cbn [scan_info_lines scan_verdict].
  - reflexivity.
  - destruct (strcasestr line virt1); [ reflexivity | ].
    destruct (match virt2 with Some v2 => strcasestr line v2 | None => false end);
      [ reflexivity | exact IH ].
Qed.

Lemma check_virtualizations_verdict e s :
  LINUX = true ->
  _detected_virtualization (check_virtualizations e s)
  = match file_verdict e pname_file "KVM" KVM (Some "VMWare") VMWare with
    | Some v => v
    | None =>
        match file_verdict e tname_file "Xen" XenPVHVM None NoDetectedVirtualization with
        | Some v => v
        | None => _detected_virtualization s
        end
    end.
Proof.
  intros HL. unfold check_virtualizations, check_info_file, file_verdict. rewrite HL.
  cbv zeta.
  destruct (fopen_lines e pname_file) as [lines |].
  - rewrite scan_info_lines_verdict.
    destruct (scan_verdict "KVM" KVM (Some "VMWare") VMWare lines); [ reflexivity | ].
    destruct (fopen_lines e tname_file) as [lines2 |]; [ | reflexivity ].
    rewrite scan_info_lines_verdict.
    destruct (scan_verdict "Xen" XenPVHVM None NoDetectedVirtualization lines2);
      reflexivity.
  - destruct (fopen_lines e tname_file) as [lines2 |]; [ | reflexivity ].
    rewrite scan_info_lines_verdict.
    destruct (scan_verdict "Xen" XenPVHVM None NoDetectedVirtualization lines2);
      reflexivity.
Qed.

Lemma scan_verdict_some virt1 vt1 virt2 vt2 lines v :
  scan_verdict virt1 vt1 virt2 vt2 lines = Some v ->
  (v = vt1 /\ exists line, In line lines /\ contains_nocase line virt1)
  \/ (v = vt2 /\ exists line v2, In line lines /\ virt2 = Some v2
                                 /\ contains_nocase line v2).
Proof.
  induction lines as [| line rest IH]; cbn [scan_verdict]; [ discriminate | ].
  destruct (strcasestr line virt1) eqn:H1.
  { intros E. injection E as <-. left. split; [ reflexivity | ].
    exists line. split; [ left; reflexivity | apply strcasestr_spec, H1 ]. }
  destruct virt2 as [v2 |].
  - destruct (strcasestr line v2) eqn:H2.
    + intros E. injection E as <-. right. split; [ reflexivity | ].
      exists line, v2. split; [ left; reflexivity | ].
      split; [ reflexivity | apply strcasestr_spec, H2 ].
    + intros E. destruct (IH E) as [[Ev [l [Hin Hc]]] | [Ev [l [w [Hin [Ew Hc]]]]]].
      * left. split; [ exact Ev | ]. exists l. split; [ right; exact Hin | exact Hc ].
      * right. split; [ exact Ev | ]. exists l, w. split; [ right; exact Hin | auto ].
  - intros E. destruct (IH E) as [[Ev [l [Hin Hc]]] | [Ev [l [w [Hin [Ew Hc]]]]]].
    + left. split; [ exact Ev | ]. exists l. split; [ right; exact Hin | exact Hc ].
    + discriminate Ew.
Qed.

Lemma scan_verdict_none virt1 vt1 virt2 vt2 lines :
  scan_verdict virt1 vt1 virt2 vt2 lines = None <->
  forall line, In line lines ->
    ~ contains_nocase line virt1
    /\ forall v2, virt2 = Some v2 -> ~ contains_nocase line v2.
Proof.
  induction lines as [| line rest IH]; cbn [scan_verdict].
  - split; [ intros _ l [] | reflexivity ].
  - destruct (strcasestr line virt1) eqn:H1.
    { split; [ discriminate | ]. intros H. exfalso.
      apply (proj1 (H line (or_introl eq_refl))). apply strcasestr_spec, H1. }
    destruct (match virt2 with Some v2 => strcasestr line v2 | None => false end) eqn:H2.
    { split; [ discriminate | ]. intros H. exfalso.
      destruct virt2 as [v2 |]; [ | discriminate H2 ].
      apply (proj2 (H line (or_introl eq_refl)) v2 eq_refl). apply strcasestr_spec, H2. }
    rewrite IH. split.
    + intros H l [<- | Hin]; [ | apply H, Hin ]. split.
      * intros Hc. apply strcasestr_spec in Hc. congruence.
      * intros v2 -> Hc. apply strcasestr_spec in Hc. congruence.
    + intros H l Hin. apply H. right. exact Hin.
Qed.

Lemma file_verdict_hit e fpath virt1 vt1 virt2 vt2 :
  (exists lines line, fopen_lines e fpath = Some lines /\ In line lines
     /\ (contains_nocase line virt1
         \/ exists v2, virt2 = Some v2 /\ contains_nocase line v2))
  <-> exists v, file_verdict e fpath virt1 vt1 virt2 vt2 = Some v.
Proof.
  unfold file_verdict. split.
  - intros [lines [line [E [Hin Hc]]]]. rewrite E.
    destruct (scan_verdict virt1 vt1 virt2 vt2 lines) as [v |] eqn:Hs;
      [ exists v; reflexivity | exfalso ].
    destruct (proj1 (scan_verdict_none _ _ _ _ _) Hs line Hin) as [N1 N2].
    destruct Hc as [Hc | [v2 [Ev Hc]]]; [ exact (N1 Hc) | exact (N2 v2 Ev Hc) ].
  - intros [v Hv]. destruct (fopen_lines e fpath) as [lines |]; [ | discriminate Hv ].
    exists lines.
    destruct (scan_verdict_some _ _ _ _ _ _ Hv)
      as [[_ [line [Hin Hc]]] | [_ [line [v2 [Hin [Ev Hc]]]]]].
    + exists line. auto.
    + exists line. split; [ reflexivity | split; [ exact Hin | ] ].
      right. exists v2. auto.
Qed.

(** X17.  What [print_platform_virtualization_info] prints after
    [check_virtualizations], on Linux: the KVM or the VMWare line when a
    line of the product-name file contains "KVM" or "VMWare" (letter case
    ignored); otherwise the Xen line when a line of the hypervisor-type
    file contains "Xen"; otherwise what it would have printed before the
    probe, which is nothing when no virtualization was recorded. *)
Theorem virtualization_report e s st :
  LINUX = true ->
  let out := print_platform_virtualization_info (check_virtualizations e s) st in
  let product_hit :=
    exists lines line, fopen_lines e pname_file = Some lines /\ In line lines
      /\ (contains_nocase line "KVM" \/ contains_nocase line "VMWare") in
  let type_hit :=
    exists lines line, fopen_lines e tname_file = Some lines /\ In line lines
      /\ contains_nocase line "Xen" in
  (product_hit ->
   out = (st ++ ["KVM virtualization detected"])%list
   \/ out = (st ++ ["VMWare virtualization detected"])%list)
  /\ (~ product_hit -> type_hit -> out = (st ++ ["Xen virtualization detected"])%list)
  /\ (~ product_hit -> ~ type_hit -> out = print_platform_virtualization_info s st)
  /\ (~ product_hit -> ~ type_hit ->
      _detected_virtualization s = NoDetectedVirtualization -> out = st).
Proof.
  intros HL. cbv zeta.
  rewrite !print_platform_virtualization_info_line, HL.
  rewrite (check_virtualizations_verdict e s HL).
  pose proof (file_verdict_hit e pname_file "KVM" KVM (Some "VMWare") VMWare) as Hp.
  pose proof (file_verdict_hit e tname_file "Xen" XenPVHVM None NoDetectedVirtualization)
    as Ht.
  assert (Hp' : (exists lines line, fopen_lines e pname_file = Some lines /\ In line lines
                   /\ (contains_nocase line "KVM" \/ contains_nocase line "VMWare"))
                <-> exists v, file_verdict e pname_file "KVM" KVM (Some "VMWare") VMWare
                              = Some v).
  { rewrite <- Hp. split.
    - intros [lines [line [E [Hin [Hc | Hc]]]]]; exists lines, line;
        (split; [ exact E | split; [ exact Hin | ] ]);
        [ left; exact Hc | right; exists "VMWare"; auto ].
    - intros [lines [line [E [Hin [Hc | [v2 [Ev Hc]]]]]]]; exists lines, line;
        (split; [ exact E | split; [ exact Hin | ] ]);
        [ left; exact Hc | right; injection Ev as <-; exact Hc ]. }
  assert (Ht' : (exists lines line, fopen_lines e tname_file = Some lines /\ In line lines
                   /\ contains_nocase line "Xen")
                <-> exists v, file_verdict e tname_file "Xen" XenPVHVM None
                                NoDetectedVirtualization = Some v).
  { rewrite <- Ht. split.
    - intros [lines [line [E [Hin Hc]]]]. exists lines, line. auto.
    - intros [lines [line [E [Hin [Hc | [v2 [Ev _]]]]]]]; [ | discriminate Ev ].
      exists lines, line. auto. }
  rewrite Hp', Ht'. clear Hp Ht Hp' Ht'.
  assert (Vp : forall v, file_verdict e pname_file "KVM" KVM (Some "VMWare") VMWare = Some v ->
                         v = KVM \/ v = VMWare).
  { intros v Hv. unfold file_verdict in Hv.
    destruct (fopen_lines e pname_file); [ | discriminate Hv ].
    destruct (scan_verdict_some _ _ _ _ _ _ Hv) as [[E _] | [E _]]; auto. }
  assert (Vt : forall v, file_verdict e tname_file "Xen" XenPVHVM None
                           NoDetectedVirtualization = Some v -> v = XenPVHVM).
  { intros v Hv. unfold file_verdict in Hv.
    destruct (fopen_lines e tname_file); [ | discriminate Hv ].
    destruct (scan_verdict_some _ _ _ _ _ _ Hv) as [[E _] | [_ [ln [v2 [_ [E _]]]]]];
      [ exact E | discriminate E ]. }
  destruct (file_verdict e pname_file "KVM" KVM (Some "VMWare") VMWare) as [v |].
  - destruct (Vp v eq_refl) as [-> | ->].
    + split; [ left; reflexivity | ].
      repeat split; intros Hn; exfalso; apply Hn; exists KVM; reflexivity.
    + split; [ right; reflexivity | ].
      repeat split; intros Hn; exfalso; apply Hn; exists VMWare; reflexivity.
  - split; [ intros [v Hv]; discriminate Hv | ].
    destruct (file_verdict e tname_file "Xen" XenPVHVM None NoDetectedVirtualization)
      as [v |].
    + rewrite (Vt v eq_refl).
      split; [ reflexivity | ].
      split; intros _ Hn; exfalso; apply Hn; exists XenPVHVM; reflexivity.
    + split; [ intros _ [v Hv]; discriminate Hv | ].
      split; [ reflexivity | ]. intros _ _ ->. reflexivity.
Qed.

End Report.

(** ** X18: defaults that follow the hardware *)

Section HardwareDefaults.

Context {P : Platform}.

Lemma init_crc32_follow s :
  is_default (borigin s UseCRC32) = true ->
  bval (init_crc32 s) UseCRC32 = has_feature CPU_CRC32 s.
Proof. unfold init_crc32. block_cases s. Qed.

Lemma init_lse_follow s :
  is_default (borigin s UseLSE) = true ->
  bval (init_lse s) UseLSE = has_feature CPU_LSE s.
Proof. unfold init_lse. block_cases s. Qed.

Lemma init_aes_follow s :
  let s' := init_aes s in
  (is_default (borigin s UseAES) = true -> bval s' UseAES = has_feature CPU_AES s)
  /\ (is_default (borigin s UseAES) = true ->
      is_default (borigin s UseAESIntrinsics) = true ->
      bval s' UseAESIntrinsics = has_feature CPU_AES s)
  /\ (is_default (borigin s UseAESCTRIntrinsics) = true ->
      bval s' UseAESCTRIntrinsics = has_feature CPU_AES s).
Proof. unfold init_aes. block_cases s. Qed.

Lemma init_crc32_intrinsics_follow s :
  is_default (borigin s UseCRC32CIntrinsics) = true ->
  bval (init_crc32_intrinsics s) UseCRC32CIntrinsics = has_feature CPU_CRC32 s.
Proof. unfold init_crc32_intrinsics. block_cases s. Qed.

Lemma init_ghash_base64_follow s :
  is_default (borigin s UseGHASHIntrinsics) = true ->
  bval (init_ghash_base64 s) UseGHASHIntrinsics = has_feature CPU_PMULL s.
Proof. unfold init_ghash_base64. block_cases s. Qed.

Lemma init_block_zeroing_follow e s :
  let s' := init_block_zeroing e s in
  (is_default (borigin s UseBlockZeroing) = true ->
   bval s' UseBlockZeroing = is_zva_enabled e)
  /\ ival s' BlockZeroingLowLimit
     = (if is_zva_enabled e && is_default (iorigin s BlockZeroingLowLimit)
        then 4 * _zva_length e else ival s BlockZeroingLowLimit).
Proof.
  cbv zeta. unfold init_block_zeroing, FLAG_IS_DEFAULT, FLAG_IS_DEFAULT_i.
  destruct (is_zva_enabled e); cbn [andb]; cbv zeta.
  - destruct (is_default (borigin s UseBlockZeroing)) eqn:Hd;
      destruct (is_default (iorigin s BlockZeroingLowLimit)) eqn:Hi; cbn;
      try rewrite Hi; cbn; split; try reflexivity; discriminate.
  - destruct (bval s UseBlockZeroing) eqn:Hb; cbn; split; auto.
Qed.

(** X18.  Flags left at their defaults follow the hardware: after a run
    that returns, [UseCRC32] and [UseCRC32CIntrinsics] equal the CRC32 bit,
    [UseLSE] the LSE bit, [UseAES], [UseAESIntrinsics] (with [UseAES] also
    at its default) and [UseAESCTRIntrinsics] the AES bit,
    [UseGHASHIntrinsics] the PMULL bit, and [UseBlockZeroing] is on exactly
    when DC ZVA is enabled.  [BlockZeroingLowLimit] left at its default is
    four ZVA blocks when DC ZVA is enabled; otherwise it keeps its value. *)
Theorem hardware_following_defaults e s s' :
  initialize e s = Ok s' ->
  (borigin s UseCRC32 = DEFAULT -> bval s' UseCRC32 = has_feature CPU_CRC32 s')
  /\ (borigin s UseLSE = DEFAULT -> bval s' UseLSE = has_feature CPU_LSE s')
  /\ (borigin s UseAES = DEFAULT -> bval s' UseAES = has_feature CPU_AES s')
  /\ (borigin s UseAES = DEFAULT -> borigin s UseAESIntrinsics = DEFAULT ->
      bval s' UseAESIntrinsics = has_feature CPU_AES s')
  /\ (borigin s UseAESCTRIntrinsics = DEFAULT ->
      bval s' UseAESCTRIntrinsics = has_feature CPU_AES s')
  /\ (borigin s UseCRC32CIntrinsics = DEFAULT ->
      bval s' UseCRC32CIntrinsics = has_feature CPU_CRC32 s')
  /\ (borigin s UseGHASHIntrinsics = DEFAULT ->
      bval s' UseGHASHIntrinsics = has_feature CPU_PMULL s')
  /\ (borigin s UseBlockZeroing = DEFAULT -> bval s' UseBlockZeroing = is_zva_enabled e)
  /\ ival s' BlockZeroingLowLimit
     = (if is_zva_enabled e && is_default (iorigin s BlockZeroingLowLimit)
        then 4 * _zva_length e else ival s BlockZeroingLowLimit).
Proof.
  intros H. destruct (initialize_Ok e s s' H) as [s1 [s2 [H1 [H2 H3]]]].
  pose proof (line_243_ok e s s1 H1) as Fv.
  set (sv := initialize_vendors e s1) in *.
  pose proof (final_features e sv s2 s' H2 H3) as Hf.
  assert (hf : forall y m, _features y = _features sv ->
                           has_feature m s' = has_feature m y).
  { intros y m Hy. apply has_feature_same. congruence. }
  pose proof (fun k => final_after_popcount e _ s2 s' k H2 H3) as Hb.
  pose proof (fun k => final_after_popcount_i e _ s2 s' k H2 H3) as Hi.
  assert (Ex : initialize_features e sv
               = initialize_rest e (initialize_sha (init_aes (init_lse (init_crc32 sv)))))
    by reflexivity.
  rewrite Ex in Hb, Hi. clear Ex.
  pose proof (init_crc32_ok sv) as Fc.
  set (c0 := init_crc32 sv) in *.
  pose proof (init_lse_ok c0) as Fl.
  set (a := init_lse c0) in *.
  pose proof (init_aes_ok a) as Fa.
  set (b := init_aes a) in *.
  pose proof (initialize_sha_ok b) as Fs.
  set (c := initialize_sha b) in *.
  pose proof (initialize_rest_ok e c) as Fr.
  assert (Hc0 : _features c0 = _features sv)
    by (apply (fk_features _ _ _ (init_crc32_fields sv)); reflexivity).
  assert (Ha : _features a = _features sv).
  { unfold a. rewrite (fk_features _ _ _ (init_lse_fields c0)) by reflexivity. exact Hc0. }
  assert (Hfb : _features b = _features sv).
  { unfold b. rewrite (fk_features _ _ _ (init_aes_fields a)) by reflexivity. exact Ha. }
  assert (Hfc : _features c = _features sv).
  { unfold c. rewrite (fk_features _ _ _ (initialize_sha_fields b)) by reflexivity.
    exact Hfb. }
  assert (Oa : borigin a = borigin s).
  { rewrite (ok_borigin _ _ _ _ Fl), (ok_borigin _ _ _ _ Fc).
    apply (ok_borigin _ _ _ _ Fv). }
  assert (Ob : borigin b = borigin s).
  { rewrite (ok_borigin _ _ _ _ Fa). exact Oa. }
  assert (Oc : borigin c = borigin s).
  { rewrite (ok_borigin _ _ _ _ Fs). exact Ob. }
  destruct (init_aes_follow a) as [A1 [A2 A3]]. fold b in A1, A2, A3.
  rewrite Oa in A1, A2, A3.
  split; [ | split; [ | split; [ | split; [ | split; [ | split; [ | split; [ | split ]]]]]]].
  - intros Hd. apply default_origin in Hd.
    rewrite Hb by reflexivity. skip_b Fr. skip_b Fs. skip_b Fa. skip_b Fl.
    rewrite (hf sv) by reflexivity. apply init_crc32_follow.
    rewrite (ok_borigin _ _ _ _ Fv). exact Hd.
  - intros Hd. apply default_origin in Hd.
    rewrite Hb by reflexivity. skip_b Fr. skip_b Fs. skip_b Fa.
    rewrite (hf c0) by exact Hc0. apply init_lse_follow.
    rewrite (ok_borigin _ _ _ _ Fc), (ok_borigin _ _ _ _ Fv). exact Hd.
  - intros Hd. apply default_origin in Hd.
    rewrite Hb by reflexivity. skip_b Fr. skip_b Fs.
    rewrite (hf a) by exact Ha. apply A1, Hd.
  - intros Hd Hd2. apply default_origin in Hd. apply default_origin in Hd2.
    rewrite Hb by reflexivity. skip_b Fr. skip_b Fs.
    rewrite (hf a) by exact Ha. apply A2; assumption.
  - intros Hd. apply default_origin in Hd.
    rewrite Hb by reflexivity. skip_b Fr. skip_b Fs.
    rewrite (hf a) by exact Ha. apply A3, Hd.
  - intros Hd. apply default_origin in Hd.
    rewrite Hb by reflexivity. skip_b Fr.
    unfold c, initialize_sha. cbv zeta.
    skip_b (init_sha_reset_ok (init_sha3_sha512 (init_sha1_sha256
              (init_sha (init_crc32_intrinsics b))))).
    skip_b (init_sha3_sha512_ok (init_sha1_sha256 (init_sha (init_crc32_intrinsics b)))).
    skip_b (init_sha1_sha256_ok (init_sha (init_crc32_intrinsics b))).
    skip_b (init_sha_ok (init_crc32_intrinsics b)).
    rewrite (hf b) by exact Hfb. apply init_crc32_intrinsics_follow.
    rewrite Ob. exact Hd.
  - intros Hd. apply default_origin in Hd.
    rewrite Hb by reflexivity.
    unfold initialize_rest, initialize_ghash_sve. cbv zeta.
    skip_b (init_unaligned_popcount_ok
              (init_sve_length e (init_sve_tier (init_block_zeroing e (init_ghash_base64 c))))).
    skip_b (init_sve_length_ok e (init_sve_tier (init_block_zeroing e (init_ghash_base64 c)))).
    skip_b (init_sve_tier_ok (init_block_zeroing e (init_ghash_base64 c))).
    skip_b (init_block_zeroing_ok e (init_ghash_base64 c)).
    rewrite (hf c) by exact Hfc. apply init_ghash_base64_follow.
    rewrite Oc. exact Hd.
  - intros Hd. apply default_origin in Hd.
    rewrite Hb by reflexivity.
    unfold initialize_rest, initialize_ghash_sve. cbv zeta.
    skip_b (init_unaligned_popcount_ok
              (init_sve_length e (init_sve_tier (init_block_zeroing e (init_ghash_base64 c))))).
    skip_b (init_sve_length_ok e (init_sve_tier (init_block_zeroing e (init_ghash_base64 c)))).
    skip_b (init_sve_tier_ok (init_block_zeroing e (init_ghash_base64 c))).
    apply init_block_zeroing_follow.
    rewrite (ok_borigin _ _ _ _ (init_ghash_base64_ok c)), Oc. exact Hd.
  - rewrite Hi by reflexivity.
    unfold initialize_rest, initialize_ghash_sve. cbv zeta.
    skip_i (init_unaligned_popcount_ok
              (init_sve_length e (init_sve_tier (init_block_zeroing e (init_ghash_base64 c))))).
    skip_i (init_sve_length_ok e (init_sve_tier (init_block_zeroing e (init_ghash_base64 c)))).
    skip_i (init_sve_tier_ok (init_block_zeroing e (init_ghash_base64 c))).
    destruct (init_block_zeroing_follow e (init_ghash_base64 c)) as [_ Z2]. rewrite Z2.
    rewrite (ok_iorigin _ _ _ _ (init_ghash_base64_ok c)).
    rewrite (ok_iorigin _ _ _ _ Fs), (ok_iorigin _ _ _ _ Fa), (ok_iorigin _ _ _ _ Fl),
      (ok_iorigin _ _ _ _ Fc), (ok_iorigin _ _ _ _ Fv).
    skip_i (init_ghash_base64_ok c). skip_i Fs. skip_i Fa. skip_i Fl. skip_i Fc. skip_i Fv.
    reflexivity.
Qed.

End HardwareDefaults.

(** ** X19: the SHA defaults *)

Section ShaDefaults.

Context {P : Platform}.

Lemma has_feature_lor s a b :
  has_feature (Z.lor a b) s = has_feature a s || has_feature b s.
Proof.
  unfold has_feature, nonzero. rewrite Z.land_lor_distr_r.
  destruct (Z.eqb_spec (Z.land (_features s) a) 0) as [Ea | Ea];
    destruct (Z.eqb_spec (Z.land (_features s) b) 0) as [Eb | Eb]; cbn [negb orb];
    destruct (Z.eqb_spec (Z.lor (Z.land (_features s) a) (Z.land (_features s) b)) 0)
      as [E | E]; try reflexivity; exfalso.
  - apply E. rewrite Ea, Eb. reflexivity.
  - apply Z.lor_eq_0_iff in E. tauto.
  - apply Z.lor_eq_0_iff in E. tauto.
  - apply Z.lor_eq_0_iff in E. tauto.
Qed.

Lemma init_sha_follow s :
  is_default (borigin s UseSHA) = true ->
  bval (init_sha s) UseSHA
  = has_feature (Z.lor (Z.lor (Z.lor CPU_SHA1 CPU_SHA2) CPU_SHA3) CPU_SHA512) s.
Proof. unfold init_sha. block_cases s. Qed.

Lemma init_sha1_sha256_follow s :
  let s' := init_sha1_sha256 s in
  (is_default (borigin s UseSHA1Intrinsics) = true ->
   bval s' UseSHA1Intrinsics = bval s UseSHA && has_feature CPU_SHA1 s)
  /\ (is_default (borigin s UseSHA256Intrinsics) = true ->
      bval s' UseSHA256Intrinsics = bval s UseSHA && has_feature CPU_SHA2 s).
Proof. unfold init_sha1_sha256. block_cases s. Qed.

(** Lines 354-372 never switch an intrinsic on. *)
Lemma init_sha3_sha512_only_off s :
  let s' := init_sha3_sha512 s in
  (bval s' UseSHA3Intrinsics = true -> bval s UseSHA3Intrinsics = true)
  /\ (bval s' UseSHA512Intrinsics = true -> bval s UseSHA512Intrinsics = true).
Proof. unfold init_sha3_sha512. block_cases s. Qed.

(** X19.  The SHA flags of a run that returns.  [UseSHA3Intrinsics] and
    [UseSHA512Intrinsics] are never switched on by the run: one that is on
    at the end was on at the start.  With [UseSHA], [UseSHA1Intrinsics] and
    [UseSHA256Intrinsics] left at their defaults and the other two off,
    [UseSHA1Intrinsics] equals the SHA1 bit, [UseSHA256Intrinsics] the SHA2
    bit, and [UseSHA] is on exactly when one of these two bits is present,
    also on a CPU that has the SHA3 or SHA512 bit. *)
Theorem sha_defaults e s s' :
  initialize e s = Ok s' ->
  (bval s' UseSHA3Intrinsics = true -> bval s UseSHA3Intrinsics = true)
  /\ (bval s' UseSHA512Intrinsics = true -> bval s UseSHA512Intrinsics = true)
  /\ (borigin s UseSHA = DEFAULT -> borigin s UseSHA1Intrinsics = DEFAULT ->
      borigin s UseSHA256Intrinsics = DEFAULT ->
      bval s UseSHA3Intrinsics = false -> bval s UseSHA512Intrinsics = false ->
      bval s' UseSHA1Intrinsics = has_feature CPU_SHA1 s'
      /\ bval s' UseSHA256Intrinsics = has_feature CPU_SHA2 s'
      /\ bval s' UseSHA = has_feature CPU_SHA1 s' || has_feature CPU_SHA2 s').
Proof.
  intros H. destruct (initialize_Ok e s s' H) as [s1 [s2 [H1 [H2 H3]]]].
  pose proof (line_243_ok e s s1 H1) as Fv.
  set (sv := initialize_vendors e s1) in *.
  pose proof (final_features e sv s2 s' H2 H3) as Hf.
  assert (hf : forall y m, _features y = _features sv ->
                           has_feature m s' = has_feature m y).
  { intros y m Hy. apply has_feature_same. congruence. }
  pose proof (fun k => final_after_popcount e _ s2 s' k H2 H3) as Hb.
  assert (Ex : initialize_features e sv
               = initialize_rest e
                   (init_sha_reset (init_sha3_sha512 (init_sha1_sha256
                      (init_sha (init_crc32_intrinsics
                                   (init_aes (initialize_crc_lse sv))))))))
    by reflexivity.
  rewrite Ex in Hb. clear Ex.
  set (b := init_crc32_intrinsics (init_aes (initialize_crc_lse sv))) in *.
  assert (Fb : step_ok ([UseCRC32; UseAdler32Intrinsics; UseVectorizedMismatchIntrinsic;
                         UseLSE]
                          ++ [UseAES; UseAESIntrinsics; UseAESCTRIntrinsics]
                          ++ [UseCRC32Intrinsics; UseCRC32CIntrinsics; UseFMA;
                              UseMD5Intrinsics])
                       ([] ++ [] ++ []) sv b).
  { exact (step_trans _ _ _ _ _ _ _ (initialize_crc_lse_fine sv)
             (step_trans _ _ _ _ _ _ _ (init_aes_ok _) (init_crc32_intrinsics_ok _))). }
  assert (Gb : _features b = _features sv).
  { unfold b.
    rewrite (fk_features _ _ _ (init_crc32_intrinsics_fields _)) by reflexivity.
    rewrite (fk_features _ _ _ (init_aes_fields _)) by reflexivity.
    apply (fk_features _ _ _ (initialize_crc_lse_fields sv)). reflexivity. }
  pose proof (init_sha_ok b) as Fp.
  set (p := init_sha b) in *.
  pose proof (init_sha1_sha256_ok p) as Fq.
  set (q := init_sha1_sha256 p) in *.
  pose proof (init_sha3_sha512_ok q) as Fr.
  set (r := init_sha3_sha512 q) in *.
  pose proof (init_sha_reset_ok r) as Fx.
  pose proof (initialize_rest_ok e (init_sha_reset r)) as Ft.
  assert (Gp : _features p = _features sv).
  { unfold p. rewrite (fk_features _ _ _ (init_sha_fields b)) by reflexivity. exact Gb. }
  assert (Ob : borigin b = borigin s).
  { rewrite (ok_borigin _ _ _ _ Fb). apply (ok_borigin _ _ _ _ Fv). }
  assert (Vb : forall k, writes_b sha_bool_knobs k = false ->
                         writes_b [UseCRC32Intrinsics; UseCRC32CIntrinsics; UseFMA;
                                   UseMD5Intrinsics; UseSHA3Intrinsics;
                                   UseSHA512Intrinsics] k = false \/ True).
  { intros; right; exact I. }
  clear Vb.
  assert (E3 : bval q UseSHA3Intrinsics = bval s UseSHA3Intrinsics).
  { skip_b Fq. skip_b Fp. skip_b Fb. apply (ok_bval _ _ _ _ Fv). reflexivity. }
  assert (E5 : bval q UseSHA512Intrinsics = bval s UseSHA512Intrinsics).
  { skip_b Fq. skip_b Fp. skip_b Fb. apply (ok_bval _ _ _ _ Fv). reflexivity. }
  destruct (init_sha3_sha512_only_off q) as [N3 N5]. fold r in N3, N5.
  rewrite E3 in N3. rewrite E5 in N5.
  split; [ | split ].
  - rewrite Hb by reflexivity. skip_b Ft. skip_b Fx. exact N3.
  - rewrite Hb by reflexivity. skip_b Ft. skip_b Fx. exact N5.
  - intros D0 D1 D2 Z3 Z5.
    apply default_origin in D0. apply default_origin in D1. apply default_origin in D2.
    pose proof (init_sha_follow b) as Vp. fold p in Vp.
    rewrite Ob in Vp. specialize (Vp D0).
    rewrite !has_feature_lor in Vp.
    rewrite !(has_feature_same p b) in Vp by congruence.
    destruct (init_sha1_sha256_follow p) as [V1 V2]. fold q in V1, V2.
    rewrite (ok_borigin _ _ _ _ Fp), Ob in V1, V2.
    specialize (V1 D1). specialize (V2 D2).
    rewrite Vp in V1, V2.
    assert (R3 : bval r UseSHA3Intrinsics = false).
    { apply not_true_is_false. intros A. rewrite (N3 A) in Z3. discriminate Z3. }
    assert (R5 : bval r UseSHA512Intrinsics = false).
    { apply not_true_is_false. intros A. rewrite (N5 A) in Z5. discriminate Z5. }
    pose proof (init_sha_reset_value r) as Vr.
    rewrite R3, R5 in Vr.
    rewrite (ok_bval _ _ _ _ Fr UseSHA eq_refl) in Vr.
    rewrite (ok_bval _ _ _ _ Fq UseSHA eq_refl) in Vr.
    rewrite (ok_bval _ _ _ _ Fr UseSHA1Intrinsics eq_refl) in Vr.
    rewrite (ok_bval _ _ _ _ Fr UseSHA256Intrinsics eq_refl) in Vr.
    rewrite V1, V2, Vp in Vr.
    rewrite !Hb by reflexivity.
    rewrite !(ok_bval _ _ _ _ Ft) by reflexivity.
    rewrite Vr.
    rewrite (ok_bval _ _ _ _ Fx UseSHA1Intrinsics eq_refl).
    rewrite (ok_bval _ _ _ _ Fx UseSHA256Intrinsics eq_refl).
    rewrite (ok_bval _ _ _ _ Fr UseSHA1Intrinsics eq_refl).
    rewrite (ok_bval _ _ _ _ Fr UseSHA256Intrinsics eq_refl).
    rewrite V1, V2.
    rewrite !(hf p) by exact Gp.
    destruct (has_feature CPU_SHA1 p), (has_feature CPU_SHA2 p),
      (has_feature CPU_SHA3 p), (has_feature CPU_SHA512 p); repeat split; reflexivity.
Qed.

End ShaDefaults.

(** ** X20: the vendor table *)

(** A vendor rule, read at the flags it writes: the store is opened and
    the origin of each flag is decided. *)
Ltac vendor_values s := block_cases s.

Section VendorRules.

Context {P : Platform}.

Lemma rule_emag_values e s :
  let s' := rule_emag e s in
  bval s' AvoidUnalignedAccesses
  = (if is_emag e && is_default (borigin s AvoidUnalignedAccesses)
     then true else bval s AvoidUnalignedAccesses)
  /\ bval s' UseSIMDForMemoryOps
     = (if is_emag e && is_default (borigin s UseSIMDForMemoryOps)
        then true else bval s UseSIMDForMemoryOps)
  /\ bval s' UseSIMDForArrayEquals
     = (if is_emag e && is_default (borigin s UseSIMDForArrayEquals)
        then negb ((_revision e =? 1) || (_revision e =? 2))
        else bval s UseSIMDForArrayEquals).
Proof.
  unfold rule_emag, is_emag.
  destruct ((_cpu e =? CPU_AMCC) && (_model e =? CPU_MODEL_EMAG) && (_variant e =? 3));
    cbn [andb]; [ | repeat split; reflexivity ].
  vendor_values s.
Qed.

Lemma rule_ampere_values e s :
  let s' := rule_ampere e s in
  bval s' UseSIMDForMemoryOps
  = (if is_ampere1 e && is_default (borigin s UseSIMDForMemoryOps)
     then true else bval s UseSIMDForMemoryOps)
  /\ bval s' UseSignumIntrinsic
     = (if is_ampere1 e && is_default (borigin s UseSignumIntrinsic)
        then true else bval s UseSignumIntrinsic).
Proof.
  unfold rule_ampere, is_ampere1.
  destruct ((_cpu e =? CPU_AMPERE)
            && ((_model e =? CPU_MODEL_AMPERE_1) || (_model e =? CPU_MODEL_AMPERE_1A)
                || (_model e =? CPU_MODEL_AMPERE_1B)));
    cbn [andb]; [ | repeat split; reflexivity ].
  vendor_values s.
Qed.

Lemma rule_thunderx_values e s s1 :
  rule_thunderx e s = Ok s1 ->
  bval s1 AvoidUnalignedAccesses
  = (if is_thunderx e && is_default (borigin s AvoidUnalignedAccesses)
     then true else bval s AvoidUnalignedAccesses)
  /\ bval s1 UseSIMDForMemoryOps
     = (if is_thunderx e && is_default (borigin s UseSIMDForMemoryOps)
        then 0 <? _variant e else bval s UseSIMDForMemoryOps)
  /\ bval s1 UseSIMDForArrayEquals
     = (if is_thunderx e && is_default (borigin s UseSIMDForArrayEquals)
        then false else bval s UseSIMDForArrayEquals).
Proof.
  unfold rule_thunderx, is_thunderx.
  destruct ((_cpu e =? CPU_CAVIUM) && (_model e =? 0xA1)); cbn [andb].
  - destruct (negb (_variant e =? 0)); [ | discriminate ].
    intros E. injection E as <-. vendor_values s.
  - intros E. injection E as <-. repeat split; reflexivity.
Qed.

Lemma rule_thunderx2_values e s :
  let s' := rule_thunderx2 e s in
  bval s' AvoidUnalignedAccesses
  = (if is_thunderx2 e && is_default (borigin s AvoidUnalignedAccesses)
     then true else bval s AvoidUnalignedAccesses)
  /\ bval s' UseSIMDForMemoryOps
     = (if is_thunderx2 e && is_default (borigin s UseSIMDForMemoryOps)
        then true else bval s UseSIMDForMemoryOps).
Proof.
  unfold rule_thunderx2, is_thunderx2.
  destruct (((_cpu e =? CPU_CAVIUM) && (_model e =? 0xAF))
            || ((_cpu e =? CPU_BROADCOM) && (_model e =? 0x516)));
    cbn [andb]; [ | repeat split; reflexivity ].
  vendor_values s.
Qed.

Lemma rule_tsv110_values e s :
  let s' := rule_tsv110 e s in
  bval s' AvoidUnalignedAccesses
  = (if is_tsv110 e && is_default (borigin s AvoidUnalignedAccesses)
     then true else bval s AvoidUnalignedAccesses)
  /\ bval s' UseSIMDForMemoryOps
     = (if is_tsv110 e && is_default (borigin s UseSIMDForMemoryOps)
        then true else bval s UseSIMDForMemoryOps).
Proof.
  unfold rule_tsv110, is_tsv110.
  destruct ((_cpu e =? CPU_HISILICON) && (_model e =? 0xd01));
    cbn [andb]; [ | repeat split; reflexivity ].
  vendor_values s.
Qed.

Lemma rule_cortex_a53_values e s :
  bval (rule_cortex_a53 e s) UseSIMDForArrayEquals
  = (if is_cortex_a53 e && is_default (borigin s UseSIMDForArrayEquals)
     then false else bval s UseSIMDForArrayEquals).
Proof.
  unfold rule_cortex_a53, is_cortex_a53.
  destruct ((_cpu e =? CPU_ARM) && ((_model e =? 0xd03) || (_model2 e =? 0xd03)));
    cbn [andb]; [ | reflexivity ].
  vendor_values s.
Qed.

Lemma rule_cortex_a73_values e s :
  bval (rule_cortex_a73 e s) UseSimpleArrayEquals
  = (if is_cortex_a73 e && is_default (borigin s UseSimpleArrayEquals)
     then true else bval s UseSimpleArrayEquals).
Proof.
  unfold rule_cortex_a73, is_cortex_a73.
  destruct ((_cpu e =? CPU_ARM) && ((_model e =? 0xd09) || (_model2 e =? 0xd09)));
    cbn [andb]; [ | reflexivity ].
  vendor_values s.
Qed.

Lemma rule_neoverse_values e s :
  bval (rule_neoverse e s) UseSIMDForMemoryOps
  = (if is_neoverse e && is_default (borigin s UseSIMDForMemoryOps)
     then true else bval s UseSIMDForMemoryOps).
Proof.
  unfold rule_neoverse, is_neoverse.
  destruct ((_cpu e =? CPU_ARM)
            && (model_is e 0xd0c || model_is e 0xd49 || model_is e 0xd40
                || model_is e 0xd4f));
    cbn [andb]; [ | reflexivity ].
  vendor_values s.
Qed.

Lemma rule_arm_values e s :
  bval (rule_arm e s) UseSignumIntrinsic
  = (if (_cpu e =? CPU_ARM) && is_default (borigin s UseSignumIntrinsic)
     then true else bval s UseSignumIntrinsic).
Proof.
  unfold rule_arm.
  destruct (_cpu e =? CPU_ARM); cbn [andb].
  - destruct ((_model e =? 0xd07) || (_model2 e =? 0xd07)); vendor_values s.
  - reflexivity.
Qed.

(** Lines 252-518 write none of the vendor flags. *)
Lemma initialize_features_fine e s :
  step_ok ([UseCRC32; UseAdler32Intrinsics; UseVectorizedMismatchIntrinsic; UseLSE]
             ++ [UseAES; UseAESIntrinsics; UseAESCTRIntrinsics]
             ++ sha_bool_knobs ++ late_bool_knobs)
          ([] ++ [] ++ [] ++ late_int_knobs) s (initialize_features e s).
Proof.
  exact (step_trans _ _ _ _ _ _ _ (initialize_crc_lse_fine s)
           (step_trans _ _ _ _ _ _ _ (init_aes_ok _)
              (step_trans _ _ _ _ _ _ _ (initialize_sha_ok _) (initialize_rest_ok e _)))).
Qed.

Lemma final_vendor_flag e sv s2 s' k :
  init_compiler2 e (initialize_features e sv) = Ok s2 ->
  initialize_finish e s2 = Ok s' ->
  In k vendor_bool_knobs -> bval s' k = bval sv k.
Proof.
  intros H2 H3 Hk.
  assert (Ea : writes_b c2_bool_knobs k = false
               /\ writes_b ([UseCRC32; UseAdler32Intrinsics;
                             UseVectorizedMismatchIntrinsic; UseLSE]
                              ++ [UseAES; UseAESIntrinsics; UseAESCTRIntrinsics]
                              ++ sha_bool_knobs ++ late_bool_knobs) k = false).
  { cbn [In vendor_bool_knobs] in Hk.
    repeat (destruct Hk as [<- | Hk]; [ split; reflexivity | ]). destruct Hk. }
  destruct Ea as [Ea Eb].
  rewrite (final_after_popcount e _ s2 s' k H2 H3 Ea).
  apply (ok_bval _ _ _ _ (initialize_features_fine e sv) k Eb).
Qed.

End VendorRules.

Section VendorTable.

Context {P : Platform}.

(** X20.  The vendor table of lines 132-241, read off a run that
    returns.  A vendor flag set by the operator keeps its value.  Left at
    its default, [AvoidUnalignedAccesses] is switched on for eMAG, ThunderX,
    ThunderX2 and TSV110; [UseSIMDForMemoryOps] is on for Neoverse, TSV110,
    ThunderX2, Ampere-1 and eMAG, and on a ThunderX it is [_variant > 0];
    [UseSIMDForArrayEquals] is off for Cortex-A53 and ThunderX, and on an
    eMAG it is off for revisions 1 and 2 only; [UseSignumIntrinsic] is on
    for Ampere-1 and every ARM core; [UseSimpleArrayEquals] is on for
    Cortex-A73.  On any other machine the flag keeps its value. *)
Theorem vendor_tuning_table e s s' :
  initialize e s = Ok s' ->
  bval s' AvoidUnalignedAccesses
  = (if is_default (borigin s AvoidUnalignedAccesses)
        && (is_emag e || is_thunderx e || is_thunderx2 e || is_tsv110 e)
     then true else bval s AvoidUnalignedAccesses)
  /\ bval s' UseSIMDForMemoryOps
     = (if is_default (borigin s UseSIMDForMemoryOps) then
          if is_neoverse e || is_tsv110 e || is_thunderx2 e then true
          else if is_thunderx e then 0 <? _variant e
          else if is_ampere1 e || is_emag e then true
          else bval s UseSIMDForMemoryOps
        else bval s UseSIMDForMemoryOps)
  /\ bval s' UseSIMDForArrayEquals
     = (if is_default (borigin s UseSIMDForArrayEquals) then
          if is_cortex_a53 e || is_thunderx e then false
          else if is_emag e then negb ((_revision e =? 1) || (_revision e =? 2))
          else bval s UseSIMDForArrayEquals
        else bval s UseSIMDForArrayEquals)
  /\ bval s' UseSignumIntrinsic
     = (if is_default (borigin s UseSignumIntrinsic)
           && (is_ampere1 e || (_cpu e =? CPU_ARM))
        then true else bval s UseSignumIntrinsic)
  /\ bval s' UseSimpleArrayEquals
     = (if is_default (borigin s UseSimpleArrayEquals) && is_cortex_a73 e
        then true else bval s UseSimpleArrayEquals).
Proof.
  intros H. destruct (initialize_Ok e s s' H) as [s1 [s2 [H1 [H2 H3]]]].
  rewrite !(final_vendor_flag e _ s2 s' _ H2 H3)
    by (cbn [In vendor_bool_knobs]; repeat (first [ left; reflexivity | right ])).
  clear H2 H3 H s2 s'.
  rewrite initialize_tuning_unfold in H1.
  set (a := init_padding_and_flush e
              (init_prefetch_alignment (init_prefetch_copy_interval
                 (init_prefetch_defaults e (init_probe e s))))) in *.
  assert (Fa : step_ok ([] ++ [] ++ [] ++ [] ++ [])
                 ([] ++ [AllocatePrefetchDistance; AllocatePrefetchStepSize;
                         PrefetchScanIntervalInBytes; PrefetchCopyIntervalInBytes;
                         SoftwarePrefetchHintDistance]
                     ++ [PrefetchCopyIntervalInBytes]
                     ++ [AllocatePrefetchDistance; AllocatePrefetchStepSize;
                         SoftwarePrefetchHintDistance]
                     ++ [ContendedPaddingWidth]) s a).
  { exact (step_trans _ _ _ _ _ _ _ (init_probe_ok e s)
             (step_trans _ _ _ _ _ _ _ (init_prefetch_defaults_ok e _)
                (step_trans _ _ _ _ _ _ _ (init_prefetch_copy_interval_ok _)
                   (step_trans _ _ _ _ _ _ _ (init_prefetch_alignment_ok _)
                      (init_padding_and_flush_ok e _))))). }
  pose proof (rule_emag_ok e a) as F1.
  destruct (rule_emag_values e a) as [A1 [M1 Q1]].
  set (t1 := rule_emag e a) in *.
  pose proof (rule_ampere_ok e t1) as F2.
  destruct (rule_ampere_values e t1) as [M2 G2].
  set (t2 := rule_ampere e t1) in *.
  pose proof (rule_thunderx_ok e t2) as F3. rewrite H1 in F3. cbn [state_of] in F3.
  destruct (rule_thunderx_values e t2 s1 H1) as [A3 [M3 Q3]].
  unfold initialize_vendors. cbv zeta.
  pose proof (rule_thunderx2_ok e s1) as F4.
  destruct (rule_thunderx2_values e s1) as [A4 M4].
  set (u1 := rule_thunderx2 e s1) in *.
  pose proof (rule_tsv110_ok e u1) as F5.
  destruct (rule_tsv110_values e u1) as [A5 M5].
  set (u2 := rule_tsv110 e u1) in *.
  pose proof (rule_cortex_a53_ok e u2) as F6.
  pose proof (rule_cortex_a53_values e u2) as Q6.
  set (u3 := rule_cortex_a53 e u2) in *.
  pose proof (rule_cortex_a73_ok e u3) as F7.
  pose proof (rule_cortex_a73_values e u3) as L7.
  set (u4 := rule_cortex_a73 e u3) in *.
  pose proof (rule_neoverse_ok e u4) as F8.
  pose proof (rule_neoverse_values e u4) as M8.
  set (u5 := rule_neoverse e u4) in *.
  pose proof (rule_arm_ok e u5) as F9.
  pose proof (rule_arm_values e u5) as G9.
  set (sv := rule_arm e u5) in *.
  assert (Oa : borigin a = borigin s) by apply (ok_borigin _ _ _ _ Fa).
  assert (O1 : borigin t1 = borigin s)
    by (rewrite (ok_borigin _ _ _ _ F1); exact Oa).
  assert (O2 : borigin t2 = borigin s)
    by (rewrite (ok_borigin _ _ _ _ F2); exact O1).
  assert (O3 : borigin s1 = borigin s)
    by (rewrite (ok_borigin _ _ _ _ F3); exact O2).
  assert (O4 : borigin u1 = borigin s)
    by (rewrite (ok_borigin _ _ _ _ F4); exact O3).
  assert (O5 : borigin u2 = borigin s)
    by (rewrite (ok_borigin _ _ _ _ F5); exact O4).
  assert (O6 : borigin u3 = borigin s)
    by (rewrite (ok_borigin _ _ _ _ F6); exact O5).
  assert (O7 : borigin u4 = borigin s)
    by (rewrite (ok_borigin _ _ _ _ F7); exact O6).
  assert (O8 : borigin u5 = borigin s)
    by (rewrite (ok_borigin _ _ _ _ F8); exact O7).
  rewrite Oa in A1, M1, Q1. rewrite O1 in M2, G2. rewrite O2 in A3, M3, Q3.
  rewrite O3 in A4, M4. rewrite O4 in A5, M5. rewrite O5 in Q6. rewrite O6 in L7.
  rewrite O7 in M8. rewrite O8 in G9.
  assert (Va : forall k, bval a k = bval s k)
    by (intros k; apply (ok_bval _ _ _ _ Fa); reflexivity).
  rewrite Va in A1, M1, Q1.
  split; [ | split; [ | split; [ | split ] ] ].
  - skip_b F9. skip_b F8. skip_b F7. skip_b F6. rewrite A5, A4, A3.
    skip_b F2. rewrite A1.
    destruct (is_default (borigin s AvoidUnalignedAccesses)), (is_emag e),
      (is_thunderx e), (is_thunderx2 e), (is_tsv110 e); reflexivity.
  - skip_b F9. rewrite M8. skip_b F7. skip_b F6. rewrite M5, M4, M3, M2, M1.
    destruct (is_default (borigin s UseSIMDForMemoryOps)), (is_emag e), (is_ampere1 e),
      (is_thunderx e), (is_thunderx2 e), (is_tsv110 e), (is_neoverse e); reflexivity.
  - skip_b F9. skip_b F8. skip_b F7. rewrite Q6. skip_b F5. skip_b F4. rewrite Q3.
    skip_b F2. rewrite Q1.
    destruct (is_default (borigin s UseSIMDForArrayEquals)), (is_emag e),
      (is_thunderx e), (is_cortex_a53 e); reflexivity.
  - rewrite G9. skip_b F8. skip_b F7. skip_b F6. skip_b F5. skip_b F4. skip_b F3.
    rewrite G2. skip_b F1. rewrite Va.
    destruct (is_default (borigin s UseSignumIntrinsic)), (is_ampere1 e),
      (_cpu e =? CPU_ARM); reflexivity.
  - skip_b F9. skip_b F8. rewrite L7. skip_b F6. skip_b F5. skip_b F4. skip_b F3.
    skip_b F2. skip_b F1. rewrite Va.
    destruct (is_default (borigin s UseSimpleArrayEquals)), (is_cortex_a73 e);
      reflexivity.
Qed.

End VendorTable.

(** ** Sample runs *)

Section Samples.

#[local] Existing Instance linux_c2.

(** X1 on a Neoverse N1 started with [-XX:+UsePopCountInstruction
    -XX:+UseLSE -XX:AllocatePrefetchDistance=64]: nothing is logged and the
    values stay. *)
Lemma operator_flags_change_under_warning_witness :
  let s := on_cmdline UsePopCountInstruction true
             (on_cmdline UseLSE true
                (on_cmdline_i AllocatePrefetchDistance 64 untouched_flags)) in
  let s' := state_of (initialize neoverse_n1 s) in
  warnings s' = warnings s
  /\ bval s' UseLSE = true
  /\ ival s' AllocatePrefetchDistance = 64.
Proof.
  intros s s'.
  destruct (operator_flags_change_under_warning neoverse_n1 s) as [_ [Hq _]].
  assert (Hw : warnings s' = warnings s) by (vm_compute; reflexivity).
  destruct (Hq Hw) as [Hb Hi].
  split; [ exact Hw | split ].
  - apply (Hb UseLSE); [ discriminate | reflexivity ].
  - apply (Hi AllocatePrefetchDistance). reflexivity.
Defined.

(** X2 on a Cortex-A72 without the AES bit, started with [-XX:+UseAES]. *)
Lemma hardware_gated_flags_witness :
  let s := on_cmdline UseAES true untouched_flags in
  let s' := state_of (initialize cortex_a72_plain s) in
  (bval s' UseCRC32 = true -> has_feature CPU_CRC32 s' = true)
  /\ (bval s' UseLSE = true -> has_feature CPU_LSE s' = true)
  /\ (bval s' UseAES = true -> has_feature CPU_AES s' = true)
  /\ (bval s' UseAESIntrinsics = true -> has_feature CPU_AES s' = true)
  /\ (bval s' UseAESCTRIntrinsics = true -> has_feature CPU_AES s' = true)
  /\ (bval s' UseCRC32CIntrinsics = true -> has_feature CPU_CRC32 s' = true)
  /\ (bval s' UseGHASHIntrinsics = true -> has_feature CPU_PMULL s' = true)
  /\ (bval s' UseBlockZeroing = true -> is_zva_enabled cortex_a72_plain = true)
  /\ (0 < ival s' UseSVE -> has_feature CPU_SVE s' = true).
Proof.
  intros s s'. apply (hardware_gated_flags cortex_a72_plain s s').
  vm_compute. reflexivity.
Defined.

(** X3 on a Neoverse N1 with the SHA1 and SHA2 bits. *)
Lemma sha_family_consistent_witness :
  let s' := state_of (initialize neoverse_sha untouched_flags) in
  bval s' UseSHA
  = (bval s' UseSHA1Intrinsics || bval s' UseSHA256Intrinsics
     || bval s' UseSHA3Intrinsics || bval s' UseSHA512Intrinsics)
  /\ (bval s' UseSHA1Intrinsics = true -> has_feature CPU_SHA1 s' = true)
  /\ (bval s' UseSHA256Intrinsics = true -> has_feature CPU_SHA2 s' = true)
  /\ (bval s' UseSHA3Intrinsics = true -> has_feature CPU_SHA3 s' = true)
  /\ (bval s' UseSHA512Intrinsics = true -> has_feature CPU_SHA512 s' = true).
Proof.
  intros s'. apply (sha_family_consistent neoverse_sha untouched_flags s').
  vm_compute. reflexivity.
Defined.

(** X4 on a Neoverse N1 started with
    [-XX:+UseVectorizedMismatchIntrinsic]. *)
Lemma forced_flags_witness :
  let s := on_cmdline UseVectorizedMismatchIntrinsic true untouched_flags in
  let s' := state_of (initialize neoverse_n1 s) in
  bval s' UseVectorizedMismatchIntrinsic = false
  /\ bval s' UsePopCountInstruction = true
  /\ In mismatch_msg (warnings s').
Proof.
  intros s s'.
  destruct (forced_flags neoverse_n1 s s') as [H1 [H2 H3]].
  - vm_compute. reflexivity.
  - split; [ exact H1 | split; [ exact H2 | apply H3; reflexivity ] ].
Defined.

(** X5 on a Neoverse N1 with no flag set. *)
Lemma hardware_independent_defaults_witness :
  let s' := state_of (initialize neoverse_n1 untouched_flags) in
  bval s' UseFMA = true /\ bval s' UseMD5Intrinsics = true
  /\ bval s' UseMulAddIntrinsic = true /\ bval s' OptoScheduling = true
  /\ bval s' AlignVector = bval s' AvoidUnalignedAccesses.
Proof.
  intros s'.
  destruct (hardware_independent_defaults neoverse_n1 untouched_flags s') as [H1 H2].
  - vm_compute. reflexivity.
  - destruct (H2 eq_refl) as [H3 H4].
    split; [ apply (H1 UseFMA); [ cbn; tauto | reflexivity ] | ].
    split; [ apply (H1 UseMD5Intrinsics); [ cbn; tauto | reflexivity ] | ].
    split; [ apply (H3 UseMulAddIntrinsic); [ cbn; tauto | reflexivity ] | ].
    split; [ apply (H3 OptoScheduling); [ cbn; tauto | reflexivity ] | ].
    apply H4. reflexivity.
Defined.

(** X7 on a Neoverse N1 with 64-byte cache lines and no flag set. *)
Lemma prefetch_defaults_follow_cache_line_witness :
  let s' := state_of (initialize neoverse_n1 untouched_flags) in
  ival s' AllocatePrefetchDistance = 192
  /\ ival s' AllocatePrefetchStepSize = 64
  /\ ival s' PrefetchScanIntervalInBytes = 192
  /\ ival s' PrefetchCopyIntervalInBytes = 192
  /\ ival s' SoftwarePrefetchHintDistance = 192.
Proof.
  intros s'.
  destruct (prefetch_defaults_follow_cache_line neoverse_n1 untouched_flags)
    as [H1 [H2 [H3 [H4 H5]]]].
  split; [ exact (proj1 (H1 eq_refl)) | ].
  split; [ exact (H2 eq_refl) | ].
  split; [ exact (H3 eq_refl) | ].
  split; [ exact (H4 eq_refl) | ].
  apply (H5 eq_refl). vm_compute. reflexivity.
Defined.

(** X8 on a Cortex-A53, and on a ThunderX of variant 0. *)
Lemma final_feature_word_witness :
  let s' := state_of (initialize cortex_a53 untouched_flags) in
  _features s' = Z.lor (Z.shiftl 1 7) (Z.shiftl 1 30)
  /\ _features (state_of (initialize (thunderx 0) untouched_flags)) = Z.shiftl 1 7.
Proof.
  intros s'.
  assert (Ha : initialize cortex_a53 untouched_flags = Ok s')
    by (vm_compute; reflexivity).
  assert (Hb : initialize (thunderx 0) untouched_flags
               = Fatal prerelease_msg
                   (state_of (initialize (thunderx 0) untouched_flags)))
    by (vm_compute; reflexivity).
  split.
  - exact (proj1 (final_feature_word cortex_a53 untouched_flags) s' Ha).
  - exact (proj2 (final_feature_word (thunderx 0) untouched_flags) _ Hb).
Defined.

(** X10 on an SVE machine with 32-byte vectors and no flag set. *)
Lemma sve_detected_length_recorded_witness :
  let e := sve_machine 32 (fun n => n) in
  let s' := state_of (initialize e untouched_flags) in
  is_power_of_2 32 = true /\ Z.rem 32 sve_vl_min = 0
  /\ ival s' UseSVE = 1
  /\ _initial_sve_vector_length s' = 32
  /\ ival s' MaxVectorSize = 32.
Proof.
  intros e s'.
  destruct (sve_detected_length_recorded e untouched_flags s')
    as [H1 [H2 [H3 [H4 H5]]]].
  - vm_compute. reflexivity.
  - vm_compute. reflexivity.
  - split; [ exact H1 | ]. split; [ exact H2 | ]. split; [ exact H3 | ].
    split; [ apply H4; right; reflexivity | ].
    rewrite (H5 eq_refl). apply H4. right. reflexivity.
Defined.

(** X11 on an SVE machine that grants 32 bytes for [-XX:MaxVectorSize=64]. *)
Lemma sve_max_vector_size_grant_witness :
  let e := sve_machine 64 (fun _ => 32) in
  let s := on_cmdline_i MaxVectorSize 64 untouched_flags in
  let s' := state_of (initialize e s) in
  _initial_sve_vector_length s' = 32
  /\ ival s' MaxVectorSize = 32
  /\ In (sve_granted_msg 32) (warnings s').
Proof.
  intros e s s'.
  destruct (sve_max_vector_size_grant e s s') as [_ [_ [_ [_ [H1 [H2 H3]]]]]].
  - reflexivity.
  - vm_compute. reflexivity.
  - vm_compute. reflexivity.
  - reflexivity.
  - split; [ exact H1 | split; [ exact H2 | apply H3; discriminate ] ].
Defined.

(** X12 on a Neoverse N1 with no flag set. *)
Lemma spin_wait_outcome_witness :
  let s' := state_of (initialize neoverse_n1 untouched_flags) in
  _spin_wait s' = mkSpinWait ISB 1
  /\ OnSpinWaitInst s' = "isb"
  /\ ival s' OnSpinWaitInstCount = 1.
Proof.
  intros s'.
  destruct (spin_wait_outcome neoverse_n1 untouched_flags s') as [_ [H1 [H2 H3]]].
  - vm_compute. reflexivity.
  - split; [ exact H1 | split; [ exact H2 | exact H3 ] ].
Defined.

(** X13 on a Neoverse N1 started with [-XX:OnSpinWaitInst=wfe]. *)
Lemma fatal_exit_catalogue_witness :
  let s := on_cmdline_OnSpinWaitInst "wfe" untouched_flags in
  let m := spin_wait_options_msg "wfe" in
  (m = prerelease_msg /\ is_prerelease_thunderx neoverse_n1 = true)
  \/ (COMPILER2 = true /\ is_default (iorigin s MaxVectorSize) = false
      /\ m = unsupported_max_vector_size_msg (ival s MaxVectorSize)
      /\ is_power_of_2 (ival s MaxVectorSize) = false)
  \/ (COMPILER2 = true /\ is_default (iorigin s MaxVectorSize) = false
      /\ m = sve_unsupported_length_msg (ival s MaxVectorSize)
      /\ 16 <= ival s MaxVectorSize /\ is_power_of_2 (ival s MaxVectorSize) = true
      /\ set_and_get_current_sve_vector_length neoverse_n1 (ival s MaxVectorSize) < 0)
  \/ (m = spin_wait_options_msg (OnSpinWaitInst s)
      /\ valid_spin_wait_inst (OnSpinWaitInst s) = false)
  \/ (m = spin_wait_count_msg /\ OnSpinWaitInst s = "none"
      /\ is_default (iorigin s OnSpinWaitInstCount) = false
      /\ 0 < ival s OnSpinWaitInstCount).
Proof.
  intros s m.
  apply (fatal_exit_catalogue neoverse_n1 s m (state_of (initialize neoverse_n1 s))).
  vm_compute. reflexivity.
Defined.

(** X14 on a Neoverse N1 started with [-XX:-UseAES]. *)
Lemma defaults_never_abort_witness :
  completes (initialize neoverse_n1 (on_cmdline UseAES false untouched_flags)) = true.
Proof.
  apply (defaults_never_abort neoverse_n1 (on_cmdline UseAES false untouched_flags)).
  - reflexivity.
  - right. reflexivity.
  - reflexivity.
  - reflexivity.
Defined.

(** X16 on a product-name file whose second line names KVM in lower
    case. *)
Lemma check_info_file_finds_witness :
  let e := with_files (Some ["Standard PC"; "kvm guest"]) None in
  let r := check_info_file e pname_file "KVM" KVM (Some "VMWare") VMWare
             untouched_flags in
  fst r = true
  /\ opened (snd r) = [pname_file]
  /\ (_detected_virtualization (snd r) = KVM
      \/ _detected_virtualization (snd r) = VMWare).
Proof.
  intros e r.
  destruct (check_info_file_finds e pname_file "KVM" KVM (Some "VMWare") VMWare
              untouched_flags) as [H1 [H2 [_ H4]]].
  assert (Hf : fst r = true).
  { apply H1. exists ["Standard PC"; "kvm guest"]. split; [ reflexivity | ].
    exists "kvm guest". split; [ right; left; reflexivity | ].
    left. exists "", "kvm", " guest". split; reflexivity. }
  split; [ exact Hf | split; [ exact H2 | exact (H4 Hf) ] ].
Defined.

(** X17 on a machine whose product name says nothing and whose
    hypervisor type is xen. *)
Lemma virtualization_report_witness :
  let e := with_files (Some ["Standard PC"]) (Some ["xen"]) in
  print_platform_virtualization_info (check_virtualizations e untouched_flags) []
  = ["Xen virtualization detected"].
Proof.
  intros e.
  destruct (@virtualization_report linux_c2 e untouched_flags [] eq_refl) as [_ [H _]].
  apply H.
  - intros [lines [line [Ho [Hin Hc]]]].
    injection Ho as <-. destruct Hin as [<- | []].
    destruct Hc as [Hc | Hc]; apply strcasestr_spec in Hc; discriminate Hc.
  - exists ["xen"], "xen". split; [ reflexivity | ].
    split; [ left; reflexivity | ].
    exists "", "xen", "". split; reflexivity.
Defined.

(** X18 on a Neoverse N1 (LSE and AES, no CRC32) with no flag set. *)
Lemma hardware_following_defaults_witness :
  let s' := state_of (initialize neoverse_n1 untouched_flags) in
  bval s' UseCRC32 = false /\ bval s' UseLSE = true /\ bval s' UseAES = true
  /\ bval s' UseAESIntrinsics = true /\ bval s' UseBlockZeroing = true
  /\ ival s' BlockZeroingLowLimit = 256.
Proof.
  intros s'.
  destruct (hardware_following_defaults neoverse_n1 untouched_flags s')
    as [H1 [H2 [H3 [H4 [_ [_ [_ [H8 H9]]]]]]]].
  - vm_compute. reflexivity.
  - split; [ exact (H1 eq_refl) | ]. split; [ exact (H2 eq_refl) | ].
    split; [ exact (H3 eq_refl) | ]. split; [ exact (H4 eq_refl eq_refl) | ].
    split; [ exact (H8 eq_refl) | exact H9 ].
Defined.

(** X19 on a Neoverse N1 with the SHA1 and SHA2 bits and no flag set. *)
Lemma sha_defaults_witness :
  let s' := state_of (initialize neoverse_sha untouched_flags) in
  bval s' UseSHA1Intrinsics = true /\ bval s' UseSHA256Intrinsics = true
  /\ bval s' UseSHA = true
  /\ bval s' UseSHA3Intrinsics = false /\ bval s' UseSHA512Intrinsics = false.
Proof.
  intros s'.
  destruct (sha_defaults neoverse_sha untouched_flags s') as [H1 [H2 H3]].
  - vm_compute. reflexivity.
  - destruct (H3 eq_refl eq_refl eq_refl eq_refl eq_refl) as [V1 [V2 V3]].
    split; [ exact V1 | ]. split; [ exact V2 | ]. split; [ exact V3 | ].
    split; apply not_true_is_false; intros A;
      [ apply H1 in A | apply H2 in A ]; discriminate A.
Defined.

(** X20 on a Neoverse N1 started with [-XX:-UseSignumIntrinsic]. *)
Lemma vendor_tuning_table_witness :
  let s := on_cmdline UseSignumIntrinsic false untouched_flags in
  let s' := state_of (initialize neoverse_n1 s) in
  bval s' AvoidUnalignedAccesses = false
  /\ bval s' UseSIMDForMemoryOps = true
  /\ bval s' UseSIMDForArrayEquals = false
  /\ bval s' UseSignumIntrinsic = false
  /\ bval s' UseSimpleArrayEquals = false.
Proof.
  intros s s'.
  assert (Ha : initialize neoverse_n1 s = Ok s') by (vm_compute; reflexivity).
  exact (vendor_tuning_table neoverse_n1 s s' Ha).
Defined.

End Samples.
